(** * supervise_agents: a shallow embedding and its verified properties

    The development follows [skills/agents-init/scripts/supervise_agents.py].
    Part I embeds the program: Python's string primitives, the pure helpers
    (directive parsing, text normalisation, approval encoding) and then the
    stateful supervisor (protocol client, operator commands, event handling,
    scheduling) in a state-and-exception monad whose state records every
    interaction with the outside world.  Part II proves the properties. *)

From Stdlib Require Import String Ascii List ZArith Lia Bool PeanoNat.
From Stdlib Require Import Numbers.DecimalString.
Import ListNotations.

Local Open Scope list_scope.
Local Open Scope string_scope.

(* ================================================================== *)
(** * Part I: the program *)
(* ================================================================== *)

(** ** Python's [str] primitives

    A character is a code point below 256, carried by [ascii]; the
    classifications follow Python's [str.isspace], [str.isdigit] and
    [str.lower] on that range. *)

Module Py.

Definition nl : string := String "010"%char "".
Definition cr : string := String "013"%char "".
Definition tab : string := String "009"%char "".

Definition isspace (c : ascii) : bool :=
  let n := nat_of_ascii c in
  (((9 <=? n) && (n <=? 13)) || ((28 <=? n) && (n <=? 32))
   || (n =? 133) || (n =? 160))%nat.

(** [str.isdigit] also accepts the superscript digits U+00B2, U+00B3, U+00B9. *)
Definition isdigit_char (c : ascii) : bool :=
  let n := nat_of_ascii c in
  (((48 <=? n) && (n <=? 57)) || (n =? 178) || (n =? 179) || (n =? 185))%nat.

Definition isdecimal_char (c : ascii) : bool :=
  let n := nat_of_ascii c in ((48 <=? n) && (n <=? 57))%nat.

Definition lower_char (c : ascii) : ascii :=
  let n := nat_of_ascii c in
  if (((65 <=? n) && (n <=? 90))
      || ((192 <=? n) && (n <=? 222) && negb (n =? 215)))%nat
  then ascii_of_nat (n + 32) else c.

Fixpoint all_chars (p : ascii -> bool) (s : string) : bool :=
  match s with
  | EmptyString => true
  | String c s' => p c && all_chars p s'
  end.

Fixpoint map_chars (f : ascii -> ascii) (s : string) : string :=
  match s with
  | EmptyString => EmptyString
  | String c s' => String (f c) (map_chars f s')
  end.

(** [s.lower()] *)
Definition lower (s : string) : string := map_chars lower_char s.

(** [bool(s)]: a string is true when it is not empty. *)
Definition nonempty (s : string) : bool :=
  match s with EmptyString => false | String _ _ => true end.

(** [s.isdigit()] *)
Definition isdigit (s : string) : bool := nonempty s && all_chars isdigit_char s.

Fixpoint int_go (acc : Z) (s : string) : Z :=
  match s with
  | EmptyString => acc
  | String c s' => int_go (10 * acc + (Z.of_nat (nat_of_ascii c) - 48)) s'
  end.

(** [int(s)] on a string of digits; [None] is Python's [ValueError] (the
    superscript digits pass [isdigit] and are refused by [int]). *)
Definition int (s : string) : option Z :=
  if nonempty s && all_chars isdecimal_char s then Some (int_go 0 s) else None.

(** [str(n)] for an integer. *)
Definition str_of_Z (n : Z) : string := NilEmpty.string_of_int (Z.to_int n).

Fixpoint lstrip (s : string) : string :=
  match s with
  | EmptyString => EmptyString
  | String c s' => if isspace c then lstrip s' else s
  end.

Fixpoint rstrip (s : string) : string :=
  match s with
  | EmptyString => EmptyString
  | String c s' =>
      match rstrip s' with
      | EmptyString => if isspace c then EmptyString else String c EmptyString
      | r => String c r
      end
  end.

(** [s.strip()] *)
Definition strip (s : string) : string := rstrip (lstrip s).

(** [s.lstrip(chars)] for a one-character set. *)
Fixpoint lstrip_char (x : ascii) (s : string) : string :=
  match s with
  | EmptyString => EmptyString
  | String c s' => if Ascii.eqb c x then lstrip_char x s' else s
  end.

Fixpoint rstrip_char (x : ascii) (s : string) : string :=
  match s with
  | EmptyString => EmptyString
  | String c s' =>
      match rstrip_char x s' with
      | EmptyString => if Ascii.eqb c x then EmptyString else String c EmptyString
      | r => String c r
      end
  end.

(** [s.startswith(p)] *)
Definition startswith (p s : string) : bool := String.prefix p s.

(** [s.endswith(c)] for one character. *)
Fixpoint endswith_char (x : ascii) (s : string) : bool :=
  match s with
  | EmptyString => false
  | String c EmptyString => Ascii.eqb c x
  | String _ s' => endswith_char x s'
  end.

(** [s[n:]] *)
Fixpoint drop (n : nat) (s : string) : string :=
  match n, s with
  | O, _ => s
  | S k, String _ s' => drop k s'
  | S _, EmptyString => EmptyString
  end.

(** [s[:n]] *)
Fixpoint take (n : nat) (s : string) : string :=
  match n, s with
  | S k, String c s' => String c (take k s')
  | _, _ => EmptyString
  end.

(** [sub in s] *)
Fixpoint contains (sub s : string) : bool :=
  String.prefix sub s
  || match s with
     | EmptyString => false
     | String _ s' => contains sub s'
     end.

(** [s.find(sub)], [None] for -1. *)
Fixpoint find (sub s : string) : option nat :=
  if String.prefix sub s then Some O
  else match s with
       | EmptyString => None
       | String _ s' => option_map S (find sub s')
       end.

(** [s.find(sub, start)] *)
Definition find_from (sub s : string) (start : nat) : option nat :=
  option_map (fun k => start + k)%nat (find sub (drop start s)).

(** [s.replace(old, new, 1)] *)
Fixpoint replace1 (old new s : string) : string :=
  if String.prefix old s then new ++ drop (String.length old) s
  else match s with
       | EmptyString => EmptyString
       | String c s' => String c (replace1 old new s')
       end.

(** [s.replace(old, new)] for a one-character [old]. *)
Fixpoint replace_char (old : ascii) (new s : string) : string :=
  match s with
  | EmptyString => EmptyString
  | String c s' =>
      if Ascii.eqb c old then new ++ replace_char old new s'
      else String c (replace_char old new s')
  end.

(** The scan of [s.split(sep)]: [cur] is the token being read.  The fuel
    bounds the number of steps by the length of the text. *)
Fixpoint split_go (fuel : nat) (sep s cur : string) : list string :=
  match fuel with
  | O => [cur ++ s]
  | S fuel' =>
      match s with
      | EmptyString => [cur]
      | String c s' =>
          if String.prefix sep s
          then cur :: split_go fuel' sep (drop (String.length sep) s) ""
          else split_go fuel' sep s' (cur ++ String c "")
      end
  end.

(** [s.split(sep)] for a separator that is not empty. *)
Definition split (sep s : string) : list string :=
  split_go (S (String.length s)) sep s "".

(** The first occurrence of [sep]: the text before it and the text after. *)
Fixpoint partition_at (sep s : string) : option (string * string) :=
  if String.prefix sep s then Some ("", drop (String.length sep) s)
  else match s with
       | EmptyString => None
       | String c s' =>
           match partition_at sep s' with
           | Some (a, b) => Some (String c a, b)
           | None => None
           end
       end.

(** [s.split(sep, 1)] *)
Definition split1 (sep s : string) : list string :=
  match partition_at sep s with
  | Some (a, b) => [a; b]
  | None => [s]
  end.

(** [sep.join(parts)] *)
Definition join (sep : string) (parts : list string) : string :=
  String.concat sep parts.

(** The first whitespace-free word of [s] and what follows it. *)
Fixpoint span_word (s : string) : string * string :=
  match s with
  | EmptyString => ("", "")
  | String c s' =>
      if isspace c then ("", s)
      else let (w, r) := span_word s' in (String c w, r)
  end.

Fixpoint split_ws_go (fuel : nat) (s : string) : list string :=
  match fuel with
  | O => []
  | S fuel' =>
      match lstrip s with
      | EmptyString => []
      | t => let (w, r) := span_word t in w :: split_ws_go fuel' r
      end
  end.

(** [s.split()] *)
Definition split_ws (s : string) : list string :=
  split_ws_go (S (String.length s)) s.

(** [s.split(maxsplit=1)] *)
Definition split_ws1 (s : string) : list string :=
  match lstrip s with
  | EmptyString => []
  | t => let (w, r) := span_word t in
         match lstrip r with
         | EmptyString => [w]
         | r' => [w; r']
         end
  end.

(** [x in (a, b, ...)] for strings. *)
Definition in_strs (x : string) (l : list string) : bool :=
  existsb (String.eqb x) l.

(** [a or b] on optional strings: [a] when it is neither [None] nor empty. *)
Definition or_str (a b : option string) : option string :=
  match a with
  | Some (String _ _) => a
  | _ => b
  end.

(** [bool(x)] for an optional string. *)
Definition truthy_str (a : option string) : bool :=
  match a with
  | Some (String _ _) => true
  | _ => false
  end.

(** [x or ""] *)
Definition or_empty (a : option string) : string :=
  match a with Some s => s | None => "" end.

(** [str(x)] as an f-string renders an optional string. *)
Definition fmt_opt (a : option string) : string :=
  match a with Some s => s | None => "None" end.

End Py.

(** ** JSON values

    Payloads the supervisor writes to the server, and the policy amendment a
    request carries, are JSON values; Python's [None] is [JNull]. *)

#[local] Set Warnings "-register-all".

Inductive json : Type :=
| JNull
| JBool (b : bool)
| JNum (n : Z)
| JStr (s : string)
| JList (l : list json)
| JDict (kv : list (string * json)).

(** [bool(v)] *)
Definition truthy (v : json) : bool :=
  match v with
  | JNull => false
  | JBool b => b
  | JNum n => negb (Z.eqb n 0)
  | JStr s => Py.nonempty s
  | JList l => match l with [] => false | _ => true end
  | JDict kv => match kv with [] => false | _ => true end
  end.

(** [a or b] *)
Definition json_or (a b : json) : json := if truthy a then a else b.

Fixpoint json_eqb (a b : json) : bool :=
  match a, b with
  | JNull, JNull => true
  | JBool x, JBool y => Bool.eqb x y
  | JNum x, JNum y => Z.eqb x y
  | JStr x, JStr y => String.eqb x y
  | JList x, JList y =>
      (fix go (l1 l2 : list json) : bool :=
         match l1, l2 with
         | [], [] => true
         | h1 :: t1, h2 :: t2 => json_eqb h1 h2 && go t1 t2
         | _, _ => false
         end) x y
  | JDict x, JDict y =>
      (fix go (l1 l2 : list (string * json)) : bool :=
         match l1, l2 with
         | [], [] => true
         | (k1, v1) :: t1, (k2, v2) :: t2 =>
             String.eqb k1 k2 && json_eqb v1 v2 && go t1 t2
         | _, _ => false
         end) x y
  | _, _ => false
  end.

(** ** Directive parsing: [extract_directives] *)

(** [[d.strip() for d in directive.split(",") if d.strip()]] *)
Definition dep_tokens (directive : string) : list string :=
  filter Py.nonempty (map Py.strip (Py.split "," directive)).

(** [token.replace(prefix, "", 1).strip()] *)
Definition directive_payload (prefix token : string) : string :=
  Py.strip (Py.replace1 prefix "" token).

(** The [while i < len(parts)] loop over [parts[i:]].  The result is
    [body_parts] as the loop leaves it, with the wait gate and the
    dependency list accumulated so far. *)
Fixpoint directive_loop (parts : list string)
    (wait : option (string * string)) (deps : list string)
  : list string * option (string * string) * list string :=
  match parts with
  | [] => ([], wait, deps)
  | part :: rest =>
      let token := Py.strip part in
      let after_status :=
        if Py.startswith "WAIT_FOR_AGENT_DONE:" token then
          directive_loop rest wait
            (deps ++ dep_tokens (directive_payload "WAIT_FOR_AGENT_DONE:" token))%list
        else if Py.startswith "WAIT_FOR_AGENT:" token then
          directive_loop rest wait
            (deps ++ dep_tokens (directive_payload "WAIT_FOR_AGENT:" token))%list
        else if Py.startswith "WAIT_FOR_AGENTS:" token then
          directive_loop rest wait
            (deps ++ dep_tokens (directive_payload "WAIT_FOR_AGENTS:" token))%list
        else (parts, wait, deps) in
      if Py.startswith "WAIT_FOR_STATUS:" token then
        let directive := directive_payload "WAIT_FOR_STATUS:" token in
        if Py.contains "|" directive then
          match Py.split1 "|" directive with
          | [path; status] =>
              directive_loop rest (Some (Py.strip path, Py.strip status)) deps
          | _ => after_status
          end
        else after_status
      else after_status
  end.

Definition extract_directives (prompt : string)
  : string * option (string * string) * list string :=
  let parts := Py.split "||" prompt in
  let '(body_parts, wait, deps) := directive_loop parts None [] in
  let body := Py.strip (Py.join "||" body_parts) in
  (body, wait, deps).

(** ** Text normalisation: [normalize_summary_text] *)

Definition is_blank (c : ascii) : bool :=
  Ascii.eqb c " "%char || Ascii.eqb c "009"%char.

(** The inner [while j < length and text[j] in (" ", "\t")]: what is left
    of the text from index [j] on. *)
Fixpoint skip_blanks (s : string) : string :=
  match s with
  | EmptyString => EmptyString
  | String c s' => if is_blank c then skip_blanks s' else s
  end.

Definition is_list_marker (c : ascii) : bool :=
  Ascii.eqb c "-"%char || Ascii.eqb c "*"%char
  || Ascii.eqb c "+"%char || Ascii.eqb c "#"%char.

(** The test made on [text[j:]] after a single line break: whether the
    break is kept. *)
Definition keeps_break (after : string) : bool :=
  match after with
  | EmptyString => false
  | String next_char rest =>
      if is_list_marker next_char then true
      else if Py.isdigit_char next_char then
        match rest with
        | String c _ => Ascii.eqb c "."%char
        | EmptyString => false
        end
      else false
  end.

(** The main loop, on [text[i:]]. *)
Fixpoint normalize_summary_text (text : string) : string :=
  match text with
  | EmptyString => EmptyString
  | String ch rest =>
      if Ascii.eqb ch "013"%char then normalize_summary_text rest
      else if Ascii.eqb ch "010"%char then
        match rest with
        | EmptyString => String " "%char (normalize_summary_text rest)
        | String c2 rest' =>
            if Ascii.eqb c2 "010"%char
            then String "010"%char (normalize_summary_text rest')
            else if keeps_break (skip_blanks rest)
                 then String "010"%char (normalize_summary_text rest)
                 else String " "%char (normalize_summary_text rest)
        end
      else String ch (normalize_summary_text rest)
  end.

Definition normalize_agent_text (text : string) : string :=
  normalize_summary_text text.

(** ** Approval decisions: [get_decision_payload] *)

Definition decision (v : json) : json := JDict [("decision", v)].

Definition get_decision_payload (method choice : string) (amendment : json)
  : option json :=
  let is_legacy := Py.in_strs method ["applyPatchApproval"; "execCommandApproval"] in
  if String.eqb choice "a" then
    Some (if is_legacy then decision (JStr "approved") else decision (JStr "accept"))
  else if String.eqb choice "s" then
    Some (if is_legacy then decision (JStr "approved_for_session")
          else decision (JStr "acceptForSession"))
  else if String.eqb choice "p" && truthy amendment then
    if is_legacy then
      Some (decision (JDict [("approved_execpolicy_amendment",
                              JDict [("proposed_execpolicy_amendment", amendment)])]))
    else
      Some (decision (JDict [("acceptWithExecpolicyAmendment",
                              JDict [("execpolicyAmendment", amendment)])]))
  else if String.eqb choice "d" then
    Some (if is_legacy then decision (JStr "denied") else decision (JStr "decline"))
  else if String.eqb choice "c" then
    Some (if is_legacy then decision (JStr "abort") else decision (JStr "cancel"))
  else None.

(** ** Names and file names *)

(** [parse_agent_name]: the text between ["(name:"] and the next [")"]. *)
Definition parse_agent_name (prompt : string) : option string :=
  let marker := "(name:" in
  if negb (Py.contains marker prompt) then None
  else match Py.find marker prompt with
       | None => None
       | Some start =>
           match Py.find_from ")" prompt start with
           | None => None
           | Some end_ =>
               let from := (start + String.length marker)%nat in
               let name := Py.strip (Py.take (end_ - from) (Py.drop from prompt)) in
               if Py.nonempty name then Some name else None
           end
       end.

Definition is_filename_char (c : ascii) : bool :=
  let n := nat_of_ascii c in
  (((65 <=? n) && (n <=? 90)) || ((97 <=? n) && (n <=? 122))
   || ((48 <=? n) && (n <=? 57)) || (n =? 46) || (n =? 95) || (n =? 45))%nat.

(** [re.sub(r"[^A-Za-z0-9._-]+", "_", value)]: [in_run] tells that the
    previous character was already replaced. *)
Fixpoint sanitize_go (in_run : bool) (s : string) : string :=
  match s with
  | EmptyString => EmptyString
  | String c s' =>
      if is_filename_char c then String c (sanitize_go false s')
      else if in_run then sanitize_go true s'
      else String "_"%char (sanitize_go true s')
  end.

Definition sanitize_filename_component (value : string) : string :=
  Py.rstrip_char "_"%char (Py.lstrip_char "_"%char (sanitize_go false value)).

(** [SKILL_MARKER_RE.search(prompt)]: the first [$] followed by at least
    one character of [[A-Za-z0-9_-]], with the longest such run. *)
Definition is_skill_char (c : ascii) : bool :=
  let n := nat_of_ascii c in
  (((65 <=? n) && (n <=? 90)) || ((97 <=? n) && (n <=? 122))
   || ((48 <=? n) && (n <=? 57)) || (n =? 95) || (n =? 45))%nat.

Fixpoint span_chars (p : ascii -> bool) (s : string) : string :=
  match s with
  | EmptyString => EmptyString
  | String c s' => if p c then String c (span_chars p s') else EmptyString
  end.

Fixpoint skill_marker_search (s : string) : option string :=
  match s with
  | EmptyString => None
  | String c s' =>
      if Ascii.eqb c "$"%char then
        match span_chars is_skill_char s' with
        | EmptyString => skill_marker_search s'
        | name => Some name
        end
      else skill_marker_search s'
  end.

(** ** Wire data

    Messages read from the server are decoded JSON objects; the model gives
    them the fields the supervisor reads, each optional as [dict.get] sees
    it ([None]: the key is absent or null).  Two keys are read with a
    default, [params.get("turn", {})] and [item.get("text", "")], which
    tells an absent key from a null: these are a [field]. *)

(** A key read with [dict.get(key, default)]: the default is returned
    where the key is absent, and a null is returned as it is. *)
Inductive field (A : Type) : Type :=
| Absent
| Null
| Value (a : A).

Arguments Absent {A}.
Arguments Null {A}.
Arguments Value {A} a.

(** [dict.get(key)] *)
Definition field_get {A : Type} (f : field A) : option A :=
  match f with
  | Value a => Some a
  | Absent | Null => None
  end.

Record Change : Type := { change_path : option string }.

(** The payload of an [item/started] or [item/completed] event. *)
Record Item : Type := {
  item_id : option string;
  item_type : option string;
  item_command : option string;
  item_changes : list Change;
  item_toolName : option string;
  item_review : option string;
  item_text : field string
}.

Definition empty_item : Item :=
  {| item_id := None; item_type := None; item_command := None;
     item_changes := []; item_toolName := None; item_review := None;
     item_text := Absent |}.

Record Turn : Type := { turn_status : option string }.

(** [params] of an event. *)
Record Params : Type := {
  p_threadId : option string;
  p_thread_id : option string;
  p_item : option Item;
  p_delta : option string;
  p_message : option string;
  p_turn : field Turn
}.

Definition empty_params : Params :=
  {| p_threadId := None; p_thread_id := None; p_item := None; p_delta := None;
     p_message := None; p_turn := Absent |}.

(** [params] of a server-initiated approval request. *)
Record ReqParams : Type := {
  rp_threadId : option string;
  rp_thread_id : option string;
  rp_itemId : option string;
  rp_item_id : option string;
  rp_reason : option string;
  rp_proposedExecpolicyAmendment : json;
  rp_proposed_execpolicy_amendment : json
}.

Definition empty_req_params : ReqParams :=
  {| rp_threadId := None; rp_thread_id := None; rp_itemId := None;
     rp_item_id := None; rp_reason := None;
     rp_proposedExecpolicyAmendment := JNull;
     rp_proposed_execpolicy_amendment := JNull |}.

Record Event : Type := {
  ev_method : option string;
  ev_params : option Params
}.

(** A server-initiated request: it has an [id] and a [method]. *)
Record Request : Type := {
  rq_id : json;
  rq_method : string;
  rq_params : option ReqParams
}.

(** The [thread] of the response to [thread/start].  The program reads
    [resp["result"]["thread"]["id"]] by indexing: there [None] is a key
    that is absent.  The thread ids of the model are strings: a response
    that holds a null in the place of [result], of [thread] or of the id
    is not among the responses of [Env.reply]. *)
Record ThreadRef : Type := { th_id : option string }.

(** [result] of a response. *)
Record Result : Type := {
  res_thread : option ThreadRef;
  res_reviewThreadId : option string;
  res_review_thread_id : option string;
  res_data : list json;
  res_nextCursor : option string;
  res_next_cursor : option string
}.

Definition empty_result : Result :=
  {| res_thread := None; res_reviewThreadId := None;
     res_review_thread_id := None; res_data := [];
     res_nextCursor := None; res_next_cursor := None |}.

Record Response : Type := {
  resp_result : option Result;
  resp_error : json
}.

(** [thread_id_from_params] *)
Definition thread_id_from_params (params : Params) : option string :=
  Py.or_str (p_threadId params) (p_thread_id params).

(** [x == s] for an optional string [x]. *)
Definition opt_is (x : option string) (s : string) : bool :=
  match x with Some y => String.eqb y s | None => false end.

(** [summarize_item] *)
Definition summarize_item (item : Item) : string :=
  let type_ := item_type item in
  if opt_is type_ "commandExecution" then
    "command: " ++ Py.or_empty (item_command item)
  else if opt_is type_ "fileChange" then
    let paths :=
      flat_map (fun change =>
                  if Py.truthy_str (change_path change)
                  then [Py.or_empty (change_path change)] else [])
               (item_changes item) in
    match paths with
    | [] => "file change"
    | _ =>
        let sample := Py.join ", " (firstn 3 paths) in
        let suffix := if (List.length paths <=? 3)%nat then "" else "..." in
        "file change: " ++ sample ++ suffix
    end
  else if opt_is type_ "agentMessage" then "agent message"
  else if opt_is type_ "reasoning" then "reasoning"
  else if opt_is type_ "toolCall" then
    "tool: " ++ (if Py.truthy_str (item_toolName item)
                 then Py.or_empty (item_toolName item) else "tool")
  else "item: " ++ Py.fmt_opt type_.

(** ** The supervisor's data *)

(** A queued spec: [{"index", "prompt", "wait", "deps"}]. *)
Record Spec : Type := {
  sp_index : Z;
  sp_prompt : string;
  sp_wait : option (string * string);
  sp_deps : list string
}.

(** An agent record, as [start_agent] builds it. *)
Record Agent : Type := {
  ag_index : Z;
  ag_name : option string;
  ag_prompt : string;
  ag_cwd : option string;
  ag_thread_id : string;
  ag_last_message : option string;
  ag_last_delta : option string;
  ag_last_agent_message : option string;
  ag_done : bool;
  ag_recent : list string;
  ag_recent_commands : list string;
  ag_recent_stream : list string;
  ag_history : list string;
  ag_agent_buffer : string;
  ag_summary_buffer : string;
  ag_log_path : string;
  ag_items : list (string * Item);
  ag_queued_prompts : list string;
  ag_review_thread : option string
}.

(** A pending approval: [{"req_id", "method", "params", "thread_id",
    "amendment"}]. *)
Record Entry : Type := {
  en_req_id : json;
  en_method : string;
  en_params : ReqParams;
  en_thread_id : string;
  en_amendment : json
}.

(** The command line: [args]. *)
Record Args : Type := {
  args_cwd : option string;
  args_agent : list string;
  args_review : bool;
  args_review_template : string;
  args_timeout : Z;
  args_max_parallel : option Z
}.

(** ** The outside world

    Every interaction with the world is an [Effect], appended to the
    state's trace in the order it happens.  [Viewed] is what the
    full-screen front end is set to show: the history of the agent of a
    thread ([view_mode = "inspect"], [inspect_agent_id] the thread,
    [inspect_offset = 0]), or the main view ([view_mode = "main"],
    [inspect_agent_id = None]). *)

Inductive Effect : Type :=
| Sent (line : json)
| Printed (text : string)
| Logged (path text : string)
| WroteReview (review_id path content : string)
| ReadClock (now : Z)
| ReadFile (path : string) (first_line : option string)
| Slept (seconds : Z)
| Viewed (inspect : option string).

(** What the world answers.  [reply id] is the response to the request
    numbered [id] ([None]: none arrives before the request times out);
    [clock n] and [readline n path] are the time and the first line of
    [path] ([None]: no such file) seen when [n] effects have happened. *)
Record Env : Type := {
  reply : Z -> option Response;
  clock : nat -> Z;
  readline : nat -> string -> option string;
  path_exists : string -> bool;
  expanduser : string -> string;
  strftime : string -> Z -> string;
  shlex_split : string -> string + list string;
  str_format : string -> string -> string -> option string;
  py_str : json -> string
}.

(** The objects the control loop owns, with the protocol client's request
    counter and the trace. *)
Record State : Type := {
  agents : list (string * Agent);
  pending_prompts : list Spec;
  pending_reviews : list (string * Z);
  approval_queue : list Entry;
  approvals_by_thread : list (string * list Entry);
  recent_logs : list string;
  review_labels : list (string * option string);
  review_written : list string;
  next_id : Z;
  trace : list Effect
}.

(** ** Dictionaries, sets and bounded deques

    A [dict] keeps insertion order: assigning to a key that exists keeps
    its place. *)

Section Dict.
Context {V : Type}.

Fixpoint dict_get (k : string) (d : list (string * V)) : option V :=
  match d with
  | [] => None
  | (k', v) :: d' => if String.eqb k k' then Some v else dict_get k d'
  end.

Definition dict_mem (k : string) (d : list (string * V)) : bool :=
  match dict_get k d with Some _ => true | None => false end.

Fixpoint dict_set (k : string) (v : V) (d : list (string * V))
  : list (string * V) :=
  match d with
  | [] => [(k, v)]
  | (k', v') :: d' =>
      if String.eqb k k' then (k, v) :: d' else (k', v') :: dict_set k v d'
  end.

Fixpoint dict_remove (k : string) (d : list (string * V)) : list (string * V) :=
  match d with
  | [] => []
  | (k', v') :: d' =>
      if String.eqb k k' then d' else (k', v') :: dict_remove k d'
  end.

Definition dict_values (d : list (string * V)) : list V := map snd d.

End Dict.

(** [set.add] *)
Definition set_add (x : string) (s : list string) : list string :=
  if Py.in_strs x s then s else (s ++ [x])%list.

(** [deque(maxlen=n).append(x)] *)
Definition append_bounded {A : Type} (n : nat) (x : A) (l : list A) : list A :=
  let l' := (l ++ [x])%list in skipn (List.length l' - n) l'.

Definition opt_str_eqb (a b : option string) : bool :=
  match a, b with
  | Some x, Some y => String.eqb x y
  | None, None => true
  | _, _ => false
  end.

Definition req_params_eqb (a b : ReqParams) : bool :=
  opt_str_eqb (rp_threadId a) (rp_threadId b)
  && opt_str_eqb (rp_thread_id a) (rp_thread_id b)
  && opt_str_eqb (rp_itemId a) (rp_itemId b)
  && opt_str_eqb (rp_item_id a) (rp_item_id b)
  && opt_str_eqb (rp_reason a) (rp_reason b)
  && json_eqb (rp_proposedExecpolicyAmendment a) (rp_proposedExecpolicyAmendment b)
  && json_eqb (rp_proposed_execpolicy_amendment a) (rp_proposed_execpolicy_amendment b).

(** [a == b] for two approval entries. *)
Definition entry_eqb (a b : Entry) : bool :=
  json_eqb (en_req_id a) (en_req_id b)
  && String.eqb (en_method a) (en_method b)
  && req_params_eqb (en_params a) (en_params b)
  && String.eqb (en_thread_id a) (en_thread_id b)
  && json_eqb (en_amendment a) (en_amendment b).

(** [entry in queue] *)
Definition entry_in (e : Entry) (q : list Entry) : bool := existsb (entry_eqb e) q.

(** [queue.remove(entry)]: the first equal element goes. *)
Fixpoint entry_remove (e : Entry) (q : list Entry) : list Entry :=
  match q with
  | [] => []
  | x :: q' => if entry_eqb x e then q' else x :: entry_remove e q'
  end.

(** ** The monad: state, exceptions, and loops that may not end *)

Inductive exn : Type :=
| TimeoutError (msg : string)
| KeyError (msg : string)
| ValueError (msg : string)
| AttributeError (msg : string)
| SystemExit (code : Z).

(** [except Exception] does not catch [SystemExit]. *)
Definition is_exception (e : exn) : bool :=
  match e with SystemExit _ => false | _ => true end.

(** [str(err)] *)
Definition exn_message (e : exn) : string :=
  match e with
  | TimeoutError m => m
  | KeyError m => m
  | ValueError m => m
  | AttributeError m => m
  | SystemExit c => Py.str_of_Z c
  end.

Inductive outcome (A : Type) : Type :=
| Ok (a : A)
| Raise (e : exn)
| OutOfFuel.

Arguments Ok {A} a.
Arguments Raise {A} e.
Arguments OutOfFuel {A}.

Definition M (A : Type) : Type := State -> outcome A * State.

Definition ret {A : Type} (a : A) : M A := fun s => (Ok a, s).

Definition bind {A B : Type} (m : M A) (k : A -> M B) : M B :=
  fun s =>
    match m s with
    | (Ok a, s') => k a s'
    | (Raise e, s') => (Raise e, s')
    | (OutOfFuel, s') => (OutOfFuel, s')
    end.

Definition raise {A : Type} (e : exn) : M A := fun s => (Raise e, s).

Definition out_of_fuel {A : Type} : M A := fun s => (OutOfFuel, s).

Definition get : M State := fun s => (Ok s, s).

Definition modify (f : State -> State) : M unit := fun s => (Ok tt, f s).

(** [try: m except Exception as err: handler(err)] *)
Definition try_except {A : Type} (m : M A) (handler : exn -> M A) : M A :=
  fun s =>
    match m s with
    | (Raise e, s') => if is_exception e then handler e s' else (Raise e, s')
    | r => r
    end.

(** A pure computation that may raise. *)
Definition lift {A : Type} (r : exn + A) : M A :=
  match r with
  | inl e => raise e
  | inr a => ret a
  end.

Declare Scope monad_scope.
Delimit Scope monad_scope with monad.
Notation "x <- m ;; k" := (bind m (fun x => k))
  (at level 61, m at next level, right associativity) : monad_scope.
Notation "m ;; k" := (bind m (fun _ => k))
  (at level 61, right associativity) : monad_scope.
Local Open Scope monad_scope.

Definition when (b : bool) (m : M unit) : M unit := if b then m else ret tt.

Fixpoint for_each {A : Type} (l : list A) (body : A -> M unit) : M unit :=
  match l with
  | [] => ret tt
  | x :: l' => body x ;; for_each l' body
  end.

(** *** State updates *)

Definition set_agents (v : list (string * Agent)) (s : State) : State :=
  {| agents := v; pending_prompts := pending_prompts s;
     pending_reviews := pending_reviews s; approval_queue := approval_queue s;
     approvals_by_thread := approvals_by_thread s; recent_logs := recent_logs s;
     review_labels := review_labels s; review_written := review_written s;
     next_id := next_id s; trace := trace s |}.

Definition set_pending_prompts (v : list Spec) (s : State) : State :=
  {| agents := agents s; pending_prompts := v;
     pending_reviews := pending_reviews s; approval_queue := approval_queue s;
     approvals_by_thread := approvals_by_thread s; recent_logs := recent_logs s;
     review_labels := review_labels s; review_written := review_written s;
     next_id := next_id s; trace := trace s |}.

Definition set_pending_reviews (v : list (string * Z)) (s : State) : State :=
  {| agents := agents s; pending_prompts := pending_prompts s;
     pending_reviews := v; approval_queue := approval_queue s;
     approvals_by_thread := approvals_by_thread s; recent_logs := recent_logs s;
     review_labels := review_labels s; review_written := review_written s;
     next_id := next_id s; trace := trace s |}.

Definition set_approval_queue (v : list Entry) (s : State) : State :=
  {| agents := agents s; pending_prompts := pending_prompts s;
     pending_reviews := pending_reviews s; approval_queue := v;
     approvals_by_thread := approvals_by_thread s; recent_logs := recent_logs s;
     review_labels := review_labels s; review_written := review_written s;
     next_id := next_id s; trace := trace s |}.

Definition set_approvals_by_thread (v : list (string * list Entry)) (s : State)
  : State :=
  {| agents := agents s; pending_prompts := pending_prompts s;
     pending_reviews := pending_reviews s; approval_queue := approval_queue s;
     approvals_by_thread := v; recent_logs := recent_logs s;
     review_labels := review_labels s; review_written := review_written s;
     next_id := next_id s; trace := trace s |}.

Definition set_recent_logs (v : list string) (s : State) : State :=
  {| agents := agents s; pending_prompts := pending_prompts s;
     pending_reviews := pending_reviews s; approval_queue := approval_queue s;
     approvals_by_thread := approvals_by_thread s; recent_logs := v;
     review_labels := review_labels s; review_written := review_written s;
     next_id := next_id s; trace := trace s |}.

Definition set_review_labels (v : list (string * option string)) (s : State)
  : State :=
  {| agents := agents s; pending_prompts := pending_prompts s;
     pending_reviews := pending_reviews s; approval_queue := approval_queue s;
     approvals_by_thread := approvals_by_thread s; recent_logs := recent_logs s;
     review_labels := v; review_written := review_written s;
     next_id := next_id s; trace := trace s |}.

Definition set_review_written (v : list string) (s : State) : State :=
  {| agents := agents s; pending_prompts := pending_prompts s;
     pending_reviews := pending_reviews s; approval_queue := approval_queue s;
     approvals_by_thread := approvals_by_thread s; recent_logs := recent_logs s;
     review_labels := review_labels s; review_written := v;
     next_id := next_id s; trace := trace s |}.

Definition set_next_id (v : Z) (s : State) : State :=
  {| agents := agents s; pending_prompts := pending_prompts s;
     pending_reviews := pending_reviews s; approval_queue := approval_queue s;
     approvals_by_thread := approvals_by_thread s; recent_logs := recent_logs s;
     review_labels := review_labels s; review_written := review_written s;
     next_id := v; trace := trace s |}.

Definition set_trace (v : list Effect) (s : State) : State :=
  {| agents := agents s; pending_prompts := pending_prompts s;
     pending_reviews := pending_reviews s; approval_queue := approval_queue s;
     approvals_by_thread := approvals_by_thread s; recent_logs := recent_logs s;
     review_labels := review_labels s; review_written := review_written s;
     next_id := next_id s; trace := v |}.

(** Performs an effect. *)
Definition emit (e : Effect) : M unit :=
  modify (fun s => set_trace (trace s ++ [e])%list s).

(** [agent[key] = v], one function per key the program assigns. *)

Definition set_ag_last_message (v : option string) (a : Agent) : Agent :=
  {| ag_index := ag_index a; ag_name := ag_name a; ag_prompt := ag_prompt a;
     ag_cwd := ag_cwd a; ag_thread_id := ag_thread_id a;
     ag_last_message := v; ag_last_delta := ag_last_delta a;
     ag_last_agent_message := ag_last_agent_message a; ag_done := ag_done a;
     ag_recent := ag_recent a; ag_recent_commands := ag_recent_commands a;
     ag_recent_stream := ag_recent_stream a; ag_history := ag_history a;
     ag_agent_buffer := ag_agent_buffer a;
     ag_summary_buffer := ag_summary_buffer a; ag_log_path := ag_log_path a;
     ag_items := ag_items a; ag_queued_prompts := ag_queued_prompts a;
     ag_review_thread := ag_review_thread a |}.

Definition set_ag_last_delta (v : option string) (a : Agent) : Agent :=
  {| ag_index := ag_index a; ag_name := ag_name a; ag_prompt := ag_prompt a;
     ag_cwd := ag_cwd a; ag_thread_id := ag_thread_id a;
     ag_last_message := ag_last_message a; ag_last_delta := v;
     ag_last_agent_message := ag_last_agent_message a; ag_done := ag_done a;
     ag_recent := ag_recent a; ag_recent_commands := ag_recent_commands a;
     ag_recent_stream := ag_recent_stream a; ag_history := ag_history a;
     ag_agent_buffer := ag_agent_buffer a;
     ag_summary_buffer := ag_summary_buffer a; ag_log_path := ag_log_path a;
     ag_items := ag_items a; ag_queued_prompts := ag_queued_prompts a;
     ag_review_thread := ag_review_thread a |}.

Definition set_ag_last_agent_message (v : option string) (a : Agent) : Agent :=
  {| ag_index := ag_index a; ag_name := ag_name a; ag_prompt := ag_prompt a;
     ag_cwd := ag_cwd a; ag_thread_id := ag_thread_id a;
     ag_last_message := ag_last_message a; ag_last_delta := ag_last_delta a;
     ag_last_agent_message := v; ag_done := ag_done a;
     ag_recent := ag_recent a; ag_recent_commands := ag_recent_commands a;
     ag_recent_stream := ag_recent_stream a; ag_history := ag_history a;
     ag_agent_buffer := ag_agent_buffer a;
     ag_summary_buffer := ag_summary_buffer a; ag_log_path := ag_log_path a;
     ag_items := ag_items a; ag_queued_prompts := ag_queued_prompts a;
     ag_review_thread := ag_review_thread a |}.

Definition set_ag_done (v : bool) (a : Agent) : Agent :=
  {| ag_index := ag_index a; ag_name := ag_name a; ag_prompt := ag_prompt a;
     ag_cwd := ag_cwd a; ag_thread_id := ag_thread_id a;
     ag_last_message := ag_last_message a; ag_last_delta := ag_last_delta a;
     ag_last_agent_message := ag_last_agent_message a; ag_done := v;
     ag_recent := ag_recent a; ag_recent_commands := ag_recent_commands a;
     ag_recent_stream := ag_recent_stream a; ag_history := ag_history a;
     ag_agent_buffer := ag_agent_buffer a;
     ag_summary_buffer := ag_summary_buffer a; ag_log_path := ag_log_path a;
     ag_items := ag_items a; ag_queued_prompts := ag_queued_prompts a;
     ag_review_thread := ag_review_thread a |}.

Definition set_ag_recent (v : list string) (a : Agent) : Agent :=
  {| ag_index := ag_index a; ag_name := ag_name a; ag_prompt := ag_prompt a;
     ag_cwd := ag_cwd a; ag_thread_id := ag_thread_id a;
     ag_last_message := ag_last_message a; ag_last_delta := ag_last_delta a;
     ag_last_agent_message := ag_last_agent_message a; ag_done := ag_done a;
     ag_recent := v; ag_recent_commands := ag_recent_commands a;
     ag_recent_stream := ag_recent_stream a; ag_history := ag_history a;
     ag_agent_buffer := ag_agent_buffer a;
     ag_summary_buffer := ag_summary_buffer a; ag_log_path := ag_log_path a;
     ag_items := ag_items a; ag_queued_prompts := ag_queued_prompts a;
     ag_review_thread := ag_review_thread a |}.

Definition set_ag_recent_commands (v : list string) (a : Agent) : Agent :=
  {| ag_index := ag_index a; ag_name := ag_name a; ag_prompt := ag_prompt a;
     ag_cwd := ag_cwd a; ag_thread_id := ag_thread_id a;
     ag_last_message := ag_last_message a; ag_last_delta := ag_last_delta a;
     ag_last_agent_message := ag_last_agent_message a; ag_done := ag_done a;
     ag_recent := ag_recent a; ag_recent_commands := v;
     ag_recent_stream := ag_recent_stream a; ag_history := ag_history a;
     ag_agent_buffer := ag_agent_buffer a;
     ag_summary_buffer := ag_summary_buffer a; ag_log_path := ag_log_path a;
     ag_items := ag_items a; ag_queued_prompts := ag_queued_prompts a;
     ag_review_thread := ag_review_thread a |}.

Definition set_ag_recent_stream (v : list string) (a : Agent) : Agent :=
  {| ag_index := ag_index a; ag_name := ag_name a; ag_prompt := ag_prompt a;
     ag_cwd := ag_cwd a; ag_thread_id := ag_thread_id a;
     ag_last_message := ag_last_message a; ag_last_delta := ag_last_delta a;
     ag_last_agent_message := ag_last_agent_message a; ag_done := ag_done a;
     ag_recent := ag_recent a; ag_recent_commands := ag_recent_commands a;
     ag_recent_stream := v; ag_history := ag_history a;
     ag_agent_buffer := ag_agent_buffer a;
     ag_summary_buffer := ag_summary_buffer a; ag_log_path := ag_log_path a;
     ag_items := ag_items a; ag_queued_prompts := ag_queued_prompts a;
     ag_review_thread := ag_review_thread a |}.

Definition set_ag_history (v : list string) (a : Agent) : Agent :=
  {| ag_index := ag_index a; ag_name := ag_name a; ag_prompt := ag_prompt a;
     ag_cwd := ag_cwd a; ag_thread_id := ag_thread_id a;
     ag_last_message := ag_last_message a; ag_last_delta := ag_last_delta a;
     ag_last_agent_message := ag_last_agent_message a; ag_done := ag_done a;
     ag_recent := ag_recent a; ag_recent_commands := ag_recent_commands a;
     ag_recent_stream := ag_recent_stream a; ag_history := v;
     ag_agent_buffer := ag_agent_buffer a;
     ag_summary_buffer := ag_summary_buffer a; ag_log_path := ag_log_path a;
     ag_items := ag_items a; ag_queued_prompts := ag_queued_prompts a;
     ag_review_thread := ag_review_thread a |}.

Definition set_ag_agent_buffer (v : string) (a : Agent) : Agent :=
  {| ag_index := ag_index a; ag_name := ag_name a; ag_prompt := ag_prompt a;
     ag_cwd := ag_cwd a; ag_thread_id := ag_thread_id a;
     ag_last_message := ag_last_message a; ag_last_delta := ag_last_delta a;
     ag_last_agent_message := ag_last_agent_message a; ag_done := ag_done a;
     ag_recent := ag_recent a; ag_recent_commands := ag_recent_commands a;
     ag_recent_stream := ag_recent_stream a; ag_history := ag_history a;
     ag_agent_buffer := v; ag_summary_buffer := ag_summary_buffer a;
     ag_log_path := ag_log_path a; ag_items := ag_items a;
     ag_queued_prompts := ag_queued_prompts a;
     ag_review_thread := ag_review_thread a |}.

Definition set_ag_summary_buffer (v : string) (a : Agent) : Agent :=
  {| ag_index := ag_index a; ag_name := ag_name a; ag_prompt := ag_prompt a;
     ag_cwd := ag_cwd a; ag_thread_id := ag_thread_id a;
     ag_last_message := ag_last_message a; ag_last_delta := ag_last_delta a;
     ag_last_agent_message := ag_last_agent_message a; ag_done := ag_done a;
     ag_recent := ag_recent a; ag_recent_commands := ag_recent_commands a;
     ag_recent_stream := ag_recent_stream a; ag_history := ag_history a;
     ag_agent_buffer := ag_agent_buffer a; ag_summary_buffer := v;
     ag_log_path := ag_log_path a; ag_items := ag_items a;
     ag_queued_prompts := ag_queued_prompts a;
     ag_review_thread := ag_review_thread a |}.

Definition set_ag_items (v : list (string * Item)) (a : Agent) : Agent :=
  {| ag_index := ag_index a; ag_name := ag_name a; ag_prompt := ag_prompt a;
     ag_cwd := ag_cwd a; ag_thread_id := ag_thread_id a;
     ag_last_message := ag_last_message a; ag_last_delta := ag_last_delta a;
     ag_last_agent_message := ag_last_agent_message a; ag_done := ag_done a;
     ag_recent := ag_recent a; ag_recent_commands := ag_recent_commands a;
     ag_recent_stream := ag_recent_stream a; ag_history := ag_history a;
     ag_agent_buffer := ag_agent_buffer a;
     ag_summary_buffer := ag_summary_buffer a; ag_log_path := ag_log_path a;
     ag_items := v; ag_queued_prompts := ag_queued_prompts a;
     ag_review_thread := ag_review_thread a |}.

Definition set_ag_queued_prompts (v : list string) (a : Agent) : Agent :=
  {| ag_index := ag_index a; ag_name := ag_name a; ag_prompt := ag_prompt a;
     ag_cwd := ag_cwd a; ag_thread_id := ag_thread_id a;
     ag_last_message := ag_last_message a; ag_last_delta := ag_last_delta a;
     ag_last_agent_message := ag_last_agent_message a; ag_done := ag_done a;
     ag_recent := ag_recent a; ag_recent_commands := ag_recent_commands a;
     ag_recent_stream := ag_recent_stream a; ag_history := ag_history a;
     ag_agent_buffer := ag_agent_buffer a;
     ag_summary_buffer := ag_summary_buffer a; ag_log_path := ag_log_path a;
     ag_items := ag_items a; ag_queued_prompts := v;
     ag_review_thread := ag_review_thread a |}.

Definition set_ag_review_thread (v : option string) (a : Agent) : Agent :=
  {| ag_index := ag_index a; ag_name := ag_name a; ag_prompt := ag_prompt a;
     ag_cwd := ag_cwd a; ag_thread_id := ag_thread_id a;
     ag_last_message := ag_last_message a; ag_last_delta := ag_last_delta a;
     ag_last_agent_message := ag_last_agent_message a; ag_done := ag_done a;
     ag_recent := ag_recent a; ag_recent_commands := ag_recent_commands a;
     ag_recent_stream := ag_recent_stream a; ag_history := ag_history a;
     ag_agent_buffer := ag_agent_buffer a;
     ag_summary_buffer := ag_summary_buffer a; ag_log_path := ag_log_path a;
     ag_items := ag_items a; ag_queued_prompts := ag_queued_prompts a;
     ag_review_thread := v |}.

(** ** The supervisor *)

(** Where a message for the operator goes: [print], or
    [recent_logs.append] in the full-screen front end. *)
Inductive Output : Type := Print | RecentLogsAppend.

Section Program.

Variable env : Env.

(** [recent_logs.append(text)], a [deque(maxlen=10)]. *)
Definition log_recent (text : string) : M unit :=
  modify (fun s => set_recent_logs (append_bounded 10 text (recent_logs s)) s).

Definition output (out : Output) (text : string) : M unit :=
  match out with
  | Print => emit (Printed text)
  | RecentLogsAppend => log_recent text
  end.

(** [time.time()] *)
Definition time_time : M Z :=
  s <- get ;;
  let now := clock env (List.length (trace s)) in
  emit (ReadClock now) ;;
  ret now.

(** *** The protocol client: [AppServer] *)

Definition with_params (params : option json) : list (string * json) :=
  match params with
  | Some p => [("params", p)]
  | None => []
  end.

(** [AppServer.notify] *)
Definition notify (method : string) (params : option json) : M unit :=
  emit (Sent (JDict (("method", JStr method) :: with_params params))).

(** [AppServer.request], with [_wait_response]. *)
Definition request (method : string) (params : option json) : M Response :=
  s <- get ;;
  let req_id := next_id s in
  modify (set_next_id (req_id + 1)) ;;
  emit (Sent (JDict (("id", JNum req_id) :: ("method", JStr method)
                       :: with_params params))) ;;
  match reply env req_id with
  | Some resp => ret resp
  | None =>
      raise (TimeoutError ("request " ++ Py.str_of_Z req_id ++ " timed out"))
  end.

(** [AppServer.respond] *)
Definition respond (req_id : json) (result : json) : M unit :=
  emit (Sent (JDict [("id", req_id); ("result", result)])).

(** [resp["result"]["thread"]["id"]]: a key that is absent raises
    [KeyError]. *)
Definition response_thread_id (resp : Response) : M string :=
  match resp_result resp with
  | None => raise (KeyError "'result'")
  | Some result =>
      match res_thread result with
      | None => raise (KeyError "'thread'")
      | Some thread =>
          match th_id thread with
          | None => raise (KeyError "'id'")
          | Some id => ret id
          end
      end
  end.

(** *** Turn input *)

(** [os.path.join(a, b)] *)
Definition path_join (a b : string) : string :=
  if Py.startswith "/" b then b
  else if negb (Py.nonempty a) || Py.endswith_char "/"%char a then a ++ b
  else a ++ "/" ++ b.

(** [resolve_skill_path] *)
Definition resolve_skill_path (skill_name : string) (cwd : option string)
  : option string :=
  let candidates :=
    ((if Py.truthy_str cwd
      then [path_join (path_join (path_join (Py.or_empty cwd) "skills")
                                 skill_name) "SKILL.md"]
      else [])
     ++ [path_join (path_join (expanduser env "~/.codex/skills") skill_name)
                   "SKILL.md"])%list in
  List.find (path_exists env) candidates.

(** [build_turn_input] *)
Definition build_turn_input (prompt : string) (cwd : option string) : json :=
  let items := [JDict [("type", JStr "text"); ("text", JStr prompt)]] in
  match skill_marker_search prompt with
  | None => JList items
  | Some skill_name =>
      match resolve_skill_path skill_name cwd with
      | None => JList items
      | Some path =>
          JList (items ++ [JDict [("type", JStr "skill");
                                  ("name", JStr skill_name);
                                  ("path", JStr path)]])%list
      end
  end.

(** [{"cwd": args.cwd} if args.cwd else {}] *)
Definition cwd_params (cwd : option string) : json :=
  if Py.truthy_str cwd then JDict [("cwd", JStr (Py.or_empty cwd))] else JDict [].

(** *** Agents *)

(** [agents[thread_id]] *)
Definition agent_at (thread_id : string) : M Agent :=
  s <- get ;;
  match dict_get thread_id (agents s) with
  | Some agent => ret agent
  | None => raise (KeyError thread_id)
  end.

(** An assignment to a key of the agent stored under [thread_id]. *)
Definition update_agent (thread_id : string) (f : Agent -> Agent) : M unit :=
  modify (fun s =>
            match dict_get thread_id (agents s) with
            | Some agent => set_agents (dict_set thread_id (f agent) (agents s)) s
            | None => s
            end).

(** [log_line] *)
Definition log_line (thread_id : string) (text : string) : M unit :=
  agent <- agent_at thread_id ;;
  let path := ag_log_path agent in
  if negb (Py.nonempty path) then ret tt
  else emit (Logged path (Py.replace_char "010"%char "\n" text ++ Py.nl)).

(** [record_recent] *)
Definition record_recent (thread_id : string) (text : string) : M unit :=
  update_agent thread_id
    (fun a => set_ag_recent (append_bounded 3 text (ag_recent a)) a) ;;
  update_agent thread_id
    (fun a => set_ag_recent_stream (append_bounded 3 text (ag_recent_stream a)) a) ;;
  update_agent thread_id
    (fun a => set_ag_history (ag_history a ++ [text])%list a) ;;
  log_line thread_id text.

(** [record_summary_delta] *)
Definition record_summary_delta (thread_id : string) (delta : string) : M unit :=
  update_agent thread_id
    (fun a => set_ag_summary_buffer (ag_summary_buffer a ++ delta) a).

(** [record_agent_delta] *)
Definition record_agent_delta (thread_id : string) (delta : string) : M unit :=
  update_agent thread_id
    (fun a => set_ag_agent_buffer (ag_agent_buffer a ++ delta) a).

(** [[line.strip() for line in normalized.split("\n") if line.strip()]] *)
Definition nonblank_lines (normalized : string) : list string :=
  filter Py.nonempty (map Py.strip (Py.split Py.nl normalized)).

(** [flush_summary_buffer] *)
Definition flush_summary_buffer (thread_id : string) : M unit :=
  agent <- agent_at thread_id ;;
  let buffer := ag_summary_buffer agent in
  if Py.nonempty buffer then
    let normalized := normalize_summary_text buffer in
    for_each (nonblank_lines normalized)
      (fun line => record_recent thread_id ("summary: " ++ line)) ;;
    update_agent thread_id (set_ag_summary_buffer "")
  else ret tt.

(** [flush_agent_buffer] *)
Definition flush_agent_buffer (thread_id : string) : M unit :=
  agent <- agent_at thread_id ;;
  let buffer := ag_agent_buffer agent in
  if Py.nonempty buffer then
    let normalized := normalize_agent_text buffer in
    for_each (nonblank_lines normalized)
      (fun line => record_recent thread_id ("agent: " ++ line)) ;;
    update_agent thread_id (set_ag_agent_buffer "")
  else ret tt.

(** [normalize_agent_key] *)
Definition normalize_agent_key (key : string) : string :=
  Py.lower (Py.strip key).

(** [resolve_agent]: the thread id and the agent, [None] for
    [(None, None)]; [int] may raise. *)
Definition resolve_agent (agents : list (string * Agent)) (key : string)
  : exn + option (string * Agent) :=
  let key := normalize_agent_key key in
  let by_name :=
    List.find (fun '(_, agent) =>
                 Py.truthy_str (ag_name agent)
                 && String.eqb (normalize_agent_key (Py.or_empty (ag_name agent))) key)
              agents in
  if Py.isdigit key then
    match Py.int key with
    | None => inl (ValueError "invalid literal for int()")
    | Some idx =>
        match List.find (fun '(_, agent) => Z.eqb (ag_index agent) idx) agents with
        | Some r => inr (Some r)
        | None => inr by_name
        end
    end
  else inr by_name.

(** [queue_agent_prompt] *)
Definition queue_agent_prompt (thread_id : string) (prompt : string) : M unit :=
  update_agent thread_id
    (fun a => set_ag_queued_prompts (ag_queued_prompts a ++ [prompt])%list a) ;;
  record_recent thread_id ("queued: " ++ prompt).

(** [start_agent_prompt] *)
Definition start_agent_prompt (thread_id : string) (prompt : string) : M unit :=
  agent <- agent_at thread_id ;;
  request "turn/start"
    (Some (JDict [("threadId", JStr (ag_thread_id agent));
                  ("input", build_turn_input prompt (ag_cwd agent))])) ;;
  update_agent thread_id (set_ag_done false) ;;
  update_agent thread_id (set_ag_last_delta None) ;;
  update_agent thread_id (set_ag_last_agent_message None) ;;
  record_recent thread_id ("user: " ++ prompt).

(** [try_cancel_turn] *)
Definition try_cancel_turn (thread_id : string) : M bool :=
  agent <- agent_at thread_id ;;
  try_except
    (resp <- request "turn/cancel"
               (Some (JDict [("threadId", JStr (ag_thread_id agent))])) ;;
     if truthy (resp_error resp) then ret false else ret true)
    (fun _ => ret false).

(** [approve_request] *)
Definition approve_request (entry : Entry) (choice : string) : M bool :=
  match get_decision_payload (en_method entry) choice (en_amendment entry) with
  | None => ret false
  | Some decision => respond (en_req_id entry) decision ;; ret true
  end.

(** *** Operator commands: [handle_user_command] *)

Definition help_text : string :=
  "Commands: <id> <prompt> | <name> <prompt> | <id> <a|s|p|d|c> | approve [id] [a|s|p|d|c] | stop <id> <reason> | show <id|name> | dump <id|name> | list | review <agent|thread> [target] [--detached|--inline|delivery <mode>] | threads [loaded|list] [limit|cursor] | help | quit".

Definition review_usage : string :=
  "Usage: review <agent|thread> [uncommitted|base <branch>|commit <sha> [title]|custom <instructions>] [--detached|--inline|delivery <mode>]".

Definition unknown_agent (key : string) : string :=
  "Unknown agent '" ++ key ++ "'. Use 'list' to see agents.".

Definition choices : list string := ["a"; "s"; "p"; "d"; "c"].

Definition agent_label (agent : Agent) : string :=
  let label := Py.str_of_Z (ag_index agent) in
  if Py.truthy_str (ag_name agent)
  then label ++ " (" ++ Py.or_empty (ag_name agent) ++ ")"
  else label.

Definition status_word (agent : Agent) : string :=
  if ag_done agent then "done" else "running".

(** The [list] command. *)
Definition cmd_list (out : Output) : M unit :=
  s <- get ;;
  for_each (dict_values (agents s))
    (fun agent => output out (agent_label agent ++ ": " ++ status_word agent)).

(** The scan of [rest] for the delivery mode: the mode found and the
    tokens that remain. *)
Fixpoint delivery_scan (rest : list string) (delivery : option string)
    (remaining : list string) : option string * list string :=
  match rest with
  | [] => (delivery, remaining)
  | token :: rest' =>
      if Py.in_strs token ["--detached"; "--inline"] then
        delivery_scan rest' (Some (Py.lstrip_char "-"%char token)) remaining
      else
        match rest' with
        | mode :: rest'' =>
            if String.eqb token "delivery" && Py.in_strs mode ["inline"; "detached"]
            then delivery_scan rest'' (Some mode) remaining
            else delivery_scan rest' delivery (remaining ++ [token])%list
        | [] => delivery_scan rest' delivery (remaining ++ [token])%list
        end
  end.

(** The review target named by the remaining tokens, or the message of
    the usage error. *)
Definition review_target (remaining : list string) : string + json :=
  match remaining with
  | [] => inr (JDict [("type", JStr "uncommittedChanges")])
  | first :: more =>
      if Py.in_strs first ["uncommitted"; "uncommittedChanges"; "changes"; "current"]
      then inr (JDict [("type", JStr "uncommittedChanges")])
      else if String.eqb first "base" then
        match more with
        | [] => inl "review: base requires a branch name"
        | branch :: _ =>
            inr (JDict [("type", JStr "baseBranch"); ("branch", JStr branch)])
        end
      else if String.eqb first "commit" then
        match more with
        | [] => inl "review: commit requires a sha"
        | sha :: words =>
            let title := Py.strip (Py.join " " words) in
            inr (JDict ([("type", JStr "commit"); ("sha", JStr sha)]
                        ++ (if Py.nonempty title then [("title", JStr title)]
                            else []))%list)
        end
      else if String.eqb first "custom" then
        let instructions := Py.strip (Py.join " " more) in
        if negb (Py.nonempty instructions)
        then inl "review: custom requires instructions"
        else inr (JDict [("type", JStr "custom");
                         ("instructions", JStr instructions)])
      else
        let instructions := Py.strip (Py.join " " remaining) in
        inr (JDict [("type", JStr "custom"); ("instructions", JStr instructions)])
  end.

(** [target.get('type')], as the f-string prints it. *)
Definition target_type (target : json) : string :=
  match target with
  | JDict (("type", JStr t) :: _) => t
  | _ => "None"
  end.

(** The [review] command. *)
Definition cmd_review (line : string) (out : Output) : M unit :=
  match shlex_split env line with
  | inl err => output out ("review: " ++ err)
  | inr parts =>
      match parts with
      | _ :: target_key :: rest =>
          s <- get ;;
          resolved <- lift (resolve_agent (agents s) target_key) ;;
          let thread_id :=
            match resolved with
            | Some (tid, _) => if Py.nonempty tid then tid else target_key
            | None => target_key
            end in
          let (delivery, remaining) := delivery_scan rest None [] in
          match review_target remaining with
          | inl message => output out message
          | inr target =>
              let params :=
                JDict ([("threadId", JStr thread_id); ("target", target)]
                       ++ (if Py.truthy_str delivery
                           then [("delivery", JStr (Py.or_empty delivery))]
                           else []))%list in
              answer <-
                try_except
                  (resp <- request "review/start" (Some params) ;; ret (Some resp))
                  (fun err =>
                     output out ("review: request failed: " ++ exn_message err) ;;
                     ret None) ;;
              match answer with
              | None => ret tt
              | Some resp =>
                  let result :=
                    match resp_result resp with
                    | Some r => r
                    | None => empty_result
                    end in
                  let review_thread_id :=
                    Py.or_str (res_reviewThreadId result)
                              (res_review_thread_id result) in
                  output out
                    ("review started: thread "
                     ++ (if Py.truthy_str review_thread_id
                         then Py.or_empty review_thread_id else thread_id)
                     ++ " (" ++ target_type target ++ ")")
              end
          end
      | _ => output out review_usage
      end
  end.

(** [entry.get("id")] of an entry of [data] that is a dict. *)
Fixpoint entry_id (kv : list (string * json)) : json :=
  match kv with
  | [] => JNull
  | (k, v) :: kv' => if String.eqb k "id" then v else entry_id kv'
  end.

(** The [threads] command. *)
Definition cmd_threads (line : string) (out : Output) : M unit :=
  let parts := Py.split_ws line in
  let '(mode, cursor, limit) :=
    match parts with
    | _ :: second :: more =>
        if Py.in_strs second ["loaded"; "list"] then
          match more with
          | third :: _ =>
              if Py.isdigit third then (second, None, Some third)
              else (second, Some third, None)
          | [] => (second, None, None)
          end
        else if Py.isdigit second then ("loaded", None, Some second)
        else ("loaded", Some second, None)
    | _ => ("loaded", None, None)
    end in
  limit_value <-
    match limit with
    | None => ret None
    | Some digits =>
        match Py.int digits with
        | Some n => ret (Some n)
        | None => raise (ValueError "invalid literal for int()")
        end
    end ;;
  let params :=
    ((if Py.truthy_str cursor then [("cursor", JStr (Py.or_empty cursor))] else [])
     ++ match limit_value with
        | Some n => [("limit", JNum n)]
        | None => []
        end)%list in
  let method := if String.eqb mode "loaded" then "thread/loaded/list"
                else "thread/list" in
  answer <-
    try_except
      (resp <- request method
                 (match params with [] => None | _ => Some (JDict params) end) ;;
       ret (Some resp))
      (fun err =>
         output out ("threads: request failed: " ++ exn_message err) ;;
         ret None) ;;
  match answer with
  | None => ret tt
  | Some resp =>
      let result :=
        match resp_result resp with
        | Some r => r
        | None => empty_result
        end in
      let data := res_data result in
      (if String.eqb mode "list" then
         let thread_ids :=
           flat_map (fun entry =>
                       match entry with
                       | JDict kv =>
                           if truthy (entry_id kv) then [entry_id kv] else []
                       | _ => []
                       end) data in
         output out ("threads (" ++ mode ++ "): "
                     ++ Py.str_of_Z (Z.of_nat (List.length thread_ids))) ;;
         for_each thread_ids
           (fun thread_id => output out ("  " ++ py_str env thread_id))
       else
         output out ("threads (" ++ mode ++ "): "
                     ++ Py.str_of_Z (Z.of_nat (List.length data))) ;;
         for_each data
           (fun thread_id => output out ("  " ++ py_str env thread_id))) ;;
      let next_cursor :=
        Py.or_str (res_nextCursor result) (res_next_cursor result) in
      when (Py.truthy_str next_cursor)
        (output out ("next_cursor: " ++ Py.or_empty next_cursor))
  end.

(** [resolve_agent] followed by the callers' test
    [if not thread_id or agent is None]. *)
Definition resolve_known (key : string) : M (option (string * Agent)) :=
  s <- get ;;
  resolved <- lift (resolve_agent (agents s) key) ;;
  match resolved with
  | Some (thread_id, agent) =>
      if Py.nonempty thread_id then ret (Some (thread_id, agent)) else ret None
  | None => ret None
  end.

(** [_, key = line.split(maxsplit=1)] *)
Definition second_word (line : string) : M string :=
  match Py.split_ws1 line with
  | [_; key] => ret key
  | _ => raise (ValueError "not enough values to unpack")
  end.

(** The [show] command. *)
Definition cmd_show (line : string) (out : Output) : M unit :=
  key <- second_word line ;;
  resolved <- resolve_known key ;;
  match resolved with
  | None => output out (unknown_agent key)
  | Some (_, agent) =>
      let history :=
        skipn (List.length (ag_history agent) - 20) (ag_history agent) in
      output out ("Agent " ++ Py.str_of_Z (ag_index agent)
                  ++ " history (last 20):") ;;
      for_each history (fun entry => output out ("  " ++ entry))
  end.

(** The [dump] command. *)
Definition cmd_dump (line : string) (out : Output) : M unit :=
  key <- second_word line ;;
  resolved <- resolve_known key ;;
  match resolved with
  | None => output out (unknown_agent key)
  | Some (_, agent) =>
      let path := ag_log_path agent in
      if Py.nonempty path
      then output out ("Agent " ++ Py.str_of_Z (ag_index agent) ++ " log: " ++ path)
      else output out ("Agent " ++ Py.str_of_Z (ag_index agent)
                       ++ " has no log path.")
  end.

(** [approvals_by_thread.get(thread_id) or deque()] *)
Definition thread_queue_of (thread_id : string) (s : State) : list Entry :=
  match dict_get thread_id (approvals_by_thread s) with
  | Some q => q
  | None => []
  end.

(** [approvals_by_thread[thread_id] = thread_queue] *)
Definition set_thread_queue (thread_id : string) (q : list Entry) : M unit :=
  modify (fun s =>
            set_approvals_by_thread
              (dict_set thread_id q (approvals_by_thread s)) s).

(** The [approve] command.  [has_queues] tells whether the caller passed
    [approval_queue] and [approvals_by_thread], [has_logs] whether it
    passed [recent_logs]. *)
Definition cmd_approve (line : string) (has_queues has_logs : bool)
    (out : Output) : M unit :=
  if negb has_queues then output out "No approval queue available."
  else
    let parts := Py.split_ws line in
    let '(target, choice) :=
      match parts with
      | [_; word] =>
          if Py.in_strs word choices then (None, Some word)
          else (Some word, None)
      | _ :: word :: letter :: _ => (Some word, Some letter)
      | _ => (None, None)
      end in
    if negb (Py.truthy_str choice)
    then output out "Approval requires a choice: a/s/p/d/c."
    else
      let choice := Py.or_empty choice in
      if Py.truthy_str target then
        let target := Py.or_empty target in
        resolved <- resolve_known target ;;
        match resolved with
        | None => output out (unknown_agent target)
        | Some (thread_id, agent) =>
            s <- get ;;
            match thread_queue_of thread_id s with
            | [] =>
                output out ("No pending approvals for agent "
                            ++ Py.str_of_Z (ag_index agent) ++ ".")
            | entry :: thread_queue =>
                set_thread_queue thread_id thread_queue ;;
                ok <- approve_request entry choice ;;
                if negb ok then output out "Invalid approval choice."
                else when has_logs
                       (log_recent ("approval " ++ en_thread_id entry
                                    ++ ": " ++ choice))
            end
        end
      else
        s <- get ;;
        match approval_queue s with
        | [] => output out "No pending approvals."
        | entry :: queue =>
            modify (set_approval_queue queue) ;;
            s <- get ;;
            let thread_queue := thread_queue_of (en_thread_id entry) s in
            when (entry_in entry thread_queue)
              (set_thread_queue (en_thread_id entry)
                 (entry_remove entry thread_queue)) ;;
            ok <- approve_request entry choice ;;
            if negb ok then output out "Invalid approval choice."
            else when has_logs
                   (log_recent ("approval " ++ en_thread_id entry
                                ++ ": " ++ choice))
        end.

(** The end of [handle_user_command]: a line addressed to an agent. *)
Definition cmd_agent (line : string) (has_queues has_logs : bool)
    (out : Output) : M unit :=
  let parsed :=
    if Py.contains ":" line then
      match Py.split1 ":" line with
      | [head; prompt] => Some (Py.strip head, Py.strip prompt)
      | _ => None
      end
    else
      match Py.split_ws1 line with
      | [head; prompt] => Some (head, prompt)
      | _ => None
      end in
  match parsed with
  | None => output out "Invalid command. Use: <id> <prompt> or <name> <prompt>"
  | Some (head, prompt) =>
      resolved <- resolve_known head ;;
      match resolved with
      | None => output out (unknown_agent head)
      | Some (thread_id, agent) =>
          if Py.in_strs prompt choices then
            if negb has_queues then output out "No approval queue available."
            else
              s <- get ;;
              match thread_queue_of thread_id s with
              | [] =>
                  output out ("No pending approvals for agent "
                              ++ Py.str_of_Z (ag_index agent) ++ ".")
              | entry :: thread_queue =>
                  set_thread_queue thread_id thread_queue ;;
                  s <- get ;;
                  when (entry_in entry (approval_queue s))
                    (modify (set_approval_queue
                               (entry_remove entry (approval_queue s)))) ;;
                  ok <- approve_request entry prompt ;;
                  if negb ok then output out "Invalid approval choice."
                  else when has_logs
                         (log_recent ("approval " ++ Py.str_of_Z (ag_index agent)
                                      ++ ": " ++ prompt))
              end
          else if Py.startswith "stop" prompt then
            let reason := Py.strip (Py.drop 4 prompt) in
            let reason := if Py.nonempty reason then reason
                          else "stop current task and report status" in
            if ag_done agent then start_agent_prompt thread_id ("Stop: " ++ reason)
            else
              cancelled <- try_cancel_turn thread_id ;;
              if cancelled then record_recent thread_id "turn cancelled"
              else queue_agent_prompt thread_id ("Stop: " ++ reason)
          else if ag_done agent then start_agent_prompt thread_id prompt
          else queue_agent_prompt thread_id prompt
      end
  end.

(** [handle_user_command] *)
Definition handle_user_command (line : string) (has_queues has_logs : bool)
    (out : Output) : M unit :=
  let line := Py.strip line in
  if negb (Py.nonempty line) then ret tt
  else if Py.in_strs line ["help"; "?"] then output out help_text
  else if Py.in_strs line ["list"; "ls"] then cmd_list out
  else if Py.startswith "review" line then cmd_review line out
  else if Py.startswith "threads" line then cmd_threads line out
  else if Py.in_strs line ["quit"; "exit"] then raise (SystemExit 0)
  else if Py.startswith "show " line then cmd_show line out
  else if Py.startswith "dump " line then cmd_dump line out
  else if Py.startswith "approve" line then cmd_approve line has_queues has_logs out
  else cmd_agent line has_queues has_logs out.

(** *** Review artifacts: [write_review_output] *)

Definition write_review_output (thread_id : option string) (review_id : string)
    (review_label : option string) (review_output : string) (log_dir : string)
  : M string :=
  now <- time_time ;;
  let timestamp := strftime env "%Y%m%d-%H%M%S" now in
  let safe_thread :=
    sanitize_filename_component
      (if Py.truthy_str thread_id then Py.or_empty thread_id else "thread") in
  let safe_review :=
    sanitize_filename_component
      (if Py.nonempty review_id then review_id else "review") in
  let filename :=
    "review-" ++ safe_thread ++ "-" ++ safe_review ++ "-" ++ timestamp ++ ".md" in
  let path := path_join log_dir filename in
  now' <- time_time ;;
  let header_lines :=
    List.app ["# Review Output"; "Thread: " ++ Py.fmt_opt thread_id]
      (List.app (if Py.nonempty review_id then ["Review ID: " ++ review_id] else [])
         (List.app (if Py.truthy_str review_label
                    then ["Label: " ++ Py.or_empty review_label] else [])
            ["Timestamp: " ++ strftime env "%Y-%m-%d %H:%M:%S %z" now'])) in
  emit (WroteReview review_id path
          (Py.join Py.nl header_lines ++ Py.nl ++ Py.nl ++ review_output
           ++ (if Py.endswith_char "010"%char review_output then "" else Py.nl))) ;;
  ret path.

(** *** Events: [process_event] *)

(** [agents[thread_id]["items"][item_id] = item], when [item_id] is true. *)
Definition cache_item (thread_id : string) (item : Item) : M unit :=
  when (Py.truthy_str (item_id item))
    (update_agent thread_id
       (fun a => set_ag_items
                   (dict_set (Py.or_empty (item_id item)) item (ag_items a)) a)).

(** The branch for [item/started]. *)
Definition on_item_started (thread_id : string) (params : Params) : M unit :=
  let item := match p_item params with Some i => i | None => empty_item end in
  cache_item thread_id item ;;
  when (opt_is (item_type item) "commandExecution")
    (let cmd := Py.or_empty (item_command item) in
     when (Py.nonempty cmd)
       (update_agent thread_id
          (fun a => set_ag_recent_commands
                      (append_bounded 3 cmd (ag_recent_commands a)) a))) ;;
  when (opt_is (item_type item) "fileChange")
    (record_recent thread_id (summarize_item item)).

(** The [exitedReviewMode] part of the branch for [item/completed]. *)
Definition on_exited_review_mode (thread_id : string) (item : Item)
    (log_dir : string) : M unit :=
  let review_output := Py.or_empty (item_review item) in
  let review_id := item_id item in
  s <- get ;;
  if Py.nonempty review_output && Py.truthy_str review_id
     && negb (Py.in_strs (Py.or_empty review_id) (review_written s))
  then
    let review_id := Py.or_empty review_id in
    let review_label :=
      match dict_get review_id (review_labels s) with
      | Some label => label
      | None => None
      end in
    modify (fun s => set_review_labels (dict_remove review_id (review_labels s)) s) ;;
    path <- write_review_output (Some thread_id) review_id review_label
              review_output log_dir ;;
    modify (fun s => set_review_written (set_add review_id (review_written s)) s) ;;
    record_recent thread_id ("review output saved: " ++ path) ;;
    log_recent ("review output saved: " ++ path)
  else ret tt.

(** The branch for [item/completed] of a supervised agent. *)
Definition on_item_completed (thread_id : string) (params : Params)
    (log_dir : string) : M unit :=
  let item := match p_item params with Some i => i | None => empty_item end in
  cache_item thread_id item ;;
  when (opt_is (item_type item) "fileChange")
    (record_recent thread_id (summarize_item item)) ;;
  when (opt_is (item_type item) "enteredReviewMode")
    (when (Py.truthy_str (item_id item))
       (modify (fun s =>
                  set_review_labels
                    (dict_set (Py.or_empty (item_id item)) (item_review item)
                              (review_labels s)) s))) ;;
  when (opt_is (item_type item) "exitedReviewMode")
    (on_exited_review_mode thread_id item log_dir) ;;
  when (opt_is (item_type item) "agentMessage")
    (flush_agent_buffer thread_id ;;
     update_agent thread_id (set_ag_last_message (field_get (item_text item))) ;;
     update_agent thread_id (set_ag_last_delta None) ;;
     update_agent thread_id
       (set_ag_last_agent_message (field_get (item_text item)))).

(** [params.get("turn", {}).get("status")]: a null [turn] has no [get]. *)
Definition turn_status_of (params : Params) : M (option string) :=
  match p_turn params with
  | Absent => ret None
  | Null => raise (AttributeError "'NoneType' object has no attribute 'get'")
  | Value turn => ret (turn_status turn)
  end.

(** The branch for [turn/completed] of a supervised agent. *)
Definition on_turn_completed (thread_id : string) (params : Params)
    (args : Args) : M unit :=
  status <- turn_status_of params ;;
  update_agent thread_id (set_ag_done true) ;;
  flush_agent_buffer thread_id ;;
  flush_summary_buffer thread_id ;;
  record_recent thread_id ("turn " ++ Py.fmt_opt status) ;;
  agent <- agent_at thread_id ;;
  log_recent ("agent " ++ Py.str_of_Z (ag_index agent) ++ " completed status="
              ++ Py.fmt_opt status) ;;
  match ag_queued_prompts agent with
  | [] => ret tt
  | next_prompt :: queued =>
      update_agent thread_id (set_ag_queued_prompts queued) ;;
      start_agent_prompt thread_id next_prompt ;;
      log_recent ("agent " ++ Py.str_of_Z (ag_index agent) ++ " dequeued prompt")
  end ;;
  agent <- agent_at thread_id ;;
  if args_review args && Py.truthy_str (ag_last_message agent) then
    review_prompt <-
      match str_format env (args_review_template args) (ag_prompt agent)
                       (Py.or_empty (ag_last_message agent)) with
      | Some text => ret text
      | None => raise (ValueError "format")
      end ;;
    resp <- request "thread/start" (Some (cwd_params (args_cwd args))) ;;
    review_thread <- response_thread_id resp ;;
    request "turn/start"
      (Some (JDict [("threadId", JStr review_thread);
                    ("input", JList [JDict [("type", JStr "text");
                                            ("text", JStr review_prompt)]])])) ;;
    modify (fun s =>
              set_pending_reviews
                (dict_set review_thread (ag_index agent) (pending_reviews s)) s) ;;
    update_agent thread_id (set_ag_review_thread (Some review_thread)) ;;
    log_recent ("review " ++ Py.str_of_Z (ag_index agent) ++ " started")
  else ret tt.

(** [thread_id in d] for the optional thread id of an event. *)
Definition known {V : Type} (thread_id : option string) (d : list (string * V))
  : bool :=
  match thread_id with
  | Some tid => dict_mem tid d
  | None => false
  end.

(** [process_event] *)
Definition process_event (event : Event) (args : Args) (log_dir : string)
  : M unit :=
  let method := ev_method event in
  let params := match ev_params event with Some p => p | None => empty_params end in
  let thread_id := thread_id_from_params params in
  let tid := Py.or_empty thread_id in
  let delta := Py.or_empty (p_delta params) in
  s <- get ;;
  let in_agents := known thread_id (agents s) in
  let in_reviews := known thread_id (pending_reviews s) in
  if opt_is method "turn/started" && in_agents then
    record_recent tid "turn started"
  else if opt_is method "item/started" && in_agents then
    on_item_started tid params
  else if opt_is method "item/completed" && in_agents then
    on_item_completed tid params log_dir
  else if opt_is method "item/agentMessage/delta" && in_agents then
    when (Py.nonempty delta)
      (update_agent tid (set_ag_last_delta (Some (Py.strip delta))) ;;
       record_agent_delta tid delta)
  else if opt_is method "item/reasoning/textDelta" && in_agents then
    when (Py.nonempty delta)
      (record_recent tid ("reasoning: " ++ Py.strip delta))
  else if opt_is method "item/reasoning/summaryTextDelta" && in_agents then
    when (Py.nonempty delta) (record_summary_delta tid delta)
  else if opt_is method "item/commandExecution/outputDelta" && in_agents then
    when (Py.nonempty delta)
      (record_recent tid ("cmd out: " ++ Py.strip delta))
  else if opt_is method "item/mcpToolCall/progress" && in_agents then
    let message := Py.or_empty (p_message params) in
    when (Py.nonempty message) (record_recent tid ("mcp: " ++ message))
  else if opt_is method "item/fileChange/outputDelta" && in_agents then
    when (Py.nonempty delta) (record_recent tid "file change output")
  else if opt_is method "turn/completed" && in_agents then
    on_turn_completed tid params args
  else if opt_is method "item/completed" && in_reviews then
    let item := match p_item params with Some i => i | None => empty_item end in
    when (opt_is (item_type item) "agentMessage")
      (match dict_get tid (pending_reviews s) with
       | None => raise (KeyError tid)
       | Some index =>
           text <-
             match item_text item with
             | Absent => ret ""
             | Null =>
                 raise (AttributeError
                          "'NoneType' object has no attribute 'strip'")
             | Value text => ret (Py.strip text)
             end ;;
           log_recent ("review " ++ Py.str_of_Z index ++ ": " ++ Py.take 120 text)
       end)
  else if opt_is method "turn/completed" && in_reviews then
    match dict_get tid (pending_reviews s) with
    | None => raise (KeyError tid)
    | Some index =>
        modify (fun s => set_pending_reviews (dict_remove tid (pending_reviews s)) s) ;;
        log_recent ("review " ++ Py.str_of_Z index ++ " completed")
    end
  else ret tt.

(** *** Scheduling *)

(** The [for dep in deps] loop of [deps_satisfied]. *)
Fixpoint deps_loop (deps : list string) (done_indices : list Z)
    (done_names : list string) : exn + bool :=
  match deps with
  | [] => inr true
  | dep :: deps' =>
      if Py.isdigit dep then
        match Py.int dep with
        | None => inl (ValueError "invalid literal for int()")
        | Some n =>
            if existsb (Z.eqb n) done_indices
            then deps_loop deps' done_indices done_names
            else inr false
        end
      else if Py.in_strs dep done_names
           then deps_loop deps' done_indices done_names
           else inr false
  end.

(** [deps_satisfied] *)
Definition deps_satisfied (deps : list string) (agents : list (string * Agent))
  : exn + bool :=
  match deps with
  | [] => inr true
  | _ =>
      let done_indices := map ag_index (filter ag_done (dict_values agents)) in
      let done_names :=
        flat_map (fun agent =>
                    if ag_done agent && Py.truthy_str (ag_name agent)
                    then [Py.or_empty (ag_name agent)] else [])
                 (dict_values agents) in
      deps_loop deps done_indices done_names
  end.

(** The [while True] loop of [wait_for_status]; [fuel] bounds the number
    of polls the model follows. *)
Fixpoint wait_loop (fuel : nat) (path expected : string) (deadline : option Z)
    (out : Output) (announced : bool) : M unit :=
  match fuel with
  | O => out_of_fuel
  | S fuel' =>
      expired <-
        match deadline with
        | None => ret false
        | Some limit => now <- time_time ;; ret (limit <? now)%Z
        end ;;
      if expired then
        raise (TimeoutError ("waited for status '" ++ expected ++ "' in " ++ path))
      else
        s <- get ;;
        let first_line := readline env (List.length (trace s)) path in
        emit (ReadFile path first_line) ;;
        if match first_line with
           | Some text => String.eqb (Py.strip text) expected
           | None => false
           end
        then
          when announced (output out ("[supervisor] status ready in " ++ path))
        else
          when (negb announced)
            (output out ("[supervisor] waiting for status '" ++ expected
                         ++ "' in " ++ path)) ;;
          emit (Slept 5) ;;
          wait_loop fuel' path expected deadline out true
  end.

(** [wait_for_status] *)
Definition wait_for_status (fuel : nat) (path expected : string)
    (deadline : option Z) (out : Output) : M unit :=
  wait_loop fuel path expected deadline out false.

(** The two front ends, [run_plain] and [run_curses]. *)
Inductive Frontend : Type := Plain | Curses.

(** What [run_plain] and [run_curses] fix before their loop. *)
Record Run : Type := {
  run_frontend : Frontend;
  run_args : Args;
  run_deadline : option Z;
  run_log_dir : string;
  run_max_parallel : Z;
  run_use_color : bool
}.

Definition frontend_output (fe : Frontend) : Output :=
  match fe with
  | Plain => Print
  | Curses => RecentLogsAppend
  end.

(** [max_parallel = args.max_parallel or len(args.agent)] *)
Definition effective_max_parallel (args : Args) : Z :=
  match args_max_parallel args with
  | Some n => if (n =? 0)%Z then Z.of_nat (List.length (args_agent args)) else n
  | None => Z.of_nat (List.length (args_agent args))
  end.

(** The specs queued [for index, prompt in enumerate(args.agent, start=1)]. *)
Fixpoint enumerate_specs (index : Z) (prompts : list string) : list Spec :=
  match prompts with
  | [] => []
  | prompt :: prompts' =>
      let '(body, wait, deps) := extract_directives prompt in
      {| sp_index := index; sp_prompt := body; sp_wait := wait; sp_deps := deps |}
      :: enumerate_specs (index + 1) prompts'
  end.

(** The agent record [start_agent] stores. *)
Definition new_agent (run : Run) (index : Z) (prompt thread_id : string) : Agent :=
  {| ag_index := index;
     ag_name := parse_agent_name prompt;
     ag_prompt := prompt;
     ag_cwd := args_cwd (run_args run);
     ag_thread_id := thread_id;
     ag_last_message := None;
     ag_last_delta := None;
     ag_last_agent_message := None;
     ag_done := false;
     ag_recent := [];
     ag_recent_commands := [];
     ag_recent_stream := [];
     ag_history := [];
     ag_agent_buffer := "";
     ag_summary_buffer := "";
     ag_log_path :=
       path_join (run_log_dir run) ("agent-" ++ Py.str_of_Z index ++ ".log");
     ag_items := [];
     ag_queued_prompts := [];
     ag_review_thread := None |}.

(** [start_agent] *)
Definition start_agent (fuel : nat) (run : Run) (item : Spec) : M unit :=
  let index := sp_index item in
  let prompt := sp_prompt item in
  match sp_wait item with
  | Some (path, expected) =>
      wait_for_status fuel path expected (run_deadline run)
        (frontend_output (run_frontend run))
  | None => ret tt
  end ;;
  resp <- request "thread/start" (Some (cwd_params (args_cwd (run_args run)))) ;;
  thread_id <- response_thread_id resp ;;
  request "turn/start"
    (Some (JDict [("threadId", JStr thread_id);
                  ("input", build_turn_input prompt (args_cwd (run_args run)))])) ;;
  modify (fun s =>
            set_agents (dict_set thread_id (new_agent run index prompt thread_id)
                                 (agents s)) s) ;;
  match run_frontend run with
  | Plain =>
      emit (Printed ("[agent " ++ Py.str_of_Z index ++ "] started thread "
                     ++ thread_id))
  | Curses =>
      log_recent ("agent " ++ Py.str_of_Z index ++ " started thread " ++ thread_id)
  end.

(** [len([a for a in agents.values() if not a["done"]])] *)
Definition running_count (agents : list (string * Agent)) : Z :=
  Z.of_nat (List.length (filter (fun a => negb (ag_done a)) (dict_values agents))).

(** One iteration of the first [while] of [start_ready_agents], entered
    with [item :: rest] in [pending_prompts]: the item is popped, and
    started or kept in [remaining]. *)
Definition start_ready_iteration (fuel : nat) (run : Run) (item : Spec)
    (rest remaining : list Spec) (started_any : bool) : M (list Spec * bool) :=
  s <- get ;;
  modify (set_pending_prompts rest) ;;
  ready <- lift (deps_satisfied (sp_deps item) (agents s)) ;;
  if ready then
    start_agent fuel run item ;;
    ret (remaining, true)
  else ret ((remaining ++ [item])%list, started_any).

(** The first [while] of [start_ready_agents]: [queue] is
    [pending_prompts], which the loop pops in place. *)
Fixpoint start_ready_loop (fuel : nat) (run : Run) (queue : list Spec)
    (remaining : list Spec) (started_any : bool) : M (list Spec * bool) :=
  match queue with
  | [] => ret (remaining, started_any)
  | item :: rest =>
      s <- get ;;
      if (running_count (agents s) <? run_max_parallel run)%Z then
        r <- start_ready_iteration fuel run item rest remaining started_any ;;
        start_ready_loop fuel run rest (fst r) (snd r)
      else ret (remaining, started_any)
  end.

(** The end of [start_ready_agents]: what is left of [pending_prompts]
    goes behind [remaining], and the whole is the new queue. *)
Definition finish_pass (remaining : list Spec) (s : State) : State :=
  set_pending_prompts (remaining ++ pending_prompts s)%list s.

(** [start_ready_agents] *)
Definition start_ready_agents (fuel : nat) (run : Run) : M bool :=
  s <- get ;;
  r <- start_ready_loop fuel run (pending_prompts s) [] false ;;
  modify (finish_pass (fst r)) ;;
  ret (snd r).

(** *** Approval requests *)

(** The body of the loop of [run_curses] that drains the server's
    requests into the two approval queues. *)
Definition enqueue_approval (req : Request) : M unit :=
  let params :=
    match rq_params req with Some p => p | None => empty_req_params end in
  let from_params := Py.or_str (rp_threadId params) (rp_thread_id params) in
  let thread_id :=
    if Py.truthy_str from_params then Py.or_empty from_params else "unknown" in
  let entry :=
    {| en_req_id := rq_id req;
       en_method := rq_method req;
       en_params := params;
       en_thread_id := thread_id;
       en_amendment := json_or (rp_proposedExecpolicyAmendment params)
                               (rp_proposed_execpolicy_amendment params) |} in
  modify (fun s => set_approval_queue (approval_queue s ++ [entry])%list s) ;;
  s <- get ;;
  set_thread_queue thread_id (thread_queue_of thread_id s ++ [entry])%list ;;
  log_recent ("approval request: " ++ thread_id).

(** [colorize] *)
Definition colorize (text code : string) (enable : bool) : string :=
  if negb enable then text
  else String (ascii_of_nat 27) ("[" ++ code ++ "m" ++ text)
       ++ String (ascii_of_nat 27) "[0m".

Definition approval_question (method : string) : string :=
  if String.eqb method "item/commandExecution/requestApproval" then
    "approve? [a]ccept, [s]ession, [p]execpolicy, [d]ecline, [c]ancel: "
  else if String.eqb method "item/fileChange/requestApproval" then
    "approve? [a]ccept, [s]ession, [d]ecline, [c]cancel: "
  else "approve? [a]ccept, [d]ecline, [c]cancel: ".

(** The [while decision is None] loop of [prompt_approval]: [answers] are
    the lines the operator types, one per [input]. *)
Fixpoint ask_decision (answers : list string) (method : string)
    (amendment : json) : M json :=
  match answers with
  | [] => out_of_fuel
  | answer :: answers' =>
      emit (Printed (approval_question method)) ;;
      let choice := Py.lower (Py.strip answer) in
      match get_decision_payload method choice amendment with
      | Some decision => ret decision
      | None =>
          emit (Printed "invalid choice") ;;
          ask_decision answers' method amendment
      end
  end.

(** [prompt_approval], the line-oriented front end's approval dialogue. *)
Definition prompt_approval (req : Request) (use_color : bool)
    (answers : list string) : M unit :=
  let method := rq_method req in
  let params :=
    match rq_params req with Some p => p | None => empty_req_params end in
  let from_params := Py.or_str (rp_threadId params) (rp_thread_id params) in
  let thread_id :=
    if Py.truthy_str from_params then Py.or_empty from_params else "unknown" in
  let item_id := Py.or_str (rp_itemId params) (rp_item_id params) in
  emit (Printed (Py.nl ++ colorize "[approval] request" "33" use_color)) ;;
  emit (Printed ("method: " ++ method)) ;;
  emit (Printed ("thread: " ++ thread_id)) ;;
  when (Py.truthy_str item_id)
    (emit (Printed ("item: " ++ Py.or_empty item_id))) ;;
  when (Py.truthy_str (rp_reason params))
    (emit (Printed ("reason: " ++ Py.or_empty (rp_reason params)))) ;;
  s <- get ;;
  match dict_get thread_id (agents s) with
  | Some agent =>
      if Py.truthy_str item_id then
        match dict_get (Py.or_empty item_id) (ag_items agent) with
        | Some item => emit (Printed ("details: " ++ summarize_item item))
        | None => ret tt
        end
      else ret tt
  | None => ret tt
  end ;;
  let amendment :=
    json_or (rp_proposedExecpolicyAmendment params)
            (rp_proposed_execpolicy_amendment params) in
  decision <- ask_decision answers method amendment ;;
  respond (rq_id req) decision.

(** *** One turn of the control loop

    What the loops of [run_plain] and [run_curses] feed to the functions
    above: a scheduler pass; a request of the server, with the lines the
    operator then types at the approval dialogue (read by [run_plain]
    only); an event; or a line of the operator (a line of the standard
    input for [run_plain], the input buffer when Enter is pressed for
    [run_curses]). *)
Inductive Input : Type :=
| Tick
| ServerRequest (req : Request) (answers : list string)
| Incoming (event : Event)
| OperatorLine (line : string).

(** What [run_curses] does with the input buffer when Enter is pressed:
    a key alone that names an agent opens its history; [show], [back],
    [exit], [quit] and [dump] are answered by the front end itself; any
    other line goes to [handle_user_command]. *)
Definition curses_line (input_buffer : string) : M unit :=
  let line := Py.strip input_buffer in
  if negb (Py.nonempty line) then ret tt
  else
    opened <-
      (if negb (Py.contains " " line) && negb (Py.contains ":" line) then
         resolved <- resolve_known line ;;
         match resolved with
         | Some (thread_id, _) => emit (Viewed (Some thread_id)) ;; ret true
         | None => ret false
         end
       else ret false) ;;
    if (opened : bool) then ret tt
    else if Py.startswith "show " line then
      key <- second_word line ;;
      resolved <- resolve_known key ;;
      match resolved with
      | Some (thread_id, _) => emit (Viewed (Some thread_id))
      | None => log_recent ("Unknown agent '" ++ key ++ "'")
      end
    else if Py.in_strs line ["back"; "exit"; "quit"] then emit (Viewed None)
    else if Py.startswith "dump " line then
      key <- second_word line ;;
      resolved <- resolve_known key ;;
      match resolved with
      | Some (_, agent) =>
          log_recent ("agent " ++ Py.str_of_Z (ag_index agent) ++ " log: "
                      ++ ag_log_path agent)
      | None => ret tt
      end
    else handle_user_command line true true RecentLogsAppend.

(** One input of the loop.  [run_plain] asks the operator about each
    request of the server as it takes it from its queue, and passes the
    lines of the standard input, stripped by the reader thread, to
    [handle_user_command]; [run_curses] files the requests and reads the
    lines with [curses_line]. *)
Definition step (fuel : nat) (run : Run) (input : Input) : M unit :=
  match input with
  | Tick => start_ready_agents fuel run ;; ret tt
  | ServerRequest req answers =>
      match run_frontend run with
      | Plain => prompt_approval req (run_use_color run) answers
      | Curses => enqueue_approval req
      end
  | Incoming event => process_event event (run_args run) (run_log_dir run)
  | OperatorLine line =>
      match run_frontend run with
      | Plain => handle_user_command (Py.strip line) false false Print
      | Curses => curses_line line
      end
  end.

Fixpoint run_inputs (fuel : nat) (run : Run) (inputs : list Input) : M unit :=
  match inputs with
  | [] => ret tt
  | input :: inputs' => step fuel run input ;; run_inputs fuel run inputs'
  end.

End Program.

(** The state in which [run_plain] and [run_curses] enter their loop. *)
Definition initial_state (args : Args) (first_id : Z) : State :=
  {| agents := [];
     pending_prompts := enumerate_specs 1 (args_agent args);
     pending_reviews := [];
     approval_queue := [];
     approvals_by_thread := [];
     recent_logs := [];
     review_labels := [];
     review_written := [];
     next_id := first_id;
     trace := [] |}.

(** ** The specification's words, as definitions

    The definitions below are not part of the program: they state what the
    specification says, to be compared with the program's definitions. *)

(** A token the directive grammar recognises: [WAIT_FOR_STATUS:] with a
    [path|status] payload, or one of the three dependency spellings. *)
Definition is_directive (part : string) : bool :=
  let token := Py.strip part in
  (Py.startswith "WAIT_FOR_STATUS:" token
   && Py.contains "|" (directive_payload "WAIT_FOR_STATUS:" token))
  || Py.startswith "WAIT_FOR_AGENT_DONE:" token
  || Py.startswith "WAIT_FOR_AGENT:" token
  || Py.startswith "WAIT_FOR_AGENTS:" token.

(** The length of the directive run: the tokens before the first one
    that is not a recognised directive. *)
Fixpoint directive_run (parts : list string) : nat :=
  match parts with
  | [] => O
  | part :: rest => if is_directive part then S (directive_run rest) else O
  end.

(** The specification's ordered-list marker: digits followed immediately
    by a full stop. *)
Fixpoint is_ordered_marker (seen_digit : bool) (s : string) : bool :=
  match s with
  | EmptyString => false
  | String c s' =>
      if Py.isdigit_char c then is_ordered_marker true s'
      else seen_digit && Ascii.eqb c "."%char
  end.

Definition keeps_break_as_specified (after : string) : bool :=
  match after with
  | EmptyString => false
  | String c _ => is_list_marker c || is_ordered_marker false after
  end.

(** Text normalisation with the specification's rule for the single
    line break. *)
Fixpoint normalize_as_specified (text : string) : string :=
  match text with
  | EmptyString => EmptyString
  | String ch rest =>
      if Ascii.eqb ch "013"%char then normalize_as_specified rest
      else if Ascii.eqb ch "010"%char then
        match rest with
        | EmptyString => String " "%char (normalize_as_specified rest)
        | String c2 rest' =>
            if Ascii.eqb c2 "010"%char
            then String "010"%char (normalize_as_specified rest')
            else if keeps_break_as_specified (skip_blanks rest)
                 then String "010"%char (normalize_as_specified rest)
                 else String " "%char (normalize_as_specified rest)
        end
      else String ch (normalize_as_specified rest)
  end.

(** ** Reasoning about the program *)

(** [m] leaves [view] of the state as it found it, whatever its outcome. *)
Definition keeps {V A : Type} (view : State -> V) (m : M A) : Prop :=
  forall s, view (snd (m s)) = view s.

(** Run from [s], [m] ends with an outcome and a state in [Q]. *)
Definition wp {A : Type} (m : M A) (Q : outcome A -> State -> Prop)
    (s : State) : Prop :=
  Q (fst (m s)) (snd (m s)).

(** A view of the state that the bookkeeping of the supervisor does not
    touch: the recent-log deque, the request counter, the review labels,
    the pending reviews and the approval queues.  [quiet] are the effects
    and [inert] the agent updates the view does not see. *)
Class Frame {V : Type} (view : State -> V) : Type := {
  quiet : Effect -> Prop;
  inert : (Agent -> Agent) -> Prop;
  frame_trace :
    forall e s, quiet e -> view (set_trace (trace s ++ [e])%list s) = view s;
  frame_agents :
    forall tid f s a,
      inert f -> dict_get tid (agents s) = Some a ->
      view (set_agents (dict_set tid (f a) (agents s)) s) = view s;
  frame_recent_logs : forall v s, view (set_recent_logs v s) = view s;
  frame_next_id : forall v s, view (set_next_id v s) = view s;
  frame_review_labels : forall v s, view (set_review_labels v s) = view s;
  frame_pending_reviews : forall v s, view (set_pending_reviews v s) = view s;
  frame_approval_queue : forall v s, view (set_approval_queue v s) = view s;
  frame_approvals_by_thread :
    forall v s, view (set_approvals_by_thread v s) = view s;
  quiet_logged : forall path text, quiet (Logged path text);
  quiet_printed : forall text, quiet (Printed text);
  quiet_clock : forall now, quiet (ReadClock now);
  inert_display :
    forall f,
      (forall a, ag_done (f a) = ag_done a
                 /\ ag_queued_prompts (f a) = ag_queued_prompts a) ->
      inert f
}.

(** What scheduling depends on: for each agent, whether it is done and
    its queued follow-ups. *)
Definition dq (a : Agent) : bool * list string :=
  (ag_done a, ag_queued_prompts a).

Definition dq_view (s : State) : list (string * (bool * list string)) :=
  map (fun ka => (fst ka, dq (snd ka))) (agents s).

(** The number of agents not done, read off the view. *)
Definition running_view (v : list (string * (bool * list string))) : Z :=
  Z.of_nat (List.length (filter (fun kx => negb (fst (snd kx))) v)).

(** [done_means_drained], read off the view. *)
Definition drained_view (v : list (string * (bool * list string))) : Prop :=
  Forall (fun kx => fst (snd kx) = true -> snd (snd kx) = []) v.

(** The agents there are, and the queue of specs. *)
Definition keys_view (s : State) : list string * list Spec :=
  (map fst (agents s), pending_prompts s).

(** The review artifacts written for the review [rid]. *)
Definition is_artifact (rid : string) (e : Effect) : bool :=
  match e with
  | WroteReview r _ _ => String.eqb r rid
  | _ => false
  end.

Definition artifacts (rid : string) (s : State) : list Effect :=
  filter (is_artifact rid) (trace s).

Definition review_view (rid : string) (s : State) : list string * list Effect :=
  (review_written s, artifacts rid s).

(** ** The control loop, point by point

    The states the supervisor goes through are observed between two
    inputs ([Idle]) and, inside a pass of [start_ready_agents], before
    each test of its first loop ([InPass], with the loop's variables). *)

Inductive Point : Type :=
| Idle (s : State)
| InPass (queue remaining : list Spec) (started_any : bool) (s : State).

Definition point_state (p : Point) : State :=
  match p with
  | Idle s => s
  | InPass _ _ _ s => s
  end.

Definition is_tick (input : Input) : bool :=
  match input with
  | Tick => true
  | _ => false
  end.

(** One move of the loop; [allowed] are the inputs the environment may
    send.  A pass of the scheduler is the moves [move_begin], then
    [move_iteration] as long as the loop's test holds, then [move_end]. *)
Inductive move (env : Env) (fuel : nat) (run : Run) (allowed : Input -> Prop)
  : Point -> Point -> Prop :=
| move_input s input s' :
    allowed input -> is_tick input = false ->
    step env fuel run input s = (Ok tt, s') ->
    move env fuel run allowed (Idle s) (Idle s')
| move_begin s :
    allowed Tick ->
    move env fuel run allowed (Idle s) (InPass (pending_prompts s) [] false s)
| move_iteration item rest remaining started_any s r s' :
    (running_count (agents s) < run_max_parallel run)%Z ->
    start_ready_iteration env fuel run item rest remaining started_any s
    = (Ok r, s') ->
    move env fuel run allowed
      (InPass (item :: rest) remaining started_any s)
      (InPass rest (fst r) (snd r) s')
| move_end queue remaining started_any s :
    (queue = [] \/ (run_max_parallel run <= running_count (agents s))%Z) ->
    move env fuel run allowed
      (InPass queue remaining started_any s)
      (Idle (finish_pass remaining s)).

(** The points reached from [p] in any number of moves. *)
Inductive reach (env : Env) (fuel : nat) (run : Run) (allowed : Input -> Prop)
    (p : Point) : Point -> Prop :=
| reach_here : reach env fuel run allowed p p
| reach_move q r :
    reach env fuel run allowed p q -> move env fuel run allowed q r ->
    reach env fuel run allowed p r.

(** The inputs of a run in which the operator enters no line (the
    answers at an approval dialogue apart). *)
Definition unattended (input : Input) : Prop :=
  match input with
  | OperatorLine _ => False
  | _ => True
  end.

(** A done agent has no follow-up left in its queue. *)
Definition done_means_drained (s : State) : Prop :=
  Forall (fun ka => ag_done (snd ka) = true -> ag_queued_prompts (snd ka) = [])
         (agents s).

(** [l1] is [l2] with some elements left out, the order kept. *)
Inductive subseq {A : Type} : list A -> list A -> Prop :=
| subseq_nil : subseq [] []
| subseq_skip x l1 l2 : subseq l1 l2 -> subseq l1 (x :: l2)
| subseq_keep x l1 l2 : subseq l1 l2 -> subseq (x :: l1) (x :: l2).

Definition with_max_parallel (cap : Z) (run : Run) : Run :=
  {| run_frontend := run_frontend run; run_args := run_args run;
     run_deadline := run_deadline run; run_log_dir := run_log_dir run;
     run_max_parallel := cap; run_use_color := run_use_color run |}.

(** What the scheduler maintains: no more than [max_parallel] agents run
    (none at all, if [max_parallel] is negative), and a done agent has
    no follow-up left. *)
Definition within_cap (run : Run) (p : Point) : Prop :=
  (running_count (agents (point_state p)) <= Z.max 0 (run_max_parallel run))%Z
  /\ done_means_drained (point_state p).

(** Whether [inputs] are all in [allowed]. *)
Definition all_allowed (allowed : Input -> Prop) (inputs : list Input) : Prop :=
  Forall allowed inputs.

(** With [n] specs in all, the agents started and the specs still queued
    (or set aside by the pass in progress) are at most [n]. *)
Definition within_slots (n : nat) (p : Point) : Prop :=
  match p with
  | Idle s =>
      (List.length (agents s) + List.length (pending_prompts s) <= n)%nat
  | InPass queue remaining _ s =>
      pending_prompts s = queue
      /\ (List.length (agents s) + List.length queue + List.length remaining
          <= n)%nat
  end.

(** The specs that wait at a point: the queue, or what the pass in
    progress has not examined yet. *)
Definition waiting (p : Point) : list Spec :=
  match p with
  | Idle s => pending_prompts s
  | InPass queue _ _ _ => queue
  end.

(** Any input. *)
Definition any_input (input : Input) : Prop := True.

(** ** A sample world

    A server that answers the request numbered [n] with the thread [tn],
    a clock that advances with the trace, and no status file. *)

Definition sample_response (id : Z) : Response :=
  {| resp_result :=
       Some {| res_thread := Some {| th_id := Some ("t" ++ Py.str_of_Z id) |};
               res_reviewThreadId := None; res_review_thread_id := None;
               res_data := []; res_nextCursor := None; res_next_cursor := None |};
     resp_error := JNull |}.

Definition sample_env : Env :=
  {| reply := fun id => Some (sample_response id);
     clock := fun n => Z.of_nat n;
     readline := fun _ _ => None;
     path_exists := fun _ => false;
     expanduser := fun path => path;
     strftime := fun _ now => Py.str_of_Z now;
     shlex_split := fun line => inr (Py.split_ws line);
     str_format := fun template _ _ => Some template;
     py_str := fun _ => "" |}.

(** Three agents, at most two at a time; then with [--max-parallel 0]. *)
Definition sample_args : Args :=
  {| args_cwd := None; args_agent := ["one"; "two"; "three"];
     args_review := false; args_review_template := "";
     args_timeout := 60; args_max_parallel := Some 2%Z |}.

Definition sample_args_unlimited : Args :=
  {| args_cwd := None; args_agent := ["one"; "two"; "three"];
     args_review := false; args_review_template := "";
     args_timeout := 60; args_max_parallel := Some 0%Z |}.

Definition run_of (frontend : Frontend) (args : Args) : Run :=
  {| run_frontend := frontend; run_args := args; run_deadline := None;
     run_log_dir := "/logs"; run_max_parallel := effective_max_parallel args;
     run_use_color := false |}.

Definition sample_run : Run := run_of Curses sample_args.

Definition sample_run_unlimited : Run := run_of Curses sample_args_unlimited.

(** The event [turn/completed] of the thread [tid]. *)
Definition turn_completed (tid : string) : Event :=
  {| ev_method := Some "turn/completed";
     ev_params :=
       Some {| p_threadId := Some tid; p_thread_id := None; p_item := None;
               p_delta := None; p_message := None;
               p_turn := Value {| turn_status := Some "completed" |} |} |}.

(** A pass that starts the first two agents, the first one's completion,
    and the pass that starts the third. *)
Definition sample_inputs : list Input :=
  [Tick; Incoming (turn_completed "t2"); Tick].

(** The state after [inputs], from the start. *)
Definition sample_state (run : Run) (inputs : list Input) : State :=
  snd (run_inputs sample_env 1 run inputs (initial_state (run_args run) 2)).

(** The point of the loop after [inputs]. *)
Definition sample_point (run : Run) (inputs : list Input) : Point :=
  Idle (sample_state run inputs).

(** ** Review artifacts *)

(** [event] is an [item/completed] event of the thread [tid] whose item
    is an [exitedReviewMode] item with the id [rid] and the output
    [output]. *)
Definition exited_review_of (event : Event) (tid rid output : string)
    (item : Item) : Prop :=
  ev_method event = Some "item/completed"
  /\ (exists params,
        ev_params event = Some params
        /\ thread_id_from_params params = Some tid
        /\ p_item params = Some item)
  /\ item_type item = Some "exitedReviewMode"
  /\ item_id item = Some rid
  /\ item_review item = Some output.

(** One artifact for [rid] if [rid] is in [review_written], none
    otherwise. *)
Definition written_once (rid : string) (s : State) : Prop :=
  List.length (artifacts rid s)
  = if Py.in_strs rid (review_written s) then 1%nat else 0%nat.

(** The entry recorded for an artifact written at [path]. *)
Definition saved_entry (path : string) : string :=
  "review output saved: " ++ path.

(** The event [item/completed] of the thread [tid] for the item that
    leaves the review [rid] with [output]. *)
Definition exited_item (rid output : string) : Item :=
  {| item_id := Some rid; item_type := Some "exitedReviewMode";
     item_command := None; item_changes := []; item_toolName := None;
     item_review := Some output; item_text := Absent |}.

Definition exited_review (tid rid output : string) : Event :=
  {| ev_method := Some "item/completed";
     ev_params :=
       Some {| p_threadId := Some tid; p_thread_id := None;
               p_item := Some (exited_item rid output);
               p_delta := None; p_message := None; p_turn := Absent |} |}.

(** The first agent of the sample run, as [start_agent] stores it. *)
Definition sample_agent : Agent := new_agent sample_run 1 "one" "t2".

(** A pass, then the same review left three times. *)
Definition review_inputs : list Input :=
  [Tick; Incoming (exited_review "t2" "r1" "looks good");
   Incoming (exited_review "t2" "r1" "looks good");
   Incoming (exited_review "t2" "r1" "looks good")].

(** ** Readiness gates *)

Definition is_sent (e : Effect) : bool :=
  match e with
  | Sent _ => true
  | _ => false
  end.

(** [e] is a read of [path] whose first line, stripped, is [expected]. *)
Definition is_ready_read (path expected : string) (e : Effect) : bool :=
  match e with
  | ReadFile p (Some text) => String.eqb p path && String.eqb (Py.strip text) expected
  | _ => false
  end.

(** None of [effects] is a message to the server. *)
Definition nothing_sent (effects : list Effect) : bool :=
  forallb (fun e => negb (is_sent e)) effects.

(** [m] only adds to the trace. *)
Definition grows {A : Type} (m : M A) : Prop :=
  forall s, exists added, trace (snd (m s)) = (trace s ++ added)%list.

(** The first line of [path] is never [expected]. *)
Definition never_ready (env : Env) (path expected : string) : Prop :=
  forall n,
    match readline env n path with
    | Some text => String.eqb (Py.strip text) expected = false
    | None => True
    end.

(** A spec gated on the status file [/tmp/gate]. *)
Definition gated_spec : Spec :=
  {| sp_index := 1; sp_prompt := "work";
     sp_wait := Some ("/tmp/gate", "ready"); sp_deps := [] |}.

(** The sample world with the status file written: its first line is
    [ready]. *)
Definition ready_env : Env :=
  {| reply := reply sample_env; clock := clock sample_env;
     readline := fun _ _ => Some ("ready" ++ Py.nl);
     path_exists := path_exists sample_env; expanduser := expanduser sample_env;
     strftime := strftime sample_env; shlex_split := shlex_split sample_env;
     str_format := str_format sample_env; py_str := py_str sample_env |}.

(** What a wait adds to the trace, from [s] to [s'] with the outcome
    [r]: no message to the server, and a read of the expected status if
    the wait returns. *)
Definition gate_trace (path expected : string) (s : State)
    (r : outcome unit) (s' : State) : Prop :=
  exists added,
    trace s' = (trace s ++ added)%list
    /\ nothing_sent added = true
    /\ (r = Ok tt -> existsb (is_ready_read path expected) added = true).

(** [TimeoutError(f"waited for status '{expected}' in {path}")] *)
Definition wait_timeout (path expected : string) : exn :=
  TimeoutError ("waited for status '" ++ expected ++ "' in " ++ path).

(** The polls that surely reach a deadline [limit] from the state [s],
    when the clock advances. *)
Definition polls_until (env : Env) (limit : Z) (s : State) : nat :=
  S (Z.to_nat (limit - clock env (List.length (trace s)) + 1)).

(** ** Approvals *)

(** The state once [entry], the head of the global queue, is popped and
    removed from the queue of its thread. *)
Definition pop_approval (entry : Entry) (queue : list Entry) (s : State) : State :=
  let s1 := set_approval_queue queue s in
  let thread_queue := thread_queue_of (en_thread_id entry) s1 in
  if entry_in entry thread_queue
  then set_approvals_by_thread
         (dict_set (en_thread_id entry) (entry_remove entry thread_queue)
                   (approvals_by_thread s1)) s1
  else s1.

(** The response to the request [req_id]. *)
Definition response_to (req_id payload : json) : Effect :=
  Sent (JDict [("id", req_id); ("result", payload)]).

(** The tests of [handle_user_command] that come before a line is taken
    as addressed to an agent. *)
Definition is_builtin_command (line : string) : bool :=
  Py.in_strs line ["help"; "?"]
  || Py.in_strs line ["list"; "ls"]
  || Py.startswith "review" line
  || Py.startswith "threads" line
  || Py.in_strs line ["quit"; "exit"]
  || Py.startswith "show " line
  || Py.startswith "dump " line
  || Py.startswith "approve" line.

Definition is_printed (e : Effect) : bool :=
  match e with
  | Printed _ => true
  | _ => false
  end.

(** [m] returns, and only prints. *)
Definition prints (m : M unit) : Prop :=
  forall s,
    exists printed,
      m s = (Ok tt, set_trace (trace s ++ printed) s)
      /\ forallb is_printed printed = true.

(** What the dialogue of [prompt_approval] prints for the answers [bad],
    all refused, and the answer that follows them. *)
Definition dialogue (method : string) (bad : list string) : list Effect :=
  (flat_map (fun _ => [Printed (approval_question method);
                       Printed "invalid choice"]) bad
   ++ [Printed (approval_question method)])%list.

(** The amendment a request carries. *)
Definition request_amendment (req : Request) : json :=
  let params :=
    match rq_params req with Some p => p | None => empty_req_params end in
  json_or (rp_proposedExecpolicyAmendment params)
          (rp_proposed_execpolicy_amendment params).

(** A request for the approval of a command, from the thread [t2], and
    the entry [enqueue_approval] files for it. *)
Definition sample_request : Request :=
  {| rq_id := JNum 7;
     rq_method := "item/commandExecution/requestApproval";
     rq_params :=
       Some {| rp_threadId := Some "t2"; rp_thread_id := None;
               rp_itemId := None; rp_item_id := None; rp_reason := None;
               rp_proposedExecpolicyAmendment := JNull;
               rp_proposed_execpolicy_amendment := JNull |} |}.

Definition sample_entry : Entry :=
  {| en_req_id := JNum 7;
     en_method := "item/commandExecution/requestApproval";
     en_params :=
       {| rp_threadId := Some "t2"; rp_thread_id := None;
          rp_itemId := None; rp_item_id := None; rp_reason := None;
          rp_proposedExecpolicyAmendment := JNull;
          rp_proposed_execpolicy_amendment := JNull |};
     en_thread_id := "t2";
     en_amendment := JNull |}.

(** The sample run once the first pass is made and the request is
    filed. *)
Definition approval_state : State :=
  sample_state sample_run [Tick; ServerRequest sample_request []].

(** ** Follow-up prompts *)

(** The messages sent to the server so far. *)
Definition sent (s : State) : list Effect := filter is_sent (trace s).

(** What the bookkeeping of an agent's display leaves alone. *)
Definition agent_core (a : Agent)
  : Z * option string * string * bool * list string * option string :=
  (ag_index a, ag_cwd a, ag_thread_id a, ag_done a, ag_queued_prompts a,
   ag_last_message a).

(** From [s] to [s'] only the display of the agent [tid] was updated:
    nothing was sent, no request was numbered, and the agent kept its
    core. *)
Definition bookkeeping (tid : string) (s s' : State) : Prop :=
  sent s' = sent s
  /\ next_id s' = next_id s
  /\ pending_reviews s' = pending_reviews s
  /\ exists a a',
       dict_get tid (agents s) = Some a
       /\ agents s' = dict_set tid a' (agents s)
       /\ agent_core a' = agent_core a.

(** [m], run where the agent [tid] is known, returns and does
    bookkeeping only. *)
Definition keeps_books (tid : string) (m : M unit) : Prop :=
  forall s a,
    dict_get tid (agents s) = Some a ->
    fst (m s) = Ok tt /\ bookkeeping tid s (snd (m s)).

(** The request [turn/start] numbered [id]. *)
Definition turn_start (id : Z) (thread_id : string) (input : json) : Effect :=
  Sent (JDict [("id", JNum id); ("method", JStr "turn/start");
               ("params", JDict [("threadId", JStr thread_id);
                                 ("input", input)])]).

(** The requests [turn/start] that dispatch [prompts], one after the
    other, numbered from [id]. *)
Fixpoint dispatches (env : Env) (id : Z) (thread_id : string)
    (cwd : option string) (prompts : list string) : list Effect :=
  match prompts with
  | [] => []
  | prompt :: prompts' =>
      turn_start id thread_id (build_turn_input env prompt cwd)
      :: dispatches env (id + 1) thread_id cwd prompts'
  end.

(** [n] events in a row. *)
Fixpoint process_events (env : Env) (event : Event) (args : Args)
    (log_dir : string) (n : nat) : M unit :=
  match n with
  | O => ret tt
  | S n' =>
      process_event env event args log_dir ;;
      process_events env event args log_dir n'
  end.

(** The state [s] seen from [s0]: what was sent since, and the core of
    the agent [tid]; the requests sent since are numbered from
    [next_id s0], and the other agents are as in [s0]. *)
Definition tracked (tid : string) (s0 : State) (added : list Effect)
    (core : Z * option string * string * bool * list string * option string)
    (s : State) : Prop :=
  sent s = (sent s0 ++ added)%list
  /\ next_id s = (next_id s0 + Z.of_nat (List.length added))%Z
  /\ pending_reviews s = pending_reviews s0
  /\ exists a, agents s = dict_set tid a (agents s0) /\ agent_core a = core.

(** The core of an agent, with its flag or its queue replaced. *)
Definition with_done (done : bool)
    (core : Z * option string * string * bool * list string * option string)
  : Z * option string * string * bool * list string * option string :=
  let '(index, cwd, thread_id, _, queue, last_message) := core in
  (index, cwd, thread_id, done, queue, last_message).

Definition with_queue (f : list string -> list string)
    (core : Z * option string * string * bool * list string * option string)
  : Z * option string * string * bool * list string * option string :=
  let '(index, cwd, thread_id, done, queue, last_message) := core in
  (index, cwd, thread_id, done, f queue, last_message).

(** [event] is the event [turn/completed] of the thread [tid]. *)
Definition turn_completed_of (event : Event) (tid : string) : Prop :=
  ev_method event = Some "turn/completed"
  /\ exists params,
       ev_params event = Some params /\ thread_id_from_params params = Some tid.

(** The [turn] of the event is absent or an object: it is not null. *)
Definition turn_not_null (event : Event) : Prop :=
  forall params, ev_params event = Some params -> p_turn params <> Null.

(** The sample run after its first pass and two prompts typed for the
    first agent while it runs, and that agent then. *)
Definition queued_state : State :=
  sample_state sample_run
    [Tick; OperatorLine "1 again"; OperatorLine "1 and again"].

Definition queued_agent : Agent :=
  match dict_get "t2" (agents queued_state) with
  | Some agent => agent
  | None => sample_agent
  end.

(** The line [line] addresses [prompt] to the agent [head]:
    [<head>: <prompt>] or [<head> <prompt>]. *)
Definition addressed_to (line head prompt : string) : Prop :=
  (Py.contains ":" line = true
   /\ exists h p,
        Py.split1 ":" line = [h; p] /\ head = Py.strip h /\ prompt = Py.strip p)
  \/ (Py.contains ":" line = false /\ Py.split_ws1 line = [head; prompt]).

(** ** Dependencies *)

(** The dependency [dep] names a done agent: by its index if [dep] is
    made of digits, by its exact name otherwise. *)
Definition dep_done (agents : list (string * Agent)) (dep : string) : Prop :=
  exists agent,
    In agent (dict_values agents)
    /\ ag_done agent = true
    /\ if Py.isdigit dep then Py.int dep = Some (ag_index agent)
       else ag_name agent = Some dep /\ Py.nonempty dep = true.

(** The spec waits for some agent. *)
Definition has_deps (item : Spec) : Prop := sp_deps item <> [].

(** No agent is started, and every spec in the queue (or set aside by
    the pass in progress) waits for some agent. *)
Definition all_wait (p : Point) : Prop :=
  agents (point_state p) = []
  /\ Forall has_deps (pending_prompts (point_state p))
  /\ match p with
     | Idle _ => True
     | InPass queue remaining _ s =>
         pending_prompts s = queue /\ Forall has_deps remaining
     end.

(** Two specs that wait for each other. *)
Definition circular_args : Args :=
  {| args_cwd := None;
     args_agent := ["WAIT_FOR_AGENT:2||one"; "WAIT_FOR_AGENT:1||two"];
     args_review := false; args_review_template := "";
     args_timeout := 60; args_max_parallel := None |}.

(** ** Addressing an agent *)

(** A key made of digits that [int] refuses: it passes [isdigit], and
    one of its characters is not a decimal digit (a superscript). *)
Definition odd_digits (key : string) : Prop :=
  Py.isdigit (normalize_agent_key key) = true
  /\ Py.int (normalize_agent_key key) = None.

(** The superscript two. *)
Definition superscript_two : string := String (ascii_of_nat 178) "".

(** ** File names *)

(** A character that [sanitize_filename_component] keeps where it is:
    one of [A-Za-z0-9.-]. *)
Definition is_kept_char (c : ascii) : bool :=
  is_filename_char c && negb (Ascii.eqb c "_"%char).


(** ** Stopping an agent *)

(** The request [turn/cancel] numbered [id]. *)
Definition turn_cancel (id : Z) (thread_id : string) : Effect :=
  Sent (JDict [("id", JNum id); ("method", JStr "turn/cancel");
               ("params", JDict [("threadId", JStr thread_id)])]).

(** The prompt made of [<agent> stop <reason>]. *)
Definition stop_prompt (prompt : string) : string :=
  "Stop: "
  ++ (if Py.nonempty (Py.strip (Py.drop 4 prompt))
      then Py.strip (Py.drop 4 prompt)
      else "stop current task and report status").

(** The server answers the request numbered [id], and without an
    error. *)
Definition answered_without_error (env : Env) (id : Z) : bool :=
  match reply env id with
  | Some resp => negb (truthy (resp_error resp))
  | None => false
  end.

(** A server that answers nothing. *)
Definition silent_env : Env :=
  {| reply := fun _ => None;
     clock := clock sample_env;
     readline := readline sample_env;
     path_exists := path_exists sample_env;
     expanduser := expanduser sample_env;
     strftime := strftime sample_env;
     shlex_split := shlex_split sample_env;
     str_format := str_format sample_env;
     py_str := py_str sample_env |}.

(** The sample run once its first agent has finished its turn. *)
Definition idle_state : State :=
  sample_state sample_run [Tick; Incoming (turn_completed "t2")].

Definition idle_agent : Agent :=
  match dict_get "t2" (agents idle_state) with
  | Some agent => agent
  | None => sample_agent
  end.

(** ** A pass of the scheduler, as a whole *)

(** The trace of [s'] is the trace of [s] with effects added. *)
Definition extends (s s' : State) : Prop :=
  exists added, trace s' = (trace s ++ added)%list.

(** Between [s] and [s'] a [turn/start] was sent for the prompt of
    [item]: the spec was started. *)
Definition turn_started (env : Env) (run : Run) (s s' : State) (item : Spec)
  : Prop :=
  exists before id thread_id after,
    trace s'
    = (trace s ++ before
       ++ turn_start id thread_id
            (build_turn_input env (sp_prompt item) (args_cwd (run_args run)))
       :: after)%list.

(** What the parts of [start_agent] that store no agent leave alone. *)
Definition queue_view (s : State) : list (string * Agent) * list Spec :=
  (agents s, pending_prompts s).

(** No agent of [agents'] is done that was not already so in [agents]. *)
Definition no_new_done (agents agents' : list (string * Agent)) : Prop :=
  forall agent,
    In agent (dict_values agents') -> ag_done agent = true ->
    In agent (dict_values agents).

(** How a pass sorts the specs it examines, in their order: each one is
    started, or is set aside because it is blocked. *)
Inductive sorted_out (is_started is_blocked : Spec -> Prop)
  : list Spec -> list Spec -> Prop :=
| sorted_nil : sorted_out is_started is_blocked [] []
| sorted_started item examined blocked :
    is_started item ->
    sorted_out is_started is_blocked examined blocked ->
    sorted_out is_started is_blocked (item :: examined) blocked
| sorted_blocked item examined blocked :
    is_blocked item ->
    sorted_out is_started is_blocked examined blocked ->
    sorted_out is_started is_blocked (item :: examined) (item :: blocked).

(** What a pass of [start_ready_agents] from [s] to [s'] has done with
    the queue.  It examined the specs at the front, [examined], and left
    the others, [unexamined], because the cap was reached.  Each spec it
    examined was started, or set aside with its dependencies not
    satisfied; the new queue is the specs set aside, in their order,
    followed by the specs not examined. *)
Definition pass_outcome (env : Env) (run : Run) (s s' : State) : Prop :=
  exists examined unexamined blocked,
    pending_prompts s = (examined ++ unexamined)%list
    /\ pending_prompts s' = (blocked ++ unexamined)%list
    /\ sorted_out (turn_started env run s s')
         (fun item => deps_satisfied (sp_deps item) (agents s') = inr false)
         examined blocked
    /\ (unexamined <> [] ->
        (run_max_parallel run <= running_count (agents s'))%Z).

(** Two agents, one at a time; the first one finishes, the second one is
    started, and the operator sends a prompt to the first. *)
Definition capped_args : Args :=
  {| args_cwd := None; args_agent := ["one"; "two"];
     args_review := false; args_review_template := "";
     args_timeout := 60; args_max_parallel := Some 1%Z |}.

Definition capped_run : Run := run_of Curses capped_args.

Definition capped_inputs : list Input :=
  [Tick; Incoming (turn_completed "t2"); Tick; OperatorLine "1 again"].

(** Two specs, the second one waiting for the first: the pass starts the
    first and sets the second aside. *)
Definition chained_args : Args :=
  {| args_cwd := None; args_agent := ["one"; "WAIT_FOR_AGENT:1||two"];
     args_review := false; args_review_template := "";
     args_timeout := 60; args_max_parallel := None |}.

Definition chained_run : Run := run_of Curses chained_args.

(** ** A completion without a turn *)

(** The event [turn/completed] of the thread [tid] whose [turn] is
    null. *)
Definition turn_completed_null (tid : string) : Event :=
  {| ev_method := Some "turn/completed";
     ev_params :=
       Some {| p_threadId := Some tid; p_thread_id := None; p_item := None;
               p_delta := None; p_message := None; p_turn := Null |} |}.

(** ** A review left more than once *)

(** [event] is an [item/completed] event of the thread [tid] whose item
    is an [exitedReviewMode] item with the id [rid] and an output that
    is not empty. *)
Definition leaves_review (tid rid : string) (event : Event) : Prop :=
  exists output item,
    exited_review_of event tid rid output item /\ Py.nonempty output = true.

(** ** Follow-ups and the other events *)

(* ================================================================== *)
(** * Part II: properties *)
(* ================================================================== *)

(** ** Strings *)

Module PyFacts.

Lemma append_nil_r (s : string) : s ++ "" = s.
Proof. induction s as [|c s IH]; simpl; [reflexivity | now rewrite IH]. Qed.

Lemma append_assoc (a b c : string) : (a ++ b) ++ c = a ++ (b ++ c).
Proof. induction a as [|x a IH]; simpl; [reflexivity | now rewrite IH]. Qed.

Lemma prefix_drop (p s : string) :
  String.prefix p s = true -> s = p ++ Py.drop (String.length p) s.
Proof.
  revert s. induction p as [|c p IH]; intros s H; simpl.
  - reflexivity.
  - destruct s as [|d s]; simpl in H; [discriminate|].
    destruct (Ascii.ascii_dec c d) as [->|Hne]; [|discriminate].
    simpl. f_equal. now apply IH.
Qed.

Lemma split_go_not_nil fuel sep s cur : Py.split_go fuel sep s cur <> [].
Proof.
  revert s cur. induction fuel as [|fuel IH]; intros s cur; simpl.
  - discriminate.
  - destruct s as [|c s]; [discriminate|].
    destruct (String.prefix sep (String c s)); [discriminate | apply IH].
Qed.

Lemma concat_cons sep x l :
  l <> [] -> String.concat sep (x :: l) = x ++ sep ++ String.concat sep l.
Proof. destruct l; [congruence | reflexivity]. Qed.

(** Joining the tokens of a split gives the text back. *)
Lemma join_split_go fuel sep s cur :
  Py.join sep (Py.split_go fuel sep s cur) = cur ++ s.
Proof.
  unfold Py.join. revert s cur.
  induction fuel as [|fuel IH]; intros s cur; simpl.
  - reflexivity.
  - destruct s as [|c s].
    + simpl. now rewrite append_nil_r.
    + destruct (String.prefix sep (String c s)) eqn:Hp.
      * rewrite concat_cons by apply split_go_not_nil.
        rewrite IH. simpl. f_equal.
        now rewrite <- (prefix_drop _ _ Hp).
      * rewrite IH, append_assoc. reflexivity.
Qed.

Lemma join_split sep s : Py.join sep (Py.split sep s) = s.
Proof. unfold Py.split. now rewrite join_split_go. Qed.

Lemma split_not_nil sep s : Py.split sep s <> [].
Proof. apply split_go_not_nil. Qed.

(** A join of two runs of tokens is the join of the first, the separator
    and the join of the second. *)
Lemma join_app sep (l1 l2 : list string) :
  l1 <> [] -> l2 <> [] ->
  Py.join sep (l1 ++ l2) = Py.join sep l1 ++ sep ++ Py.join sep l2.
Proof.
  unfold Py.join. intros H1 H2.
  induction l1 as [|x l1 IH]; [congruence|].
  destruct l1 as [|y l1].
  - simpl app. now rewrite concat_cons.
  - change ((x :: y :: l1) ++ l2)%list with (x :: ((y :: l1) ++ l2))%list.
    rewrite concat_cons by discriminate.
    rewrite IH by discriminate.
    rewrite (concat_cons sep x (y :: l1)) by discriminate.
    now rewrite !append_assoc.
Qed.

Lemma contains_partition sep s :
  Py.contains sep s = true ->
  exists a b, Py.partition_at sep s = Some (a, b).
Proof.
  induction s as [|c s IH]; cbn [Py.contains Py.partition_at]; intros H.
  - destruct (String.prefix sep ""); [eauto | discriminate].
  - destruct (String.prefix sep (String c s)); [eauto|].
    cbn [orb] in H. destruct (IH H) as (a & b & ->). eauto.
Qed.

Lemma contains_split1 sep s :
  Py.contains sep s = true -> exists a b, Py.split1 sep s = [a; b].
Proof.
  intros H. unfold Py.split1.
  destruct (contains_partition _ _ H) as (a & b & ->). eauto.
Qed.

End PyFacts.

(** ** Directive parsing *)

Module DirectiveFacts.

Import PyFacts.

(** A recognised directive is consumed: the loop goes on with the rest. *)
Lemma directive_loop_consumes part rest wait deps :
  is_directive part = true ->
  exists wait' deps',
    directive_loop (part :: rest) wait deps = directive_loop rest wait' deps'.
Proof.
  unfold is_directive. cbn [directive_loop]. cbv zeta.
  set (token := Py.strip part).
  destruct (Py.startswith "WAIT_FOR_STATUS:" token) eqn:Hs;
    [destruct (Py.contains "|" (directive_payload "WAIT_FOR_STATUS:" token)) eqn:Hc|];
    cbn [andb orb].
  - intros _. destruct (contains_split1 _ _ Hc) as (a & b & ->). eauto.
  - intros H.
    destruct (Py.startswith "WAIT_FOR_AGENT_DONE:" token); [eauto|].
    destruct (Py.startswith "WAIT_FOR_AGENT:" token); [eauto|].
    destruct (Py.startswith "WAIT_FOR_AGENTS:" token); [eauto | discriminate].
  - intros H.
    destruct (Py.startswith "WAIT_FOR_AGENT_DONE:" token); [eauto|].
    destruct (Py.startswith "WAIT_FOR_AGENT:" token); [eauto|].
    destruct (Py.startswith "WAIT_FOR_AGENTS:" token); [eauto | discriminate].
Qed.

(** Any other token ends the loop, and it stays in [body_parts] with all
    the tokens after it. *)
Lemma directive_loop_stops part rest wait deps :
  is_directive part = false ->
  directive_loop (part :: rest) wait deps = (part :: rest, wait, deps).
Proof.
  unfold is_directive. cbn [directive_loop]. cbv zeta.
  set (token := Py.strip part).
  destruct (Py.startswith "WAIT_FOR_AGENT_DONE:" token);
    [rewrite ?orb_true_r; cbn [orb]; rewrite ?orb_true_r; discriminate|].
  destruct (Py.startswith "WAIT_FOR_AGENT:" token);
    [rewrite ?orb_true_r; cbn [orb]; rewrite ?orb_true_r; discriminate|].
  destruct (Py.startswith "WAIT_FOR_AGENTS:" token);
    [rewrite ?orb_true_r; discriminate|].
  rewrite !orb_false_r.
  destruct (Py.startswith "WAIT_FOR_STATUS:" token); [|reflexivity].
  cbn [andb]. now intros ->.
Qed.

(** The loop leaves in [body_parts] exactly the tokens after the directive
    run. *)
Lemma directive_loop_run parts :
  forall wait deps,
  exists wait' deps',
    directive_loop parts wait deps
    = (skipn (directive_run parts) parts, wait', deps').
Proof.
  induction parts as [|part rest IH]; intros wait deps.
  - simpl. eauto.
  - cbn [directive_run]. destruct (is_directive part) eqn:Hd.
    + destruct (directive_loop_consumes part rest wait deps Hd) as (w & d & ->).
      cbn [skipn]. apply IH.
    + rewrite directive_loop_stops by assumption. cbn [skipn]. eauto.
Qed.

(** Tokens that are all consumed only add to the wait gate and the
    dependency list of what follows. *)
Lemma directive_loop_app before :
  forall l wait deps wait' deps',
  directive_loop before wait deps = ([], wait', deps') ->
  directive_loop (before ++ l) wait deps = directive_loop l wait' deps'.
Proof.
  induction before as [|part rest IH]; intros l wait deps wait' deps' H.
  - simpl in H. injection H as <- <-. reflexivity.
  - destruct (is_directive part) eqn:Hd.
    + destruct (directive_loop_consumes part rest wait deps Hd) as (w & d & E).
      destruct (directive_loop_consumes part (rest ++ l) wait deps Hd)
        as (w2 & d2 & E2).
      (* both unfoldings take the same branch *)
      revert E E2 H. unfold is_directive in Hd.
      cbn [directive_loop app]. cbv zeta.
      set (token := Py.strip part) in *.
      destruct (Py.startswith "WAIT_FOR_STATUS:" token);
        [destruct (Py.contains "|" (directive_payload "WAIT_FOR_STATUS:" token))
           eqn:Hc|].
      * destruct (contains_split1 _ _ Hc) as (a & b & ->).
        intros _ _ H. now apply IH.
      * cbn [andb orb] in Hd.
        destruct (Py.startswith "WAIT_FOR_AGENT_DONE:" token);
          [intros _ _ H; now apply IH|].
        destruct (Py.startswith "WAIT_FOR_AGENT:" token);
          [intros _ _ H; now apply IH|].
        destruct (Py.startswith "WAIT_FOR_AGENTS:" token);
          [intros _ _ H; now apply IH | discriminate].
      * cbn [andb orb] in Hd.
        destruct (Py.startswith "WAIT_FOR_AGENT_DONE:" token);
          [intros _ _ H; now apply IH|].
        destruct (Py.startswith "WAIT_FOR_AGENT:" token);
          [intros _ _ H; now apply IH|].
        destruct (Py.startswith "WAIT_FOR_AGENTS:" token);
          [intros _ _ H; now apply IH | discriminate].
    + rewrite directive_loop_stops in H by assumption. discriminate.
Qed.

Lemma directive_run_firstn parts :
  Forall (fun p => is_directive p = true) (firstn (directive_run parts) parts).
Proof.
  induction parts as [|part rest IH]; simpl; [constructor|].
  destruct (is_directive part) eqn:Hd; simpl; [|constructor].
  constructor; assumption.
Qed.

Lemma directive_run_skipn parts tok rest :
  skipn (directive_run parts) parts = tok :: rest -> is_directive tok = false.
Proof.
  induction parts as [|part more IH]; simpl; [discriminate|].
  destruct (is_directive part) eqn:Hd; simpl.
  - exact IH.
  - intros H. injection H as <- _. exact Hd.
Qed.

Lemma extract_directives_body prompt :
  fst (fst (extract_directives prompt))
  = Py.strip (Py.join "||"
                (skipn (directive_run (Py.split "||" prompt))
                       (Py.split "||" prompt))).
Proof.
  unfold extract_directives.
  destruct (directive_loop_run (Py.split "||" prompt) None []) as (w & d & ->).
  reflexivity.
Qed.

(** C4, the example of the specification. *)
Lemma extract_directives_example :
  extract_directives
    "WAIT_FOR_AGENT:1,2||WAIT_FOR_STATUS:/tmp/x|ready||do the work"
  = ("do the work", Some ("/tmp/x", "ready"), ["1"; "2"]).
Proof. vm_compute. reflexivity. Qed.

(** C4 (as amended).  On the specification's example [extract_directives]
    returns the body ["do the work"], the dependencies [["1"; "2"]] and the
    wait gate [("/tmp/x", "ready")].  For every prompt, the tokens before
    the first one that is not a recognised directive are all consumed, that
    token ends the run, and the body is the remaining tokens rejoined with
    the delimiter and then stripped of surrounding whitespace: the
    rejoined text is literally the rest of the prompt, so every further
    delimiter in it is kept. *)
Theorem C4_extract_directives :
  extract_directives
    "WAIT_FOR_AGENT:1,2||WAIT_FOR_STATUS:/tmp/x|ready||do the work"
  = ("do the work", Some ("/tmp/x", "ready"), ["1"; "2"])
  /\ forall prompt : string,
       Forall (fun p => is_directive p = true)
              (firstn (directive_run (Py.split "||" prompt)) (Py.split "||" prompt))
       /\ (forall tok rest,
             skipn (directive_run (Py.split "||" prompt)) (Py.split "||" prompt)
             = tok :: rest ->
             is_directive tok = false)
       /\ fst (fst (extract_directives prompt))
          = Py.strip (Py.join "||"
                        (skipn (directive_run (Py.split "||" prompt))
                               (Py.split "||" prompt)))
       /\ (firstn (directive_run (Py.split "||" prompt)) (Py.split "||" prompt) <> [] ->
           skipn (directive_run (Py.split "||" prompt)) (Py.split "||" prompt) <> [] ->
           prompt
           = Py.join "||"
               (firstn (directive_run (Py.split "||" prompt)) (Py.split "||" prompt))
             ++ "||"
             ++ Py.join "||"
                  (skipn (directive_run (Py.split "||" prompt)) (Py.split "||" prompt)))
       /\ (directive_run (Py.split "||" prompt) = O ->
           fst (fst (extract_directives prompt)) = Py.strip prompt).
Proof.
  split; [exact extract_directives_example|].
  intros prompt. repeat split.
  - apply directive_run_firstn.
  - apply directive_run_skipn.
  - apply extract_directives_body.
  - intros H1 H2. rewrite <- join_app by assumption.
    now rewrite firstn_skipn, join_split.
  - intros H0. rewrite extract_directives_body, H0. cbn [skipn].
    now rewrite join_split.
Qed.

(** C4, as the specification states it, fails: the body is not the
    rejoined tokens verbatim, the whitespace around them is removed. *)
Lemma C4_body_not_verbatim :
  Py.join "||"
    (skipn (directive_run (Py.split "||" "WAIT_FOR_AGENT:1|| x||y "))
           (Py.split "||" "WAIT_FOR_AGENT:1|| x||y "))
  = " x||y "
  /\ fst (fst (extract_directives "WAIT_FOR_AGENT:1|| x||y ")) = "x||y".
Proof. vm_compute. split; reflexivity. Qed.

(** C9.  A [WAIT_FOR_STATUS:] token whose payload has no [|] is not
    consumed: when the tokens before it are all consumed directives, the
    loop stops at it, the body is that token and everything after it
    (rejoined and stripped), and the wait gate and the dependencies are
    those the earlier tokens set. *)
Theorem C9_malformed_wait_for_status_is_body :
  forall prompt before tok rest wait deps,
    Py.split "||" prompt = (before ++ tok :: rest)%list ->
    directive_loop before None [] = ([], wait, deps) ->
    Py.startswith "WAIT_FOR_STATUS:" (Py.strip tok) = true ->
    Py.contains "|" (directive_payload "WAIT_FOR_STATUS:" (Py.strip tok)) = false ->
    is_directive tok = false
    /\ directive_loop (tok :: rest) wait deps = (tok :: rest, wait, deps)
    /\ extract_directives prompt
       = (Py.strip (Py.join "||" (tok :: rest)), wait, deps).
Proof.
  intros prompt before tok rest wait deps Hsplit Hbefore Hs Hc.
  assert (Hd : is_directive tok = false).
  { unfold is_directive. rewrite Hs, Hc. cbn [andb orb].
    (* a token that starts with WAIT_FOR_STATUS: starts with no other prefix *)
    unfold Py.startswith in *.
    rewrite (prefix_drop _ _ Hs). reflexivity. }
  split; [exact Hd|].
  split; [now apply directive_loop_stops|].
  unfold extract_directives. rewrite Hsplit.
  rewrite (directive_loop_app before _ _ _ _ _ Hbefore).
  rewrite directive_loop_stops by assumption. reflexivity.
Qed.

(** A prompt to which C9 applies. *)
Lemma C9_witness :
  extract_directives "WAIT_FOR_AGENT:1||WAIT_FOR_STATUS:/tmp/x||do||more"
  = ("WAIT_FOR_STATUS:/tmp/x||do||more", None, ["1"]).
Proof.
  apply (C9_malformed_wait_for_status_is_body
           "WAIT_FOR_AGENT:1||WAIT_FOR_STATUS:/tmp/x||do||more"
           ["WAIT_FOR_AGENT:1"] "WAIT_FOR_STATUS:/tmp/x" ["do"; "more"]
           None ["1"]);
    vm_compute; reflexivity.
Defined.

End DirectiveFacts.

(** ** Approval decisions *)

Module DecisionFacts.

(** C1.  For each of the five choices and each method family
    [get_decision_payload] gives the documented encoding: a legacy method
    ([applyPatchApproval], [execCommandApproval]) gets [approved],
    [approved_for_session], [approved_execpolicy_amendment], [denied],
    [abort]; any other method gets [accept], [acceptForSession],
    [acceptWithExecpolicyAmendment], [decline], [cancel].  The choice [p]
    gives a payload exactly when the amendment carried by the request is
    true, and none when the request carried no amendment; any other
    choice gives none. *)
Theorem C1_get_decision_payload_encoding :
  forall (method : string) (amendment : json),
    let legacy :=
      String.eqb method "applyPatchApproval"
      || String.eqb method "execCommandApproval" in
    get_decision_payload method "a" amendment
    = Some (JDict [("decision", JStr (if legacy then "approved" else "accept"))])
    /\ get_decision_payload method "s" amendment
       = Some (JDict [("decision",
                       JStr (if legacy then "approved_for_session"
                             else "acceptForSession"))])
    /\ get_decision_payload method "p" amendment
       = (if truthy amendment then
            Some (JDict [("decision",
                          if legacy then
                            JDict [("approved_execpolicy_amendment",
                                    JDict [("proposed_execpolicy_amendment",
                                            amendment)])]
                          else
                            JDict [("acceptWithExecpolicyAmendment",
                                    JDict [("execpolicyAmendment", amendment)])])])
          else None)
    /\ get_decision_payload method "p" JNull = None
    /\ get_decision_payload method "d" amendment
       = Some (JDict [("decision", JStr (if legacy then "denied" else "decline"))])
    /\ get_decision_payload method "c" amendment
       = Some (JDict [("decision", JStr (if legacy then "abort" else "cancel"))])
    /\ forall choice,
         Py.in_strs choice choices = false ->
         get_decision_payload method choice amendment = None.
Proof.
  intros method amendment legacy.
  assert (E : Py.in_strs method ["applyPatchApproval"; "execCommandApproval"]
              = legacy).
  { unfold legacy, Py.in_strs. cbn [existsb]. now rewrite orb_false_r. }
  unfold get_decision_payload, decision. rewrite E.
  split; [destruct legacy; reflexivity|].
  split; [destruct legacy; reflexivity|].
  split; [destruct (truthy amendment), legacy; reflexivity|].
  split; [destruct legacy; reflexivity|].
  split; [destruct legacy; reflexivity|].
  split; [destruct legacy; reflexivity|].
  intros choice Hc. unfold Py.in_strs, choices in Hc. cbn [existsb] in Hc.
  rewrite !orb_false_iff in Hc.
  destruct Hc as (Ha & Hs & Hp & Hd & Hcc & _).
  now rewrite Ha, Hs, Hp, Hd, Hcc.
Qed.

End DecisionFacts.

(** ** Text normalisation *)

Module NormalizeFacts.

(** The examples of the specification. *)
Lemma normalize_examples :
  normalize_summary_text ("a" ++ Py.nl ++ "b") = "a b"
  /\ normalize_summary_text ("a" ++ Py.nl ++ Py.nl ++ "b") = "a" ++ Py.nl ++ "b"
  /\ normalize_summary_text ("a" ++ Py.nl ++ "- item") = "a" ++ Py.nl ++ "- item"
  /\ normalize_summary_text ("a" ++ Py.nl ++ "1. item") = "a" ++ Py.nl ++ "1. item"
  /\ normalize_summary_text Py.cr = ""
  /\ normalize_summary_text ("a" ++ Py.cr ++ "b") = "ab".
Proof. vm_compute. repeat split; reflexivity. Qed.

(** No carriage return survives. *)
Lemma normalize_drops_cr text :
  Py.contains Py.cr (normalize_summary_text text) = false.
Proof.
  assert (step : forall c s, Ascii.eqb c "013"%char = false ->
                   Py.contains Py.cr s = false ->
                   Py.contains Py.cr (String c s) = false).
  { intros c s Hc Hs. cbn [Py.contains]. rewrite Hs, orb_false_r.
    unfold Py.cr. cbn [String.prefix].
    destruct (ascii_dec "013" c) as [<-|]; [discriminate | reflexivity]. }
  assert (strong : forall n text, (String.length text <= n)%nat ->
            Py.contains Py.cr (normalize_summary_text text) = false).
  { clear text. induction n as [|n IH]; intros text Hn.
    - destruct text; [reflexivity | simpl in Hn; lia].
    - destruct text as [|ch rest]; [reflexivity|].
      simpl in Hn. cbn [normalize_summary_text].
      destruct (Ascii.eqb ch "013") eqn:Hcr; [apply IH; lia|].
      destruct (Ascii.eqb ch "010") eqn:Hnl.
      + destruct rest as [|c2 rest'].
        * apply step; [reflexivity | apply IH; simpl; lia].
        * destruct (Ascii.eqb c2 "010").
          -- apply step; [reflexivity | apply IH; simpl in *; lia].
          -- destruct (keeps_break (skip_blanks (String c2 rest')));
               (apply step; [reflexivity | apply IH; simpl in *; lia]).
      + apply step; [assumption | apply IH; lia]. }
  apply (strong (String.length text)). lia.
Qed.

(** The program agrees with the specification's rule wherever no ordered
    marker has more than one digit: on a text whose every digit is
    followed by a character that is not a digit. *)
Lemma keeps_break_single_digit after :
  (forall c d rest, after = String c (String d rest) ->
                    Py.isdigit_char c = true -> Py.isdigit_char d = false) ->
  keeps_break after = keeps_break_as_specified after.
Proof.
  intros H. destruct after as [|c rest]; [reflexivity|].
  unfold keeps_break, keeps_break_as_specified.
  destruct (is_list_marker c) eqn:Hm; [reflexivity|]. cbn [orb].
  cbn [is_ordered_marker].
  destruct (Py.isdigit_char c) eqn:Hd; [|reflexivity].
  destruct rest as [|d rest']; [reflexivity|].
  cbn [is_ordered_marker]. rewrite (H c d rest' eq_refl Hd). reflexivity.
Qed.

(** C5 at the failing input.  The specification keeps a single line break
    before an ordered-list marker, digits followed by a full stop; the
    program looks at one digit only, and flattens the break before [10.]. *)
Theorem C5_two_digit_marker_is_flattened :
  normalize_summary_text ("a" ++ Py.nl ++ "10. item") = "a 10. item"
  /\ normalize_as_specified ("a" ++ Py.nl ++ "10. item")
     = "a" ++ Py.nl ++ "10. item".
Proof. vm_compute. split; reflexivity. Qed.

End NormalizeFacts.

(** ** The monad *)

Module MonadFacts.

Local Open Scope monad_scope.

Lemma bind_ok {A B : Type} (m : M A) (k : A -> M B) s a s' :
  m s = (Ok a, s') -> bind m k s = k a s'.
Proof. unfold bind. now intros ->. Qed.

Lemma bind_raise {A B : Type} (m : M A) (k : A -> M B) s e s' :
  m s = (Raise e, s') -> bind m k s = (Raise e, s').
Proof. unfold bind. now intros ->. Qed.

Lemma bind_get {B : Type} (k : State -> M B) s : bind get k s = k s s.
Proof. reflexivity. Qed.

Lemma bind_fuel {A B : Type} (m : M A) (k : A -> M B) s s' :
  m s = (OutOfFuel, s') -> bind m k s = (OutOfFuel, s').
Proof. unfold bind. now intros ->. Qed.

Section Keeps.

Context {V : Type} (view : State -> V).

Lemma keeps_ret {A : Type} (a : A) : keeps view (ret a).
Proof. intros s. reflexivity. Qed.

Lemma keeps_raise {A : Type} (e : exn) : keeps view (@raise A e).
Proof. intros s. reflexivity. Qed.

Lemma keeps_out_of_fuel {A : Type} : keeps view (@out_of_fuel A).
Proof. intros s. reflexivity. Qed.

Lemma keeps_get : keeps view get.
Proof. intros s. reflexivity. Qed.

Lemma keeps_lift {A : Type} (r : exn + A) : keeps view (lift r).
Proof. destruct r; intros s; reflexivity. Qed.

Lemma keeps_bind {A B : Type} (m : M A) (k : A -> M B) :
  keeps view m -> (forall a, keeps view (k a)) -> keeps view (bind m k).
Proof.
  intros Hm Hk s. unfold bind. specialize (Hm s).
  destruct (m s) as [[a| e |] s1]; simpl in *; try assumption.
  now rewrite Hk.
Qed.

Lemma keeps_try_except {A : Type} (m : M A) (handler : exn -> M A) :
  keeps view m -> (forall e, keeps view (handler e)) ->
  keeps view (try_except m handler).
Proof.
  intros Hm Hh s. unfold try_except. specialize (Hm s).
  destruct (m s) as [[a| e |] s1]; simpl in *; try assumption.
  destruct (is_exception e); simpl; [now rewrite Hh | assumption].
Qed.

Lemma keeps_when (b : bool) (m : M unit) : keeps view m -> keeps view (when b m).
Proof. destruct b; [trivial | intros _; apply keeps_ret]. Qed.

Lemma keeps_for_each {A : Type} (l : list A) (body : A -> M unit) :
  (forall x, keeps view (body x)) -> keeps view (for_each l body).
Proof.
  intros Hb. induction l as [|x l IH]; simpl.
  - apply keeps_ret.
  - apply keeps_bind; [apply Hb | intros _; exact IH].
Qed.

Lemma keeps_modify (f : State -> State) :
  (forall s, view (f s) = view s) -> keeps view (modify f).
Proof. intros H s. apply H. Qed.

End Keeps.

Section Wp.

Lemma wp_bind {A B : Type} (m : M A) (k : A -> M B)
    (Q : outcome B -> State -> Prop) s :
  wp m (fun r s1 =>
          match r with
          | Ok a => wp (k a) Q s1
          | Raise e => Q (Raise e) s1
          | OutOfFuel => Q OutOfFuel s1
          end) s ->
  wp (bind m k) Q s.
Proof.
  unfold wp. intros H. unfold bind.
  destruct (m s) as [[a| e |] s1]; simpl in *; assumption.
Qed.

Lemma wp_ret {A : Type} (a : A) (Q : outcome A -> State -> Prop) s :
  Q (Ok a) s -> wp (ret a) Q s.
Proof. trivial. Qed.

Lemma wp_raise {A : Type} e (Q : outcome A -> State -> Prop) s :
  Q (Raise e) s -> wp (raise e) Q s.
Proof. trivial. Qed.

Lemma wp_get (Q : outcome State -> State -> Prop) s :
  Q (Ok s) s -> wp get Q s.
Proof. trivial. Qed.

Lemma wp_modify f (Q : outcome unit -> State -> Prop) s :
  Q (Ok tt) (f s) -> wp (modify f) Q s.
Proof. trivial. Qed.

Lemma wp_lift {A : Type} (r : exn + A) (Q : outcome A -> State -> Prop) s :
  (forall e, r = inl e -> Q (Raise e) s) ->
  (forall a, r = inr a -> Q (Ok a) s) ->
  wp (lift r) Q s.
Proof. destruct r; intros H1 H2; [now apply H1 | now apply H2]. Qed.

(** A computation that keeps a view ends in a state with the same view. *)
Lemma wp_keeps {V A : Type} (view : State -> V) (m : M A)
    (Q : outcome A -> State -> Prop) s :
  keeps view m ->
  (forall r s1, view s1 = view s -> Q r s1) ->
  wp m Q s.
Proof. intros K H. apply H, K. Qed.

Lemma wp_weaken {A : Type} (m : M A) (Q Q' : outcome A -> State -> Prop) s :
  wp m Q' s -> (forall r s1, Q' r s1 -> Q r s1) -> wp m Q s.
Proof. intros H HQ. apply HQ, H. Qed.

Lemma wp_run {A : Type} (m : M A) (Q : outcome A -> State -> Prop) s r s' :
  wp m Q s -> m s = (r, s') -> Q r s'.
Proof. unfold wp. intros H E. now rewrite E in H. Qed.

End Wp.

(** The status of a completed turn is read first: a null [turn] raises,
    and the state is as it was. *)
Lemma wp_turn_status_of params (Q : outcome (option string) -> State -> Prop) s :
  (p_turn params = Null ->
   Q (Raise (AttributeError "'NoneType' object has no attribute 'get'")) s) ->
  (forall status, p_turn params <> Null -> Q (Ok status) s) ->
  wp (turn_status_of params) Q s.
Proof.
  intros Hnull Hok. unfold wp, turn_status_of.
  destruct (p_turn params); cbn; [apply Hok | apply Hnull | apply Hok];
    congruence.
Qed.

End MonadFacts.

(** ** What the supervisor's functions leave untouched *)

Module FrameFacts.

Import MonadFacts.
Local Open Scope monad_scope.

Create HintDb frame discriminated.

Ltac frame_step :=
  lazymatch goal with
  | |- keeps _ (bind _ _) => apply keeps_bind; [|intros ?]
  | |- keeps _ (ret _) => apply keeps_ret
  | |- keeps _ (raise _) => apply keeps_raise
  | |- keeps _ out_of_fuel => apply keeps_out_of_fuel
  | |- keeps _ get => apply keeps_get
  | |- keeps _ (lift _) => apply keeps_lift
  | |- keeps _ (when false _) => exact (keeps_ret _ tt)
  | |- keeps _ (when _ _) => apply keeps_when
  | |- keeps _ (for_each _ _) => apply keeps_for_each; intros ?
  | |- keeps _ (try_except _ _) => apply keeps_try_except; [|intros ?]
  | |- keeps _ (match ?x with _ => _ end) => destruct x
  end.

Ltac frame := cbv zeta; repeat first [ solve [auto with frame] | frame_step ].

Section Generic.

Context (env : Env) {V : Type} (view : State -> V) {F : Frame view}.

Lemma keeps_emit e : quiet e -> keeps view (emit e).
Proof. intros H. apply keeps_modify. intros s. now apply frame_trace. Qed.

Lemma keeps_log_recent text : keeps view (log_recent text).
Proof. apply keeps_modify. intros s. apply frame_recent_logs. Qed.

Lemma keeps_output out text : keeps view (output out text).
Proof.
  destruct out; simpl; [apply keeps_emit, quiet_printed | apply keeps_log_recent].
Qed.

Lemma keeps_time_time : keeps view (time_time env).
Proof.
  unfold time_time. apply keeps_bind; [apply keeps_get | intros s].
  apply keeps_bind; [apply keeps_emit, quiet_clock | intros _; apply keeps_ret].
Qed.

Lemma keeps_set_next_id v : keeps view (modify (set_next_id v)).
Proof. apply keeps_modify. intros s. apply frame_next_id. Qed.

Lemma keeps_update_agent tid f : inert f -> keeps view (update_agent tid f).
Proof.
  intros Hf. apply keeps_modify. intros s.
  destruct (dict_get tid (agents s)) eqn:E; [|reflexivity].
  now apply frame_agents.
Qed.

Lemma keeps_update_display tid f :
  (forall a, ag_done (f a) = ag_done a
             /\ ag_queued_prompts (f a) = ag_queued_prompts a) ->
  keeps view (update_agent tid f).
Proof. intros H. now apply keeps_update_agent, inert_display. Qed.

Lemma keeps_agent_at tid : keeps view (agent_at tid).
Proof. unfold agent_at. frame. Qed.

Lemma keeps_response_thread_id resp : keeps view (response_thread_id resp).
Proof. unfold response_thread_id. frame. Qed.

Lemma keeps_set_thread_queue tid q : keeps view (set_thread_queue tid q).
Proof. apply keeps_modify. intros s. apply frame_approvals_by_thread. Qed.

Lemma keeps_set_approval_queue q : keeps view (modify (set_approval_queue q)).
Proof. apply keeps_modify. intros s. apply frame_approval_queue. Qed.

Hint Resolve keeps_log_recent keeps_output keeps_time_time keeps_set_next_id
  keeps_agent_at keeps_response_thread_id keeps_set_thread_queue
  keeps_set_approval_queue : frame.

Hint Extern 1 (keeps _ (update_agent _ _)) =>
  apply keeps_update_display; intros ?; split; reflexivity : frame.

Lemma keeps_log_line tid text : keeps view (log_line tid text).
Proof. unfold log_line. frame. apply keeps_emit, quiet_logged. Qed.

Hint Resolve keeps_log_line : frame.

Lemma keeps_record_recent tid text : keeps view (record_recent tid text).
Proof.
  unfold record_recent. frame.
Qed.

Lemma keeps_record_summary_delta tid delta :
  keeps view (record_summary_delta tid delta).
Proof. unfold record_summary_delta, record_agent_delta. frame. Qed.

Lemma keeps_record_agent_delta tid delta :
  keeps view (record_agent_delta tid delta).
Proof. unfold record_summary_delta, record_agent_delta. frame. Qed.

Hint Resolve keeps_record_recent keeps_record_summary_delta
  keeps_record_agent_delta : frame.

Lemma keeps_flush_summary_buffer tid : keeps view (flush_summary_buffer tid).
Proof.
  unfold flush_summary_buffer. frame.
Qed.

Lemma keeps_flush_agent_buffer tid : keeps view (flush_agent_buffer tid).
Proof.
  unfold flush_agent_buffer. frame.
Qed.

Lemma keeps_cache_item tid item : keeps view (cache_item tid item).
Proof.
  unfold cache_item. frame.
Qed.

Lemma keeps_cmd_list out : keeps view (cmd_list out).
Proof. unfold cmd_list. frame. Qed.

Lemma keeps_resolve_known key : keeps view (resolve_known key).
Proof. unfold resolve_known. frame. Qed.

Lemma keeps_second_word line : keeps view (second_word line).
Proof. unfold second_word. frame. Qed.

Hint Resolve keeps_flush_summary_buffer keeps_flush_agent_buffer
  keeps_cache_item keeps_cmd_list keeps_resolve_known keeps_second_word : frame.

Lemma keeps_cmd_show line out : keeps view (cmd_show line out).
Proof. unfold cmd_show. frame. Qed.

Lemma keeps_cmd_dump line out : keeps view (cmd_dump line out).
Proof. unfold cmd_dump. frame. Qed.

Lemma keeps_on_item_started tid params : keeps view (on_item_started tid params).
Proof.
  unfold on_item_started. frame.
Qed.

Hint Resolve keeps_cmd_show keeps_cmd_dump keeps_on_item_started : frame.

(** *** Functions that write to the server *)

Section Sending.

Hypothesis quiet_sent : forall line, quiet (Sent line).

Lemma keeps_notify method params : keeps view (notify method params).
Proof. apply keeps_emit, quiet_sent. Qed.

Lemma keeps_request method params : keeps view (request env method params).
Proof. unfold request. frame. apply keeps_emit, quiet_sent. Qed.

Lemma keeps_respond req_id result : keeps view (respond req_id result).
Proof. apply keeps_emit, quiet_sent. Qed.

Hint Resolve keeps_notify keeps_request keeps_respond : frame.

Lemma keeps_try_cancel_turn tid : keeps view (try_cancel_turn env tid).
Proof. unfold try_cancel_turn. frame. Qed.

Lemma keeps_approve_request entry choice :
  keeps view (approve_request entry choice).
Proof. unfold approve_request. frame. Qed.

Hint Resolve keeps_try_cancel_turn keeps_approve_request : frame.

Lemma keeps_cmd_review line out : keeps view (cmd_review env line out).
Proof. unfold cmd_review. frame. Qed.

Lemma keeps_cmd_threads line out : keeps view (cmd_threads env line out).
Proof. unfold cmd_threads. frame. Qed.

Lemma keeps_cmd_approve line has_queues has_logs out :
  keeps view (cmd_approve line has_queues has_logs out).
Proof. unfold cmd_approve. frame. Qed.

Lemma keeps_ask_decision answers method amendment :
  keeps view (ask_decision answers method amendment).
Proof.
  induction answers as [|answer answers IH]; cbn [ask_decision].
  - apply keeps_out_of_fuel.
  - apply keeps_bind; [apply keeps_emit, quiet_printed | intros _].
    destruct (get_decision_payload method (Py.lower (Py.strip answer)) amendment).
    + apply keeps_ret.
    + apply keeps_bind; [apply keeps_emit, quiet_printed | intros _; exact IH].
Qed.

Hint Resolve keeps_ask_decision : frame.

Lemma keeps_prompt_approval req use_color answers :
  keeps view (prompt_approval req use_color answers).
Proof.
  unfold prompt_approval. frame; apply keeps_emit, quiet_printed.
Qed.

Lemma keeps_enqueue_approval req : keeps view (enqueue_approval req).
Proof.
  unfold enqueue_approval. frame.
  apply keeps_modify. intros s. apply frame_approval_queue.
Qed.

(** A request of the server, in either front end. *)
Lemma keeps_step_request fuel run req answers :
  keeps view (step env fuel run (ServerRequest req answers)).
Proof.
  cbn [step]. destruct (run_frontend run).
  - apply keeps_prompt_approval.
  - apply keeps_enqueue_approval.
Qed.

Hint Extern 2 (keeps _ (modify _)) =>
  apply keeps_modify; intros ?;
  first [ apply frame_recent_logs | apply frame_next_id
        | apply frame_review_labels | apply frame_pending_reviews
        | apply frame_approval_queue | apply frame_approvals_by_thread
        | solve [auto] ] : frame.

Hint Resolve keeps_cmd_review keeps_cmd_threads keeps_cmd_approve
  keeps_enqueue_approval : frame.

(** *** Events *)

Lemma keeps_on_item_completed tid params log_dir :
  (forall item, keeps view (on_exited_review_mode env tid item log_dir)) ->
  keeps view (on_item_completed env tid params log_dir).
Proof. intros H. unfold on_item_completed. frame. Qed.

Lemma keeps_process_event event args log_dir :
  (forall tid params, keeps view (on_turn_completed env tid params args)) ->
  (forall tid item, keeps view (on_exited_review_mode env tid item log_dir)) ->
  keeps view (process_event env event args log_dir).
Proof.
  intros H1 H2. unfold process_event. frame.
  apply keeps_on_item_completed. auto.
Qed.

Lemma known_mem {W : Type} thread_id (d : list (string * W)) :
  known thread_id d = true ->
  exists tid, thread_id = Some tid /\ dict_mem tid d = true.
Proof. destruct thread_id as [tid|]; simpl; [eauto | discriminate]. Qed.

(** An event either leaves the view alone or is the completion of a
    supervised agent's turn. *)
Lemma process_event_cases event args log_dir :
  (forall tid item, keeps view (on_exited_review_mode env tid item log_dir)) ->
  forall s,
    view (snd (process_event env event args log_dir s)) = view s
    \/ exists tid params,
         dict_mem tid (agents s) = true
         /\ process_event env event args log_dir s
            = on_turn_completed env tid params args s.
Proof.
  intros Hx s. unfold process_event. cbv zeta.
  rewrite bind_get.
  repeat lazymatch goal with
  | |- view (snd ((if ?c then on_turn_completed _ _ _ _ else _) _)) = _ \/ _ =>
      destruct c eqn:?
  | |- view (snd ((if ?c then ?m else _) _)) = _ \/ _ =>
      destruct c;
      [left;
       let K := fresh in
       assert (K : keeps view m)
         by (frame; apply keeps_on_item_completed; auto);
       apply K|]
  end.
  - right.
    match goal with H : _ && _ = true |- _ =>
      apply andb_prop in H; destruct H as [_ H];
      destruct (known_mem _ _ H) as (tid & E & Hm) end.
    rewrite E. cbn [Py.or_empty]. eauto.
  - left.
    match goal with |- view (snd (?m _)) = _ =>
      let K := fresh in assert (K : keeps view m) by frame; apply K end.
Qed.


Lemma bind_ret_unit (m : M unit) s : bind m (fun _ => ret tt) s = m s.
Proof. unfold bind, ret. destruct (m s) as [[[]| |] s']; reflexivity. Qed.

Lemma on_item_completed_exited tid params log_dir s :
  let item := match p_item params with Some i => i | None => empty_item end in
  opt_is (item_type item) "exitedReviewMode" = true ->
  on_item_completed env tid params log_dir s
  = bind (cache_item tid item)
         (fun _ => on_exited_review_mode env tid item log_dir) s.
Proof.
  intros item Ht. unfold on_item_completed. fold item.
  destruct (item_type item) as [ty|] eqn:E; [|discriminate].
  simpl in Ht. apply String.eqb_eq in Ht. subst ty.
  cbn [opt_is String.eqb Ascii.eqb Bool.eqb when].
  unfold bind. destruct (cache_item tid item s) as [[[]| |] s1]; try reflexivity.
  cbn [ret].
  destruct (on_exited_review_mode env tid item log_dir s1) as [[[]| |] s2];
    reflexivity.
Qed.

Lemma process_event_review_cases event args log_dir :
  (forall tid params, keeps view (on_turn_completed env tid params args)) ->
  forall s,
    view (snd (process_event env event args log_dir s)) = view s
    \/ exists tid item,
         dict_mem tid (agents s) = true
         /\ opt_is (item_type item) "exitedReviewMode" = true
         /\ process_event env event args log_dir s
            = bind (cache_item tid item)
                   (fun _ => on_exited_review_mode env tid item log_dir) s.
Proof.
  intros Ht s.
  set (params := match ev_params event with Some p => p | None => empty_params end).
  set (item := match p_item params with Some i => i | None => empty_item end).
  destruct (opt_is (item_type item) "exitedReviewMode") eqn:Hty.
  - (* the item/completed branch may reach the review code *)
    unfold process_event. cbv zeta. fold params.
    rewrite bind_get.
    repeat lazymatch goal with
    | |- view (snd ((if ?c then on_item_completed _ _ _ _ else _) _)) = _ \/ _ =>
        destruct c eqn:?
    | |- view (snd ((if ?c then ?m else _) _)) = _ \/ _ =>
        destruct c;
        [left;
         let K := fresh in
         assert (K : keeps view m) by frame;
         apply K|]
    end.
    + right.
      match goal with H : _ && _ = true |- _ =>
        apply andb_prop in H; destruct H as [_ H];
        destruct (known_mem _ _ H) as (tid & E & Hm) end.
      rewrite E. cbn [Py.or_empty]. exists tid, item.
      split; [assumption|]. split; [assumption|].
      now apply on_item_completed_exited.
    + left.
      match goal with |- view (snd (?m _)) = _ =>
        let K := fresh in assert (K : keeps view m) by frame; apply K end.
  - left.
    assert (K : keeps view (process_event env event args log_dir)).
    { unfold process_event. cbv zeta. fold params. frame.
      unfold on_item_completed. fold item. rewrite Hty. frame. }
    apply K.
Qed.

(** *** Views that see neither the agents' flags nor their queues *)

Section InertAll.

Hypothesis inert_all : forall f, inert f.

Hint Extern 1 (keeps _ (update_agent _ _)) =>
  apply keeps_update_agent, inert_all : frame.

Lemma keeps_queue_agent_prompt tid prompt :
  keeps view (queue_agent_prompt tid prompt).
Proof. unfold queue_agent_prompt. frame. Qed.

Lemma keeps_start_agent_prompt tid prompt :
  keeps view (start_agent_prompt env tid prompt).
Proof. unfold start_agent_prompt. frame. Qed.

Hint Resolve keeps_queue_agent_prompt keeps_start_agent_prompt : frame.

Lemma keeps_on_turn_completed tid params args :
  keeps view (on_turn_completed env tid params args).
Proof. unfold on_turn_completed, turn_status_of. frame. Qed.

Lemma keeps_cmd_agent line has_queues has_logs out :
  keeps view (cmd_agent env line has_queues has_logs out).
Proof. unfold cmd_agent. frame. Qed.

Lemma keeps_handle_user_command line has_queues has_logs out :
  keeps view (handle_user_command env line has_queues has_logs out).
Proof.
  unfold handle_user_command. frame. apply keeps_cmd_agent.
Qed.

(** A line entered in the full-screen front end. *)
Lemma keeps_curses_line line :
  (forall inspect, quiet (Viewed inspect)) ->
  keeps view (curses_line env line).
Proof.
  intros quiet_viewed. pose proof keeps_handle_user_command.
  unfold curses_line. frame; apply keeps_emit, quiet_viewed.
Qed.

(** A line of the operator, in either front end. *)
Lemma keeps_step_line fuel run line :
  (forall inspect, quiet (Viewed inspect)) ->
  keeps view (step env fuel run (OperatorLine line)).
Proof.
  intros quiet_viewed. cbn [step]. destruct (run_frontend run).
  - apply keeps_handle_user_command.
  - now apply keeps_curses_line.
Qed.

End InertAll.

(** *** Views that do not see the review artifacts *)

Section Reviews.

Hypothesis frame_review_written :
  forall v s, view (set_review_written v s) = view s.
Hypothesis quiet_wrote : forall rid path content, quiet (WroteReview rid path content).

Lemma keeps_write_review_output thread_id rid label text log_dir :
  keeps view (write_review_output env thread_id rid label text log_dir).
Proof. unfold write_review_output. frame. apply keeps_emit, quiet_wrote. Qed.

Hint Resolve keeps_write_review_output : frame.

Lemma keeps_on_exited_review_mode tid item log_dir :
  keeps view (on_exited_review_mode env tid item log_dir).
Proof. unfold on_exited_review_mode. frame. Qed.

End Reviews.

(** *** Starting an agent *)

Section Starting.

Hypothesis quiet_read : forall path line, quiet (ReadFile path line).
Hypothesis quiet_slept : forall seconds, quiet (Slept seconds).

Lemma keeps_wait_loop fuel path expected deadline out announced :
  keeps view (wait_loop env fuel path expected deadline out announced).
Proof.
  revert announced. induction fuel as [|fuel IH]; intros announced; simpl.
  - apply keeps_out_of_fuel.
  - frame;
      try (apply keeps_emit; first [apply quiet_read | apply quiet_slept]);
      try apply IH.
Qed.

Lemma keeps_wait_for_status fuel path expected deadline out :
  keeps view (wait_for_status env fuel path expected deadline out).
Proof. apply keeps_wait_loop. Qed.

Hint Resolve keeps_wait_for_status : frame.

(** [start_agent] leaves the view alone until, at its end, it stores the
    new agent under the thread id the server answered. *)
Lemma start_agent_cases fuel run item s :
  wp (start_agent env fuel run item)
     (fun _ s' =>
        view s' = view s
        \/ exists tid s1,
             view s1 = view s
             /\ view s'
                = view (set_agents
                          (dict_set tid
                             (new_agent run (sp_index item) (sp_prompt item) tid)
                             (agents s1)) s1)) s.
Proof.
  unfold start_agent. cbv zeta.
  apply wp_bind. apply (wp_keeps view).
  { destruct (sp_wait item) as [[path expected]|]; frame. }
  intros r0 s0 E0. destruct r0 as [[]| |]; [|left; assumption..].
  apply wp_bind. apply (wp_keeps view); [frame|].
  intros r1 s1 E1. destruct r1 as [resp| |]; [|left; congruence..].
  apply wp_bind. apply (wp_keeps view); [frame|].
  intros r2 s2 E2. destruct r2 as [tid| |]; [|left; congruence..].
  apply wp_bind. apply (wp_keeps view); [frame|].
  intros r3 s3 E3. destruct r3 as [resp'| |]; [|left; congruence..].
  apply wp_bind. apply wp_modify.
  apply (wp_keeps view).
  { destruct (run_frontend run); [apply keeps_emit, quiet_printed | frame]. }
  intros r4 s4 E4. right. exists tid, s3. split; [congruence | assumption].
Qed.

End Starting.

End Sending.

End Generic.

(** The lemmas above as hints, for the views declared as instances. *)

Ltac frame_side :=
  first [ exact _ | intros; first [ exact I | reflexivity | assumption ] ].

#[export] Hint Extern 1 (keeps _ (log_recent _)) =>
  eapply keeps_log_recent; solve [frame_side] : frame.
#[export] Hint Extern 1 (keeps _ (output _ _)) => eapply keeps_output; solve [frame_side] : frame.
#[export] Hint Extern 1 (keeps _ (time_time _)) => eapply keeps_time_time; solve [frame_side] : frame.
#[export] Hint Extern 1 (keeps _ (agent_at _)) => eapply keeps_agent_at; solve [frame_side] : frame.
#[export] Hint Extern 1 (keeps _ (response_thread_id _)) =>
  eapply keeps_response_thread_id; solve [frame_side] : frame.
#[export] Hint Extern 1 (keeps _ (set_thread_queue _ _)) =>
  eapply keeps_set_thread_queue; solve [frame_side] : frame.
#[export] Hint Extern 1 (keeps _ (update_agent _ _)) =>
  first [ eapply keeps_update_display;
          [exact _ | intros ?; split; reflexivity]
        | eapply keeps_update_agent; solve [frame_side] ] : frame.
#[export] Hint Extern 1 (keeps _ (log_line _ _)) => eapply keeps_log_line; solve [frame_side] : frame.
#[export] Hint Extern 1 (keeps _ (record_recent _ _)) =>
  eapply keeps_record_recent; solve [frame_side] : frame.
#[export] Hint Extern 1 (keeps _ (record_summary_delta _ _)) =>
  eapply keeps_record_summary_delta; solve [frame_side] : frame.
#[export] Hint Extern 1 (keeps _ (record_agent_delta _ _)) =>
  eapply keeps_record_agent_delta; solve [frame_side] : frame.
#[export] Hint Extern 1 (keeps _ (flush_summary_buffer _)) =>
  eapply keeps_flush_summary_buffer; solve [frame_side] : frame.
#[export] Hint Extern 1 (keeps _ (flush_agent_buffer _)) =>
  eapply keeps_flush_agent_buffer; solve [frame_side] : frame.
#[export] Hint Extern 1 (keeps _ (cache_item _ _)) =>
  eapply keeps_cache_item; solve [frame_side] : frame.
#[export] Hint Extern 1 (keeps _ (on_item_started _ _)) =>
  eapply keeps_on_item_started; solve [frame_side] : frame.
#[export] Hint Extern 1 (keeps _ (emit _)) =>
  eapply keeps_emit; solve [frame_side] : frame.
#[export] Hint Extern 1 (keeps _ (notify _ _)) =>
  eapply keeps_notify; solve [frame_side] : frame.
#[export] Hint Extern 1 (keeps _ (request _ _ _)) =>
  eapply keeps_request; solve [frame_side] : frame.
#[export] Hint Extern 1 (keeps _ (respond _ _)) =>
  eapply keeps_respond; solve [frame_side] : frame.
#[export] Hint Extern 1 (keeps _ (try_cancel_turn _ _)) =>
  eapply keeps_try_cancel_turn; solve [frame_side] : frame.
#[export] Hint Extern 1 (keeps _ (approve_request _ _)) =>
  eapply keeps_approve_request; solve [frame_side] : frame.
#[export] Hint Extern 1 (keeps _ (enqueue_approval _)) =>
  eapply keeps_enqueue_approval; solve [frame_side] : frame.
#[export] Hint Extern 1 (keeps _ (wait_for_status _ _ _ _ _ _)) =>
  eapply keeps_wait_for_status; solve [frame_side] : frame.
#[export] Hint Extern 2 (keeps _ (modify _)) =>
  apply keeps_modify; intros ?; reflexivity : frame.

End FrameFacts.

(** ** Dictionaries *)

Module DictFacts.

Section Dict.

Context {V : Type}.

Lemma dict_get_set_same k (v : V) d : dict_get k (dict_set k v d) = Some v.
Proof.
  induction d as [|[k' v'] d IH]; simpl.
  - now rewrite String.eqb_refl.
  - destruct (String.eqb k k') eqn:E; simpl; rewrite ?E, ?String.eqb_refl; auto.
Qed.

Lemma dict_get_set_other k k' (v : V) d :
  k' <> k -> dict_get k' (dict_set k v d) = dict_get k' d.
Proof.
  intros Hne. induction d as [|[k0 v0] d IH]; simpl.
  - destruct (String.eqb_spec k' k); [contradiction | reflexivity].
  - destruct (String.eqb_spec k k0) as [->|]; simpl.
    + destruct (String.eqb_spec k' k0); [contradiction | reflexivity].
    + destruct (String.eqb k' k0); [reflexivity | exact IH].
Qed.

(** Assigning to a key that exists changes one value in place. *)
Lemma map_dict_set {W : Type} (g : string * V -> W) k (v v0 : V) d :
  dict_get k d = Some v0 -> g (k, v) = g (k, v0) ->
  map g (dict_set k v d) = map g d.
Proof.
  intros Hget Hg. induction d as [|[k' v'] d IH]; simpl in *; [discriminate|].
  destruct (String.eqb_spec k k') as [->|].
  - injection Hget as ->. simpl. now rewrite Hg.
  - simpl. now rewrite IH.
Qed.

Lemma dict_set_same k (v : V) d : dict_get k d = Some v -> dict_set k v d = d.
Proof.
  induction d as [|[k' v'] d IH]; simpl; [discriminate|].
  destruct (String.eqb_spec k k') as [->|].
  - now intros [= ->].
  - intros H. now rewrite IH.
Qed.

Lemma dict_set_keys_new k (v : V) d :
  dict_get k d = None -> map fst (dict_set k v d) = (map fst d ++ [k])%list.
Proof.
  induction d as [|[k' v'] d IH]; simpl; [reflexivity|].
  destruct (String.eqb k k'); [discriminate|].
  intros H. simpl. now rewrite IH.
Qed.

Lemma dict_set_length k (v : V) d :
  (List.length (dict_set k v d) <= S (List.length d))%nat.
Proof.
  induction d as [|[k' v'] d IH]; simpl; [lia|].
  destruct (String.eqb k k'); simpl; lia.
Qed.

Lemma dict_mem_get k (d : list (string * V)) :
  dict_mem k d = true -> exists v, dict_get k d = Some v.
Proof. unfold dict_mem. destruct (dict_get k d); [eauto | discriminate]. Qed.

End Dict.

End DictFacts.

(** ** The views *)

Module Views.

Import DictFacts.

Lemma filter_snoc {A : Type} (p : A -> bool) (l : list A) (x : A) :
  filter p (l ++ [x]) = (filter p l ++ (if p x then [x] else []))%list.
Proof. now rewrite filter_app. Qed.

#[export] Instance dq_frame : Frame dq_view.
Proof.
  refine {| quiet := fun _ => True;
            inert := fun f => forall a, dq (f a) = dq a |}.
  - reflexivity.
  - intros tid f s a Hf Hget. unfold dq_view. cbn [agents set_agents].
    apply (map_dict_set _ tid (f a) a); [assumption|].
    cbn [fst snd]. now rewrite Hf.
  - reflexivity.
  - reflexivity.
  - reflexivity.
  - reflexivity.
  - reflexivity.
  - reflexivity.
  - exact (fun _ _ => I).
  - exact (fun _ => I).
  - exact (fun _ => I).
  - intros f H a. unfold dq. destruct (H a) as [-> ->]. reflexivity.
Defined.

#[export] Instance keys_frame : Frame keys_view.
Proof.
  refine {| quiet := fun _ => True; inert := fun _ => True |}.
  - reflexivity.
  - intros tid f s a _ Hget. unfold keys_view. cbn [agents pending_prompts set_agents].
    f_equal. now apply (map_dict_set _ tid (f a) a).
  - reflexivity.
  - reflexivity.
  - reflexivity.
  - reflexivity.
  - reflexivity.
  - reflexivity.
  - exact (fun _ _ => I).
  - exact (fun _ => I).
  - exact (fun _ => I).
  - exact (fun _ _ => I).
Defined.

#[export] Instance review_frame (rid : string) : Frame (review_view rid).
Proof.
  refine {| quiet := fun e => is_artifact rid e = false; inert := fun _ => True |}.
  - intros e s He. unfold review_view, artifacts.
    cbn [trace review_written set_trace].
    now rewrite filter_snoc, He, app_nil_r.
  - reflexivity.
  - reflexivity.
  - reflexivity.
  - reflexivity.
  - reflexivity.
  - reflexivity.
  - reflexivity.
  - reflexivity.
  - reflexivity.
  - reflexivity.
  - exact (fun _ _ => I).
Defined.

#[export] Instance pending_frame : Frame pending_prompts.
Proof.
  refine {| quiet := fun _ => True; inert := fun _ => True |};
    first [ reflexivity | exact (fun _ _ => I) | exact (fun _ => I) ].
Defined.



End Views.

(** ** Scheduling *)

Module SchedulerFacts.

Import MonadFacts FrameFacts DictFacts Views.
Local Open Scope monad_scope.

Lemma running_count_view s : running_count (agents s) = running_view (dq_view s).
Proof.
  unfold running_count, running_view, dq_view, dict_values. f_equal.
  induction (agents s) as [|[k a] l IH]; simpl; [reflexivity|].
  destruct (ag_done a); simpl; now rewrite IH.
Qed.

Lemma drained_view_iff s : done_means_drained s <-> drained_view (dq_view s).
Proof.
  unfold done_means_drained, drained_view, dq_view.
  rewrite Forall_map. reflexivity.
Qed.

Lemma dq_view_get tid s :
  dict_get tid (dq_view s) = option_map dq (dict_get tid (agents s)).
Proof.
  unfold dq_view. induction (agents s) as [|[k a] l IH]; simpl; [reflexivity|].
  destruct (String.eqb tid k); [reflexivity | exact IH].
Qed.

Lemma dq_view_set tid a s :
  dq_view (set_agents (dict_set tid a (agents s)) s)
  = dict_set tid (dq a) (dq_view s).
Proof.
  unfold dq_view. cbn [agents set_agents].
  induction (agents s) as [|[k b] l IH]; simpl; [reflexivity|].
  destruct (String.eqb tid k); simpl; [reflexivity | now rewrite IH].
Qed.

Section ViewArithmetic.

Local Open Scope Z_scope.

Implicit Types v : list (string * (bool * list string)).

Lemma running_view_nonneg v : 0 <= running_view v.
Proof. unfold running_view. lia. Qed.

Lemma running_set_done k q v :
  running_view (dict_set k (true, q) v) <= running_view v.
Proof.
  unfold running_view.
  induction v as [|[k' [d q']] v IH]; simpl; [lia|].
  destruct (String.eqb k k'); simpl; destruct d; simpl in *; lia.
Qed.

Lemma running_set_any k x v :
  running_view (dict_set k x v) <= running_view v + 1.
Proof.
  unfold running_view. destruct x as [d q].
  induction v as [|[k' [d' q']] v IH]; simpl.
  - destruct d; simpl; lia.
  - destruct (String.eqb k k'); simpl; destruct d, d'; simpl in *; lia.
Qed.

Lemma running_set_running k q q0 v :
  dict_get k v = Some (false, q0) ->
  running_view (dict_set k (false, q) v) = running_view v.
Proof.
  unfold running_view.
  induction v as [|[k' [d' q']] v IH]; simpl; [discriminate|].
  destruct (String.eqb k k'); simpl.
  - intros [= -> ->]. reflexivity.
  - intros H. specialize (IH H). destruct d'; simpl; lia.
Qed.

Lemma drained_set k d q v :
  drained_view v -> (d = true -> q = []) -> drained_view (dict_set k (d, q) v).
Proof.
  unfold drained_view. intros Hv Hd.
  induction v as [|[k' x] v IH]; simpl.
  - constructor; [exact Hd | constructor].
  - inversion Hv; subst. destruct (String.eqb k k'); constructor; auto.
Qed.

Lemma drained_get k d q v :
  drained_view v -> dict_get k v = Some (d, q) -> d = true -> q = [].
Proof.
  unfold drained_view. intros Hv.
  induction v as [|[k' x] v IH]; simpl; [discriminate|].
  inversion Hv; subst.
  destruct (String.eqb k k'); [intros [= ->]; assumption | auto].
Qed.

Lemma dict_set_set {W : Type} k (x y : W) d :
  dict_set k y (dict_set k x d) = dict_set k y d.
Proof.
  induction d as [|[k' z] d IH]; simpl.
  - now rewrite String.eqb_refl.
  - destruct (String.eqb k k') eqn:E; simpl; rewrite ?String.eqb_refl, ?E;
      [reflexivity | now rewrite IH].
Qed.

End ViewArithmetic.

(** *** Stepping through a computation with the view in hand *)

Lemma wp_update_dq tid f g v x (Q : outcome unit -> State -> Prop) s :
  dq_view s = v -> dict_get tid v = Some x ->
  (forall a, dq (f a) = g (dq a)) ->
  (forall s1, dq_view s1 = dict_set tid (g x) v -> Q (Ok tt) s1) ->
  wp (update_agent tid f) Q s.
Proof.
  intros Hv Hx Hf HQ. unfold update_agent. apply wp_modify.
  rewrite <- Hv, dq_view_get in Hx.
  destruct (dict_get tid (agents s)) as [a|] eqn:E; [|discriminate].
  injection Hx as <-. apply HQ. now rewrite dq_view_set, Hf, Hv.
Qed.

Lemma wp_agent_at_dq tid v (Q : outcome Agent -> State -> Prop) s :
  dq_view s = v ->
  (forall a, dict_get tid v = Some (dq a) -> Q (Ok a) s) ->
  (forall e, dict_get tid v = None -> Q (Raise e) s) ->
  wp (agent_at tid) Q s.
Proof.
  intros Hv Hok Hno. unfold agent_at. apply wp_bind, wp_get.
  pose proof (dq_view_get tid s) as G. rewrite Hv in G.
  destruct (dict_get tid (agents s)) as [a|]; [apply wp_ret | apply wp_raise]; auto.
Qed.

(** *** The end of a turn *)

(** One step of a computation that keeps [dq_view]; [H] is what is known
    of the view before it. *)
Ltac step_keeps H s E :=
  cbn beta iota; apply wp_bind; apply (wp_keeps dq_view); [frame|];
  let r := fresh "r" in
  intros r s E; rewrite H in E; destruct r as [?| ? |]; cbn beta iota.

(** Completing a turn never adds a running agent: the agent becomes done,
    and runs again only to take a follow-up it had queued while
    running. *)
Lemma on_turn_completed_running env tid params args s :
  dict_mem tid (agents s) = true ->
  drained_view (dq_view s) ->
  wp (on_turn_completed env tid params args)
     (fun r s' =>
        (running_view (dq_view s') <= running_view (dq_view s))%Z
        /\ (r = Ok tt -> drained_view (dq_view s'))) s.
Proof.
  intros Hm Hd.
  destruct (dict_mem_get _ _ Hm) as (a0 & Ha0).
  remember (dq_view s) as v0 eqn:Hv0. symmetry in Hv0.
  assert (Hx : dict_get tid v0 = Some (ag_done a0, ag_queued_prompts a0)).
  { rewrite <- Hv0, dq_view_get, Ha0. reflexivity. }
  set (d0 := ag_done a0) in *. set (q0 := ag_queued_prompts a0) in *.
  clearbody d0 q0. clear Ha0 Hm a0.
  assert (Hdone : forall s' q,
             dq_view s' = dict_set tid (true, q) v0 ->
             (running_view (dq_view s') <= running_view v0)%Z).
  { intros s' q ->. apply running_set_done. }
  unfold on_turn_completed. cbv zeta.
  apply wp_bind, wp_turn_status_of;
    [intros _; split; [rewrite Hv0; reflexivity | discriminate] | intros status _].
  apply wp_bind.
  apply (wp_update_dq tid _ (fun x => (true, snd x)) v0 (d0, q0));
    [exact Hv0 | exact Hx | reflexivity |].
  intros s1 H1. cbn [snd] in H1.
  step_keeps H1 s2 H2; [|split; [eauto | discriminate]..].
  step_keeps H2 s3 H3; [|split; [eauto | discriminate]..].
  step_keeps H3 s4 H4; [|split; [eauto | discriminate]..].
  apply wp_bind. apply (wp_agent_at_dq tid _ _ _ H4);
    [|intros; split; [eauto | discriminate]].
  intros agent Ha. rewrite dict_get_set_same in Ha. injection Ha as Hda Hqa.
  step_keeps H4 s5 H5; [|split; [eauto | discriminate]..].
  rewrite <- Hqa. destruct q0 as [|next_prompt queued].
  - (* no follow-up: the agent stays done *)
    apply wp_bind, wp_ret.
    apply (wp_keeps dq_view); [frame|].
    intros r s6 H6. rewrite H5 in H6. split; [eauto|].
    intros _. rewrite H6. apply drained_set; auto.
  - (* a follow-up: the agent was running, and runs again *)
    assert (Hrun : d0 = false).
    { destruct d0; [|reflexivity].
      discriminate (drained_get _ _ _ _ Hd Hx eq_refl). }
    subst d0.
    apply wp_bind. apply wp_bind.
    eapply (wp_update_dq tid _ (fun x => (fst x, queued)) _
             (true, next_prompt :: queued));
      [exact H5 | apply dict_get_set_same | reflexivity |].
    intros s6 H6. cbn [fst] in H6. rewrite dict_set_set in H6.
    apply wp_bind. unfold start_agent_prompt.
    step_keeps H6 s7 H7; [|split; [eauto | discriminate]..].
    step_keeps H7 s8 H8; [|split; [eauto | discriminate]..].
    apply wp_bind.
    eapply (wp_update_dq tid _ (fun x => (false, snd x)) _ (true, queued));
      [exact H8 | apply dict_get_set_same | reflexivity |].
    intros s9 H9. cbn [snd] in H9. rewrite dict_set_set in H9.
    assert (Hsame : forall s',
               dq_view s' = dict_set tid (false, queued) v0 ->
               (running_view (dq_view s') <= running_view v0)%Z).
    { intros s' ->. rewrite (running_set_running _ _ _ _ Hx). reflexivity. }
    step_keeps H9 s10 H10; [|split; [eauto | discriminate]..].
    step_keeps H10 s11 H11; [|split; [eauto | discriminate]..].
    cbn beta iota. apply (wp_keeps dq_view); [frame|].
    intros r s12 H12. rewrite H11 in H12.
    destruct r as [[]| |]; [|split; [eauto | discriminate]..].
    apply (wp_keeps dq_view); [frame|].
    intros r s13 H13. rewrite H12 in H13.
    destruct r as [[]| |]; [|split; [eauto | discriminate]..].
    apply (wp_keeps dq_view); [frame|].
    intros r s14 H14. rewrite H13 in H14. split; [eauto|].
    intros _. rewrite H14. apply drained_set; [assumption | discriminate].
Qed.

(** *** A pass of the scheduler *)

Section Pass.

Context (env : Env) (fuel : nat) (run : Run).

Lemma keeps_on_exited_dq tid item log_dir :
  keeps dq_view (on_exited_review_mode env tid item log_dir).
Proof.
  apply (@keeps_on_exited_review_mode env _ dq_view dq_frame
           (fun _ _ => eq_refl) (fun _ _ _ => I)).
Qed.

(** An iteration starts at most one agent, which runs and has an empty
    queue. *)
Lemma iteration_dq item rest remaining started_any s :
  wp (start_ready_iteration env fuel run item rest remaining started_any)
     (fun _ s' =>
        dq_view s' = dq_view s
        \/ exists tid, dq_view s' = dict_set tid (false, []) (dq_view s)) s.
Proof.
  unfold start_ready_iteration.
  apply wp_bind, wp_get. apply wp_bind, wp_modify.
  apply wp_bind, wp_lift; [intros e _; now left|].
  intros [|] _; [|apply wp_ret; now left].
  apply wp_bind.
  eapply wp_weaken;
    [apply (@start_agent_cases env _ dq_view dq_frame
                (fun _ => I) (fun _ _ => I) (fun _ => I))|].
  intros r s1 [E | (tid & s2 & E2 & E)].
  - destruct r; cbn beta iota; try apply wp_ret; now left.
  - assert (dq_view s1 = dict_set tid (false, []) (dq_view s)) as E'.
    { rewrite E, dq_view_set, E2. reflexivity. }
    destruct r; cbn beta iota; try apply wp_ret; right; eauto.
Qed.

Lemma iteration_pending item rest remaining started_any s :
  wp (start_ready_iteration env fuel run item rest remaining started_any)
     (fun r s' =>
        pending_prompts s' = rest
        /\ (r = Ok (remaining, true)
            \/ r = Ok ((remaining ++ [item])%list, started_any)
            \/ forall x, r <> Ok x)) s.
Proof.
  unfold start_ready_iteration.
  apply wp_bind, wp_get. apply wp_bind, wp_modify.
  apply wp_bind, wp_lift.
  { intros e _. split; [reflexivity | right; right; discriminate]. }
  intros [|] _; [|apply wp_ret; split; [reflexivity | now right; left]].
  apply wp_bind.
  eapply wp_weaken;
    [apply (@start_agent_cases env _ pending_prompts pending_frame
                (fun _ => I) (fun _ _ => I) (fun _ => I))|].
  intros r s1 H.
  assert (E : pending_prompts s1 = rest).
  { destruct H as [E | (tid & s2 & E2 & E)]; [exact E|].
    rewrite E. cbn [pending_prompts set_agents]. exact E2. }
  destruct r; cbn beta iota;
    [apply wp_ret; split; [exact E | now left]
    | split; [exact E | right; right; discriminate]..].
Qed.

(** The loop stops as soon as the cap is reached: nothing more is popped
    or started. *)
Lemma loop_stops_at_cap queue remaining started_any s :
  (run_max_parallel run <= running_count (agents s))%Z ->
  start_ready_loop env fuel run queue remaining started_any s
  = (Ok (remaining, started_any), s).
Proof.
  intros H. destruct queue as [|item rest]; [reflexivity|].
  cbn [start_ready_loop]. rewrite bind_get.
  apply Z.ltb_ge in H. now rewrite H.
Qed.

(** The specs the loop leaves, blocked ones first, are those it found,
    in their order, without the ones it started. *)
Lemma loop_keeps_order queue :
  forall remaining started_any s,
    pending_prompts s = queue ->
    wp (start_ready_loop env fuel run queue remaining started_any)
       (fun r s' =>
          forall x, r = Ok x ->
            exists blocked,
              fst x = (remaining ++ blocked)%list
              /\ subseq (blocked ++ pending_prompts s')%list queue) s.
Proof.
  assert (subseq_refl : forall l : list Spec, subseq l l).
  { induction l; constructor; assumption. }
  induction queue as [|item rest IH]; intros remaining started_any s Hp.
  - apply wp_ret. intros x [= <-]. exists []. rewrite app_nil_r, Hp.
    split; [reflexivity | constructor].
  - cbn [start_ready_loop]. apply wp_bind, wp_get.
    destruct (running_count (agents s) <? run_max_parallel run)%Z.
    + apply wp_bind.
      eapply wp_weaken; [apply iteration_pending|].
      intros r s1 (Hp1 & Hr).
      destruct r as [x| |]; cbn beta iota; try discriminate.
      eapply wp_weaken; [apply (IH _ _ _ Hp1)|].
      intros r' s2 H y Hy. destruct (H y Hy) as (blocked & E & Hs).
      destruct Hr as [[= ->] | [[= ->] | Hn]]; [| |now destruct (Hn x)];
        cbn [fst snd] in *.
      * exists blocked. split; [assumption | now constructor].
      * exists (item :: blocked). rewrite <- app_assoc in E.
        split; [assumption | now apply subseq_keep].
    + apply wp_ret. intros x [= <-]. exists []. rewrite app_nil_r, Hp.
      split; [reflexivity | apply subseq_refl].
Qed.

Lemma start_ready_agents_keeps_order s b s' :
  start_ready_agents env fuel run s = (Ok b, s') ->
  subseq (pending_prompts s') (pending_prompts s).
Proof.
  intros H.
  assert (W : wp (start_ready_agents env fuel run)
                 (fun r s' => forall b, r = Ok b ->
                    subseq (pending_prompts s') (pending_prompts s)) s).
  { unfold start_ready_agents. apply wp_bind, wp_get. apply wp_bind.
    eapply wp_weaken; [apply (loop_keeps_order _ [] false s eq_refl)|].
    intros r s1 Hr. destruct r as [x| |]; cbn beta iota; try discriminate.
    apply wp_bind, wp_modify, wp_ret. intros _ _.
    destruct (Hr x eq_refl) as (blocked & E & Hs).
    unfold finish_pass. cbn [pending_prompts set_pending_prompts].
    now rewrite E. }
  exact (wp_run _ _ _ _ _ W H b eq_refl).
Qed.

End Pass.


(** *** The cap *)

Section Cap.

Context (env : Env) (fuel : nat) (run : Run).

Lemma within_cap_view p q :
  dq_view (point_state q) = dq_view (point_state p) ->
  within_cap run p -> within_cap run q.
Proof.
  unfold within_cap. intros E [Hc Hd].
  rewrite running_count_view, drained_view_iff in *. now rewrite E.
Qed.

Lemma process_event_within_cap event s s' :
  process_event env event (run_args run) (run_log_dir run) s = (Ok tt, s') ->
  within_cap run (Idle s) -> within_cap run (Idle s').
Proof.
  intros H Hinv.
  destruct (@process_event_cases env _ dq_view dq_frame event
              (run_args run) (run_log_dir run)
              (fun tid item => keeps_on_exited_dq env tid item _) s)
    as [E | (tid & params & Hm & E)].
  - rewrite H in E. now apply (within_cap_view (Idle s) (Idle s')).
  - rewrite E in H. destruct Hinv as [Hc Hd].
    rewrite running_count_view, drained_view_iff in *. cbn [point_state] in *.
    pose proof (wp_run _ _ _ _ _
                  (on_turn_completed_running env tid params (run_args run) s Hm Hd)
                  H) as [Hle Hok].
    unfold within_cap. cbn [point_state].
    rewrite running_count_view, drained_view_iff.
    split; [lia | now apply Hok].
Qed.

Lemma move_within_cap p q :
  move env fuel run unattended p q -> within_cap run p -> within_cap run q.
Proof.
  intros Hmove Hinv. destruct Hmove as
    [s input s' Hal Hnt Hstep | s Hal | item rest remaining b s r s' Hlt Hit
    | queue remaining b s Hend].
  - destruct input as [|req answers|event|line];
      try discriminate; try contradiction.
    + apply (within_cap_view (Idle s)); [|assumption]. cbn [point_state].
      pose proof (@keeps_step_request env _ dq_view dq_frame (fun _ => I)
                    fuel run req answers s) as K.
      now rewrite Hstep in K.
    + now apply (process_event_within_cap event s).
  - exact Hinv.
  - pose proof (wp_run _ _ _ _ _
                  (iteration_dq env fuel run item rest remaining b s) Hit) as Hv.
    destruct Hinv as [Hc Hd]. unfold within_cap. cbn [point_state] in *.
    rewrite running_count_view, drained_view_iff in *.
    destruct Hv as [-> | (tid & ->)]; [split; assumption|].
    split.
    + pose proof (running_set_any tid (false, []) (dq_view s)). lia.
    + apply drained_set; [assumption | discriminate].
  - now apply (within_cap_view (InPass queue remaining b s)).
Qed.

Lemma reach_within_cap p q :
  reach env fuel run unattended p q -> within_cap run p -> within_cap run q.
Proof.
  induction 1 as [|q r _ IH Hm]; [trivial|].
  intros Hp. apply (move_within_cap q r Hm). now apply IH.
Qed.

Lemma initial_within_cap args first_id :
  within_cap run (Idle (initial_state args first_id)).
Proof. split; [apply Z.le_max_l | constructor]. Qed.

End Cap.

(** *** The moves are those of the program *)

Section Simulation.

Context (env : Env) (fuel : nat) (run : Run) (allowed : Input -> Prop).

Lemma reach_trans p q r :
  reach env fuel run allowed p q -> reach env fuel run allowed q r ->
  reach env fuel run allowed p r.
Proof.
  intros Hpq Hqr. induction Hqr as [|r t _ IH Hm]; [assumption|].
  now apply (reach_move _ _ _ _ _ r t).
Qed.

(** A run of the first loop is a sequence of iterations, up to the test
    that ends it. *)
Lemma loop_reach queue :
  forall remaining started_any s r s' p,
    reach env fuel run allowed p (InPass queue remaining started_any s) ->
    start_ready_loop env fuel run queue remaining started_any s = (Ok r, s') ->
    reach env fuel run allowed p (Idle (finish_pass (fst r) s')).
Proof.
  induction queue as [|item rest IH]; intros remaining b s r s' p Hp Hl.
  - injection Hl as <- <-.
    apply (reach_move _ _ _ _ _ _ _ Hp). apply move_end. now left.
  - cbn [start_ready_loop] in Hl. rewrite bind_get in Hl.
    destruct (running_count (agents s) <? run_max_parallel run)%Z eqn:Hlt.
    + unfold bind in Hl.
      destruct (start_ready_iteration env fuel run item rest remaining b s)
        as [[x| |] s1] eqn:Hit; try discriminate.
      apply (IH (fst x) (snd x) s1 r s' p); [|exact Hl].
      apply (reach_move _ _ _ _ _ _ _ Hp).
      apply move_iteration; [now apply Z.ltb_lt | exact Hit].
    + injection Hl as <- <-.
      apply (reach_move _ _ _ _ _ _ _ Hp). apply move_end. right.
      now apply Z.ltb_ge.
Qed.

Lemma start_ready_agents_reach s b s' :
  allowed Tick ->
  start_ready_agents env fuel run s = (Ok b, s') ->
  reach env fuel run allowed (Idle s) (Idle s').
Proof.
  intros Hal H. unfold start_ready_agents in H. rewrite bind_get in H.
  unfold bind in H.
  destruct (start_ready_loop env fuel run (pending_prompts s) [] false s)
    as [[r| |] s1] eqn:Hl; try discriminate.
  cbn in H. injection H as _ <-.
  apply (loop_reach _ _ _ _ _ _ _ (reach_move _ _ _ _ _ _ _
                                    (reach_here _ _ _ _ _) (move_begin _ _ _ _ s Hal)) Hl).
Qed.

(** Every run of the program over allowed inputs is a sequence of moves. *)
Lemma run_inputs_reach inputs :
  forall s s',
    all_allowed allowed inputs ->
    run_inputs env fuel run inputs s = (Ok tt, s') ->
    reach env fuel run allowed (Idle s) (Idle s').
Proof.
  induction inputs as [|input inputs IH]; intros s s' Hall H.
  - injection H as <-. constructor.
  - inversion Hall as [|? ? Hin Hrest]; subst.
    cbn [run_inputs] in H. unfold bind in H.
    destruct (step env fuel run input s) as [[[]| |] s1] eqn:Hs; try discriminate.
    apply (reach_trans _ (Idle s1)); [|now apply IH].
    destruct (is_tick input) eqn:Ht.
    + destruct input; try discriminate. cbn [step] in Hs.
      unfold bind in Hs.
      destruct (start_ready_agents env fuel run s) as [[b| |] s2] eqn:Hsr;
        try discriminate.
      injection Hs as <-. now apply (start_ready_agents_reach s b).
    + apply (reach_move _ _ _ _ _ (Idle s)); [constructor|].
      now apply (move_input _ _ _ _ s input s1).
Qed.

End Simulation.

(** *** A cap that never blocks *)

Section Slots.

Context (env : Env) (fuel : nat) (run : Run).

Lemma running_count_le_length (d : list (string * Agent)) :
  (running_count d <= Z.of_nat (List.length d))%Z.
Proof.
  unfold running_count, dict_values. apply inj_le.
  rewrite <- (length_map snd d). apply filter_length_le.
Qed.

Lemma keys_view_lengths s s' :
  keys_view s' = keys_view s ->
  List.length (agents s') = List.length (agents s)
  /\ pending_prompts s' = pending_prompts s.
Proof.
  unfold keys_view. intros [= Hk Hp]. split; [|exact Hp].
  now rewrite <- (length_map fst (agents s')), Hk, length_map.
Qed.

Lemma step_keeps_keys input s :
  is_tick input = false ->
  keys_view (snd (step env fuel run input s)) = keys_view s.
Proof.
  intros Ht.
  assert (Kt : forall tid params args,
             keeps keys_view (on_turn_completed env tid params args)).
  { intros. apply (@keeps_on_turn_completed env _ keys_view keys_frame);
      intros; exact I. }
  assert (Kx : forall tid item log_dir,
             keeps keys_view (on_exited_review_mode env tid item log_dir)).
  { intros. apply (@keeps_on_exited_review_mode env _ keys_view keys_frame);
      intros; first [reflexivity | exact I]. }
  destruct input as [|req answers|event|line]; [discriminate| | |].
  - apply (@keeps_step_request env _ keys_view keys_frame (fun _ => I)).
  - apply (@keeps_process_event env _ keys_view keys_frame); auto.
  - apply (@keeps_step_line env _ keys_view keys_frame);
      intros; exact I.
Qed.

Lemma iteration_slots item rest remaining started_any s :
  wp (start_ready_iteration env fuel run item rest remaining started_any)
     (fun r s' =>
        pending_prompts s' = rest
        /\ forall x, r = Ok x ->
             (List.length (agents s') + List.length (fst x)
              <= List.length (agents s) + List.length remaining + 1)%nat) s.
Proof.
  unfold start_ready_iteration.
  apply wp_bind, wp_get. apply wp_bind, wp_modify.
  apply wp_bind, wp_lift; [intros e _; split; [reflexivity | discriminate]|].
  intros [|] _.
  - apply wp_bind.
    eapply wp_weaken;
      [apply (@start_agent_cases env _ keys_view keys_frame
                (fun _ => I) (fun _ _ => I) (fun _ => I))|].
    intros r s1 H.
    assert (E : pending_prompts s1 = rest
                /\ (List.length (agents s1) <= S (List.length (agents s)))%nat).
    { destruct H as [E | (tid & s2 & E2 & E)].
      - apply keys_view_lengths in E. cbn [agents pending_prompts
          set_pending_prompts] in E. destruct E as [-> ->]. split; [reflexivity | lia].
      - apply keys_view_lengths in E, E2.
        cbn [agents pending_prompts set_pending_prompts set_agents] in E, E2.
        destruct E as [El ->], E2 as [El2 ->]. split; [reflexivity|].
        rewrite El, <- El2. apply dict_set_length. }
    destruct E as [Ep El].
    destruct r; cbn beta iota;
      [apply wp_ret; split; [exact Ep|] | split; [exact Ep | discriminate]..].
    intros x [= <-]. cbn [fst]. lia.
  - apply wp_ret. split; [reflexivity|].
    intros x [= <-]. cbn [fst agents set_pending_prompts].
    rewrite length_app. cbn [List.length]. lia.
Qed.

Lemma move_within_slots n p q :
  move env fuel run any_input p q -> within_slots n p -> within_slots n q.
Proof.
  intros Hmove Hinv. destruct Hmove as
    [s input s' Hal Hnt Hstep | s Hal | item rest remaining b s r s' Hlt Hit
    | queue remaining b s Hend]; cbn [within_slots] in *.
  - pose proof (step_keeps_keys input s Hnt) as K. rewrite Hstep in K.
    apply keys_view_lengths in K. cbn [snd] in K. destruct K as [-> ->].
    exact Hinv.
  - split; [reflexivity|]. cbn [List.length]. lia.
  - destruct Hinv as [Hp Hn]. cbn [List.length] in Hn.
    pose proof (wp_run _ _ _ _ _
                  (iteration_slots item rest remaining b s) Hit) as [Hp' Hl].
    split; [exact Hp'|]. specialize (Hl r eq_refl). lia.
  - destruct Hinv as [Hp Hn]. unfold finish_pass.
    cbn [agents pending_prompts set_pending_prompts].
    rewrite length_app, Hp. lia.
Qed.

Lemma reach_within_slots n p q :
  reach env fuel run any_input p q -> within_slots n p -> within_slots n q.
Proof.
  induction 1 as [|q r _ IH Hm]; [trivial|].
  intros Hp. apply (move_within_slots n q r Hm). now apply IH.
Qed.

Lemma enumerate_specs_length prompts :
  forall index, List.length (enumerate_specs index prompts) = List.length prompts.
Proof.
  induction prompts as [|prompt prompts IH]; intros index; simpl; [reflexivity|].
  destruct (extract_directives prompt) as [[body wait] deps]. simpl.
  now rewrite IH.
Qed.

(** Where a spec waits, fewer than [n] agents run. *)
Lemma within_slots_room n p :
  within_slots n p -> waiting p <> [] ->
  (running_count (agents (point_state p)) < Z.of_nat n)%Z.
Proof.
  destruct p as [s | queue remaining b s]; cbn [within_slots waiting point_state].
  - intros Hn Hw. pose proof (running_count_le_length (agents s)).
    destruct (pending_prompts s); [congruence|]. cbn [List.length] in Hn. lia.
  - intros [_ Hn] Hw. pose proof (running_count_le_length (agents s)).
    destruct queue; [congruence|]. cbn [List.length] in Hn. lia.
Qed.

End Slots.

(** C10.  When [--max-parallel] is absent or 0 the cap is the number of
    agent specs, and then the scheduler never blocks a spec on the cap:
    whatever the inputs, wherever a spec waits (in the queue between two
    inputs, or in front of the loop's test during a pass) fewer agents
    than the cap are running, so the test of the count passes. *)
Theorem C10_absent_or_zero_max_parallel_never_blocks :
  forall args : Args,
    args_max_parallel args = None \/ args_max_parallel args = Some 0%Z ->
    effective_max_parallel args = Z.of_nat (List.length (args_agent args))
    /\ forall env fuel run first_id p,
         run_max_parallel run = effective_max_parallel args ->
         reach env fuel run any_input (Idle (initial_state args first_id)) p ->
         waiting p <> [] ->
         (running_count (agents (point_state p)) <? run_max_parallel run)%Z
         = true.
Proof.
  intros args Hmp.
  assert (E : effective_max_parallel args
              = Z.of_nat (List.length (args_agent args))).
  { unfold effective_max_parallel. destruct Hmp as [-> | ->]; reflexivity. }
  split; [exact E|].
  intros env fuel run first_id p Hcap Hreach Hw.
  apply Z.ltb_lt. rewrite Hcap, E.
  apply within_slots_room; [|exact Hw].
  apply (reach_within_slots env fuel run _ _ _ Hreach).
  cbn [within_slots initial_state agents pending_prompts List.length].
  now rewrite enumerate_specs_length.
Qed.


(** C10, on the sample run with [--max-parallel 0]: the cap is 3, and at
    the first test of the first pass the count is below it. *)
Lemma C10_sample_run_unlimited :
  effective_max_parallel sample_args_unlimited = 3%Z
  /\ (running_count (agents (initial_state sample_args_unlimited 2))
      <? run_max_parallel sample_run_unlimited)%Z = true.
Proof.
  destruct (C10_absent_or_zero_max_parallel_never_blocks sample_args_unlimited)
    as [Hcap Hroom]; [right; reflexivity|].
  split; [exact Hcap|].
  apply (Hroom sample_env 1%nat sample_run_unlimited 2%Z
           (InPass (pending_prompts (initial_state sample_args_unlimited 2))
                   [] false (initial_state sample_args_unlimited 2))).
  - reflexivity.
  - apply (reach_move _ _ _ _ _ (Idle (initial_state sample_args_unlimited 2)));
      [apply reach_here | apply move_begin; exact I].
  - vm_compute. discriminate.
Defined.

End SchedulerFacts.

(** ** Review artifacts *)

Module ReviewFacts.

Import MonadFacts FrameFacts DictFacts Views.

Lemma wp_update_known tid f a (Q : outcome unit -> State -> Prop) s :
  dict_get tid (agents s) = Some a ->
  Q (Ok tt) (set_agents (dict_set tid (f a) (agents s)) s) ->
  wp (update_agent tid f) Q s.
Proof. intros H HQ. unfold update_agent. apply wp_modify. now rewrite H. Qed.

Lemma wp_agent_known tid a (Q : outcome Agent -> State -> Prop) s :
  dict_get tid (agents s) = Some a -> Q (Ok a) s -> wp (agent_at tid) Q s.
Proof.
  intros H HQ. unfold agent_at. apply wp_bind, wp_get. rewrite H.
  now apply wp_ret.
Qed.

(** The agent under [tid] in a state built from known parts. *)
Ltac known_agent :=
  cbn [agents set_agents set_trace set_review_labels set_review_written
       set_recent_logs];
  first [ eassumption | apply dict_get_set_same ].

(** One step of a computation run on a state in which the agent is
    known. *)
Ltac run_step :=
  cbn beta iota zeta;
  lazymatch goal with
  | |- wp (bind _ _) _ _ => apply wp_bind
  | |- wp get _ _ => apply wp_get
  | |- wp (modify _) _ _ => apply wp_modify
  | |- wp (ret _) _ _ => apply wp_ret
  | |- wp (emit _) _ _ => unfold emit
  | |- wp (time_time _) _ _ => unfold time_time
  | |- wp (log_recent _) _ _ => unfold log_recent
  | |- wp (record_recent _ _) _ _ => unfold record_recent
  | |- wp (log_line _ _) _ _ => unfold log_line
  | |- wp (write_review_output _ _ _ _ _ _) _ _ => unfold write_review_output
  | |- wp (update_agent _ _) _ _ => eapply wp_update_known; [known_agent|]
  | |- wp (agent_at _) _ _ => eapply wp_agent_known; [known_agent|]
  end.

Lemma in_strs_snoc x y l :
  Py.in_strs x (l ++ [y]) = Py.in_strs x l || String.eqb x y.
Proof.
  unfold Py.in_strs. rewrite existsb_app. cbn [existsb]. now rewrite orb_false_r.
Qed.

Section Review.

Context (env : Env).

(** What [on_exited_review_mode] does when it writes. *)
Lemma on_exited_writes tid item log_dir s a :
  dict_get tid (agents s) = Some a ->
  Py.nonempty (Py.or_empty (item_review item)) && Py.truthy_str (item_id item)
  && negb (Py.in_strs (Py.or_empty (item_id item)) (review_written s)) = true ->
  exists path content,
    wp (on_exited_review_mode env tid item log_dir)
       (fun r s' =>
          r = Ok tt
          /\ review_written s' = (review_written s ++ [Py.or_empty (item_id item)])%list
          /\ (forall rid,
                artifacts rid s'
                = (artifacts rid s
                   ++ (if String.eqb (Py.or_empty (item_id item)) rid
                       then [WroteReview (Py.or_empty (item_id item)) path content]
                       else []))%list)
          /\ recent_logs s' = append_bounded 10 (saved_entry path) (recent_logs s)
          /\ exists a',
               dict_get tid (agents s') = Some a'
               /\ ag_history a' = (ag_history a ++ [saved_entry path])%list) s.
Proof.
  intros Ha Hc.
  assert (Hnot : Py.in_strs (Py.or_empty (item_id item)) (review_written s) = false).
  { apply andb_prop in Hc. destruct Hc as [_ Hc]. now apply negb_true_iff in Hc. }
  do 2 eexists.
  unfold on_exited_review_mode. cbv zeta. apply wp_bind, wp_get. rewrite Hc.
  do 40 try run_step.
  match goal with |- wp (if ?c then _ else _) _ _ => destruct c end;
    do 5 try run_step.
  all: cbn [review_written recent_logs agents trace set_agents set_trace
         set_review_labels set_review_written set_recent_logs].
  all: split; [reflexivity|].
  all: split; [unfold set_add; now rewrite Hnot|].
  all: split;
    [intros rid; unfold artifacts;
     cbn [trace set_agents set_trace set_review_labels set_review_written
          set_recent_logs];
     rewrite !filter_app; cbn [filter is_artifact];
     destruct (String.eqb _ rid); rewrite ?app_nil_r; reflexivity|].
  all: split; [unfold saved_entry; reflexivity|].
  all: eexists; split; [apply dict_get_set_same|].
  all: cbn [ag_history set_ag_history set_ag_recent_stream set_ag_recent];
    reflexivity.
Qed.


(** Otherwise it does nothing. *)
Lemma on_exited_skips tid item log_dir s :
  Py.nonempty (Py.or_empty (item_review item)) && Py.truthy_str (item_id item)
  && negb (Py.in_strs (Py.or_empty (item_id item)) (review_written s)) = false ->
  on_exited_review_mode env tid item log_dir s = (Ok tt, s).
Proof.
  intros Hc. unfold on_exited_review_mode. cbv zeta. rewrite bind_get, Hc.
  reflexivity.
Qed.

(** Caching the item touches the agent's [items] only. *)
Lemma cache_item_known tid item s a :
  dict_get tid (agents s) = Some a ->
  cache_item tid item s
  = (Ok tt,
     if Py.truthy_str (item_id item)
     then set_agents
            (dict_set tid
               (set_ag_items
                  (dict_set (Py.or_empty (item_id item)) item (ag_items a)) a)
               (agents s)) s
     else s).
Proof.
  intros Ha. unfold cache_item, when.
  destruct (Py.truthy_str (item_id item)); [|reflexivity].
  unfold update_agent, modify. now rewrite Ha.
Qed.

(** An [item/completed] event of a supervised thread that carries an
    [exitedReviewMode] item runs the review code and nothing else. *)
Lemma process_event_exited event tid rid output item args log_dir s :
  exited_review_of event tid rid output item ->
  dict_mem tid (agents s) = true ->
  process_event env event args log_dir s
  = bind (cache_item tid item)
         (fun _ => on_exited_review_mode env tid item log_dir) s.
Proof.
  intros (Hm & (params & Hp & Ht & Hi) & Hty & _) Hmem.
  unfold process_event. cbv zeta. rewrite Hm, Hp, Ht, bind_get.
  cbn [known Py.or_empty]. rewrite Hmem.
  change (opt_is (Some "item/completed") "turn/started") with false.
  change (opt_is (Some "item/completed") "item/started") with false.
  change (opt_is (Some "item/completed") "item/completed") with true.
  cbn [andb].
  pose proof (on_item_completed_exited env tid params log_dir s) as H.
  cbv zeta in H. rewrite Hi in H. apply H. now rewrite Hty.
Qed.

(** The review code keeps [written_once], for every review id. *)
Lemma review_code_written_once rid tid item log_dir s :
  dict_mem tid (agents s) = true ->
  written_once rid s ->
  written_once rid
    (snd (bind (cache_item tid item)
               (fun _ => on_exited_review_mode env tid item log_dir) s)).
Proof.
  intros Hmem Hinv. destruct (dict_mem_get _ _ Hmem) as [a Ha].
  unfold bind. rewrite (cache_item_known tid item s a Ha).
  set (s1 := if Py.truthy_str (item_id item) then _ else s).
  assert (H1 : review_written s1 = review_written s /\ trace s1 = trace s
               /\ exists a1, dict_get tid (agents s1) = Some a1).
  { subst s1. destruct (Py.truthy_str (item_id item)); cbn.
    - repeat split. eexists. apply dict_get_set_same.
    - repeat split. eauto. }
  destruct H1 as (Hw & Ht & a1 & Ha1).
  assert (Hinv1 : written_once rid s1).
  { unfold written_once, artifacts in *. now rewrite Hw, Ht. }
  clearbody s1.
  destruct (Py.nonempty (Py.or_empty (item_review item))
            && Py.truthy_str (item_id item)
            && negb (Py.in_strs (Py.or_empty (item_id item)) (review_written s1)))
    eqn:Hc.
  - destruct (on_exited_writes tid item log_dir s1 a1 Ha1 Hc)
      as (path & content & H).
    unfold wp in H. destruct H as (_ & Hw' & Hart & _).
    unfold written_once in *. rewrite Hw', Hart, length_app, in_strs_snoc.
    apply andb_prop in Hc. destruct Hc as [_ Hnot].
    apply negb_true_iff in Hnot.
    rewrite (String.eqb_sym rid (Py.or_empty (item_id item))).
    destruct (String.eqb (Py.or_empty (item_id item)) rid) eqn:E.
    + apply String.eqb_eq in E. subst rid. rewrite Hnot in *.
      rewrite Hinv1. reflexivity.
    + rewrite orb_false_r, Hinv1. cbn [List.length]. lia.
  - now rewrite (on_exited_skips tid item log_dir s1 Hc).
Qed.

Lemma written_once_view rid s s' :
  review_view rid s' = review_view rid s -> written_once rid s -> written_once rid s'.
Proof.
  unfold review_view, written_once. intros [= Hw Ha]. now rewrite Hw, Ha.
Qed.

Lemma keeps_start_agent_review rid fuel run item :
  keeps (review_view rid) (start_agent env fuel run item).
Proof.
  intros s.
  pose proof (@start_agent_cases env _ (review_view rid) (review_frame rid)
                (fun _ => eq_refl) (fun _ _ => eq_refl) (fun _ => eq_refl)
                fuel run item s) as H.
  unfold wp in H. destruct H as [H | (tid & s1 & H1 & H2)]; [exact H|].
  rewrite H2. exact H1.
Qed.

Lemma keeps_iteration_review rid fuel run item rest remaining started_any :
  keeps (review_view rid)
        (start_ready_iteration env fuel run item rest remaining started_any).
Proof.
  unfold start_ready_iteration.
  pose proof (keeps_start_agent_review rid fuel run item). frame.
Qed.

Lemma step_written_once rid fuel run input s :
  is_tick input = false ->
  written_once rid s -> written_once rid (snd (step env fuel run input s)).
Proof.
  intros Hnt Hinv.
  destruct input as [|req answers|event|line]; [discriminate| | |].
  - apply (written_once_view rid s); [|exact Hinv].
    apply (@keeps_step_request env _ (review_view rid) (review_frame rid)
             (fun _ => eq_refl)).
  - cbn [step].
    destruct (@process_event_review_cases env _ (review_view rid)
                (review_frame rid) event (run_args run) (run_log_dir run)
                (fun tid params =>
                   @keeps_on_turn_completed env _ (review_view rid)
                     (review_frame rid) (fun _ => eq_refl) (fun _ => I)
                     tid params (run_args run)) s)
      as [K | (tid & item & Hmem & _ & E)].
    + now apply (written_once_view rid s).
    + rewrite E. now apply review_code_written_once.
  - apply (written_once_view rid s); [|exact Hinv].
    apply (@keeps_step_line env _ (review_view rid) (review_frame rid)
             (fun _ => eq_refl) (fun _ => I) fuel run line (fun _ => eq_refl)).
Qed.

Lemma move_written_once rid fuel run p q :
  move env fuel run any_input p q ->
  written_once rid (point_state p) -> written_once rid (point_state q).
Proof.
  intros Hmove Hinv. destruct Hmove as
    [s input s' Hal Hnt Hstep | s Hal | item rest remaining b s r s' Hlt Hit
    | queue remaining b s Hend]; cbn [point_state] in *.
  - pose proof (step_written_once rid fuel run input s Hnt Hinv) as H.
    now rewrite Hstep in H.
  - exact Hinv.
  - apply (written_once_view rid s); [|exact Hinv].
    pose proof (keeps_iteration_review rid fuel run item rest remaining b s) as K.
    now rewrite Hit in K.
  - exact Hinv.
Qed.

Lemma reach_written_once rid fuel run p q :
  reach env fuel run any_input p q ->
  written_once rid (point_state p) -> written_once rid (point_state q).
Proof.
  induction 1 as [|q r _ IH Hm]; [trivial|].
  intros Hp. apply (move_written_once rid fuel run q r Hm). now apply IH.
Qed.

End Review.

(** The first time a review is left with an output. *)
Lemma exited_review_first :
  forall env event tid rid output item args log_dir s a,
    exited_review_of event tid rid output item ->
    Py.nonempty rid = true ->
    Py.nonempty output = true ->
    dict_get tid (agents s) = Some a ->
    Py.in_strs rid (review_written s) = false ->
    exists path content a',
      fst (process_event env event args log_dir s) = Ok tt
      /\ review_written (snd (process_event env event args log_dir s))
         = (review_written s ++ [rid])%list
      /\ artifacts rid (snd (process_event env event args log_dir s))
         = (artifacts rid s ++ [WroteReview rid path content])%list
      /\ (forall other,
            String.eqb rid other = false ->
            artifacts other (snd (process_event env event args log_dir s))
            = artifacts other s)
      /\ recent_logs (snd (process_event env event args log_dir s))
         = append_bounded 10 (saved_entry path) (recent_logs s)
      /\ dict_get tid (agents (snd (process_event env event args log_dir s)))
         = Some a'
      /\ ag_history a' = (ag_history a ++ [saved_entry path])%list.
Proof.
  intros env event tid rid output item args log_dir s a Hev Hrid Hout Ha Hnew.
  rewrite (process_event_exited env event tid rid output item args log_dir s Hev)
    by (unfold dict_mem; now rewrite Ha).
  destruct Hev as (_ & _ & _ & Hid & Hrev).
  unfold bind. rewrite (cache_item_known tid item s a Ha), Hid.
  destruct rid as [|c rid']; [discriminate|]. cbn [Py.truthy_str Py.or_empty].
  set (rid := String c rid') in *.
  set (a1 := set_ag_items (dict_set rid item (ag_items a)) a).
  set (s1 := set_agents (dict_set tid a1 (agents s)) s).
  assert (Ha1 : dict_get tid (agents s1) = Some a1) by apply dict_get_set_same.
  assert (Hc : Py.nonempty (Py.or_empty (item_review item))
               && Py.truthy_str (item_id item)
               && negb (Py.in_strs (Py.or_empty (item_id item)) (review_written s1))
               = true).
  { rewrite Hid, Hrev. cbn [Py.or_empty Py.truthy_str]. rewrite Hout.
    subst s1. cbn [review_written set_agents]. now rewrite Hnew. }
  destruct (on_exited_writes env tid item log_dir s1 a1 Ha1 Hc)
    as (path & content & H).
  unfold wp in H. rewrite Hid in H. cbn [Py.or_empty] in H.
  destruct H as (Hok & Hw & Hart & Hlogs & a' & Ha' & Hh).
  exists path, content, a'.
  split; [exact Hok|]. split; [exact Hw|].
  split; [now rewrite Hart, String.eqb_refl|].
  split; [intros other Hne; now rewrite Hart, Hne, app_nil_r|].
  split; [exact Hlogs|]. split; [exact Ha' | exact Hh].
Qed.

(** X1.  The first [exitedReviewMode] item of a review: when the item
    completes on a supervised thread, with an id and an output that are
    not empty and an id not yet in [review_written], [process_event]
    returns, adds the id to [review_written], writes one artifact for
    that id and none for another, and records it once: one entry at the
    end of the recent logs and one at the end of the agent's history,
    both naming the artifact's path. *)
Theorem first_exited_review_is_written_once :
  forall env event tid rid output item args log_dir s a,
    exited_review_of event tid rid output item ->
    Py.nonempty rid = true ->
    Py.nonempty output = true ->
    dict_get tid (agents s) = Some a ->
    Py.in_strs rid (review_written s) = false ->
    exists path content a',
      fst (process_event env event args log_dir s) = Ok tt
      /\ review_written (snd (process_event env event args log_dir s))
         = (review_written s ++ [rid])%list
      /\ artifacts rid (snd (process_event env event args log_dir s))
         = (artifacts rid s ++ [WroteReview rid path content])%list
      /\ (forall other,
            String.eqb rid other = false ->
            artifacts other (snd (process_event env event args log_dir s))
            = artifacts other s)
      /\ recent_logs (snd (process_event env event args log_dir s))
         = append_bounded 10 (saved_entry path) (recent_logs s)
      /\ dict_get tid (agents (snd (process_event env event args log_dir s)))
         = Some a'
      /\ ag_history a' = (ag_history a ++ [saved_entry path])%list.
Proof. exact exited_review_first. Qed.

(** X1 at the first agent of the sample run, for the review [r1]. *)
Lemma first_exited_review_sample :
  exists path content a',
    fst (process_event sample_env (exited_review "t2" "r1" "looks good")
           sample_args "/logs" (sample_state sample_run [Tick])) = Ok tt
    /\ review_written
         (snd (process_event sample_env (exited_review "t2" "r1" "looks good")
                 sample_args "/logs" (sample_state sample_run [Tick])))
       = (review_written (sample_state sample_run [Tick]) ++ ["r1"])%list
    /\ artifacts "r1"
         (snd (process_event sample_env (exited_review "t2" "r1" "looks good")
                 sample_args "/logs" (sample_state sample_run [Tick])))
       = (artifacts "r1" (sample_state sample_run [Tick])
          ++ [WroteReview "r1" path content])%list
    /\ (forall other,
          String.eqb "r1" other = false ->
          artifacts other
            (snd (process_event sample_env (exited_review "t2" "r1" "looks good")
                    sample_args "/logs" (sample_state sample_run [Tick])))
          = artifacts other (sample_state sample_run [Tick]))
    /\ recent_logs
         (snd (process_event sample_env (exited_review "t2" "r1" "looks good")
                 sample_args "/logs" (sample_state sample_run [Tick])))
       = append_bounded 10 (saved_entry path)
           (recent_logs (sample_state sample_run [Tick]))
    /\ dict_get "t2"
         (agents
            (snd (process_event sample_env (exited_review "t2" "r1" "looks good")
                    sample_args "/logs" (sample_state sample_run [Tick]))))
       = Some a'
    /\ ag_history a' = (ag_history sample_agent ++ [saved_entry path])%list.
Proof.
  refine (first_exited_review_is_written_once sample_env
            (exited_review "t2" "r1" "looks good") "t2" "r1" "looks good"
            (exited_item "r1" "looks good") sample_args "/logs"
            (sample_state sample_run [Tick]) sample_agent _ _ _ _ _).
  - unfold exited_review_of, exited_review, exited_item.
    cbn [ev_method ev_params item_type item_id item_review].
    repeat split. eexists. repeat split.
  - reflexivity.
  - reflexivity.
  - vm_compute. reflexivity.
  - vm_compute. reflexivity.
Defined.

(** A review left without an output, or left again. *)
Lemma exited_review_later :
  forall env event tid rid output item args log_dir s,
    exited_review_of event tid rid output item ->
    Py.nonempty rid = true ->
    dict_mem tid (agents s) = true ->
    Py.nonempty output = false \/ Py.in_strs rid (review_written s) = true ->
    process_event env event args log_dir s = cache_item tid item s
    /\ forall a,
         dict_get tid (agents s) = Some a ->
         process_event env event args log_dir s
         = (Ok tt,
            set_agents
              (dict_set tid (set_ag_items (dict_set rid item (ag_items a)) a)
                        (agents s)) s).
Proof.
  intros env event tid rid output item args log_dir s Hev Hrid Hmem Hdup.
  rewrite (process_event_exited env event tid rid output item args log_dir s Hev)
    by exact Hmem.
  destruct Hev as (_ & _ & _ & Hid & Hrev).
  destruct (dict_mem_get _ _ Hmem) as [a Ha].
  assert (E : bind (cache_item tid item)
                (fun _ => on_exited_review_mode env tid item log_dir) s
              = cache_item tid item s).
  { unfold bind. rewrite (cache_item_known tid item s a Ha), Hid.
    destruct rid as [|c rid']; [discriminate|]. cbn [Py.truthy_str Py.or_empty].
    apply on_exited_skips. rewrite Hid, Hrev.
    cbn [Py.or_empty Py.truthy_str review_written set_agents].
    destruct Hdup as [-> | ->]; [reflexivity|].
    now rewrite andb_false_r. }
  split; [exact E|].
  intros a0 Ha0. rewrite E, (cache_item_known tid item s a0 Ha0), Hid.
  destruct rid as [|c rid']; [discriminate|]. reflexivity.
Qed.

(** X2.  An [exitedReviewMode] item that completes on a supervised
    thread with an empty output, or with an id already in
    [review_written], is only cached among the agent's items: nothing is
    written, sent or logged, and no queue, label or log entry changes. *)
Theorem later_exited_review_is_only_cached :
  forall env event tid rid output item args log_dir s,
    exited_review_of event tid rid output item ->
    Py.nonempty rid = true ->
    dict_mem tid (agents s) = true ->
    Py.nonempty output = false \/ Py.in_strs rid (review_written s) = true ->
    process_event env event args log_dir s = cache_item tid item s
    /\ forall a,
         dict_get tid (agents s) = Some a ->
         process_event env event args log_dir s
         = (Ok tt,
            set_agents
              (dict_set tid (set_ag_items (dict_set rid item (ag_items a)) a)
                        (agents s)) s).
Proof. exact exited_review_later. Qed.

(** X2 on the sample run: the second time the review [r1] is left. *)
Lemma later_exited_review_sample :
  process_event sample_env (exited_review "t2" "r1" "looks good") sample_args
    "/logs"
    (sample_state sample_run
       [Tick; Incoming (exited_review "t2" "r1" "looks good")])
  = cache_item "t2" (exited_item "r1" "looks good")
      (sample_state sample_run
         [Tick; Incoming (exited_review "t2" "r1" "looks good")]).
Proof.
  refine (proj1 (later_exited_review_is_only_cached sample_env
                   (exited_review "t2" "r1" "looks good") "t2" "r1" "looks good"
                   (exited_item "r1" "looks good") sample_args "/logs"
                   (sample_state sample_run
                      [Tick; Incoming (exited_review "t2" "r1" "looks good")])
                   _ _ _ _)).
  - unfold exited_review_of, exited_review, exited_item.
    cbn [ev_method ev_params item_type item_id item_review].
    repeat split. eexists. repeat split.
  - reflexivity.
  - vm_compute. reflexivity.
  - right. vm_compute. reflexivity.
Defined.

(** X3.  Whatever the inputs of a run (passes, requests, events and
    operator lines, in any order and number), at every point of the loop
    and for every review id, the artifacts written for the id are one if
    the id is in [review_written] and none otherwise: no review is
    written twice. *)
Theorem no_review_is_written_twice :
  forall env fuel run args first_id rid p,
    reach env fuel run any_input (Idle (initial_state args first_id)) p ->
    List.length (artifacts rid (point_state p))
    = if Py.in_strs rid (review_written (point_state p)) then 1%nat else 0%nat.
Proof.
  intros env fuel run args first_id rid p Hreach.
  apply (reach_written_once env rid fuel run _ _ Hreach). reflexivity.
Qed.

(** X3 on the sample run, after the review [r1] was left three times. *)
Lemma no_review_is_written_twice_sample :
  all_allowed any_input review_inputs
  /\ List.length
       (artifacts "r1" (point_state (sample_point sample_run review_inputs)))
     = 1%nat.
Proof.
  assert (Hin : all_allowed any_input review_inputs) by (repeat constructor).
  split; [exact Hin|].
  assert (E : Py.in_strs "r1"
                (review_written
                   (point_state (sample_point sample_run review_inputs)))
              = true) by (vm_compute; reflexivity).
  rewrite (no_review_is_written_twice sample_env 1 sample_run sample_args 2%Z
             "r1" (sample_point sample_run review_inputs)).
  - rewrite E. reflexivity.
  - unfold sample_point.
    refine (SchedulerFacts.run_inputs_reach sample_env 1 sample_run any_input
              review_inputs (initial_state sample_args 2)
              (sample_state sample_run review_inputs) Hin _).
    vm_compute. reflexivity.
Defined.

(** A review that was written already: the events that leave it again
    change the agent's items only. *)
Lemma leaving_again_changes_nothing env fuel run tid rid events :
  forall s,
    Forall (leaves_review tid rid) events ->
    Py.nonempty rid = true ->
    Py.in_strs rid (review_written s) = true ->
    dict_mem tid (agents s) = true ->
    fst (run_inputs env fuel run (map Incoming events) s) = Ok tt
    /\ review_written (snd (run_inputs env fuel run (map Incoming events) s))
       = review_written s
    /\ trace (snd (run_inputs env fuel run (map Incoming events) s)) = trace s
    /\ recent_logs (snd (run_inputs env fuel run (map Incoming events) s))
       = recent_logs s
    /\ forall a,
         dict_get tid (agents s) = Some a ->
         exists a',
           dict_get tid
             (agents (snd (run_inputs env fuel run (map Incoming events) s)))
           = Some a'
           /\ ag_history a' = ag_history a.
Proof.
  induction events as [|event events IH]; intros s Hall Hrid Hw Hmem.
  - cbn [map run_inputs ret fst snd]. repeat split. intros a Ha. now exists a.
  - inversion Hall as [|? ? (output & item & Hev & _) Hrest]; subst.
    destruct (dict_mem_get _ _ Hmem) as [a0 Ha0].
    pose proof (proj2 (exited_review_later env event tid rid output item
                         (run_args run) (run_log_dir run) s Hev Hrid Hmem
                         (or_intror Hw)) a0 Ha0) as E.
    cbn [map run_inputs step]. unfold bind. rewrite E.
    set (s1 := set_agents _ s).
    assert (Ha1 : dict_get tid (agents s1)
                  = Some (set_ag_items (dict_set rid item (ag_items a0)) a0))
      by apply dict_get_set_same.
    destruct (IH s1 Hrest Hrid Hw) as (Hok & Hrw & Htr & Hrl & Hag).
    { unfold dict_mem. now rewrite Ha1. }
    split; [exact Hok|]. split; [exact Hrw|]. split; [exact Htr|].
    split; [exact Hrl|].
    intros a Ha. rewrite Ha0 in Ha. injection Ha as <-.
    destruct (Hag _ Ha1) as (a' & Ha' & Hh). now exists a'.
Qed.

(** C7.  A review left any number of times.  When [item/completed]
    events of a supervised thread carry [exitedReviewMode] items with the
    same id, not empty and not yet in [review_written], and outputs that
    are not empty, the run of these events returns, with exactly one
    artifact written for the id, the id added once to [review_written],
    one "review output saved" entry added to the recent logs and one to
    the agent's history, both naming the artifact's path: they are those
    of the first event, and the later events add nothing.  And whatever
    the inputs of a run, at every point of the loop and for every review
    id, the artifacts written for the id are one if the id is in
    [review_written] and none otherwise. *)
Theorem C7_review_left_again_is_written_once :
  (forall env fuel run tid rid event events s a,
      Forall (leaves_review tid rid) (event :: events) ->
      Py.nonempty rid = true ->
      dict_get tid (agents s) = Some a ->
      Py.in_strs rid (review_written s) = false ->
      exists path content a',
        fst (run_inputs env fuel run (map Incoming (event :: events)) s) = Ok tt
        /\ artifacts rid
             (snd (run_inputs env fuel run (map Incoming (event :: events)) s))
           = (artifacts rid s ++ [WroteReview rid path content])%list
        /\ review_written
             (snd (run_inputs env fuel run (map Incoming (event :: events)) s))
           = (review_written s ++ [rid])%list
        /\ recent_logs
             (snd (run_inputs env fuel run (map Incoming (event :: events)) s))
           = append_bounded 10 (saved_entry path) (recent_logs s)
        /\ dict_get tid
             (agents
                (snd (run_inputs env fuel run (map Incoming (event :: events)) s)))
           = Some a'
        /\ ag_history a' = (ag_history a ++ [saved_entry path])%list)
  /\ (forall env fuel run args first_id rid p,
        reach env fuel run any_input (Idle (initial_state args first_id)) p ->
        List.length (artifacts rid (point_state p))
        = if Py.in_strs rid (review_written (point_state p))
          then 1%nat else 0%nat).
Proof.
  split.
  - intros env fuel run tid rid event events s a Hall Hrid Ha Hnew.
    inversion Hall as [|? ? (output & item & Hev & Hout) Hrest]; subst.
    destruct (exited_review_first env event tid rid output item (run_args run)
                (run_log_dir run) s a Hev Hrid Hout Ha Hnew)
      as (path & content & a1 & Hok & Hw & Hart & _ & Hlogs & Ha1 & Hh).
    exists path, content.
    cbn [map run_inputs step]. unfold bind.
    destruct (process_event env event (run_args run) (run_log_dir run) s)
      as [r s1]. cbn [fst snd] in *. subst r.
    destruct (leaving_again_changes_nothing env fuel run tid rid events s1 Hrest
                Hrid) as (Hok' & Hrw & Htr & Hrl & Hag).
    { rewrite Hw. unfold Py.in_strs. rewrite existsb_app. cbn [existsb].
      now rewrite String.eqb_refl, orb_true_r. }
    { unfold dict_mem. now rewrite Ha1. }
    destruct (Hag a1 Ha1) as (a' & Ha' & Hh').
    exists a'. split; [exact Hok'|].
    split; [unfold artifacts in *; now rewrite Htr|].
    split; [now rewrite Hrw|]. split; [now rewrite Hrl|].
    split; [exact Ha' | now rewrite Hh'].
  - intros env fuel run args first_id rid p Hreach.
    apply (reach_written_once env rid fuel run _ _ Hreach). reflexivity.
Qed.

(** C7 on the sample run: the review [r1] is left three times by the
    first agent. *)
Lemma C7_review_left_again_sample :
  exists path content a',
    fst (run_inputs sample_env 1 sample_run
           (map Incoming
              [exited_review "t2" "r1" "looks good";
               exited_review "t2" "r1" "looks good";
               exited_review "t2" "r1" "looks good"])
           (sample_state sample_run [Tick])) = Ok tt
    /\ artifacts "r1"
         (snd (run_inputs sample_env 1 sample_run
                 (map Incoming
                    [exited_review "t2" "r1" "looks good";
                     exited_review "t2" "r1" "looks good";
                     exited_review "t2" "r1" "looks good"])
                 (sample_state sample_run [Tick])))
       = (artifacts "r1" (sample_state sample_run [Tick])
          ++ [WroteReview "r1" path content])%list
    /\ review_written
         (snd (run_inputs sample_env 1 sample_run
                 (map Incoming
                    [exited_review "t2" "r1" "looks good";
                     exited_review "t2" "r1" "looks good";
                     exited_review "t2" "r1" "looks good"])
                 (sample_state sample_run [Tick])))
       = (review_written (sample_state sample_run [Tick]) ++ ["r1"])%list
    /\ recent_logs
         (snd (run_inputs sample_env 1 sample_run
                 (map Incoming
                    [exited_review "t2" "r1" "looks good";
                     exited_review "t2" "r1" "looks good";
                     exited_review "t2" "r1" "looks good"])
                 (sample_state sample_run [Tick])))
       = append_bounded 10 (saved_entry path)
           (recent_logs (sample_state sample_run [Tick]))
    /\ dict_get "t2"
         (agents
            (snd (run_inputs sample_env 1 sample_run
                    (map Incoming
                       [exited_review "t2" "r1" "looks good";
                        exited_review "t2" "r1" "looks good";
                        exited_review "t2" "r1" "looks good"])
                    (sample_state sample_run [Tick]))))
       = Some a'
    /\ ag_history a' = (ag_history sample_agent ++ [saved_entry path])%list.
Proof.
  assert (Hev : leaves_review "t2" "r1" (exited_review "t2" "r1" "looks good")).
  { exists "looks good", (exited_item "r1" "looks good").
    split; [|reflexivity].
    split; [reflexivity|]. split; [eexists; repeat split|]. repeat split. }
  refine (proj1 C7_review_left_again_is_written_once sample_env 1 sample_run
            "t2" "r1" (exited_review "t2" "r1" "looks good")
            [exited_review "t2" "r1" "looks good";
             exited_review "t2" "r1" "looks good"]
            (sample_state sample_run [Tick]) sample_agent _ _ _ _).
  - repeat constructor; exact Hev.
  - reflexivity.
  - vm_compute. reflexivity.
  - vm_compute. reflexivity.
Defined.

End ReviewFacts.

(** ** Readiness gates: [wait_for_status] and [start_agent] *)

Module WaitFacts.

Import MonadFacts.
Local Open Scope monad_scope.

Section Wait.

Context (env : Env).

(** What one poll does when the deadline has passed. *)
Lemma wait_loop_expired fuel path expected limit out announced s :
  (limit < clock env (List.length (trace s)))%Z ->
  wait_loop env (S fuel) path expected (Some limit) out announced s
  = (Raise (TimeoutError ("waited for status '" ++ expected ++ "' in " ++ path)),
     set_trace (trace s ++ [ReadClock (clock env (List.length (trace s)))]) s).
Proof.
  intros H. apply Z.ltb_lt in H.
  cbn [wait_loop]. unfold time_time, emit, bind, get, modify, ret, raise.
  cbn [trace set_trace]. now rewrite H.
Qed.

Lemma gate_trace_after path expected s s1 pre r s' :
  trace s1 = (trace s ++ pre)%list ->
  nothing_sent pre = true ->
  gate_trace path expected s1 r s' ->
  gate_trace path expected s r s'.
Proof.
  intros E Hpre (added & Et & Hs & Hr). exists (pre ++ added)%list.
  split; [now rewrite Et, E, app_assoc|].
  split; [unfold nothing_sent in *; now rewrite forallb_app, Hpre, Hs|].
  intros Hok. rewrite existsb_app, (Hr Hok). apply orb_true_r.
Qed.

Lemma output_trace out text s :
  exists pre,
    fst (output out text s) = Ok tt
    /\ trace (snd (output out text s)) = (trace s ++ pre)%list
    /\ nothing_sent pre = true.
Proof.
  destruct out; cbn.
  - exists [Printed text]. repeat split.
  - exists []. rewrite app_nil_r. repeat split.
Qed.

Lemma when_output_trace b out text s :
  exists pre,
    fst (when b (output out text) s) = Ok tt
    /\ trace (snd (when b (output out text) s)) = (trace s ++ pre)%list
    /\ nothing_sent pre = true.
Proof.
  destruct b; [apply output_trace|].
  exists []. rewrite app_nil_r. repeat split.
Qed.

(** One poll, after the test of the deadline. *)
Lemma poll_trace fuel path expected deadline out announced s :
  (forall announced' s1,
      wp (wait_loop env fuel path expected deadline out announced')
         (gate_trace path expected s1) s1) ->
  wp (s0 <- get ;;
      let first_line := readline env (List.length (trace s0)) path in
      emit (ReadFile path first_line) ;;
      if match first_line with
         | Some text => String.eqb (Py.strip text) expected
         | None => false
         end
      then
        when announced (output out ("[supervisor] status ready in " ++ path))
      else
        when (negb announced)
          (output out ("[supervisor] waiting for status '" ++ expected
                       ++ "' in " ++ path)) ;;
        emit (Slept 5) ;;
        wait_loop env fuel path expected deadline out true)
     (gate_trace path expected s) s.
Proof.
  intros IH. apply wp_bind, wp_get. cbv zeta.
  apply wp_bind. unfold emit at 1. apply wp_modify.
  set (first_line := readline env (List.length (trace s)) path).
  set (s1 := set_trace (trace s ++ [ReadFile path first_line]) s).
  destruct (match first_line with
            | Some text => String.eqb (Py.strip text) expected
            | None => false
            end) eqn:Hready.
  - destruct (when_output_trace announced out
                ("[supervisor] status ready in " ++ path) s1)
      as (pre & Hok & Ht & Hs).
    unfold wp. rewrite Hok.
    exists ([ReadFile path first_line] ++ pre)%list.
    split; [now rewrite Ht, app_assoc|].
    split; [exact Hs|]. intros _.
    cbn [app existsb is_ready_read].
    destruct first_line as [text|]; [|discriminate].
    now rewrite String.eqb_refl, Hready.
  - apply wp_bind.
    destruct (when_output_trace (negb announced) out
                ("[supervisor] waiting for status '" ++ expected
                 ++ "' in " ++ path) s1)
      as (pre & Hok & Ht & Hs).
    unfold wp at 1. rewrite Hok.
    apply wp_bind. unfold emit at 1. apply wp_modify.
    eapply wp_weaken; [apply IH|].
    intros r s' H.
    eapply (gate_trace_after path expected s _
              ([ReadFile path first_line] ++ pre ++ [Slept 5])%list r s');
      [| |exact H].
    + cbn [trace set_trace]. rewrite Ht. subst s1. cbn [trace set_trace].
      now rewrite <- !app_assoc.
    + unfold nothing_sent in *. cbn [app forallb is_sent negb andb].
      now rewrite forallb_app, Hs.
Qed.

(** What the polls add to the trace: no message to the server, and a
    read of the expected status if the wait returns. *)
Lemma wait_loop_trace fuel path expected deadline out :
  forall announced s,
    wp (wait_loop env fuel path expected deadline out announced)
       (gate_trace path expected s) s.
Proof.
  induction fuel as [|fuel IH]; intros announced s.
  - exists []. rewrite app_nil_r. repeat split. discriminate.
  - cbn [wait_loop]. apply wp_bind.
    destruct deadline as [limit|].
    + apply wp_bind. unfold time_time. apply wp_bind, wp_get. apply wp_bind.
      unfold emit. apply wp_modify. apply wp_ret. apply wp_ret.
      set (s1 := set_trace _ s).
      destruct (limit <? clock env (List.length (trace s)))%Z.
      * apply wp_raise. exists [ReadClock (clock env (List.length (trace s)))].
        repeat split. discriminate.
      * eapply wp_weaken; [apply (poll_trace fuel path expected (Some limit)); exact IH|].
        intros r s' H.
        apply (gate_trace_after path expected s s1
                 [ReadClock (clock env (List.length (trace s)))] r s');
          [reflexivity | reflexivity | exact H].
    + apply wp_ret.
      apply (poll_trace fuel path expected None); exact IH.
Qed.

(** With a clock that advances and a status that never shows, the
    deadline is reached. *)
Lemma clock_advances n k :
  (forall m, (clock env m < clock env (S m))%Z) ->
  (clock env n + Z.of_nat k <= clock env (n + k))%Z.
Proof.
  intros Hclock. induction k as [|k IH].
  - rewrite Nat.add_0_r. lia.
  - rewrite Nat.add_succ_r. pose proof (Hclock (n + k)%nat). lia.
Qed.

Lemma wait_loop_times_out path expected limit out :
  (forall m, (clock env m < clock env (S m))%Z) ->
  never_ready env path expected ->
  forall fuel announced s,
    (polls_until env limit s <= fuel)%nat ->
    fst (wait_loop env fuel path expected (Some limit) out announced s)
    = Raise (wait_timeout path expected).
Proof.
  intros Hclock Hnever. unfold polls_until.
  induction fuel as [|fuel IH]; intros announced s Hfuel; [lia|].
  set (now := clock env (List.length (trace s))) in *.
  destruct (limit <? now)%Z eqn:Hexp.
  - apply Z.ltb_lt in Hexp.
    now rewrite (wait_loop_expired fuel path expected limit out announced s Hexp).
  - change (wp (wait_loop env (S fuel) path expected (Some limit) out announced)
              (fun r _ => r = Raise (wait_timeout path expected)) s).
    cbn [wait_loop]. apply wp_bind. apply wp_bind. unfold time_time.
    apply wp_bind, wp_get. apply wp_bind. unfold emit at 1. apply wp_modify.
    apply wp_ret. apply wp_ret. fold now. rewrite Hexp.
    set (s1 := set_trace (trace s ++ [ReadClock now]) s).
    apply wp_bind, wp_get. cbv zeta. apply wp_bind. unfold emit at 1.
    apply wp_modify.
    set (s2 := set_trace (trace s1 ++ [ReadFile path _]) s1).
    assert (Hnot : match readline env (List.length (trace s1)) path with
                   | Some text => String.eqb (Py.strip text) expected
                   | None => false
                   end = false).
    { pose proof (Hnever (List.length (trace s1))) as H.
      destruct (readline env (List.length (trace s1)) path); [exact H | reflexivity]. }
    rewrite Hnot. apply wp_bind.
    destruct (when_output_trace (negb announced) out
                ("[supervisor] waiting for status '" ++ expected
                 ++ "' in " ++ path) s2) as (pre & Hok & Ht & _).
    unfold wp at 1. rewrite Hok.
    apply wp_bind. unfold emit at 1. apply wp_modify.
    unfold wp. apply IH.
    apply Z.ltb_ge in Hexp.
    cbn [trace set_trace]. rewrite Ht. subst s2 s1. cbn [trace set_trace].
    rewrite !length_app. cbn [List.length].
    pose proof (clock_advances (List.length (trace s))
                  (1 + 1 + List.length pre + 1) Hclock) as Hadv.
    replace (List.length (trace s) + 1 + 1 + List.length pre + 1)%nat
      with (List.length (trace s) + (1 + 1 + List.length pre + 1))%nat by lia.
    fold now in Hadv. lia.
Qed.

(** *** What only adds to the trace *)

Lemma grows_ret {A : Type} (a : A) : grows (ret a).
Proof. intros s. exists []. now rewrite app_nil_r. Qed.

Lemma grows_raise {A : Type} e : grows (@raise A e).
Proof. intros s. exists []. now rewrite app_nil_r. Qed.

Lemma grows_get : grows get.
Proof. intros s. exists []. now rewrite app_nil_r. Qed.

Lemma grows_emit e : grows (emit e).
Proof. intros s. now exists [e]. Qed.

Lemma grows_modify f :
  (forall s, trace (f s) = trace s) -> grows (modify f).
Proof. intros H s. exists []. cbn. now rewrite H, app_nil_r. Qed.

Lemma grows_bind {A B : Type} (m : M A) (k : A -> M B) :
  grows m -> (forall a, grows (k a)) -> grows (bind m k).
Proof.
  intros Hm Hk s. destruct (Hm s) as [l1 E1]. unfold bind.
  destruct (m s) as [[a| e |] s1]; cbn [fst snd] in *; eauto.
  destruct (Hk a s1) as [l2 E2]. exists (l1 ++ l2)%list.
  now rewrite E2, E1, app_assoc.
Qed.

Lemma grows_request method params : grows (request env method params).
Proof.
  unfold request. apply grows_bind; [apply grows_get|]. intros s0.
  apply grows_bind; [now apply grows_modify|]. intros _.
  apply grows_bind; [apply grows_emit|]. intros _.
  destruct (reply env (next_id s0)); [apply grows_ret | apply grows_raise].
Qed.

Lemma grows_response_thread_id resp : grows (response_thread_id resp).
Proof.
  unfold response_thread_id.
  destruct (resp_result resp) as [result|]; [|apply grows_raise].
  destruct (res_thread result) as [thread|]; [|apply grows_raise].
  destruct (th_id thread); [apply grows_ret | apply grows_raise].
Qed.

(** The part of [start_agent] that follows the wait. *)
Lemma grows_after_wait run item :
  grows
    (resp <- request env "thread/start"
               (Some (cwd_params (args_cwd (run_args run)))) ;;
     thread_id <- response_thread_id resp ;;
     request env "turn/start"
       (Some (JDict [("threadId", JStr thread_id);
                     ("input",
                      build_turn_input env (sp_prompt item)
                        (args_cwd (run_args run)))])) ;;
     modify (fun s =>
               set_agents
                 (dict_set thread_id
                    (new_agent run (sp_index item) (sp_prompt item) thread_id)
                    (agents s)) s) ;;
     match run_frontend run with
     | Plain =>
         emit (Printed ("[agent " ++ Py.str_of_Z (sp_index item)
                        ++ "] started thread " ++ thread_id))
     | Curses =>
         log_recent ("agent " ++ Py.str_of_Z (sp_index item)
                     ++ " started thread " ++ thread_id)
     end).
Proof.
  apply grows_bind; [apply grows_request|]. intros resp.
  apply grows_bind; [apply grows_response_thread_id|]. intros thread_id.
  apply grows_bind; [apply grows_request|]. intros _.
  apply grows_bind; [now apply grows_modify|]. intros _.
  destruct (run_frontend run); [apply grows_emit|].
  unfold log_recent. now apply grows_modify.
Qed.

End Wait.

(** X4.  A wait that begins after the deadline raises [TimeoutError]
    before it opens the status file: it reads the clock and nothing else,
    whatever the file holds. *)
Theorem wait_for_status_after_deadline :
  forall env fuel path expected limit out s,
    (limit < clock env (List.length (trace s)))%Z ->
    wait_for_status env (S fuel) path expected (Some limit) out s
    = (Raise (TimeoutError ("waited for status '" ++ expected ++ "' in " ++ path)),
       set_trace (trace s ++ [ReadClock (clock env (List.length (trace s)))]) s).
Proof. intros. now apply wait_loop_expired. Qed.

(** X4 where the status file is ready and the deadline has passed. *)
Lemma wait_for_status_after_deadline_sample :
  wait_for_status ready_env 1 "/tmp/gate" "ready" (Some (-1)%Z) Print
    (initial_state sample_args 2)
  = (Raise (TimeoutError "waited for status 'ready' in /tmp/gate"),
     set_trace [ReadClock 0] (initial_state sample_args 2)).
Proof.
  apply (wait_for_status_after_deadline ready_env 0 "/tmp/gate" "ready" (-1)%Z
           Print (initial_state sample_args 2)).
  reflexivity.
Defined.

(** A status that is ready at the first read. *)
Lemma wait_ready_at_once :
  forall env fuel path expected deadline out s text,
    match deadline with
    | None => readline env (List.length (trace s)) path = Some text
    | Some limit =>
        (clock env (List.length (trace s)) <= limit)%Z
        /\ readline env (S (List.length (trace s))) path = Some text
    end ->
    Py.strip text = expected ->
    wait_for_status env (S fuel) path expected deadline out s
    = (Ok tt,
       set_trace
         (trace s
          ++ match deadline with
             | None => []
             | Some _ => [ReadClock (clock env (List.length (trace s)))]
             end
          ++ [ReadFile path (Some text)]) s).
Proof.
  intros env fuel path expected deadline out s text Hread Hstrip.
  unfold wait_for_status. cbn [wait_loop].
  destruct deadline as [limit|].
  - destruct Hread as [Hclock Hread]. apply Z.ltb_ge in Hclock.
    unfold time_time, emit, bind, get, modify, ret, when.
    cbn [trace set_trace]. rewrite Hclock. cbn [trace set_trace].
    rewrite length_app, Nat.add_1_r, Hread, Hstrip, String.eqb_refl.
    now rewrite <- app_assoc.
  - unfold emit, bind, get, modify, ret, when.
    now rewrite Hread, Hstrip, String.eqb_refl.
Qed.

(** X5.  When the deadline has not passed and the first line of the
    status file, stripped, is the expected status at the first read, the
    wait returns at once: it reads the clock (if there is a deadline) and
    the file, and neither sleeps nor announces anything. *)
Theorem wait_for_status_ready_at_once :
  forall env fuel path expected deadline out s text,
    match deadline with
    | None => readline env (List.length (trace s)) path = Some text
    | Some limit =>
        (clock env (List.length (trace s)) <= limit)%Z
        /\ readline env (S (List.length (trace s))) path = Some text
    end ->
    Py.strip text = expected ->
    wait_for_status env (S fuel) path expected deadline out s
    = (Ok tt,
       set_trace
         (trace s
          ++ match deadline with
             | None => []
             | Some _ => [ReadClock (clock env (List.length (trace s)))]
             end
          ++ [ReadFile path (Some text)]) s).
Proof. exact wait_ready_at_once. Qed.

(** X5 on the sample world with the status file ready, without and with
    a deadline. *)
Lemma wait_for_status_ready_at_once_sample :
  wait_for_status ready_env 1 "/tmp/gate" "ready" None Print
    (initial_state sample_args 2)
  = (Ok tt,
     set_trace [ReadFile "/tmp/gate" (Some ("ready" ++ Py.nl))]
       (initial_state sample_args 2))
  /\ wait_for_status ready_env 1 "/tmp/gate" "ready" (Some 60%Z) Print
       (initial_state sample_args 2)
     = (Ok tt,
        set_trace [ReadClock 0; ReadFile "/tmp/gate" (Some ("ready" ++ Py.nl))]
          (initial_state sample_args 2)).
Proof.
  split.
  - apply (wait_for_status_ready_at_once ready_env 0 "/tmp/gate" "ready" None
             Print (initial_state sample_args 2) ("ready" ++ Py.nl));
      reflexivity.
  - apply (wait_for_status_ready_at_once ready_env 0 "/tmp/gate" "ready"
             (Some 60%Z) Print (initial_state sample_args 2) ("ready" ++ Py.nl)).
    + split; [discriminate | reflexivity].
    + reflexivity.
Defined.

(** What a gated [start_agent] adds to the trace. *)
Lemma start_agent_gate_split :
  forall env fuel run item path expected s,
    sp_wait item = Some (path, expected) ->
    exists before after,
      trace (snd (start_agent env fuel run item s))
      = (trace s ++ before ++ after)%list
      /\ nothing_sent before = true
      /\ (after = [] \/ existsb (is_ready_read path expected) before = true).
Proof.
  intros env fuel run item path expected s Hwait.
  unfold start_agent. cbv zeta. rewrite Hwait.
  pose proof (wait_loop_trace env fuel path expected (run_deadline run)
                (frontend_output (run_frontend run)) false s) as H.
  unfold wp in H. fold (wait_for_status env fuel path expected
                          (run_deadline run) (frontend_output (run_frontend run))) in H.
  destruct (wait_for_status env fuel path expected (run_deadline run)
              (frontend_output (run_frontend run)) s) as [[[]| e |] s1] eqn:E;
    cbn [fst snd] in H; destruct H as (before & Ht & Hs & Hr).
  - rewrite (bind_ok _ _ _ _ _ E).
    destruct (grows_after_wait env run item s1) as [after Ha].
    exists before, after. split; [now rewrite Ha, Ht, app_assoc|].
    split; [exact Hs|]. right. now apply Hr.
  - rewrite (bind_raise _ _ _ _ _ E). exists before, [].
    rewrite app_nil_r. cbn [snd]. auto.
  - rewrite (bind_fuel _ _ _ _ E). exists before, [].
    rewrite app_nil_r. cbn [snd]. auto.
Qed.

(** X6.  A spec with a readiness gate: whatever [start_agent] adds to
    the trace splits in two parts; the first holds no message to the
    server, and the second is empty unless the first holds a read of the
    status file whose first line, stripped, is the expected status.  So
    neither [thread/start] nor [turn/start] is sent before such a read. *)
Theorem start_agent_sends_after_ready_read :
  forall env fuel run item path expected s,
    sp_wait item = Some (path, expected) ->
    exists before after,
      trace (snd (start_agent env fuel run item s))
      = (trace s ++ before ++ after)%list
      /\ nothing_sent before = true
      /\ (after = [] \/ existsb (is_ready_read path expected) before = true).
Proof. exact start_agent_gate_split. Qed.

(** X6 for the gated spec of the sample world. *)
Lemma start_agent_sends_after_ready_read_sample :
  exists before after,
    trace (snd (start_agent ready_env 1 sample_run gated_spec
                  (initial_state sample_args 2)))
    = (trace (initial_state sample_args 2) ++ before ++ after)%list
    /\ nothing_sent before = true
    /\ (after = [] \/ existsb (is_ready_read "/tmp/gate" "ready") before = true).
Proof.
  apply (start_agent_sends_after_ready_read ready_env 1 sample_run gated_spec
           "/tmp/gate" "ready" (initial_state sample_args 2)).
  reflexivity.
Defined.

(** X7.  When the clock advances and the first line of the status file
    is never the expected status, a wait with a deadline does not go on
    for ever: with enough polls it raises [TimeoutError], and it has sent
    nothing to the server. *)
Theorem wait_for_status_times_out :
  forall env path expected limit out s,
    (forall n, (clock env n < clock env (S n))%Z) ->
    never_ready env path expected ->
    forall fuel,
      (polls_until env limit s <= fuel)%nat ->
      fst (wait_for_status env fuel path expected (Some limit) out s)
      = Raise (TimeoutError ("waited for status '" ++ expected ++ "' in " ++ path))
      /\ exists added,
           trace (snd (wait_for_status env fuel path expected (Some limit) out s))
           = (trace s ++ added)%list
           /\ nothing_sent added = true.
Proof.
  intros env path expected limit out s Hclock Hnever fuel Hfuel.
  split.
  - now apply wait_loop_times_out.
  - destruct (wait_loop_trace env fuel path expected (Some limit) out false s)
      as (added & Ht & Hs & _).
    now exists added.
Qed.

(** X7 on the sample world, where the status file does not exist and
    the deadline is 60. *)
Lemma wait_for_status_times_out_sample :
  fst (wait_for_status sample_env 62 "/tmp/gate" "ready" (Some 60%Z) Print
         (initial_state sample_args 2))
  = Raise (TimeoutError "waited for status 'ready' in /tmp/gate").
Proof.
  refine (proj1 (wait_for_status_times_out sample_env "/tmp/gate" "ready" 60%Z
                   Print (initial_state sample_args 2) _ _ 62%nat _)).
  - intros n. cbn [clock sample_env]. lia.
  - intros n. exact I.
  - vm_compute. repeat constructor.
Defined.

(** C8.  A spec with a readiness gate: whatever [start_agent] adds to
    the trace, no message to the server ([thread/start] is the first
    one) comes before a read of the status file whose first line,
    stripped, is the expected status.  And a wait that begins before the
    deadline (or without one), with the expected status in the file at
    the first read, returns at that read: it reads the clock (if there is
    a deadline) and the file, and does not sleep. *)
Theorem C8_gated_start_follows_a_ready_read :
  (forall env fuel run item path expected s,
      sp_wait item = Some (path, expected) ->
      exists before after,
        trace (snd (start_agent env fuel run item s))
        = (trace s ++ before ++ after)%list
        /\ nothing_sent before = true
        /\ (after = [] \/ existsb (is_ready_read path expected) before = true))
  /\ (forall env fuel path expected deadline out s text,
        match deadline with
        | None => readline env (List.length (trace s)) path = Some text
        | Some limit =>
            (clock env (List.length (trace s)) <= limit)%Z
            /\ readline env (S (List.length (trace s))) path = Some text
        end ->
        Py.strip text = expected ->
        wait_for_status env (S fuel) path expected deadline out s
        = (Ok tt,
           set_trace
             (trace s
              ++ match deadline with
                 | None => []
                 | Some _ => [ReadClock (clock env (List.length (trace s)))]
                 end
              ++ [ReadFile path (Some text)]) s)).
Proof.
  split; [exact start_agent_gate_split | exact wait_ready_at_once].
Qed.

(** C8 on the sample world with the status file ready: the gated spec,
    and a wait with a deadline of sixty seconds. *)
Lemma C8_gated_start_sample :
  (exists before after,
      trace (snd (start_agent ready_env 1 sample_run gated_spec
                    (initial_state sample_args 2)))
      = (trace (initial_state sample_args 2) ++ before ++ after)%list
      /\ nothing_sent before = true
      /\ (after = [] \/ existsb (is_ready_read "/tmp/gate" "ready") before = true))
  /\ wait_for_status ready_env 1 "/tmp/gate" "ready" (Some 60%Z) Print
       (initial_state sample_args 2)
     = (Ok tt,
        set_trace [ReadClock 0; ReadFile "/tmp/gate" (Some ("ready" ++ Py.nl))]
          (initial_state sample_args 2)).
Proof.
  split.
  - apply (proj1 C8_gated_start_follows_a_ready_read ready_env 1 sample_run
             gated_spec "/tmp/gate" "ready" (initial_state sample_args 2)).
    reflexivity.
  - apply (proj2 C8_gated_start_follows_a_ready_read ready_env 0 "/tmp/gate"
             "ready" (Some 60%Z) Print (initial_state sample_args 2)
             ("ready" ++ Py.nl)).
    + split; [discriminate | reflexivity].
    + reflexivity.
Defined.

(** C8, as the specification states it, fails for a wait that begins
    after the deadline: the status file holds the expected status, and
    the wait raises [TimeoutError] without reading it. *)
Lemma C8_ready_gate_after_deadline :
  readline ready_env 1 "/tmp/gate" = Some ("ready" ++ Py.nl)
  /\ Py.strip ("ready" ++ Py.nl) = "ready"
  /\ wait_for_status ready_env 1 "/tmp/gate" "ready" (Some (-1)%Z) Print
       (initial_state sample_args 2)
     = (Raise (TimeoutError "waited for status 'ready' in /tmp/gate"),
        set_trace [ReadClock 0] (initial_state sample_args 2)).
Proof. vm_compute. repeat split; reflexivity. Qed.

End WaitFacts.

(** ** Approvals *)

Module ApprovalFacts.

Import MonadFacts PyFacts.
Local Open Scope monad_scope.

(** A line that begins with [approve] is handled by the [approve]
    command. *)
Lemma dispatch_approve env line has_queues has_logs out :
  Py.startswith "approve" (Py.strip line) = true ->
  handle_user_command env line has_queues has_logs out
  = cmd_approve (Py.strip line) has_queues has_logs out.
Proof.
  intros H. unfold handle_user_command. cbv zeta.
  pose proof (prefix_drop _ _ H) as E.
  set (rest := Py.drop (String.length "approve") (Py.strip line)) in E.
  rewrite E. clearbody rest. cbn. now destruct rest.
Qed.


Lemma lstrip_head s :
  match Py.lstrip s with
  | EmptyString => True
  | String c _ => Py.isspace c = false
  end.
Proof.
  induction s as [|c s IH]; cbn [Py.lstrip]; [exact I|].
  destruct (Py.isspace c) eqn:E; [exact IH | exact E].
Qed.

(** The words of [s.split()] are not empty. *)
Lemma split_ws_words s : Forall (fun w => Py.nonempty w = true) (Py.split_ws s).
Proof.
  unfold Py.split_ws. generalize (S (String.length s)) as fuel. intros fuel.
  revert s. induction fuel as [|fuel IH]; intros s; cbn [Py.split_ws_go].
  - constructor.
  - pose proof (lstrip_head s) as H.
    destruct (Py.lstrip s) as [|c t]; [constructor|].
    cbn [Py.span_word]. rewrite H.
    destruct (Py.span_word t) as [w r]. constructor; [reflexivity | apply IH].
Qed.

Section Approve.

Context (env : Env).

Lemma payload_choice method choice amendment payload :
  get_decision_payload method choice amendment = Some payload ->
  Py.in_strs choice choices = true.
Proof.
  unfold get_decision_payload, choices, Py.in_strs. cbn [existsb].
  destruct (String.eqb choice "a"); [reflexivity|].
  destruct (String.eqb choice "s"); [reflexivity|].
  destruct (String.eqb choice "p"); [reflexivity|].
  destruct (String.eqb choice "d"); [reflexivity|].
  destruct (String.eqb choice "c"); [reflexivity|].
  cbn [andb orb]. discriminate.
Qed.

(** [approve <choice>]: the head of the global queue is popped, then
    answered if the choice is valid for it. *)
Lemma approve_global line has_logs out s w choice entry queue :
  Py.split_ws line = [w; choice] ->
  Py.in_strs choice choices = true ->
  approval_queue s = entry :: queue ->
  cmd_approve line true has_logs out s
  = match get_decision_payload (en_method entry) choice (en_amendment entry) with
    | Some payload =>
        when has_logs
          (log_recent ("approval " ++ en_thread_id entry ++ ": " ++ choice))
          (set_trace
             (trace s ++ [response_to (en_req_id entry) payload]) 
             (pop_approval entry queue s))
    | None => output out "Invalid approval choice." (pop_approval entry queue s)
    end.
Proof.
  intros Hs Hin Hq. unfold cmd_approve. cbn [negb]. rewrite Hs, Hin.
  assert (Hne : Py.truthy_str (Some choice) = true).
  { destruct choice; [discriminate | reflexivity]. }
  rewrite Hne. cbn [negb Py.truthy_str Py.or_empty].
  rewrite bind_get, Hq.
  unfold bind at 1. cbn [modify]. rewrite bind_get.
  unfold pop_approval. cbv zeta.
  set (s1 := set_approval_queue queue s).
  unfold bind at 1.
  assert (E : when (entry_in entry (thread_queue_of (en_thread_id entry) s1))
                (set_thread_queue (en_thread_id entry)
                   (entry_remove entry (thread_queue_of (en_thread_id entry) s1)))
                s1
              = (Ok tt,
                 if entry_in entry (thread_queue_of (en_thread_id entry) s1)
                 then set_approvals_by_thread
                        (dict_set (en_thread_id entry)
                           (entry_remove entry
                              (thread_queue_of (en_thread_id entry) s1))
                           (approvals_by_thread s1)) s1
                 else s1)).
  { destruct (entry_in entry (thread_queue_of (en_thread_id entry) s1));
      reflexivity. }
  rewrite E. clear E.
  unfold approve_request.
  destruct (get_decision_payload (en_method entry) choice (en_amendment entry));
    destruct (entry_in entry (thread_queue_of (en_thread_id entry) s1));
    reflexivity.
Qed.

(** [approve <target> <choice>]: the head of the target's queue is
    popped, then answered if the choice is valid for it. *)
Lemma resolve_known_ok key s tid agent :
  resolve_agent (agents s) key = inr (Some (tid, agent)) ->
  Py.nonempty tid = true ->
  resolve_known key s = (Ok (Some (tid, agent)), s).
Proof.
  intros Hres Htid. unfold resolve_known. rewrite bind_get, Hres.
  unfold bind, lift, ret. now rewrite Htid.
Qed.

Lemma approve_target line has_logs out s w target choice rest tid agent
    entry thread_queue :
  Py.split_ws line = w :: target :: choice :: rest ->
  Py.nonempty target = true ->
  Py.nonempty choice = true ->
  resolve_agent (agents s) target = inr (Some (tid, agent)) ->
  Py.nonempty tid = true ->
  thread_queue_of tid s = entry :: thread_queue ->
  cmd_approve line true has_logs out s
  = match get_decision_payload (en_method entry) choice (en_amendment entry) with
    | Some payload =>
        when has_logs
          (log_recent ("approval " ++ en_thread_id entry ++ ": " ++ choice))
          (set_trace
             (trace s ++ [response_to (en_req_id entry) payload])
             (set_approvals_by_thread
                (dict_set tid thread_queue (approvals_by_thread s)) s))
    | None =>
        output out "Invalid approval choice."
          (set_approvals_by_thread
             (dict_set tid thread_queue (approvals_by_thread s)) s)
    end.
Proof.
  intros Hs Ht Hc Hres Htid Hq. unfold cmd_approve. cbn [negb]. rewrite Hs.
  assert (E : forall X (x : X),
             match rest with [] => x | _ :: _ => x end = x)
    by (intros; now destruct rest).
  assert (Hc' : Py.truthy_str (Some choice) = true)
    by (destruct choice; [discriminate | reflexivity]).
  assert (Ht' : Py.truthy_str (Some target) = true)
    by (destruct target; [discriminate | reflexivity]).
  rewrite Hc', Ht'. cbn [negb Py.or_empty].
  rewrite (bind_ok _ _ _ _ _ (resolve_known_ok target s tid agent Hres Htid)).
  rewrite bind_get, Hq.
  unfold approve_request, set_thread_queue, bind at 1, modify.
  destruct (get_decision_payload (en_method entry) choice (en_amendment entry));
    reflexivity.
Qed.

(** A line that is no command is addressed to an agent. *)
Lemma dispatch_agent line has_queues has_logs out :
  Py.nonempty (Py.strip line) = true ->
  is_builtin_command (Py.strip line) = false ->
  handle_user_command env line has_queues has_logs out
  = cmd_agent env (Py.strip line) has_queues has_logs out.
Proof.
  intros Hne Hno. unfold handle_user_command. cbv zeta. rewrite Hne.
  unfold is_builtin_command in Hno.
  repeat (apply orb_false_elim in Hno;
          let H := fresh in destruct Hno as [Hno H]; rewrite H).
  now rewrite Hno.
Qed.

(** [<agent> <choice>]: the head of the agent's queue is popped and
    removed from the global queue, then answered if the choice is valid
    for it. *)
Lemma approve_agent_line line has_logs out s head choice tid agent entry
    thread_queue :
  Py.contains ":" line = false ->
  Py.split_ws1 line = [head; choice] ->
  Py.in_strs choice choices = true ->
  resolve_agent (agents s) head = inr (Some (tid, agent)) ->
  Py.nonempty tid = true ->
  thread_queue_of tid s = entry :: thread_queue ->
  cmd_agent env line true has_logs out s
  = let s1 :=
      set_approvals_by_thread
        (dict_set tid thread_queue (approvals_by_thread s)) s in
    let s2 :=
      if entry_in entry (approval_queue s)
      then set_approval_queue (entry_remove entry (approval_queue s)) s1
      else s1 in
    match get_decision_payload (en_method entry) choice (en_amendment entry) with
    | Some payload =>
        when has_logs
          (log_recent ("approval " ++ Py.str_of_Z (ag_index agent) ++ ": "
                       ++ choice))
          (set_trace (trace s ++ [response_to (en_req_id entry) payload]) s2)
    | None => output out "Invalid approval choice." s2
    end.
Proof.
  intros Hcolon Hs Hin Hres Htid Hq. unfold cmd_agent. rewrite Hcolon, Hs.
  rewrite (bind_ok _ _ _ _ _ (resolve_known_ok head s tid agent Hres Htid)).
  rewrite Hin. cbn [negb]. rewrite bind_get, Hq.
  unfold set_thread_queue, bind at 1, modify. rewrite bind_get.
  cbn [approval_queue set_approvals_by_thread]. cbv zeta.
  unfold approve_request.
  destruct (entry_in entry (approval_queue s));
    destruct (get_decision_payload (en_method entry) choice (en_amendment entry));
    reflexivity.
Qed.

(** *** The dialogue of the line-oriented front end *)

Lemma prints_ret : prints (ret tt).
Proof. intros s. exists []. split; [|reflexivity]. now rewrite app_nil_r; destruct s. Qed.

Lemma prints_emit text : prints (emit (Printed text)).
Proof. intros s. exists [Printed text]. split; reflexivity. Qed.

Lemma prints_bind (m : M unit) (k : unit -> M unit) :
  prints m -> (forall u, prints (k u)) -> prints (bind m k).
Proof.
  intros Hm Hk s. destruct (Hm s) as (l1 & E1 & P1).
  destruct (Hk tt (set_trace (trace s ++ l1) s)) as (l2 & E2 & P2).
  exists (l1 ++ l2)%list. split.
  - unfold bind. rewrite E1, E2. cbn [trace set_trace].
    now rewrite app_assoc.
  - now rewrite forallb_app, P1, P2.
Qed.

Lemma prints_when b m : prints m -> prints (when b m).
Proof. destruct b; [trivial | intros _; apply prints_ret]. Qed.

Lemma printed_not_sent printed :
  forallb is_printed printed = true -> nothing_sent printed = true.
Proof.
  unfold nothing_sent. induction printed as [|e l IH]; [reflexivity|].
  cbn [forallb]. intros H. apply andb_prop in H. destruct H as [He Hl].
  rewrite (IH Hl). now destruct e.
Qed.

(** The answers [bad] are refused one by one, and the first valid
    answer is returned. *)
Lemma ask_decision_answers method amendment good payload rest :
  get_decision_payload method (Py.lower (Py.strip good)) amendment = Some payload ->
  forall bad s,
    Forall (fun answer =>
              get_decision_payload method (Py.lower (Py.strip answer)) amendment
              = None) bad ->
    ask_decision (bad ++ good :: rest) method amendment s
    = (Ok payload, set_trace (trace s ++ dialogue method bad) s).
Proof.
  intros Hgood. induction bad as [|answer bad IH]; intros s Hbad.
  - cbn [app ask_decision]. unfold bind, emit, modify. now rewrite Hgood.
  - inversion Hbad as [|? ? Hanswer Hbad']. subst.
    cbn [app ask_decision]. unfold bind at 1, emit at 1, modify at 1.
    rewrite Hanswer. unfold bind at 1, emit at 1, modify at 1.
    rewrite IH by exact Hbad'. cbn [trace set_trace].
    unfold dialogue. cbn [flat_map app]. now rewrite <- !app_assoc.
Qed.

(** With no valid answer, the dialogue goes on: the model stops for want
    of an answer, with nothing sent. *)
Lemma ask_decision_waits method amendment :
  forall bad s,
    Forall (fun answer =>
              get_decision_payload method (Py.lower (Py.strip answer)) amendment
              = None) bad ->
    exists printed,
      ask_decision bad method amendment s
      = (OutOfFuel, set_trace (trace s ++ printed) s)
      /\ forallb is_printed printed = true.
Proof.
  induction bad as [|answer bad IH]; intros s Hbad.
  - exists []. split; [|reflexivity]. cbn. now rewrite app_nil_r; destruct s.
  - inversion Hbad as [|? ? Hanswer Hbad']. subst.
    set (s1 := set_trace (trace s ++ [Printed (approval_question method)]) s).
    destruct (IH (set_trace (trace s1 ++ [Printed "invalid choice"]) s1) Hbad')
      as (printed & E & P).
    subst s1.
    exists ([Printed (approval_question method); Printed "invalid choice"]
            ++ printed)%list.
    split; [|exact P].
    cbn [ask_decision]. unfold bind at 1, emit at 1, modify at 1.
    rewrite Hanswer. unfold bind at 1, emit at 1, modify at 1.
    rewrite E. cbn [trace set_trace app].
    now rewrite <- !app_assoc.
Qed.

(** What [prompt_approval] prints before it asks. *)
Lemma prints_header req use_color :
  prints
    (let method := rq_method req in
     let params :=
       match rq_params req with Some p => p | None => empty_req_params end in
     let from_params := Py.or_str (rp_threadId params) (rp_thread_id params) in
     let thread_id :=
       if Py.truthy_str from_params then Py.or_empty from_params else "unknown" in
     let item_id := Py.or_str (rp_itemId params) (rp_item_id params) in
     emit (Printed (Py.nl ++ colorize "[approval] request" "33" use_color)) ;;
     emit (Printed ("method: " ++ method)) ;;
     emit (Printed ("thread: " ++ thread_id)) ;;
     when (Py.truthy_str item_id)
       (emit (Printed ("item: " ++ Py.or_empty item_id))) ;;
     when (Py.truthy_str (rp_reason params))
       (emit (Printed ("reason: " ++ Py.or_empty (rp_reason params)))) ;;
     s <- get ;;
     match dict_get thread_id (agents s) with
     | Some agent =>
         if Py.truthy_str item_id then
           match dict_get (Py.or_empty item_id) (ag_items agent) with
           | Some item => emit (Printed ("details: " ++ summarize_item item))
           | None => ret tt
           end
         else ret tt
     | None => ret tt
     end).
Proof.
  cbv zeta.
  repeat (apply prints_bind; [first [apply prints_emit
                                    | apply prints_when, prints_emit]|intros _]).
  intros s. rewrite bind_get.
  repeat match goal with
         | |- context [match ?x with _ => _ end] => destruct x
         end;
    first [apply prints_emit | apply prints_ret].
Qed.

End Approve.



Lemma thread_queue_of_set tid queue s :
  thread_queue_of tid
    (set_approvals_by_thread (dict_set tid queue (approvals_by_thread s)) s)
  = queue.
Proof.
  unfold thread_queue_of. cbn [approvals_by_thread set_approvals_by_thread].
  now rewrite DictFacts.dict_get_set_same.
Qed.

Lemma approval_queue_pop entry queue s :
  approval_queue (pop_approval entry queue s) = queue.
Proof. unfold pop_approval. cbv zeta. now destruct (entry_in entry _). Qed.

Lemma trace_pop entry queue s : trace (pop_approval entry queue s) = trace s.
Proof. unfold pop_approval. cbv zeta. now destruct (entry_in entry _). Qed.

(** X8.  [approve <choice>] answers the oldest pending request: when
    the choice is valid for the request at the head of the global queue,
    the handler sends the response with that request's id and the encoded
    decision, takes the request out of the global queue and out of the
    queue of its thread, and logs the approval. *)
Theorem approve_answers_oldest_request :
  forall env line has_logs out s w choice entry queue payload,
    Py.startswith "approve" (Py.strip line) = true ->
    Py.split_ws (Py.strip line) = [w; choice] ->
    approval_queue s = entry :: queue ->
    get_decision_payload (en_method entry) choice (en_amendment entry)
    = Some payload ->
    handle_user_command env line true has_logs out s
    = when has_logs
        (log_recent ("approval " ++ en_thread_id entry ++ ": " ++ choice))
        (set_trace (trace s ++ [response_to (en_req_id entry) payload])
                   (pop_approval entry queue s))
    /\ approval_queue (snd (handle_user_command env line true has_logs out s))
       = queue
    /\ trace (snd (handle_user_command env line true has_logs out s))
       = (trace s ++ [response_to (en_req_id entry) payload])%list.
Proof.
  intros env line has_logs out s w choice entry queue payload Hd Hs Hq Hp.
  rewrite (dispatch_approve env line true has_logs out Hd).
  rewrite (approve_global (Py.strip line) has_logs out s w choice entry queue
             Hs (payload_choice _ _ _ _ Hp) Hq), Hp.
  split; [reflexivity|].
  destruct has_logs; cbn [when log_recent modify ret snd approval_queue trace
                          set_recent_logs set_trace];
    now rewrite approval_queue_pop.
Qed.

(** X8 on the sample run, for the request filed for the first agent. *)
Lemma approve_answers_oldest_request_sample :
  approval_queue
    (snd (handle_user_command sample_env "approve a" true true RecentLogsAppend
            approval_state)) = []
  /\ trace
       (snd (handle_user_command sample_env "approve a" true true
               RecentLogsAppend approval_state))
     = (trace approval_state
        ++ [response_to (JNum 7) (decision (JStr "accept"))])%list.
Proof.
  refine (proj2 (approve_answers_oldest_request sample_env "approve a" true
                   RecentLogsAppend approval_state "approve" "a" sample_entry []
                   (decision (JStr "accept")) _ _ _ _)).
  - reflexivity.
  - reflexivity.
  - vm_compute. reflexivity.
  - reflexivity.
Defined.

(** X9.  [approve p] when the request at the head of the global queue
    carries no amendment: the handler reports "Invalid approval choice."
    and returns, nothing is sent to the server, and the request is gone
    from the global queue and from the queue of its thread all the same
    (it is popped before the choice is checked). *)
Theorem invalid_approval_choice_drops_request :
  forall env line has_logs out s w entry queue,
    Py.startswith "approve" (Py.strip line) = true ->
    Py.split_ws (Py.strip line) = [w; "p"] ->
    approval_queue s = entry :: queue ->
    truthy (en_amendment entry) = false ->
    handle_user_command env line true has_logs out s
    = output out "Invalid approval choice." (pop_approval entry queue s)
    /\ fst (handle_user_command env line true has_logs out s) = Ok tt
    /\ approval_queue (snd (handle_user_command env line true has_logs out s))
       = queue
    /\ (entry_in entry (thread_queue_of (en_thread_id entry) s) = true ->
        thread_queue_of (en_thread_id entry)
          (snd (handle_user_command env line true has_logs out s))
        = entry_remove entry (thread_queue_of (en_thread_id entry) s))
    /\ nothing_sent
         (skipn (List.length (trace s))
            (trace (snd (handle_user_command env line true has_logs out s))))
       = true.
Proof.
  intros env line has_logs out s w entry queue Hd Hs Hq Ham.
  rewrite (dispatch_approve env line true has_logs out Hd).
  rewrite (approve_global (Py.strip line) has_logs out s w "p" entry queue
             Hs eq_refl Hq).
  assert (Hp : get_decision_payload (en_method entry) "p" (en_amendment entry)
               = None).
  { unfold get_decision_payload. cbn [String.eqb Ascii.eqb Bool.eqb andb].
    now rewrite Ham. }
  rewrite Hp. split; [reflexivity|].
  split; [now destruct out|].
  split; [destruct out; cbn; now rewrite approval_queue_pop|].
  split.
  - intros Hin. unfold pop_approval. cbv zeta.
    change (thread_queue_of (en_thread_id entry) (set_approval_queue queue s))
      with (thread_queue_of (en_thread_id entry) s).
    rewrite Hin.
    destruct out; cbn [output emit log_recent modify snd];
      unfold thread_queue_of;
      cbn [approvals_by_thread set_trace set_recent_logs
           set_approvals_by_thread set_approval_queue];
      now rewrite DictFacts.dict_get_set_same.
  - destruct out; cbn [output emit log_recent modify snd trace set_trace
                       set_recent_logs];
      rewrite trace_pop.
    + rewrite skipn_app, skipn_all, Nat.sub_diag. reflexivity.
    + rewrite skipn_all. reflexivity.
Qed.

(** X9 on the sample run: the request filed for the first agent carries
    no amendment. *)
Lemma invalid_approval_choice_drops_request_sample :
  handle_user_command sample_env "approve p" true true RecentLogsAppend
    approval_state
  = output RecentLogsAppend "Invalid approval choice."
      (pop_approval sample_entry [] approval_state).
Proof.
  refine (proj1 (invalid_approval_choice_drops_request sample_env "approve p"
                   true RecentLogsAppend approval_state "approve" sample_entry
                   [] _ _ _ _)).
  - reflexivity.
  - reflexivity.
  - vm_compute. reflexivity.
  - reflexivity.
Defined.

(** X10.  [approve <target> <choice>] answers the request at the head of
    the target agent's queue and takes it out of that queue, but leaves
    the global queue as it was: the request it has answered is not
    removed from it. *)
Theorem approve_by_target_keeps_global_queue :
  forall env line has_logs out s w target choice rest tid agent entry
         thread_queue payload,
    Py.startswith "approve" (Py.strip line) = true ->
    Py.split_ws (Py.strip line) = w :: target :: choice :: rest ->
    resolve_agent (agents s) target = inr (Some (tid, agent)) ->
    Py.nonempty tid = true ->
    thread_queue_of tid s = entry :: thread_queue ->
    get_decision_payload (en_method entry) choice (en_amendment entry)
    = Some payload ->
    fst (handle_user_command env line true has_logs out s) = Ok tt
    /\ trace (snd (handle_user_command env line true has_logs out s))
       = (trace s ++ [response_to (en_req_id entry) payload])%list
    /\ thread_queue_of tid
         (snd (handle_user_command env line true has_logs out s))
       = thread_queue
    /\ approval_queue (snd (handle_user_command env line true has_logs out s))
       = approval_queue s.
Proof.
  intros env line has_logs out s w target choice rest tid agent entry
         thread_queue payload Hd Hs Hres Htid Hq Hp.
  rewrite (dispatch_approve env line true has_logs out Hd).
  pose proof (split_ws_words (Py.strip line)) as Hw. rewrite Hs in Hw.
  inversion Hw as [|? ? _ Hw1]. inversion Hw1 as [|? ? Ht Hw2].
  inversion Hw2 as [|? ? Hc _]. subst.
  rewrite (approve_target (Py.strip line) has_logs out s w target choice rest
             tid agent entry thread_queue Hs Ht Hc Hres Htid Hq), Hp.
  destruct has_logs;
    cbn [when log_recent modify ret fst snd trace approval_queue
         set_recent_logs set_trace set_approvals_by_thread];
    (repeat split; [];
     unfold thread_queue_of;
     cbn [approvals_by_thread set_recent_logs set_trace set_approvals_by_thread];
     now rewrite DictFacts.dict_get_set_same).
Qed.

(** X10 on the sample run: the first agent's request is answered and
    stays in the global queue. *)
Lemma approve_by_target_keeps_global_queue_sample :
  fst (handle_user_command sample_env "approve 1 a" true true RecentLogsAppend
         approval_state) = Ok tt
  /\ trace (snd (handle_user_command sample_env "approve 1 a" true true
                   RecentLogsAppend approval_state))
     = (trace approval_state
        ++ [response_to (JNum 7) (decision (JStr "accept"))])%list
  /\ thread_queue_of "t2"
       (snd (handle_user_command sample_env "approve 1 a" true true
               RecentLogsAppend approval_state))
     = []
  /\ approval_queue
       (snd (handle_user_command sample_env "approve 1 a" true true
               RecentLogsAppend approval_state))
     = approval_queue approval_state.
Proof.
  refine (approve_by_target_keeps_global_queue sample_env "approve 1 a" true
            RecentLogsAppend approval_state "approve" "1" "a" [] "t2"
            sample_agent sample_entry [] (decision (JStr "accept")) _ _ _ _ _ _).
  - reflexivity.
  - reflexivity.
  - vm_compute. reflexivity.
  - reflexivity.
  - vm_compute. reflexivity.
  - reflexivity.
Defined.

(** X11.  [<agent> <choice>], a line addressed to an agent whose text is
    one of the five choices: the request at the head of the agent's
    queue is taken out of that queue and out of the global queue; then
    it is answered if the choice is valid for it, and "Invalid approval
    choice." is reported, with nothing sent, if it is not. *)
Theorem agent_line_choice_pops_both_queues :
  forall env line has_logs out s head choice tid agent entry thread_queue,
    Py.nonempty (Py.strip line) = true ->
    is_builtin_command (Py.strip line) = false ->
    Py.contains ":" (Py.strip line) = false ->
    Py.split_ws1 (Py.strip line) = [head; choice] ->
    Py.in_strs choice choices = true ->
    resolve_agent (agents s) head = inr (Some (tid, agent)) ->
    Py.nonempty tid = true ->
    thread_queue_of tid s = entry :: thread_queue ->
    fst (handle_user_command env line true has_logs out s) = Ok tt
    /\ thread_queue_of tid
         (snd (handle_user_command env line true has_logs out s))
       = thread_queue
    /\ approval_queue (snd (handle_user_command env line true has_logs out s))
       = (if entry_in entry (approval_queue s)
          then entry_remove entry (approval_queue s)
          else approval_queue s)
    /\ trace (snd (handle_user_command env line true has_logs out s))
       = (trace s
          ++ match get_decision_payload (en_method entry) choice
                     (en_amendment entry) with
             | Some payload => [response_to (en_req_id entry) payload]
             | None =>
                 match out with
                 | Print => [Printed "Invalid approval choice."]
                 | RecentLogsAppend => []
                 end
             end)%list.
Proof.
  intros env line has_logs out s head choice tid agent entry thread_queue
         Hne Hno Hcolon Hs Hin Hres Htid Hq.
  rewrite (dispatch_agent env line true has_logs out Hne Hno).
  rewrite (approve_agent_line env (Py.strip line) has_logs out s head choice
             tid agent entry thread_queue Hcolon Hs Hin Hres Htid Hq).
  cbv zeta.
  destruct (get_decision_payload (en_method entry) choice (en_amendment entry));
    destruct (entry_in entry (approval_queue s));
    [destruct has_logs | destruct has_logs | destruct out | destruct out];
    cbn [when output emit log_recent modify ret fst snd trace approval_queue
         set_recent_logs set_trace set_approvals_by_thread set_approval_queue];
    rewrite ?app_nil_r;
    (repeat split; [];
     unfold thread_queue_of;
     cbn [approvals_by_thread set_recent_logs set_trace set_approvals_by_thread
          set_approval_queue];
     now rewrite DictFacts.dict_get_set_same).
Qed.

(** X11 on the sample run, with the choice [p] that the request does
    not allow: both queues are emptied and nothing is sent. *)
Lemma agent_line_choice_pops_both_queues_sample :
  fst (handle_user_command sample_env "1 p" true true RecentLogsAppend
         approval_state) = Ok tt
  /\ thread_queue_of "t2"
       (snd (handle_user_command sample_env "1 p" true true RecentLogsAppend
               approval_state))
     = []
  /\ approval_queue
       (snd (handle_user_command sample_env "1 p" true true RecentLogsAppend
               approval_state))
     = (if entry_in sample_entry (approval_queue approval_state)
        then entry_remove sample_entry (approval_queue approval_state)
        else approval_queue approval_state)
  /\ trace (snd (handle_user_command sample_env "1 p" true true
                   RecentLogsAppend approval_state))
     = (trace approval_state
        ++ match get_decision_payload (en_method sample_entry) "p"
                   (en_amendment sample_entry) with
           | Some payload => [response_to (en_req_id sample_entry) payload]
           | None => []
           end)%list.
Proof.
  refine (agent_line_choice_pops_both_queues sample_env "1 p" true
            RecentLogsAppend approval_state "1" "p" "t2" sample_agent
            sample_entry [] _ _ _ _ _ _ _ _).
  - reflexivity.
  - reflexivity.
  - reflexivity.
  - reflexivity.
  - reflexivity.
  - vm_compute. reflexivity.
  - reflexivity.
  - vm_compute. reflexivity.
Defined.

Lemma bind_assoc {A B C : Type} (m : M A) (k : A -> M B) (h : B -> M C) s :
  bind (bind m k) h s = bind m (fun a => bind (k a) h) s.
Proof. unfold bind. now destruct (m s) as [[a| e |] s1]. Qed.

Lemma bind_cong {A B : Type} (m : M A) (k k' : A -> M B) s :
  (forall a s1, k a s1 = k' a s1) -> bind m k s = bind m k' s.
Proof. intros H. unfold bind. destruct (m s) as [[a| e |] s1]; auto. Qed.

(** [prompt_approval] is what it prints first, then the dialogue and
    the response. *)
Lemma prompt_approval_parts req use_color answers s :
  prompt_approval req use_color answers s
  = bind
      (let method := rq_method req in
       let params :=
         match rq_params req with Some p => p | None => empty_req_params end in
       let from_params := Py.or_str (rp_threadId params) (rp_thread_id params) in
       let thread_id :=
         if Py.truthy_str from_params then Py.or_empty from_params
         else "unknown" in
       let item_id := Py.or_str (rp_itemId params) (rp_item_id params) in
       emit (Printed (Py.nl ++ colorize "[approval] request" "33" use_color)) ;;
       emit (Printed ("method: " ++ method)) ;;
       emit (Printed ("thread: " ++ thread_id)) ;;
       when (Py.truthy_str item_id)
         (emit (Printed ("item: " ++ Py.or_empty item_id))) ;;
       when (Py.truthy_str (rp_reason params))
         (emit (Printed ("reason: " ++ Py.or_empty (rp_reason params)))) ;;
       s <- get ;;
       match dict_get thread_id (agents s) with
       | Some agent =>
           if Py.truthy_str item_id then
             match dict_get (Py.or_empty item_id) (ag_items agent) with
             | Some item => emit (Printed ("details: " ++ summarize_item item))
             | None => ret tt
             end
           else ret tt
       | None => ret tt
       end)
      (fun _ =>
         decision <- ask_decision answers (rq_method req) (request_amendment req) ;;
         respond (rq_id req) decision) s.
Proof.
  unfold prompt_approval, request_amendment. cbv zeta.
  repeat (rewrite bind_assoc; apply bind_cong; intros ? ?).
  reflexivity.
Qed.

(** X12.  The approval dialogue of the line-oriented front end asks
    again after every answer it refuses, and answers the server once:
    with the decision encoded from the first valid answer.  Besides what
    it prints, that response is all it does. *)
Theorem prompt_approval_answers_first_valid :
  forall req use_color bad good rest payload s,
    Forall (fun answer =>
              get_decision_payload (rq_method req) (Py.lower (Py.strip answer))
                (request_amendment req) = None) bad ->
    get_decision_payload (rq_method req) (Py.lower (Py.strip good))
      (request_amendment req) = Some payload ->
    exists header,
      prompt_approval req use_color (bad ++ good :: rest) s
      = (Ok tt,
         set_trace
           (trace s ++ header ++ dialogue (rq_method req) bad
            ++ [response_to (rq_id req) payload]) s)
      /\ forallb is_printed header = true.
Proof.
  intros req use_color bad good rest payload s Hbad Hgood.
  destruct (prints_header req use_color s) as (header & E & P).
  exists header. split; [|exact P].
  rewrite prompt_approval_parts, (bind_ok _ _ _ _ _ E).
  unfold bind.
  rewrite (ask_decision_answers (rq_method req) (request_amendment req) good
             payload rest Hgood bad _ Hbad).
  unfold respond, emit, modify, response_to. cbn [trace set_trace].
  now rewrite <- !app_assoc.
Qed.

(** X12 for the sample request: [p] is refused, for want of an
    amendment, and [A] is taken for [a]. *)
Lemma prompt_approval_answers_first_valid_sample :
  exists header,
    prompt_approval sample_request false (["p"; "x"] ++ " A " :: [])
      approval_state
    = (Ok tt,
       set_trace
         (trace approval_state ++ header
          ++ dialogue (rq_method sample_request) ["p"; "x"]
          ++ [response_to (rq_id sample_request) (decision (JStr "accept"))])
         approval_state)
    /\ forallb is_printed header = true.
Proof.
  apply (prompt_approval_answers_first_valid sample_request false ["p"; "x"]
           " A " [] (decision (JStr "accept")) approval_state).
  - repeat constructor.
  - reflexivity.
Defined.

(** X13.  As long as every answer is refused the dialogue sends nothing:
    it prints, asks again, and waits for the next answer. *)
Theorem prompt_approval_sends_nothing_until_valid :
  forall req use_color bad s,
    Forall (fun answer =>
              get_decision_payload (rq_method req) (Py.lower (Py.strip answer))
                (request_amendment req) = None) bad ->
    exists printed,
      prompt_approval req use_color bad s
      = (OutOfFuel, set_trace (trace s ++ printed) s)
      /\ forallb is_printed printed = true.
Proof.
  intros req use_color bad s Hbad.
  destruct (prints_header req use_color s) as (header & E & P).
  destruct (ask_decision_waits (rq_method req) (request_amendment req) bad
              (set_trace (trace s ++ header) s) Hbad) as (printed & E' & P').
  exists (header ++ printed)%list. split.
  - rewrite prompt_approval_parts, (bind_ok _ _ _ _ _ E).
    unfold bind. rewrite E'. cbn [trace set_trace]. now rewrite <- app_assoc.
  - now rewrite forallb_app, P, P'.
Qed.

(** X13 for the sample request and three refused answers. *)
Lemma prompt_approval_sends_nothing_until_valid_sample :
  exists printed,
    prompt_approval sample_request false ["p"; "x"; "yes"] approval_state
    = (OutOfFuel, set_trace (trace approval_state ++ printed) approval_state)
    /\ forallb is_printed printed = true.
Proof.
  apply (prompt_approval_sends_nothing_until_valid sample_request false
           ["p"; "x"; "yes"] approval_state).
  repeat constructor.
Defined.

(** C2.  The specification keeps a request pending when the decision is
    not valid; the program does not.  One request is pending, for a
    command and with no amendment proposed.  [approve p], and as well the
    agent line [1 p], reports "Invalid approval choice." and sends
    nothing, and the request is gone from the global queue and from the
    queue of its thread: it can no longer be answered. *)
Theorem C2_invalid_choice_drops_the_request :
  approval_queue approval_state = [sample_entry]
  /\ thread_queue_of "t2" approval_state = [sample_entry]
  /\ get_decision_payload (en_method sample_entry) "p" (en_amendment sample_entry)
     = None
  /\ Forall
       (fun line =>
          fst (handle_user_command sample_env line true true RecentLogsAppend
                 approval_state) = Ok tt
          /\ approval_queue
               (snd (handle_user_command sample_env line true true
                       RecentLogsAppend approval_state)) = []
          /\ thread_queue_of "t2"
               (snd (handle_user_command sample_env line true true
                       RecentLogsAppend approval_state)) = []
          /\ recent_logs
               (snd (handle_user_command sample_env line true true
                       RecentLogsAppend approval_state))
             = append_bounded 10 "Invalid approval choice."
                 (recent_logs approval_state)
          /\ trace
               (snd (handle_user_command sample_env line true true
                       RecentLogsAppend approval_state))
             = trace approval_state)
       ["approve p"; "1 p"].
Proof.
  split; [vm_compute; reflexivity|]. split; [vm_compute; reflexivity|].
  split; [reflexivity|].
  apply Forall_cons; [|apply Forall_cons; [|apply Forall_nil]];
    vm_compute; repeat split.
Qed.

End ApprovalFacts.

(** ** Follow-up prompts *)

Module QueueFacts.

Import MonadFacts DictFacts.
Local Open Scope monad_scope.

Lemma wp_same {A : Type} (m m' : M A) (Q : outcome A -> State -> Prop) s :
  m s = m' s -> wp m' Q s -> wp m Q s.
Proof. unfold wp. now intros ->. Qed.

Lemma sent_snoc s e :
  filter is_sent (trace s ++ [e])
  = (sent s ++ (if is_sent e then [e] else []))%list.
Proof. unfold sent. now rewrite filter_app. Qed.

Lemma bookkeeping_refl tid s a :
  dict_get tid (agents s) = Some a -> bookkeeping tid s s.
Proof.
  intros Ha. repeat split. exists a, a.
  split; [exact Ha|]. split; [|reflexivity]. symmetry. now apply dict_set_same.
Qed.

Lemma bookkeeping_trans tid s1 s2 s3 :
  bookkeeping tid s1 s2 -> bookkeeping tid s2 s3 -> bookkeeping tid s1 s3.
Proof.
  intros (Hs & Hn & Hp & a & a' & Ha & Hag & Hc)
         (Hs' & Hn' & Hp' & b & b' & Hb & Hag' & Hc').
  split; [congruence|]. split; [congruence|]. split; [congruence|].
  exists a, b'. split; [exact Ha|].
  rewrite Hag, dict_get_set_same in Hb. injection Hb as <-.
  split; [|congruence].
  now rewrite Hag', Hag, SchedulerFacts.dict_set_set.
Qed.

Lemma bookkeeping_known tid s s' :
  bookkeeping tid s s' ->
  exists a a',
    dict_get tid (agents s) = Some a
    /\ dict_get tid (agents s') = Some a'
    /\ agent_core a' = agent_core a.
Proof.
  intros (_ & _ & _ & a & a' & Ha & Hag & Hc). exists a, a'.
  rewrite Hag, dict_get_set_same. auto.
Qed.

Lemma keeps_books_ret tid : keeps_books tid (ret tt).
Proof. intros s a Ha. split; [reflexivity|]. now apply (bookkeeping_refl tid s a). Qed.

Lemma keeps_books_bind tid (m : M unit) (k : unit -> M unit) :
  keeps_books tid m -> (forall u, keeps_books tid (k u)) ->
  keeps_books tid (bind m k).
Proof.
  intros Hm Hk s a Ha. destruct (Hm s a Ha) as [Hok Hbk].
  unfold bind. destruct (m s) as [r s1]. cbn [fst snd] in *. subst r.
  destruct (bookkeeping_known tid s s1 Hbk) as (_ & a1 & _ & Ha1 & _).
  destruct (Hk tt s1 a1 Ha1) as [Hok' Hbk'].
  split; [exact Hok'|]. now apply (bookkeeping_trans tid s s1).
Qed.

Lemma keeps_books_when tid b m : keeps_books tid m -> keeps_books tid (when b m).
Proof. destruct b; [trivial | intros _; apply keeps_books_ret]. Qed.

Lemma keeps_books_for_each {A : Type} tid (l : list A) body :
  (forall x, keeps_books tid (body x)) -> keeps_books tid (for_each l body).
Proof.
  intros H. induction l as [|x l IH]; cbn [for_each].
  - apply keeps_books_ret.
  - apply keeps_books_bind; [apply H | intros _; exact IH].
Qed.

Lemma keeps_books_update tid f :
  (forall a, agent_core (f a) = agent_core a) ->
  keeps_books tid (update_agent tid f).
Proof.
  intros Hf s a Ha. unfold update_agent, modify. rewrite Ha. cbn [fst snd].
  split; [reflexivity|]. repeat split. exists a, (f a). auto.
Qed.

Lemma keeps_books_emit tid e : is_sent e = false -> keeps_books tid (emit e).
Proof.
  intros He s a Ha. split; [reflexivity|]. unfold emit, modify. cbn [snd].
  split.
  - unfold sent at 1. cbn [trace set_trace]. now rewrite sent_snoc, He, app_nil_r.
  - repeat split. exists a, a. split; [exact Ha|]. split; [|reflexivity].
    cbn [agents set_trace]. symmetry. now apply dict_set_same.
Qed.

Lemma keeps_books_log_recent tid text : keeps_books tid (log_recent text).
Proof.
  intros s a Ha. split; [reflexivity|]. unfold log_recent, modify. cbn [snd].
  repeat split. exists a, a. split; [exact Ha|]. split; [|reflexivity].
  cbn [agents set_recent_logs]. symmetry. now apply dict_set_same.
Qed.

Lemma agent_at_known tid s a :
  dict_get tid (agents s) = Some a -> agent_at tid s = (Ok a, s).
Proof. intros H. unfold agent_at. rewrite bind_get, H. reflexivity. Qed.

Lemma keeps_books_log_line tid text : keeps_books tid (log_line tid text).
Proof.
  intros s a Ha. unfold log_line.
  rewrite (bind_ok _ _ _ _ _ (agent_at_known tid s a Ha)).
  destruct (negb (Py.nonempty (ag_log_path a))).
  - now apply (keeps_books_ret tid s a).
  - exact (keeps_books_emit tid (Logged _ _) eq_refl s a Ha).
Qed.

Lemma keeps_books_record_recent tid text : keeps_books tid (record_recent tid text).
Proof.
  unfold record_recent.
  repeat (apply keeps_books_bind;
          [apply keeps_books_update; intros; reflexivity | intros _]).
  apply keeps_books_log_line.
Qed.

Lemma keeps_books_flush_agent tid : keeps_books tid (flush_agent_buffer tid).
Proof.
  intros s a Ha. unfold flush_agent_buffer.
  rewrite (bind_ok _ _ _ _ _ (agent_at_known tid s a Ha)).
  destruct (Py.nonempty (ag_agent_buffer a)); [|now apply (keeps_books_ret tid s a)].
  refine (keeps_books_bind tid _ _ _ _ s a Ha).
  - apply keeps_books_for_each. intros line. apply keeps_books_record_recent.
  - intros _. apply keeps_books_update. reflexivity.
Qed.

Lemma keeps_books_flush_summary tid : keeps_books tid (flush_summary_buffer tid).
Proof.
  intros s a Ha. unfold flush_summary_buffer.
  rewrite (bind_ok _ _ _ _ _ (agent_at_known tid s a Ha)).
  destruct (Py.nonempty (ag_summary_buffer a)); [|now apply (keeps_books_ret tid s a)].
  refine (keeps_books_bind tid _ _ _ _ s a Ha).
  - apply keeps_books_for_each. intros line. apply keeps_books_record_recent.
  - intros _. apply keeps_books_update. reflexivity.
Qed.

(** *** Stepping with the agent tracked *)

Section Tracked.

Context (env : Env) (tid : string) (s0 : State).

Lemma tracked_start a :
  dict_get tid (agents s0) = Some a -> tracked tid s0 [] (agent_core a) s0.
Proof.
  intros Ha. unfold tracked. rewrite app_nil_r. cbn [List.length].
  split; [reflexivity|]. split; [lia|]. split; [reflexivity|].
  exists a. split; [|reflexivity]. symmetry. now apply dict_set_same.
Qed.

Lemma tracked_known added core s :
  tracked tid s0 added core s ->
  exists a, dict_get tid (agents s) = Some a /\ agent_core a = core.
Proof.
  intros (_ & _ & _ & a & Hag & Hc). exists a.
  now rewrite Hag, dict_get_set_same.
Qed.

Lemma tracked_books added core s s' :
  tracked tid s0 added core s -> bookkeeping tid s s' ->
  tracked tid s0 added core s'.
Proof.
  intros (Hs & Hn & Hp & a & Hag & Hc) (Hs' & Hn' & Hp' & b & b' & Hb & Hag' & Hc').
  split; [congruence|]. split; [congruence|]. split; [congruence|].
  rewrite Hag, dict_get_set_same in Hb. injection Hb as <-.
  exists b'. split; [|congruence].
  now rewrite Hag', Hag, SchedulerFacts.dict_set_set.
Qed.

Lemma wp_tracked_books (m : M unit) added core
    (Q : outcome unit -> State -> Prop) s :
  keeps_books tid m ->
  tracked tid s0 added core s ->
  (forall s1, tracked tid s0 added core s1 -> Q (Ok tt) s1) ->
  wp m Q s.
Proof.
  intros Hm Ht HQ. destruct (tracked_known _ _ _ Ht) as (a & Ha & _).
  destruct (Hm s a Ha) as [Hok Hbk]. unfold wp. rewrite Hok.
  apply HQ. now apply (tracked_books added core s).
Qed.

Lemma wp_tracked_update f G added core
    (Q : outcome unit -> State -> Prop) s :
  (forall a, agent_core (f a) = G (agent_core a)) ->
  tracked tid s0 added core s ->
  (forall s1, tracked tid s0 added (G core) s1 -> Q (Ok tt) s1) ->
  wp (update_agent tid f) Q s.
Proof.
  intros Hf Ht HQ. destruct (tracked_known _ _ _ Ht) as (a & Ha & Hc).
  unfold update_agent. apply wp_modify. rewrite Ha. apply HQ.
  destruct Ht as (Hs & Hn & Hp & a1 & Hag & _).
  split; [exact Hs|]. split; [exact Hn|]. split; [exact Hp|].
  exists (f a). cbn [agents set_agents]. split; [|now rewrite Hf, Hc].
  now rewrite Hag, SchedulerFacts.dict_set_set.
Qed.

Lemma wp_tracked_agent_at added core (Q : outcome Agent -> State -> Prop) s :
  tracked tid s0 added core s ->
  (forall a, agent_core a = core -> Q (Ok a) s) ->
  wp (agent_at tid) Q s.
Proof.
  intros Ht HQ. destruct (tracked_known _ _ _ Ht) as (a & Ha & Hc).
  unfold wp. rewrite (agent_at_known tid s a Ha). now apply HQ.
Qed.

Lemma wp_tracked_log_recent text added core
    (Q : outcome unit -> State -> Prop) s :
  tracked tid s0 added core s ->
  (forall s1, tracked tid s0 added core s1 -> Q (Ok tt) s1) ->
  wp (log_recent text) Q s.
Proof.
  intros Ht HQ.
  apply (wp_tracked_books _ added core Q s (keeps_books_log_recent tid text) Ht HQ).
Qed.

Lemma wp_tracked_request method params resp added core
    (Q : outcome Response -> State -> Prop) s :
  tracked tid s0 added core s ->
  reply env (next_id s0 + Z.of_nat (List.length added)) = Some resp ->
  (forall s1,
      tracked tid s0
        (added ++ [Sent (JDict (("id", JNum (next_id s0 + Z.of_nat (List.length added)))
                                 :: ("method", JStr method)
                                 :: with_params params))])
        core s1 ->
      Q (Ok resp) s1) ->
  wp (request env method params) Q s.
Proof.
  intros (Hs & Hn & Hp & a & Hag & Hc) Hr HQ.
  unfold request. apply wp_bind, wp_get. apply wp_bind, wp_modify.
  apply wp_bind. unfold emit. apply wp_modify.
  rewrite Hn, Hr. apply wp_ret. apply HQ.
  split.
  - unfold sent at 1. cbn [trace set_trace set_next_id].
    rewrite sent_snoc. cbn [is_sent]. now rewrite Hs, app_assoc.
  - split; [|split; [exact Hp | exists a; split; [exact Hag | exact Hc]]].
    cbn [next_id set_trace set_next_id]. rewrite length_app. cbn [List.length].
    lia.
Qed.

End Tracked.

(** One step of a computation with the agent tracked: [H] is what is
    known before the step, [s] and [H'] name the state after it and what
    is known then. *)
Ltac tracked_update G H s H' :=
  apply wp_bind;
  eapply (wp_tracked_update _ _ _ G); [intros ?; reflexivity | exact H |];
  intros s H'.

Ltac tracked_books L H s H' :=
  apply wp_bind;
  eapply wp_tracked_books; [apply L | exact H |];
  intros s H'.

Section Dispatch.

Context (env : Env).

(** [start_agent_prompt], with the agent tracked. *)
Lemma wp_start_agent_prompt tid s0 prompt resp added index cwd thread_id done
    queue last_message (Q : outcome unit -> State -> Prop) s :
  tracked tid s0 added (index, cwd, thread_id, done, queue, last_message) s ->
  reply env (next_id s0 + Z.of_nat (List.length added)) = Some resp ->
  (forall s1,
      tracked tid s0
        (added ++ [turn_start (next_id s0 + Z.of_nat (List.length added))
                     thread_id (build_turn_input env prompt cwd)])
        (index, cwd, thread_id, false, queue, last_message) s1 ->
      Q (Ok tt) s1) ->
  wp (start_agent_prompt env tid prompt) Q s.
Proof.
  intros Ht Hr HQ. unfold start_agent_prompt.
  apply wp_bind. apply (wp_tracked_agent_at tid s0 added _ _ s Ht).
  intros a Ha. injection Ha as Hi Hc Hth Hd Hq Hm.
  apply wp_bind.
  apply (wp_tracked_request env tid s0 "turn/start" _ resp added _ _ s Ht Hr).
  intros s1 H1. rewrite Hth, Hc in H1.
  tracked_update (with_done false) H1 s2 H2.
  tracked_update (fun c : Z * option string * string * bool * list string
                          * option string => c) H2 s3 H3.
  tracked_update (fun c : Z * option string * string * bool * list string
                          * option string => c) H3 s4 H4.
  eapply wp_tracked_books; [apply keeps_books_record_recent | exact H4 |].
  intros s5 H5. apply HQ. exact H5.
Qed.

(** [queue_agent_prompt], with the agent tracked. *)
Lemma wp_queue_agent_prompt tid s0 prompt added index cwd thread_id done
    queue last_message (Q : outcome unit -> State -> Prop) s :
  tracked tid s0 added (index, cwd, thread_id, done, queue, last_message) s ->
  (forall s1,
      tracked tid s0 added
        (index, cwd, thread_id, done, (queue ++ [prompt])%list, last_message) s1 ->
      Q (Ok tt) s1) ->
  wp (queue_agent_prompt tid prompt) Q s.
Proof.
  intros Ht HQ. unfold queue_agent_prompt.
  tracked_update (with_queue (fun q => (q ++ [prompt])%list)) Ht s1 H1.
  eapply wp_tracked_books; [apply keeps_books_record_recent | exact H1 |].
  intros s2 H2. apply HQ. exact H2.
Qed.

(** The end of a turn, without a review: the agent is done, and if a
    follow-up is queued the first one is taken and started. *)
Lemma wp_on_turn_completed tid s0 params args added index cwd thread_id done
    queue last_message (Q : outcome unit -> State -> Prop) s :
  tracked tid s0 added (index, cwd, thread_id, done, queue, last_message) s ->
  args_review args = false ->
  p_turn params <> Null ->
  match queue with
  | [] =>
      forall s1,
        tracked tid s0 added (index, cwd, thread_id, true, [], last_message) s1 ->
        Q (Ok tt) s1
  | next :: queued =>
      (exists resp,
          reply env (next_id s0 + Z.of_nat (List.length added)) = Some resp)
      /\ forall s1,
           tracked tid s0
             (added ++ [turn_start (next_id s0 + Z.of_nat (List.length added))
                          thread_id (build_turn_input env next cwd)])
             (index, cwd, thread_id, false, queued, last_message) s1 ->
           Q (Ok tt) s1
  end ->
  wp (on_turn_completed env tid params args) Q s.
Proof.
  intros Ht Hrev Hturn HQ. unfold on_turn_completed. cbv zeta.
  apply wp_bind, wp_turn_status_of; [intros E; now destruct Hturn | intros status _].
  tracked_update (with_done true) Ht s1 H1.
  tracked_books keeps_books_flush_agent H1 s2 H2.
  tracked_books keeps_books_flush_summary H2 s3 H3.
  tracked_books keeps_books_record_recent H3 s4 H4.
  apply wp_bind. apply (wp_tracked_agent_at tid s0 added _ _ s4 H4).
  intros a Ha. injection Ha as Hi Hc Hth Hd Hq Hm.
  tracked_books keeps_books_log_recent H4 s5 H5.
  rewrite Hq. apply wp_bind.
  destruct queue as [|next queued].
  - apply wp_ret.
    apply wp_bind. apply (wp_tracked_agent_at tid s0 added _ _ s5 H5).
    intros a' Ha'. rewrite Hrev. cbn [andb]. apply wp_ret. now apply HQ.
  - destruct HQ as [[resp Hr] HQ].
    tracked_update (with_queue (fun _ => queued)) H5 s6 H6.
    apply wp_bind.
    apply (wp_start_agent_prompt tid s0 next resp added _ _ _ _ _ _ _ s6 H6 Hr).
    intros s7 H7.
    eapply wp_tracked_books; [apply keeps_books_log_recent | exact H7 |].
    intros s8 H8.
    apply wp_bind. eapply (wp_tracked_agent_at tid s0 _ _ _ s8 H8).
    intros a' Ha'. rewrite Hrev. cbn [andb]. apply wp_ret. now apply HQ.
Qed.

(** A [turn/completed] event of a supervised thread runs the end of the
    turn and nothing else. *)
Lemma process_event_turn_completed event tid args log_dir s :
  turn_completed_of event tid ->
  dict_mem tid (agents s) = true ->
  exists params,
    ev_params event = Some params
    /\ process_event env event args log_dir s
       = on_turn_completed env tid params args s.
Proof.
  intros (Hm & params & Hp & Ht) Hmem. exists params. split; [exact Hp|].
  unfold process_event. cbv zeta. rewrite Hm, Hp, Ht, bind_get.
  cbn [known Py.or_empty]. rewrite Hmem.
  change (opt_is (Some "turn/completed") "turn/started") with false.
  change (opt_is (Some "turn/completed") "item/started") with false.
  change (opt_is (Some "turn/completed") "item/completed") with false.
  change (opt_is (Some "turn/completed") "item/agentMessage/delta") with false.
  change (opt_is (Some "turn/completed") "item/reasoning/textDelta") with false.
  change (opt_is (Some "turn/completed") "item/reasoning/summaryTextDelta")
    with false.
  change (opt_is (Some "turn/completed") "item/commandExecution/outputDelta")
    with false.
  change (opt_is (Some "turn/completed") "item/mcpToolCall/progress") with false.
  change (opt_is (Some "turn/completed") "item/fileChange/outputDelta") with false.
  change (opt_is (Some "turn/completed") "turn/completed") with true.
  reflexivity.
Qed.

(** As many completions as there are follow-ups queued dispatch them
    all, the first one first. *)
Lemma wp_process_events event tid args log_dir s0 index cwd thread_id
    last_message :
  turn_completed_of event tid ->
  turn_not_null event ->
  args_review args = false ->
  (forall id, (next_id s0 <= id)%Z -> exists resp, reply env id = Some resp) ->
  forall queue added done s,
    tracked tid s0 added (index, cwd, thread_id, done, queue, last_message) s ->
    wp (process_events env event args log_dir (List.length queue))
       (fun r s' =>
          r = Ok tt
          /\ tracked tid s0
               (added
                ++ dispatches env (next_id s0 + Z.of_nat (List.length added))
                     thread_id cwd queue)
               (index, cwd, thread_id,
                match queue with [] => done | _ :: _ => false end,
                [], last_message) s') s.
Proof.
  intros Hev Hturn Hrev Hreply.
  induction queue as [|next queued IH]; intros added done s Ht.
  - cbn [List.length process_events dispatches]. apply wp_ret.
    rewrite app_nil_r. auto.
  - cbn [List.length process_events]. apply wp_bind.
    destruct (tracked_known _ _ _ _ _ Ht) as (a & Ha & _).
    destruct (process_event_turn_completed event tid args log_dir s Hev)
      as (params & Hp & E); [unfold dict_mem; now rewrite Ha|].
    apply (wp_same _ _ _ _ E).
    apply (wp_on_turn_completed tid s0 params args added _ _ _ _ _ _ _ s Ht Hrev
             (Hturn params Hp)).
    split; [apply Hreply; lia|].
    intros s1 H1.
    eapply wp_weaken; [apply (IH _ false s1 H1)|].
    intros r s' [Hok H']. split; [exact Hok|].
    cbn [dispatches]. rewrite <- app_assoc in H'. cbn [app] in H'.
    rewrite length_app in H'. cbn [List.length] in H'.
    replace (next_id s0 + Z.of_nat (List.length added + 1))%Z
      with (next_id s0 + Z.of_nat (List.length added) + 1)%Z in H' by lia.
    destruct queued; exact H'.
Qed.

End Dispatch.

(** The end of a turn with follow-ups queued. *)
Lemma completion_dispatches_oldest :
  forall env event tid args log_dir s agent next queued resp,
    turn_completed_of event tid ->
    turn_not_null event ->
    dict_get tid (agents s) = Some agent ->
    ag_queued_prompts agent = next :: queued ->
    args_review args = false ->
    reply env (next_id s) = Some resp ->
    fst (process_event env event args log_dir s) = Ok tt
    /\ tracked tid s
         [turn_start (next_id s) (ag_thread_id agent)
            (build_turn_input env next (ag_cwd agent))]
         (ag_index agent, ag_cwd agent, ag_thread_id agent, false, queued,
          ag_last_message agent)
         (snd (process_event env event args log_dir s)).
Proof.
  intros env event tid args log_dir s agent next queued resp Hev Hturn Ha Hq
         Hrev Hr.
  destruct (process_event_turn_completed env event tid args log_dir s Hev)
    as (params & Hp & E); [unfold dict_mem; now rewrite Ha|].
  rewrite E.
  pose proof (tracked_start tid s agent Ha) as Ht.
  unfold agent_core in Ht. rewrite Hq in Ht.
  change (wp (on_turn_completed env tid params args)
            (fun r s' =>
               r = Ok tt
               /\ tracked tid s
                    [turn_start (next_id s) (ag_thread_id agent)
                       (build_turn_input env next (ag_cwd agent))]
                    (ag_index agent, ag_cwd agent, ag_thread_id agent, false,
                     queued, ag_last_message agent) s') s).
  eapply wp_on_turn_completed; [exact Ht | exact Hrev | exact (Hturn params Hp) |].
  cbn [List.length app]. rewrite Z.add_0_r.
  split; [now exists resp|]. auto.
Qed.

(** X14.  When a turn completes for a supervised agent with follow-ups
    queued (the event's [turn] absent or an object, not null), and no
    review is asked for, [process_event] takes the oldest
    follow-up out of the queue and sends one [turn/start] for it, on the
    agent's thread; the agent runs again, with the other follow-ups
    still queued in their order, and nothing else is sent. *)
Theorem turn_completion_dispatches_oldest_follow_up :
  forall env event tid args log_dir s agent next queued resp,
    turn_completed_of event tid ->
    turn_not_null event ->
    dict_get tid (agents s) = Some agent ->
    ag_queued_prompts agent = next :: queued ->
    args_review args = false ->
    reply env (next_id s) = Some resp ->
    fst (process_event env event args log_dir s) = Ok tt
    /\ tracked tid s
         [turn_start (next_id s) (ag_thread_id agent)
            (build_turn_input env next (ag_cwd agent))]
         (ag_index agent, ag_cwd agent, ag_thread_id agent, false, queued,
          ag_last_message agent)
         (snd (process_event env event args log_dir s)).
Proof. exact completion_dispatches_oldest. Qed.

(** X14 on the sample run, once two prompts were typed for the first
    agent while it ran. *)
Lemma turn_completion_dispatches_oldest_follow_up_sample :
  fst (process_event sample_env (turn_completed "t2") sample_args "/logs"
         queued_state) = Ok tt
  /\ tracked "t2" queued_state
       [turn_start (next_id queued_state) (ag_thread_id queued_agent)
          (build_turn_input sample_env "again" (ag_cwd queued_agent))]
       (ag_index queued_agent, ag_cwd queued_agent, ag_thread_id queued_agent,
        false, ["and again"], ag_last_message queued_agent)
       (snd (process_event sample_env (turn_completed "t2") sample_args "/logs"
               queued_state)).
Proof.
  refine (turn_completion_dispatches_oldest_follow_up sample_env
            (turn_completed "t2") "t2" sample_args "/logs" queued_state
            queued_agent "again" ["and again"] (sample_response 6) _ _ _ _ _ _).
  - split; [reflexivity|]. eexists. split; reflexivity.
  - intros params [= <-]. discriminate.
  - vm_compute. reflexivity.
  - vm_compute. reflexivity.
  - reflexivity.
  - vm_compute. reflexivity.
Defined.

(** The end of a turn with no follow-up queued. *)
Lemma completion_without_follow_up :
  forall env event tid args log_dir s agent,
    turn_completed_of event tid ->
    turn_not_null event ->
    dict_get tid (agents s) = Some agent ->
    ag_queued_prompts agent = [] ->
    args_review args = false ->
    fst (process_event env event args log_dir s) = Ok tt
    /\ tracked tid s []
         (ag_index agent, ag_cwd agent, ag_thread_id agent, true, [],
          ag_last_message agent)
         (snd (process_event env event args log_dir s)).
Proof.
  intros env event tid args log_dir s agent Hev Hturn Ha Hq Hrev.
  destruct (process_event_turn_completed env event tid args log_dir s Hev)
    as (params & Hp & E); [unfold dict_mem; now rewrite Ha|].
  rewrite E.
  pose proof (tracked_start tid s agent Ha) as Ht.
  unfold agent_core in Ht. rewrite Hq in Ht.
  change (wp (on_turn_completed env tid params args)
            (fun r s' =>
               r = Ok tt
               /\ tracked tid s []
                    (ag_index agent, ag_cwd agent, ag_thread_id agent, true,
                     [], ag_last_message agent) s') s).
  eapply wp_on_turn_completed; [exact Ht | exact Hrev | exact (Hturn params Hp) |].
  cbn beta iota. auto.
Qed.

(** X15.  When a turn completes for a supervised agent with no
    follow-up queued (the event's [turn] absent or an object, not null),
    and no review is asked for, the agent is marked done and nothing is
    sent to the server. *)
Theorem turn_completion_without_follow_up_sends_nothing :
  forall env event tid args log_dir s agent,
    turn_completed_of event tid ->
    turn_not_null event ->
    dict_get tid (agents s) = Some agent ->
    ag_queued_prompts agent = [] ->
    args_review args = false ->
    fst (process_event env event args log_dir s) = Ok tt
    /\ tracked tid s []
         (ag_index agent, ag_cwd agent, ag_thread_id agent, true, [],
          ag_last_message agent)
         (snd (process_event env event args log_dir s)).
Proof. exact completion_without_follow_up. Qed.

(** X15 on the sample run, for the first agent after the first pass. *)
Lemma turn_completion_without_follow_up_sample :
  fst (process_event sample_env (turn_completed "t2") sample_args "/logs"
         (sample_state sample_run [Tick])) = Ok tt
  /\ tracked "t2" (sample_state sample_run [Tick]) []
       (ag_index sample_agent, ag_cwd sample_agent, ag_thread_id sample_agent,
        true, [], ag_last_message sample_agent)
       (snd (process_event sample_env (turn_completed "t2") sample_args "/logs"
               (sample_state sample_run [Tick]))).
Proof.
  refine (turn_completion_without_follow_up_sends_nothing sample_env
            (turn_completed "t2") "t2" sample_args "/logs"
            (sample_state sample_run [Tick]) sample_agent _ _ _ _ _).
  - split; [reflexivity|]. eexists. split; reflexivity.
  - intros params [= <-]. discriminate.
  - vm_compute. reflexivity.
  - reflexivity.
  - reflexivity.
Defined.

(** As many ends of turn as follow-ups queued. *)
Lemma completions_dispatch_in_order :
  forall env event tid args log_dir s agent,
    turn_completed_of event tid ->
    turn_not_null event ->
    dict_get tid (agents s) = Some agent ->
    args_review args = false ->
    (forall id, (next_id s <= id)%Z -> exists resp, reply env id = Some resp) ->
    fst (process_events env event args log_dir
           (List.length (ag_queued_prompts agent)) s) = Ok tt
    /\ tracked tid s
         (dispatches env (next_id s) (ag_thread_id agent) (ag_cwd agent)
            (ag_queued_prompts agent))
         (ag_index agent, ag_cwd agent, ag_thread_id agent,
          match ag_queued_prompts agent with
          | [] => ag_done agent
          | _ :: _ => false
          end,
          [], ag_last_message agent)
         (snd (process_events env event args log_dir
                 (List.length (ag_queued_prompts agent)) s)).
Proof.
  intros env event tid args log_dir s agent Hev Hturn Ha Hrev Hreply.
  pose proof (wp_process_events env event tid args log_dir s _ _ _ _
                Hev Hturn Hrev Hreply (ag_queued_prompts agent) [] (ag_done agent) s
                (tracked_start tid s agent Ha)) as H.
  cbn [List.length app] in H. rewrite Z.add_0_r in H. exact H.
Qed.

(** X16.  Follow-ups go out in the order they were queued, one for each
    completed turn: for a supervised agent with the follow-ups [queue],
    as many [turn/completed] events as there are follow-ups make the
    supervisor send exactly one [turn/start] for each, in the order of
    the queue and numbered in a row, and leave the queue empty (no
    review asked for, a server that answers, and events whose [turn] is
    absent or an object, not null). *)
Theorem follow_ups_are_dispatched_in_order :
  forall env event tid args log_dir s agent,
    turn_completed_of event tid ->
    turn_not_null event ->
    dict_get tid (agents s) = Some agent ->
    args_review args = false ->
    (forall id, (next_id s <= id)%Z -> exists resp, reply env id = Some resp) ->
    fst (process_events env event args log_dir
           (List.length (ag_queued_prompts agent)) s) = Ok tt
    /\ tracked tid s
         (dispatches env (next_id s) (ag_thread_id agent) (ag_cwd agent)
            (ag_queued_prompts agent))
         (ag_index agent, ag_cwd agent, ag_thread_id agent,
          match ag_queued_prompts agent with
          | [] => ag_done agent
          | _ :: _ => false
          end,
          [], ag_last_message agent)
         (snd (process_events env event args log_dir
                 (List.length (ag_queued_prompts agent)) s)).
Proof. exact completions_dispatch_in_order. Qed.

(** X16 on the sample run, for the two prompts queued for the first
    agent. *)
Lemma follow_ups_are_dispatched_in_order_sample :
  fst (process_events sample_env (turn_completed "t2") sample_args "/logs"
         (List.length (ag_queued_prompts queued_agent)) queued_state) = Ok tt
  /\ tracked "t2" queued_state
       (dispatches sample_env (next_id queued_state) (ag_thread_id queued_agent)
          (ag_cwd queued_agent) (ag_queued_prompts queued_agent))
       (ag_index queued_agent, ag_cwd queued_agent, ag_thread_id queued_agent,
        match ag_queued_prompts queued_agent with
        | [] => ag_done queued_agent
        | _ :: _ => false
        end,
        [], ag_last_message queued_agent)
       (snd (process_events sample_env (turn_completed "t2") sample_args "/logs"
               (List.length (ag_queued_prompts queued_agent)) queued_state)).
Proof.
  refine (follow_ups_are_dispatched_in_order sample_env (turn_completed "t2")
            "t2" sample_args "/logs" queued_state queued_agent _ _ _ _ _).
  - split; [reflexivity|]. eexists. split; reflexivity.
  - intros params [= <-]. discriminate.
  - vm_compute. reflexivity.
  - reflexivity.
  - intros id _. now exists (sample_response id).
Defined.


(** A prompt of the operator for an agent. *)
Lemma prompt_queued_or_started :
  forall env line has_queues has_logs out s head prompt tid agent,
    Py.nonempty (Py.strip line) = true ->
    is_builtin_command (Py.strip line) = false ->
    addressed_to (Py.strip line) head prompt ->
    Py.in_strs prompt choices = false ->
    Py.startswith "stop" prompt = false ->
    resolve_agent (agents s) head = inr (Some (tid, agent)) ->
    Py.nonempty tid = true ->
    dict_get tid (agents s) = Some agent ->
    (ag_done agent = true -> exists resp, reply env (next_id s) = Some resp) ->
    fst (handle_user_command env line has_queues has_logs out s) = Ok tt
    /\ tracked tid s
         (if ag_done agent
          then [turn_start (next_id s) (ag_thread_id agent)
                  (build_turn_input env prompt (ag_cwd agent))]
          else [])
         (ag_index agent, ag_cwd agent, ag_thread_id agent, false,
          if ag_done agent then ag_queued_prompts agent
          else (ag_queued_prompts agent ++ [prompt])%list,
          ag_last_message agent)
         (snd (handle_user_command env line has_queues has_logs out s)).
Proof.
  intros env line has_queues has_logs out s head prompt tid agent
         Hne Hno Haddr Hnc Hns Hres Htid Ha Hreply.
  rewrite (ApprovalFacts.dispatch_agent env line has_queues has_logs out Hne Hno).
  assert (E : cmd_agent env (Py.strip line) has_queues has_logs out s
              = (if ag_done agent then start_agent_prompt env tid prompt
                 else queue_agent_prompt tid prompt) s).
  { unfold cmd_agent.
    destruct Haddr as [[Hc (h & p & Hsp & -> & ->)] | [Hc Hsp]];
      rewrite Hc, Hsp;
      rewrite (bind_ok _ _ _ _ _
                 (ApprovalFacts.resolve_known_ok _ s tid agent Hres Htid));
      now rewrite Hnc, Hns. }
  rewrite E. clear E.
  pose proof (tracked_start tid s agent Ha) as Ht. unfold agent_core in Ht.
  destruct (ag_done agent) eqn:Hd.
  - destruct (Hreply eq_refl) as [resp Hr].
    change (wp (start_agent_prompt env tid prompt)
              (fun r s' =>
                 r = Ok tt
                 /\ tracked tid s
                      [turn_start (next_id s) (ag_thread_id agent)
                         (build_turn_input env prompt (ag_cwd agent))]
                      (ag_index agent, ag_cwd agent, ag_thread_id agent, false,
                       ag_queued_prompts agent, ag_last_message agent) s') s).
    eapply wp_start_agent_prompt; [exact Ht | cbn; rewrite Z.add_0_r; exact Hr |].
    cbn [List.length app]. rewrite Z.add_0_r. auto.
  - change (wp (queue_agent_prompt tid prompt)
              (fun r s' =>
                 r = Ok tt
                 /\ tracked tid s []
                      (ag_index agent, ag_cwd agent, ag_thread_id agent, false,
                       (ag_queued_prompts agent ++ [prompt])%list,
                       ag_last_message agent) s') s).
    eapply wp_queue_agent_prompt; [exact Ht|]. auto.
Qed.

(** X17.  A line addressed to an agent, with a prompt that is neither
    a choice nor a [stop]: if the agent is running the prompt is put at
    the back of its queue and nothing is sent; if it is done one
    [turn/start] is sent for the prompt at once, and the agent runs
    again. *)
Theorem operator_prompt_is_queued_while_agent_runs :
  forall env line has_queues has_logs out s head prompt tid agent,
    Py.nonempty (Py.strip line) = true ->
    is_builtin_command (Py.strip line) = false ->
    addressed_to (Py.strip line) head prompt ->
    Py.in_strs prompt choices = false ->
    Py.startswith "stop" prompt = false ->
    resolve_agent (agents s) head = inr (Some (tid, agent)) ->
    Py.nonempty tid = true ->
    dict_get tid (agents s) = Some agent ->
    (ag_done agent = true -> exists resp, reply env (next_id s) = Some resp) ->
    fst (handle_user_command env line has_queues has_logs out s) = Ok tt
    /\ tracked tid s
         (if ag_done agent
          then [turn_start (next_id s) (ag_thread_id agent)
                  (build_turn_input env prompt (ag_cwd agent))]
          else [])
         (ag_index agent, ag_cwd agent, ag_thread_id agent, false,
          if ag_done agent then ag_queued_prompts agent
          else (ag_queued_prompts agent ++ [prompt])%list,
          ag_last_message agent)
         (snd (handle_user_command env line has_queues has_logs out s)).
Proof. exact prompt_queued_or_started. Qed.

(** X17 on the sample run: a prompt typed for the first agent while it
    runs. *)
Lemma operator_prompt_is_queued_sample :
  fst (handle_user_command sample_env "1 again" true true RecentLogsAppend
         (sample_state sample_run [Tick])) = Ok tt
  /\ tracked "t2" (sample_state sample_run [Tick])
       (if ag_done sample_agent
        then [turn_start (next_id (sample_state sample_run [Tick]))
                (ag_thread_id sample_agent)
                (build_turn_input sample_env "again" (ag_cwd sample_agent))]
        else [])
       (ag_index sample_agent, ag_cwd sample_agent, ag_thread_id sample_agent,
        false,
        if ag_done sample_agent then ag_queued_prompts sample_agent
        else (ag_queued_prompts sample_agent ++ ["again"])%list,
        ag_last_message sample_agent)
       (snd (handle_user_command sample_env "1 again" true true
               RecentLogsAppend (sample_state sample_run [Tick]))).
Proof.
  refine (operator_prompt_is_queued_while_agent_runs sample_env "1 again" true
            true RecentLogsAppend (sample_state sample_run [Tick]) "1" "again"
            "t2" sample_agent _ _ _ _ _ _ _ _ _).
  - reflexivity.
  - reflexivity.
  - right. split; reflexivity.
  - reflexivity.
  - reflexivity.
  - vm_compute. reflexivity.
  - reflexivity.
  - vm_compute. reflexivity.
  - discriminate.
Defined.




End QueueFacts.

(** ** Events of other threads *)

Module EventFacts.

Import MonadFacts.
Local Open Scope monad_scope.

(** X18.  An event whose thread is neither a supervised agent nor a
    review under way is ignored, whatever its method and its payload:
    [process_event] returns and leaves the whole state as it was. *)
Theorem events_of_unknown_threads_are_ignored :
  forall env event args log_dir s,
    let params :=
      match ev_params event with Some p => p | None => empty_params end in
    known (thread_id_from_params params) (agents s) = false ->
    known (thread_id_from_params params) (pending_reviews s) = false ->
    process_event env event args log_dir s = (Ok tt, s).
Proof.
  intros env event args log_dir s params Ha Hr.
  unfold process_event. cbv zeta. fold params. rewrite bind_get, Ha, Hr.
  rewrite !andb_false_r. reflexivity.
Qed.

(** X18 on the sample run: a completion for a thread that is not
    supervised. *)
Lemma events_of_unknown_threads_sample :
  process_event sample_env (turn_completed "t9") sample_args "/logs"
    (sample_state sample_run [Tick])
  = (Ok tt, sample_state sample_run [Tick]).
Proof.
  apply (events_of_unknown_threads_are_ignored sample_env (turn_completed "t9")
           sample_args "/logs" (sample_state sample_run [Tick]));
    vm_compute; reflexivity.
Defined.

(** X30.  A [turn/completed] event of a supervised thread whose [turn]
    is null makes [process_event] raise [AttributeError] before anything
    is done: the agent is not marked done, no follow-up is taken from its
    queue, and nothing is sent or logged. *)
Theorem turn_completion_with_null_turn_raises :
  forall env event tid args log_dir s params,
    turn_completed_of event tid ->
    ev_params event = Some params ->
    p_turn params = Null ->
    dict_mem tid (agents s) = true ->
    process_event env event args log_dir s
    = (Raise (AttributeError "'NoneType' object has no attribute 'get'"), s).
Proof.
  intros env event tid args log_dir s params Hev Hp Hnull Hmem.
  destruct (QueueFacts.process_event_turn_completed env event tid args log_dir s
              Hev Hmem) as (params' & Hp' & E).
  rewrite Hp in Hp'. injection Hp' as <-.
  rewrite E. unfold on_turn_completed, turn_status_of. now rewrite Hnull.
Qed.

(** X30 on the sample run, for the first agent after the first pass. *)
Lemma turn_completion_with_null_turn_sample :
  process_event sample_env (turn_completed_null "t2") sample_args "/logs"
    (sample_state sample_run [Tick])
  = (Raise (AttributeError "'NoneType' object has no attribute 'get'"),
     sample_state sample_run [Tick]).
Proof.
  refine (turn_completion_with_null_turn_raises sample_env
            (turn_completed_null "t2") "t2" sample_args "/logs"
            (sample_state sample_run [Tick]) _ _ _ _ _).
  - split; [reflexivity|]. eexists. split; reflexivity.
  - reflexivity.
  - reflexivity.
  - vm_compute. reflexivity.
Defined.

End EventFacts.

(** ** Dependencies: [deps_satisfied] *)

Module DepsFacts.

Lemma done_index agents n :
  existsb (Z.eqb n) (map ag_index (filter ag_done (dict_values agents))) = true
  <-> exists agent,
        In agent (dict_values agents) /\ ag_done agent = true
        /\ ag_index agent = n.
Proof.
  rewrite existsb_exists. split.
  - intros (m & Hin & Heq). apply Z.eqb_eq in Heq. subst m.
    apply in_map_iff in Hin. destruct Hin as (agent & Hi & Hin).
    apply filter_In in Hin. destruct Hin as [Hin Hd]. eauto.
  - intros (agent & Hin & Hd & Hi). exists n. split; [|apply Z.eqb_refl].
    apply in_map_iff. exists agent. split; [exact Hi|].
    apply filter_In. auto.
Qed.

Lemma done_name agents dep :
  Py.in_strs dep
    (flat_map (fun agent =>
                 if ag_done agent && Py.truthy_str (ag_name agent)
                 then [Py.or_empty (ag_name agent)] else [])
              (dict_values agents)) = true
  <-> exists agent,
        In agent (dict_values agents) /\ ag_done agent = true
        /\ ag_name agent = Some dep /\ Py.nonempty dep = true.
Proof.
  unfold Py.in_strs. rewrite existsb_exists. split.
  - intros (name & Hin & Heq). apply String.eqb_eq in Heq. subst name.
    apply in_flat_map in Hin. destruct Hin as (agent & Hin & Hname).
    exists agent. split; [exact Hin|].
    destruct (ag_done agent); [|contradiction].
    destruct (ag_name agent) as [[|c name]|]; try contradiction.
    cbn in Hname. destruct Hname as [<-|[]]. auto.
  - intros (agent & Hin & Hd & Hn & Hne). exists dep.
    split; [|apply String.eqb_refl].
    apply in_flat_map. exists agent. split; [exact Hin|].
    rewrite Hd, Hn. destruct dep; [discriminate|]. now left.
Qed.

Lemma deps_loop_true agents deps :
  deps_loop deps (map ag_index (filter ag_done (dict_values agents)))
    (flat_map (fun agent =>
                 if ag_done agent && Py.truthy_str (ag_name agent)
                 then [Py.or_empty (ag_name agent)] else [])
              (dict_values agents)) = inr true
  <-> Forall (dep_done agents) deps.
Proof.
  induction deps as [|dep deps IH]; cbn [deps_loop].
  - split; [constructor | reflexivity].
  - split.
    + intros H. destruct (Py.isdigit dep) eqn:Hdig.
      * destruct (Py.int dep) as [n|] eqn:Hint; [|discriminate].
        destruct (existsb (Z.eqb n) _) eqn:Hex; [|discriminate].
        constructor; [|now apply IH].
        apply done_index in Hex. destruct Hex as (agent & Hin & Hd & Hi).
        exists agent. rewrite Hdig, Hi. auto.
      * destruct (Py.in_strs dep _) eqn:Hex; [|discriminate].
        constructor; [|now apply IH].
        apply done_name in Hex. destruct Hex as (agent & Hin & Hd & Hn).
        exists agent. rewrite Hdig. auto.
    + intros H. inversion H as [|? ? (agent & Hin & Hd & Hdep) Hrest]. subst.
      destruct (Py.isdigit dep).
      * rewrite Hdep.
        assert (Hex : existsb (Z.eqb (ag_index agent))
                        (map ag_index (filter ag_done (dict_values agents)))
                      = true) by (apply done_index; eauto).
        rewrite Hex. now apply IH.
      * assert (Hex : Py.in_strs dep
                        (flat_map (fun agent =>
                                     if ag_done agent
                                        && Py.truthy_str (ag_name agent)
                                     then [Py.or_empty (ag_name agent)] else [])
                                  (dict_values agents)) = true)
          by (apply done_name; exists agent; tauto).
        rewrite Hex. now apply IH.
Qed.

Lemma deps_satisfied_iff_all_done_aux deps agents :
  deps_satisfied deps agents = inr true <-> Forall (dep_done agents) deps.
Proof.
  unfold deps_satisfied.
  destruct deps as [|dep deps]; [split; [constructor | reflexivity]|].
  apply deps_loop_true.
Qed.

(** X19.  [deps_satisfied] returns [True] exactly when every dependency
    names a done agent: an agent whose index is the number, for a
    dependency made of digits, and an agent with exactly that name
    otherwise.  (Without dependencies it returns [True].) *)
Theorem deps_satisfied_iff_all_done :
  forall deps agents,
    deps_satisfied deps agents = inr true <-> Forall (dep_done agents) deps.
Proof.
  intros deps agents. apply deps_satisfied_iff_all_done_aux.
Qed.

(** *** Specs that all wait *)

Section AllWait.

Context (env : Env) (fuel : nat) (run : Run).

(** With no agent, a spec that waits for one is set aside. *)
Lemma iteration_sets_aside item rest remaining started_any s r s' :
  agents s = [] ->
  has_deps item ->
  start_ready_iteration env fuel run item rest remaining started_any s
  = (Ok r, s') ->
  r = ((remaining ++ [item])%list, started_any)
  /\ s' = set_pending_prompts rest s.
Proof.
  intros Hag Hdeps. unfold start_ready_iteration.
  rewrite MonadFacts.bind_get. unfold bind at 1. cbn [modify].
  pose proof (deps_satisfied_iff_all_done_aux (sp_deps item) (agents s)) as Hiff.
  destruct (deps_satisfied (sp_deps item) (agents s)) as [e|[|]];
    unfold bind, lift, ret, raise.
  - discriminate.
  - pose proof (proj1 Hiff eq_refl) as HF. unfold has_deps in Hdeps.
    destruct (sp_deps item) as [|dep deps]; [contradiction|].
    inversion HF as [|? ? (agent & Hin & _) _].
    rewrite Hag in Hin. contradiction.
  - now intros [= <- <-].
Qed.

Lemma move_all_wait p q :
  move env fuel run any_input p q -> all_wait p -> all_wait q.
Proof.
  intros Hmove Hinv. destruct Hmove as
    [s input s' Hal Hnt Hstep | s Hal | item rest remaining b s r s' Hlt Hit
    | queue remaining b s Hend]; unfold all_wait in *; cbn [point_state] in *.
  - pose proof (SchedulerFacts.step_keeps_keys env fuel run input s Hnt) as K.
    rewrite Hstep in K. cbn [snd] in K. unfold keys_view in K.
    injection K as Hk Hp. destruct Hinv as (Hag & Hall & _).
    rewrite Hag in Hk. rewrite Hp.
    split; [|auto]. now destruct (agents s').
  - destruct Hinv as (Hag & Hall & _). auto.
  - destruct Hinv as (Hag & Hall & Hq & Hrem).
    rewrite Hq in Hall. inversion Hall as [|? ? Hitem Hrest]. subst.
    destruct (iteration_sets_aside item rest remaining b s r s' Hag Hitem Hit)
      as [-> ->].
    cbn [fst snd agents pending_prompts set_pending_prompts].
    repeat split; auto. apply Forall_app. auto.
  - destruct Hinv as (Hag & Hall & Hq & Hrem). unfold finish_pass.
    cbn [agents pending_prompts set_pending_prompts].
    split; [exact Hag|]. split; [|exact I]. apply Forall_app. auto.
Qed.

Lemma reach_all_wait p q :
  reach env fuel run any_input p q -> all_wait p -> all_wait q.
Proof.
  induction 1 as [|q r _ IH Hm]; [trivial|].
  intros Hp. apply (move_all_wait q r Hm). now apply IH.
Qed.

End AllWait.

(** X20.  If every spec carries a dependency, no agent is ever started:
    whatever the inputs of the run, the supervisor has no agent at any
    point of its loop, and the specs all stay queued. *)
Theorem specs_that_all_wait_never_start :
  forall env fuel run args first_id p,
    Forall has_deps (enumerate_specs 1 (args_agent args)) ->
    reach env fuel run any_input (Idle (initial_state args first_id)) p ->
    agents (point_state p) = []
    /\ Forall has_deps (pending_prompts (point_state p)).
Proof.
  intros env fuel run args first_id p Hall Hreach.
  destruct (reach_all_wait env fuel run _ _ Hreach) as (Hag & Hp & _); auto.
  repeat split; auto.
Qed.

(** X20 for two specs that wait for each other, after a pass, the
    request of a server and another pass. *)
Lemma specs_that_all_wait_never_start_sample :
  agents (point_state
            (sample_point (run_of Curses circular_args)
               [Tick; ServerRequest sample_request []; Tick])) = []
  /\ Forall has_deps
       (pending_prompts
          (point_state
             (sample_point (run_of Curses circular_args)
                [Tick; ServerRequest sample_request []; Tick]))).
Proof.
  refine (specs_that_all_wait_never_start sample_env 1
            (run_of Curses circular_args) circular_args 2%Z
            (sample_point (run_of Curses circular_args)
               [Tick; ServerRequest sample_request []; Tick]) _ _).
  - repeat constructor; discriminate.
  - unfold sample_point.
    refine (SchedulerFacts.run_inputs_reach sample_env 1
              (run_of Curses circular_args) any_input
              [Tick; ServerRequest sample_request []; Tick]
              (initial_state circular_args 2)
              (sample_state (run_of Curses circular_args)
                 [Tick; ServerRequest sample_request []; Tick]) _ _).
    + repeat constructor.
    + vm_compute. reflexivity.
Defined.

End DepsFacts.

(** ** Addressing an agent: [resolve_agent] *)

Module ResolveFacts.

Import MonadFacts.

Lemma find_in {A : Type} (p : A -> bool) l x :
  List.find p l = Some x -> In x l /\ p x = true.
Proof. apply find_some. Qed.

(** X21.  What [resolve_agent] returns is an entry of [agents], found
    by the key: the agent's index is the key read as a number, or the
    agent has a name equal to the key once both are stripped and
    lower-cased. *)
Theorem resolve_agent_finds_an_entry :
  forall agents key tid agent,
    resolve_agent agents key = inr (Some (tid, agent)) ->
    In (tid, agent) agents
    /\ (Py.int (normalize_agent_key key) = Some (ag_index agent)
        \/ exists name,
             ag_name agent = Some name
             /\ normalize_agent_key name = normalize_agent_key key).
Proof.
  intros agents key tid agent. unfold resolve_agent. cbv zeta.
  set (k := normalize_agent_key key).
  set (by_name := List.find _ agents).
  assert (Hname : by_name = Some (tid, agent) ->
                  In (tid, agent) agents
                  /\ exists name,
                       ag_name agent = Some name /\ normalize_agent_key name = k).
  { intros H. apply find_some in H. destruct H as [Hin Hp]. split; [exact Hin|].
    apply andb_prop in Hp. destruct Hp as [Ht He].
    destruct (ag_name agent) as [name|]; [|discriminate].
    exists name. split; [reflexivity|]. now apply String.eqb_eq in He. }
  destruct (Py.isdigit k).
  - destruct (Py.int k) as [idx|]; [|discriminate].
    destruct (List.find (fun '(_, a) => Z.eqb (ag_index a) idx) agents)
      as [[t a]|] eqn:Hf.
    + intros [= -> ->]. apply find_some in Hf. destruct Hf as [Hin He].
      apply Z.eqb_eq in He. split; [exact Hin|]. left. now rewrite He.
    + intros [= H]. destruct (Hname H) as [Hin Hn]. auto.
  - intros [= H]. destruct (Hname H) as [Hin Hn]. auto.
Qed.

(** X21 on the sample run: the key [1] finds the first agent. *)
Lemma resolve_agent_finds_an_entry_sample :
  In ("t2", sample_agent) (agents (sample_state sample_run [Tick]))
  /\ (Py.int (normalize_agent_key " 1 ") = Some (ag_index sample_agent)
      \/ exists name,
           ag_name sample_agent = Some name
           /\ normalize_agent_key name = normalize_agent_key " 1 ").
Proof.
  apply (resolve_agent_finds_an_entry (agents (sample_state sample_run [Tick]))
           " 1 " "t2" sample_agent).
  vm_compute. reflexivity.
Defined.

(** X22.  A key that passes [isdigit] and that [int] refuses (a
    superscript digit) makes [resolve_agent] raise [ValueError], and a
    line that addresses a prompt to such a key makes
    [handle_user_command] raise it, with the state as it was. *)
Theorem digit_key_that_int_refuses_raises :
  forall env line has_queues has_logs out s head prompt,
    Py.nonempty (Py.strip line) = true ->
    is_builtin_command (Py.strip line) = false ->
    addressed_to (Py.strip line) head prompt ->
    odd_digits head ->
    exists message,
      resolve_agent (agents s) head = inl (ValueError message)
      /\ handle_user_command env line has_queues has_logs out s
         = (Raise (ValueError message), s).
Proof.
  intros env line has_queues has_logs out s head prompt Hne Hno Haddr [Hd Hi].
  exists "invalid literal for int()".
  assert (E : resolve_agent (agents s) head
              = inl (ValueError "invalid literal for int()")).
  { unfold resolve_agent. cbv zeta. now rewrite Hd, Hi. }
  split; [exact E|].
  rewrite (ApprovalFacts.dispatch_agent env line has_queues has_logs out Hne Hno).
  assert (R : resolve_known head s
              = (Raise (ValueError "invalid literal for int()"), s)).
  { unfold resolve_known. now rewrite bind_get, E. }
  unfold cmd_agent.
  destruct Haddr as [[Hc (h & p & Hsp & Hh & Hp)] | [Hc Hsp]];
    rewrite Hc, Hsp; [rewrite <- Hh|];
    now rewrite (bind_raise _ _ _ _ _ R).
Qed.

(** X22 for a line that addresses a prompt to an agent called by a superscript two. *)
Lemma digit_key_that_int_refuses_sample :
  exists message,
    resolve_agent (agents (sample_state sample_run [Tick])) superscript_two
    = inl (ValueError message)
    /\ handle_user_command sample_env (superscript_two ++ " again") true true
         RecentLogsAppend (sample_state sample_run [Tick])
       = (Raise (ValueError message), sample_state sample_run [Tick]).
Proof.
  apply (digit_key_that_int_refuses_raises sample_env
           (superscript_two ++ " again") true true RecentLogsAppend
           (sample_state sample_run [Tick]) superscript_two "again").
  - reflexivity.
  - reflexivity.
  - right. split; reflexivity.
  - split; reflexivity.
Defined.

End ResolveFacts.

(** ** File names: [sanitize_filename_component] *)

Module FileNameFacts.

Lemma sanitize_go_chars value :
  forall in_run, Py.all_chars is_filename_char (sanitize_go in_run value) = true.
Proof.
  induction value as [|c value IH]; intros in_run; cbn [sanitize_go];
    [reflexivity|].
  destruct (is_filename_char c) eqn:Hc.
  - cbn [Py.all_chars]. now rewrite Hc, IH.
  - destruct in_run; [apply IH|]. cbn [Py.all_chars]. now rewrite IH.
Qed.

Lemma lstrip_char_chars p x s :
  Py.all_chars p s = true -> Py.all_chars p (Py.lstrip_char x s) = true.
Proof.
  induction s as [|c s IH]; cbn [Py.lstrip_char Py.all_chars]; [trivial|].
  intros H. apply andb_prop in H. destruct H as [Hc Hs].
  destruct (Ascii.eqb c x); [now apply IH|].
  cbn [Py.all_chars]. now rewrite Hc, Hs.
Qed.

Lemma rstrip_char_chars p x s :
  Py.all_chars p s = true -> Py.all_chars p (Py.rstrip_char x s) = true.
Proof.
  induction s as [|c s IH]; cbn [Py.rstrip_char Py.all_chars]; [trivial|].
  intros H. apply andb_prop in H. destruct H as [Hc Hs].
  specialize (IH Hs).
  destruct (Py.rstrip_char x s) as [|d r].
  - destruct (Ascii.eqb c x); [reflexivity|]. cbn [Py.all_chars].
    now rewrite Hc.
  - cbn [Py.all_chars] in *. now rewrite Hc, IH.
Qed.

Lemma lstrip_char_head x s : Py.startswith (String x "") (Py.lstrip_char x s) = false.
Proof.
  induction s as [|c s IH]; cbn [Py.lstrip_char]; [reflexivity|].
  destruct (Ascii.eqb c x) eqn:E; [exact IH|].
  unfold Py.startswith. cbn [String.prefix].
  destruct (ascii_dec x c) as [->|]; [|reflexivity].
  now rewrite Ascii.eqb_refl in E.
Qed.

Lemma rstrip_char_head x s :
  Py.startswith (String x "") s = false ->
  Py.startswith (String x "") (Py.rstrip_char x s) = false.
Proof.
  unfold Py.startswith. destruct s as [|c s]; [trivial|].
  cbn [String.prefix Py.rstrip_char].
  destruct (ascii_dec x c) as [->|Hne].
  - destruct s; discriminate.
  - intros _. destruct (Py.rstrip_char x s).
    + destruct (Ascii.eqb c x); [reflexivity|]. cbn [String.prefix].
      destruct (ascii_dec x c); [contradiction | reflexivity].
    + cbn [String.prefix]. destruct (ascii_dec x c); [contradiction | reflexivity].
Qed.

Lemma rstrip_char_last x s : Py.endswith_char x (Py.rstrip_char x s) = false.
Proof.
  induction s as [|c s IH]; cbn [Py.rstrip_char]; [reflexivity|].
  destruct (Py.rstrip_char x s) as [|d r] eqn:E.
  - destruct (Ascii.eqb c x) eqn:Hc; [reflexivity|]. cbn [Py.endswith_char].
    exact Hc.
  - cbn [Py.endswith_char] in *. exact IH.
Qed.

(** Only underscores are stripped away. *)
Lemma lstrip_char_empty x s :
  Py.lstrip_char x s = "" <-> Py.all_chars (fun c => Ascii.eqb c x) s = true.
Proof.
  induction s as [|c s IH]; cbn [Py.lstrip_char Py.all_chars]; [tauto|].
  destruct (Ascii.eqb c x); cbn [andb]; [exact IH|].
  split; discriminate.
Qed.

Lemma rstrip_char_empty x s :
  Py.rstrip_char x s = "" <-> Py.all_chars (fun c => Ascii.eqb c x) s = true.
Proof.
  induction s as [|c s IH]; cbn [Py.rstrip_char Py.all_chars]; [tauto|].
  destruct (Py.rstrip_char x s) as [|d r].
  - destruct (Ascii.eqb c x); cbn [andb].
    + split; [intros _; now apply IH | reflexivity].
    + split; discriminate.
  - split; [discriminate|]. intros H. apply andb_prop in H.
    destruct H as [_ H]. apply IH in H. discriminate.
Qed.

Lemma lstrip_char_all x s :
  Py.all_chars (fun c => Ascii.eqb c x) (Py.lstrip_char x s)
  = Py.all_chars (fun c => Ascii.eqb c x) s.
Proof.
  induction s as [|c s IH]; cbn [Py.lstrip_char Py.all_chars]; [reflexivity|].
  destruct (Ascii.eqb c x) eqn:E; cbn [andb]; [exact IH|].
  cbn [Py.all_chars]. now rewrite E.
Qed.

Lemma sanitize_go_underscores value :
  forall in_run,
    Py.all_chars (fun c => Ascii.eqb c "_"%char) (sanitize_go in_run value)
    = Py.all_chars (fun c => negb (is_kept_char c)) value.
Proof.
  induction value as [|c value IH]; intros in_run; cbn [sanitize_go Py.all_chars];
    [reflexivity|].
  unfold is_kept_char at 1.
  destruct (is_filename_char c) eqn:Hc; cbn [andb negb].
  - cbn [Py.all_chars]. rewrite IH. now rewrite Bool.negb_involutive.
  - destruct in_run; [apply IH|]. cbn [Py.all_chars]. now rewrite IH.
Qed.

(** X23.  What [sanitize_filename_component] returns is made of the
    characters [A-Za-z0-9._-] only, so it holds no path separator; it
    neither begins nor ends with an underscore; and it is empty exactly
    when the value holds none of the characters [A-Za-z0-9.-]. *)
Theorem sanitized_component_is_safe :
  forall value,
    Py.all_chars is_filename_char (sanitize_filename_component value) = true
    /\ Py.startswith "_" (sanitize_filename_component value) = false
    /\ Py.endswith_char "_"%char (sanitize_filename_component value) = false
    /\ Py.contains "/" (sanitize_filename_component value) = false
    /\ (sanitize_filename_component value = ""
        <-> Py.all_chars (fun c => negb (is_kept_char c)) value = true).
Proof.
  intros value. unfold sanitize_filename_component.
  assert (Hchars : Py.all_chars is_filename_char
                     (Py.rstrip_char "_" (Py.lstrip_char "_" (sanitize_go false value)))
                   = true).
  { apply rstrip_char_chars, lstrip_char_chars, sanitize_go_chars. }
  split; [exact Hchars|].
  split; [apply rstrip_char_head, lstrip_char_head|].
  split; [apply rstrip_char_last|].
  split.
  - revert Hchars.
    generalize (Py.rstrip_char "_" (Py.lstrip_char "_" (sanitize_go false value))).
    intros s. induction s as [|c s IH]; cbn [Py.all_chars Py.contains];
      [reflexivity|].
    intros H. apply andb_prop in H. destruct H as [Hc Hs].
    rewrite (IH Hs), orb_false_r. cbn [String.prefix].
    destruct (ascii_dec "/" c) as [<-|]; [discriminate | now destruct s].
  - rewrite rstrip_char_empty, lstrip_char_all. now rewrite sanitize_go_underscores.
Qed.

End FileNameFacts.

(** ** Filing a request and answering it *)

Module RoundTripFacts.

Import MonadFacts.

Lemma json_eqb_refl : forall a, json_eqb a a = true.
Proof.
  fix IH 1. intros [| b | n | s | l | kv]; cbn [json_eqb].
  - reflexivity.
  - now destruct b.
  - apply Z.eqb_refl.
  - apply String.eqb_refl.
  - revert l. fix IHl 1. intros [|h t]; [reflexivity|].
    now rewrite (IH h), (IHl t).
  - revert kv. fix IHkv 1. intros [|[k v] t]; [reflexivity|].
    now rewrite String.eqb_refl, (IH v), (IHkv t).
Qed.

Lemma opt_str_eqb_refl a : opt_str_eqb a a = true.
Proof. destruct a; [apply String.eqb_refl | reflexivity]. Qed.

Lemma entry_eqb_refl entry : entry_eqb entry entry = true.
Proof.
  unfold entry_eqb, req_params_eqb.
  now rewrite !json_eqb_refl, !String.eqb_refl, !opt_str_eqb_refl.
Qed.

(** What [enqueue_approval] files when nothing is pending. *)
Lemma enqueue_approval_files req s :
  approval_queue s = [] ->
  approvals_by_thread s = [] ->
  exists entry,
    en_req_id entry = rq_id req
    /\ en_method entry = rq_method req
    /\ en_amendment entry = request_amendment req
    /\ fst (enqueue_approval req s) = Ok tt
    /\ approval_queue (snd (enqueue_approval req s)) = [entry]
    /\ approvals_by_thread (snd (enqueue_approval req s))
       = [(en_thread_id entry, [entry])]
    /\ trace (snd (enqueue_approval req s)) = trace s.
Proof.
  intros Hq Ht. unfold enqueue_approval, request_amendment. cbv zeta.
  match goal with
  | |- context [set_thread_queue _ (_ ++ [?e])%list] => exists e
  end.
  unfold set_thread_queue, log_recent, thread_queue_of, bind, modify, get.
  cbn [fst snd approval_queue approvals_by_thread trace set_approval_queue
       set_approvals_by_thread set_recent_logs en_req_id en_method
       en_amendment en_thread_id].
  rewrite Hq, Ht. cbn [app dict_get dict_set]. repeat split.
Qed.

(** X24.  A request filed by [enqueue_approval] when nothing is pending
    and answered by [approve <choice>] with a valid choice is answered
    once, with its own id, and both queues are empty again. *)
Theorem filed_request_is_answered_and_removed :
  forall env req line has_logs out s w choice payload,
    approval_queue s = [] ->
    approvals_by_thread s = [] ->
    Py.startswith "approve" (Py.strip line) = true ->
    Py.split_ws (Py.strip line) = [w; choice] ->
    get_decision_payload (rq_method req) choice (request_amendment req)
    = Some payload ->
    fst (enqueue_approval req s) = Ok tt
    /\ fst (handle_user_command env line true has_logs out
              (snd (enqueue_approval req s))) = Ok tt
    /\ approval_queue
         (snd (handle_user_command env line true has_logs out
                 (snd (enqueue_approval req s)))) = []
    /\ Forall (fun kq => snd kq = [])
         (approvals_by_thread
            (snd (handle_user_command env line true has_logs out
                    (snd (enqueue_approval req s)))))
    /\ trace (snd (handle_user_command env line true has_logs out
                     (snd (enqueue_approval req s))))
       = (trace s ++ [response_to (rq_id req) payload])%list.
Proof.
  intros env req line has_logs out s w choice payload Hq Ht Hd Hs Hp.
  destruct (enqueue_approval_files req s Hq Ht)
    as (entry & Hid & Hm & Ham & Hok & Hq1 & Ht1 & Htr).
  split; [exact Hok|].
  set (s1 := snd (enqueue_approval req s)) in *.
  rewrite (ApprovalFacts.dispatch_approve env line true has_logs out Hd).
  rewrite <- Hm, <- Ham in Hp.
  rewrite (ApprovalFacts.approve_global (Py.strip line) has_logs out s1 w choice
             entry [] Hs (ApprovalFacts.payload_choice _ _ _ _ Hp) Hq1), Hp.
  unfold pop_approval, thread_queue_of. cbv zeta.
  cbn [approvals_by_thread set_approval_queue]. rewrite Ht1.
  cbn [dict_get]. rewrite String.eqb_refl. cbn [entry_in existsb entry_remove].
  rewrite entry_eqb_refl. cbn [orb dict_set]. rewrite String.eqb_refl, Hid.
  destruct has_logs;
    cbn [when log_recent modify fst snd approval_queue approvals_by_thread trace
         set_trace set_recent_logs set_approvals_by_thread set_approval_queue];
    rewrite Htr; repeat split; repeat constructor.
Qed.

(** X24 for the sample request, filed before any agent is started. *)
Lemma filed_request_is_answered_and_removed_sample :
  fst (enqueue_approval sample_request (initial_state sample_args 2)) = Ok tt
  /\ fst (handle_user_command sample_env "approve d" true true RecentLogsAppend
            (snd (enqueue_approval sample_request (initial_state sample_args 2))))
     = Ok tt
  /\ approval_queue
       (snd (handle_user_command sample_env "approve d" true true
               RecentLogsAppend
               (snd (enqueue_approval sample_request
                       (initial_state sample_args 2))))) = []
  /\ Forall (fun kq => snd kq = [])
       (approvals_by_thread
          (snd (handle_user_command sample_env "approve d" true true
                  RecentLogsAppend
                  (snd (enqueue_approval sample_request
                          (initial_state sample_args 2))))))
  /\ trace (snd (handle_user_command sample_env "approve d" true true
                   RecentLogsAppend
                   (snd (enqueue_approval sample_request
                           (initial_state sample_args 2)))))
     = (trace (initial_state sample_args 2)
        ++ [response_to (rq_id sample_request) (decision (JStr "decline"))])%list.
Proof.
  apply (filed_request_is_answered_and_removed sample_env sample_request
           "approve d" true RecentLogsAppend (initial_state sample_args 2)
           "approve" "d" (decision (JStr "decline")));
    reflexivity.
Defined.

End RoundTripFacts.

(** * Stopping an agent, and lines for no agent *)

Module StopFacts.

Import MonadFacts.
Local Open Scope monad_scope.

Lemma wp_try_except {A : Type} (m : M A) (handler : exn -> M A)
    (Q : outcome A -> State -> Prop) s :
  wp m (fun r s1 =>
          match r with
          | Raise e => if is_exception e then wp (handler e) Q s1
                       else Q (Raise e) s1
          | _ => Q r s1
          end) s ->
  wp (try_except m handler) Q s.
Proof.
  unfold wp, try_except. destruct (m s) as [[a | e |] s1]; trivial.
  cbn [fst snd]. destruct (is_exception e); intros H; exact H.
Qed.

Section Cancel.

Context (env : Env) (tid : string) (s0 : State).

(** A request that the server does not answer is sent and numbered all
    the same. *)
Lemma wp_tracked_request_timeout method params added core
    (Q : outcome Response -> State -> Prop) s :
  tracked tid s0 added core s ->
  reply env (next_id s0 + Z.of_nat (List.length added)) = None ->
  (forall e s1,
      is_exception e = true ->
      tracked tid s0
        (added ++ [Sent (JDict (("id", JNum (next_id s0 + Z.of_nat (List.length added)))
                                 :: ("method", JStr method)
                                 :: with_params params))])
        core s1 ->
      Q (Raise e) s1) ->
  wp (request env method params) Q s.
Proof.
  intros (Hs & Hn & Hp & a & Hag & Hc) Hr HQ.
  unfold request. apply wp_bind, wp_get. apply wp_bind, wp_modify.
  apply wp_bind. unfold emit. apply wp_modify.
  rewrite Hn, Hr. apply wp_raise. apply HQ; [reflexivity|].
  split.
  - unfold sent at 1. cbn [trace set_trace set_next_id].
    rewrite QueueFacts.sent_snoc. cbn [is_sent]. now rewrite Hs, app_assoc.
  - split; [|split; [exact Hp | exists a; split; [exact Hag | exact Hc]]].
    cbn [next_id set_trace set_next_id]. rewrite length_app. cbn [List.length].
    lia.
Qed.

(** [try_cancel_turn] sends one [turn/cancel] and tells whether the
    server answered it without an error. *)
Lemma wp_try_cancel_turn added index cwd thread_id done queue last_message
    (Q : outcome bool -> State -> Prop) s :
  tracked tid s0 added (index, cwd, thread_id, done, queue, last_message) s ->
  (forall s1,
      tracked tid s0
        (added ++ [turn_cancel (next_id s0 + Z.of_nat (List.length added))
                     thread_id])
        (index, cwd, thread_id, done, queue, last_message) s1 ->
      Q (Ok (answered_without_error env
               (next_id s0 + Z.of_nat (List.length added)))) s1) ->
  wp (try_cancel_turn env tid) Q s.
Proof.
  intros Ht HQ. unfold try_cancel_turn.
  apply wp_bind. apply (QueueFacts.wp_tracked_agent_at tid s0 added _ _ s Ht).
  intros a Ha. injection Ha as Hi Hc Hth Hd Hq Hm.
  apply wp_try_except. apply wp_bind.
  unfold answered_without_error in HQ.
  destruct (reply env (next_id s0 + Z.of_nat (List.length added))) as [resp|] eqn:Hr.
  - apply (QueueFacts.wp_tracked_request env tid s0 "turn/cancel" _ resp added _ _ s
             Ht Hr).
    intros s1 H1. rewrite Hth in H1.
    destruct (truthy (resp_error resp)); apply wp_ret, HQ, H1.
  - apply (wp_tracked_request_timeout "turn/cancel" _ added _ _ s Ht Hr).
    intros e s1 He H1. rewrite He. rewrite Hth in H1. apply wp_ret, HQ, H1.
Qed.

End Cancel.

(** The part of [cmd_agent] run for [<agent> stop ...]. *)
Lemma cmd_agent_stop env line has_queues has_logs out s head prompt tid agent :
  addressed_to line head prompt ->
  Py.in_strs prompt choices = false ->
  Py.startswith "stop" prompt = true ->
  resolve_agent (agents s) head = inr (Some (tid, agent)) ->
  Py.nonempty tid = true ->
  cmd_agent env line has_queues has_logs out s
  = (if ag_done agent then start_agent_prompt env tid (stop_prompt prompt)
     else
       cancelled <- try_cancel_turn env tid ;;
       if cancelled then record_recent tid "turn cancelled"
       else queue_agent_prompt tid (stop_prompt prompt)) s.
Proof.
  intros Haddr Hnc Hst Hres Htid. unfold cmd_agent, stop_prompt.
  destruct Haddr as [[Hc (h & p & Hsp & -> & ->)] | [Hc Hsp]];
    rewrite Hc, Hsp;
    rewrite (bind_ok _ _ _ _ _
               (ApprovalFacts.resolve_known_ok _ s tid agent Hres Htid));
    now rewrite Hnc, Hst.
Qed.

(** X25.  [<agent> stop <reason>] for a running agent sends one
    [turn/cancel] for its thread.  If the server answers without an
    error nothing is queued; if it answers with an error or not at all,
    the prompt [Stop: <reason>] is put at the back of the agent's queue.
    In both cases the agent is still running. *)
Theorem stop_cancels_or_queues :
  forall env line has_queues has_logs out s head prompt tid agent,
    Py.nonempty (Py.strip line) = true ->
    is_builtin_command (Py.strip line) = false ->
    addressed_to (Py.strip line) head prompt ->
    Py.in_strs prompt choices = false ->
    Py.startswith "stop" prompt = true ->
    resolve_agent (agents s) head = inr (Some (tid, agent)) ->
    Py.nonempty tid = true ->
    dict_get tid (agents s) = Some agent ->
    ag_done agent = false ->
    fst (handle_user_command env line has_queues has_logs out s) = Ok tt
    /\ tracked tid s
         [turn_cancel (next_id s) (ag_thread_id agent)]
         (ag_index agent, ag_cwd agent, ag_thread_id agent, false,
          if answered_without_error env (next_id s)
          then ag_queued_prompts agent
          else (ag_queued_prompts agent ++ [stop_prompt prompt])%list,
          ag_last_message agent)
         (snd (handle_user_command env line has_queues has_logs out s)).
Proof.
  intros env line has_queues has_logs out s head prompt tid agent
         Hne Hno Haddr Hnc Hst Hres Htid Ha Hd.
  rewrite (ApprovalFacts.dispatch_agent env line has_queues has_logs out Hne Hno).
  rewrite (cmd_agent_stop env _ has_queues has_logs out s head prompt tid agent
             Haddr Hnc Hst Hres Htid), Hd.
  pose proof (QueueFacts.tracked_start tid s agent Ha) as Ht.
  unfold agent_core in Ht. rewrite Hd in Ht.
  change (wp (cancelled <- try_cancel_turn env tid ;;
              if cancelled then record_recent tid "turn cancelled"
              else queue_agent_prompt tid (stop_prompt prompt))
            (fun r s' =>
               r = Ok tt
               /\ tracked tid s
                    [turn_cancel (next_id s) (ag_thread_id agent)]
                    (ag_index agent, ag_cwd agent, ag_thread_id agent, false,
                     if answered_without_error env (next_id s)
                     then ag_queued_prompts agent
                     else (ag_queued_prompts agent ++ [stop_prompt prompt])%list,
                     ag_last_message agent) s') s).
  apply wp_bind. eapply wp_try_cancel_turn; [exact Ht|].
  cbn [List.length app]. rewrite Z.add_0_r. intros s1 H1.
  destruct (answered_without_error env (next_id s)).
  - eapply QueueFacts.wp_tracked_books;
      [apply QueueFacts.keeps_books_record_recent | exact H1 |].
    auto.
  - eapply QueueFacts.wp_queue_agent_prompt; [exact H1|]. auto.
Qed.

(** X25 on the sample run, with a server that does not answer: the
    first agent is asked to stop while it runs. *)
Lemma stop_cancels_or_queues_sample :
  fst (handle_user_command silent_env "1 stop now" true true RecentLogsAppend
         (sample_state sample_run [Tick])) = Ok tt
  /\ tracked "t2" (sample_state sample_run [Tick])
       [turn_cancel (next_id (sample_state sample_run [Tick]))
          (ag_thread_id sample_agent)]
       (ag_index sample_agent, ag_cwd sample_agent, ag_thread_id sample_agent,
        false,
        if answered_without_error silent_env
             (next_id (sample_state sample_run [Tick]))
        then ag_queued_prompts sample_agent
        else (ag_queued_prompts sample_agent ++ [stop_prompt "stop now"])%list,
        ag_last_message sample_agent)
       (snd (handle_user_command silent_env "1 stop now" true true
               RecentLogsAppend (sample_state sample_run [Tick]))).
Proof.
  refine (stop_cancels_or_queues silent_env "1 stop now" true
            true RecentLogsAppend (sample_state sample_run [Tick]) "1" "stop now"
            "t2" sample_agent _ _ _ _ _ _ _ _ _).
  - reflexivity.
  - reflexivity.
  - right. split; reflexivity.
  - reflexivity.
  - reflexivity.
  - vm_compute. reflexivity.
  - reflexivity.
  - vm_compute. reflexivity.
  - reflexivity.
Defined.

(** X26.  [<agent> stop <reason>] for an agent that is done does not
    cancel anything: it starts a turn with the prompt [Stop: <reason>],
    and the agent runs again. *)
Theorem stop_of_idle_agent_starts_a_turn :
  forall env line has_queues has_logs out s head prompt tid agent resp,
    Py.nonempty (Py.strip line) = true ->
    is_builtin_command (Py.strip line) = false ->
    addressed_to (Py.strip line) head prompt ->
    Py.in_strs prompt choices = false ->
    Py.startswith "stop" prompt = true ->
    resolve_agent (agents s) head = inr (Some (tid, agent)) ->
    Py.nonempty tid = true ->
    dict_get tid (agents s) = Some agent ->
    ag_done agent = true ->
    reply env (next_id s) = Some resp ->
    fst (handle_user_command env line has_queues has_logs out s) = Ok tt
    /\ tracked tid s
         [turn_start (next_id s) (ag_thread_id agent)
            (build_turn_input env (stop_prompt prompt) (ag_cwd agent))]
         (ag_index agent, ag_cwd agent, ag_thread_id agent, false,
          ag_queued_prompts agent, ag_last_message agent)
         (snd (handle_user_command env line has_queues has_logs out s)).
Proof.
  intros env line has_queues has_logs out s head prompt tid agent resp
         Hne Hno Haddr Hnc Hst Hres Htid Ha Hd Hr.
  rewrite (ApprovalFacts.dispatch_agent env line has_queues has_logs out Hne Hno).
  rewrite (cmd_agent_stop env _ has_queues has_logs out s head prompt tid agent
             Haddr Hnc Hst Hres Htid), Hd.
  pose proof (QueueFacts.tracked_start tid s agent Ha) as Ht.
  unfold agent_core in Ht.
  change (wp (start_agent_prompt env tid (stop_prompt prompt))
            (fun r s' =>
               r = Ok tt
               /\ tracked tid s
                    [turn_start (next_id s) (ag_thread_id agent)
                       (build_turn_input env (stop_prompt prompt) (ag_cwd agent))]
                    (ag_index agent, ag_cwd agent, ag_thread_id agent, false,
                     ag_queued_prompts agent, ag_last_message agent) s') s).
  eapply QueueFacts.wp_start_agent_prompt;
    [exact Ht | cbn; rewrite Z.add_0_r; exact Hr |].
  cbn [List.length app]. rewrite Z.add_0_r. auto.
Qed.

(** X26 on the sample run: the first agent has finished its turn and is
    asked to stop. *)
Lemma stop_of_idle_agent_sample :
  fst (handle_user_command sample_env "1 stop" true true RecentLogsAppend
         idle_state) = Ok tt
  /\ tracked "t2" idle_state
       [turn_start (next_id idle_state) (ag_thread_id idle_agent)
          (build_turn_input sample_env (stop_prompt "stop") (ag_cwd idle_agent))]
       (ag_index idle_agent, ag_cwd idle_agent, ag_thread_id idle_agent, false,
        ag_queued_prompts idle_agent, ag_last_message idle_agent)
       (snd (handle_user_command sample_env "1 stop" true true
               RecentLogsAppend idle_state)).
Proof.
  refine (stop_of_idle_agent_starts_a_turn sample_env "1 stop" true
            true RecentLogsAppend idle_state "1" "stop"
            "t2" idle_agent (sample_response (next_id idle_state))
            _ _ _ _ _ _ _ _ _ _).
  - reflexivity.
  - reflexivity.
  - right. split; reflexivity.
  - reflexivity.
  - reflexivity.
  - vm_compute. reflexivity.
  - reflexivity.
  - vm_compute. reflexivity.
  - vm_compute. reflexivity.
  - reflexivity.
Defined.

Lemma resolve_known_none key s :
  resolve_agent (agents s) key = inr None ->
  resolve_known key s = (Ok None, s).
Proof.
  intros Hres. unfold resolve_known. rewrite bind_get, Hres. reflexivity.
Qed.

(** X27.  A line that is no built-in command and whose head names no
    agent only tells the operator so: nothing is sent, nothing is
    queued, and no agent changes. *)
Theorem line_for_unknown_agent_only_prints :
  forall env line has_queues has_logs out s head prompt,
    Py.nonempty (Py.strip line) = true ->
    is_builtin_command (Py.strip line) = false ->
    addressed_to (Py.strip line) head prompt ->
    resolve_agent (agents s) head = inr None ->
    handle_user_command env line has_queues has_logs out s
    = output out (unknown_agent head) s
    /\ fst (handle_user_command env line has_queues has_logs out s) = Ok tt
    /\ sent (snd (handle_user_command env line has_queues has_logs out s))
       = sent s
    /\ agents (snd (handle_user_command env line has_queues has_logs out s))
       = agents s
    /\ approval_queue
         (snd (handle_user_command env line has_queues has_logs out s))
       = approval_queue s.
Proof.
  intros env line has_queues has_logs out s head prompt Hne Hno Haddr Hres.
  assert (E : handle_user_command env line has_queues has_logs out s
              = output out (unknown_agent head) s).
  { rewrite (ApprovalFacts.dispatch_agent env line has_queues has_logs out Hne Hno).
    unfold cmd_agent.
    destruct Haddr as [[Hc (h & p & Hsp & -> & ->)] | [Hc Hsp]];
      rewrite Hc, Hsp;
      now rewrite (bind_ok _ _ _ _ _ (resolve_known_none _ s Hres)). }
  split; [exact E|]. rewrite E.
  destruct out; cbn [output].
  - unfold emit, modify. cbn [fst snd agents approval_queue set_trace].
    unfold sent. cbn [trace set_trace]. rewrite QueueFacts.sent_snoc.
    cbn [is_sent]. rewrite app_nil_r. auto.
  - unfold log_recent, modify. cbn [fst snd]. auto.
Qed.

(** X27 on the sample run, for the line [stop 1 now], the form that
    [help] shows for stopping an agent. *)
Lemma line_for_unknown_agent_sample :
  handle_user_command sample_env "stop 1 now" true true Print
    (sample_state sample_run [Tick])
  = output Print (unknown_agent "stop") (sample_state sample_run [Tick])
  /\ fst (handle_user_command sample_env "stop 1 now" true true Print
            (sample_state sample_run [Tick])) = Ok tt
  /\ sent (snd (handle_user_command sample_env "stop 1 now" true true Print
                  (sample_state sample_run [Tick])))
     = sent (sample_state sample_run [Tick])
  /\ agents (snd (handle_user_command sample_env "stop 1 now" true true Print
                    (sample_state sample_run [Tick])))
     = agents (sample_state sample_run [Tick])
  /\ approval_queue
       (snd (handle_user_command sample_env "stop 1 now" true true Print
               (sample_state sample_run [Tick])))
     = approval_queue (sample_state sample_run [Tick]).
Proof.
  refine (line_for_unknown_agent_only_prints sample_env "stop 1 now" true true
            Print (sample_state sample_run [Tick]) "stop" "1 now" _ _ _ _).
  - reflexivity.
  - reflexivity.
  - right. split; reflexivity.
  - vm_compute. reflexivity.
Defined.

End StopFacts.

(** * Summaries: what normalisation keeps *)

Module SummaryFacts.

Lemma contains_char_cons c ch rest :
  Py.contains (String c "") (String ch rest) = false ->
  Ascii.eqb ch c = false /\ Py.contains (String c "") rest = false.
Proof.
  cbn [Py.contains String.prefix]. intros H.
  apply orb_false_elim in H. destruct H as [Hp Hr]. split; [|exact Hr].
  destruct (ascii_dec c ch) as [->|Hne].
  - now destruct rest.
  - now apply Ascii.eqb_neq; intros ->.
Qed.

Lemma normalize_length_le n :
  forall text, (String.length text <= n)%nat ->
    (String.length (normalize_summary_text text) <= String.length text)%nat.
Proof.
  induction n as [|n IH]; intros text Hn.
  - destruct text; [apply Nat.le_refl | simpl in Hn; lia].
  - destruct text as [|ch rest]; [apply Nat.le_refl|].
    simpl in Hn. cbn [normalize_summary_text].
    destruct (Ascii.eqb ch "013").
    { specialize (IH rest ltac:(lia)). cbn [String.length]. lia. }
    destruct (Ascii.eqb ch "010").
    + destruct rest as [|c2 rest'].
      * apply Nat.le_refl.
      * destruct (Ascii.eqb c2 "010").
        -- specialize (IH rest' ltac:(simpl in Hn; lia)).
           cbn [String.length]. lia.
        -- specialize (IH (String c2 rest') ltac:(lia)).
           destruct (keeps_break (skip_blanks (String c2 rest')));
             cbn [String.length] in *; lia.
    + specialize (IH rest ltac:(lia)). cbn [String.length]. lia.
Qed.

(** X28.  Whatever the text, [normalize_summary_text] leaves no
    carriage return in it and never makes it longer. *)
Theorem normalized_text_has_no_cr_and_is_no_longer :
  forall text,
    Py.contains Py.cr (normalize_summary_text text) = false
    /\ (String.length (normalize_summary_text text) <= String.length text)%nat.
Proof.
  intros text. split.
  - apply NormalizeFacts.normalize_drops_cr.
  - apply (normalize_length_le (String.length text)), Nat.le_refl.
Qed.

(** X29.  A text with no carriage return and no line feed is returned
    as it is. *)
Theorem plain_text_is_left_alone :
  forall text,
    Py.contains Py.cr text = false ->
    Py.contains Py.nl text = false ->
    normalize_summary_text text = text.
Proof.
  induction text as [|ch rest IH]; intros Hcr Hnl; [reflexivity|].
  destruct (contains_char_cons _ _ _ Hcr) as [Hc Hcr'].
  destruct (contains_char_cons _ _ _ Hnl) as [Hn Hnl'].
  cbn [normalize_summary_text]. rewrite Hc, Hn. f_equal. now apply IH.
Qed.

(** X29 for a line of a summary. *)
Lemma plain_text_is_left_alone_sample :
  normalize_summary_text "Reading the build  files." = "Reading the build  files.".
Proof.
  apply (plain_text_is_left_alone "Reading the build  files."); reflexivity.
Defined.

End SummaryFacts.

(** * The scheduler's pass and the cap *)

Module PassFacts.

Import MonadFacts DictFacts SchedulerFacts.
Local Open Scope monad_scope.

(** ** Traces only grow *)

Lemma extends_refl s : extends s s.
Proof. exists []. now rewrite app_nil_r. Qed.

Lemma extends_trans s1 s2 s3 : extends s1 s2 -> extends s2 s3 -> extends s1 s3.
Proof.
  intros [l1 E1] [l2 E2]. exists (l1 ++ l2)%list. now rewrite E2, E1, app_assoc.
Qed.

Lemma turn_started_later env run s s1 s2 item :
  turn_started env run s s1 item -> extends s1 s2 ->
  turn_started env run s s2 item.
Proof.
  intros (before & id & tid & after & E) [l El].
  exists before, id, tid, (after ++ l)%list.
  rewrite El, E, <- !app_assoc. reflexivity.
Qed.

Lemma turn_started_earlier env run s s1 s2 item :
  extends s s1 -> turn_started env run s1 s2 item ->
  turn_started env run s s2 item.
Proof.
  intros [l El] (before & id & tid & after & E).
  exists (l ++ before)%list, id, tid, after.
  rewrite E, El, <- !app_assoc. reflexivity.
Qed.

(** ** Agents that are done *)

Lemma no_new_done_refl d : no_new_done d d.
Proof. intros a Hin _. exact Hin. Qed.

Lemma no_new_done_trans d1 d2 d3 :
  no_new_done d1 d2 -> no_new_done d2 d3 -> no_new_done d1 d3.
Proof. intros H12 H23 a Hin Hd. apply H12; [now apply H23 | exact Hd]. Qed.

(** Storing an agent that runs makes no agent done. *)
Lemma no_new_done_set k (a : Agent) d :
  ag_done a = false -> no_new_done d (dict_set k a d).
Proof.
  intros Ha agent Hin Hd. unfold dict_values in *.
  induction d as [|[k' v'] d IH]; cbn [dict_set map In snd] in *.
  - destruct Hin as [<-|[]]. congruence.
  - destruct (String.eqb k k'); cbn [map In snd] in Hin.
    + destruct Hin as [<-|Hin]; [congruence | now right].
    + destruct Hin as [<-|Hin]; [now left | right; now apply IH].
Qed.

(** Dependencies that are not satisfied stay so as long as no agent
    becomes done. *)
Lemma deps_loop_fewer deps di dn di' dn' :
  (forall n, existsb (Z.eqb n) di' = true -> existsb (Z.eqb n) di = true) ->
  (forall x, Py.in_strs x dn' = true -> Py.in_strs x dn = true) ->
  deps_loop deps di dn = inr false -> deps_loop deps di' dn' = inr false.
Proof.
  intros Hi Hn. induction deps as [|dep deps IH]; cbn [deps_loop];
    [discriminate|].
  destruct (Py.isdigit dep).
  - destruct (Py.int dep) as [n|]; [|discriminate].
    destruct (existsb (Z.eqb n) di') eqn:E'.
    + now rewrite (Hi n E').
    + reflexivity.
  - destruct (Py.in_strs dep dn') eqn:E'.
    + now rewrite (Hn dep E').
    + reflexivity.
Qed.

Lemma deps_stay_unsatisfied deps d d' :
  no_new_done d d' ->
  deps_satisfied deps d = inr false -> deps_satisfied deps d' = inr false.
Proof.
  intros H. unfold deps_satisfied. destruct deps as [|dep deps]; [discriminate|].
  apply deps_loop_fewer.
  - intros n Hn. apply DepsFacts.done_index in Hn.
    destruct Hn as (agent & Hin & Hd & Hidx).
    apply DepsFacts.done_index. exists agent. auto.
  - intros x Hx. apply DepsFacts.done_name in Hx.
    destruct Hx as (agent & Hin & Hd & Hname & Hne).
    apply DepsFacts.done_name. exists agent. auto.
Qed.

Lemma sorted_out_weaken (P Q P' Q' : Spec -> Prop) examined blocked :
  (forall item, P item -> P' item) -> (forall item, Q item -> Q' item) ->
  sorted_out P Q examined blocked -> sorted_out P' Q' examined blocked.
Proof.
  intros HP HQ H.
  induction H; [apply sorted_nil | apply sorted_started | apply sorted_blocked];
    auto.
Qed.

(** ** Starting an agent *)

Section Pass.

Context (env : Env) (fuel : nat) (run : Run).

Lemma keeps_queue_emit e : keeps queue_view (emit e).
Proof. apply keeps_modify. reflexivity. Qed.

Lemma keeps_queue_output out text : keeps queue_view (output out text).
Proof.
  destruct out; [apply keeps_queue_emit | apply keeps_modify; reflexivity].
Qed.

Lemma keeps_queue_wait_loop path expected deadline out :
  forall announced,
    keeps queue_view (wait_loop env fuel path expected deadline out announced).
Proof.
  induction fuel as [|n IH]; intros announced; cbn [wait_loop].
  - apply keeps_out_of_fuel.
  - apply keeps_bind.
    { destruct deadline; [|apply keeps_ret].
      apply keeps_bind; [|intros; apply keeps_ret].
      unfold time_time. apply keeps_bind; [apply keeps_get | intros ?].
      apply keeps_bind; [apply keeps_queue_emit | intros; apply keeps_ret]. }
    intros [|]; [apply keeps_raise|].
    apply keeps_bind; [apply keeps_get | intros s0].
    apply keeps_bind; [apply keeps_queue_emit | intros _].
    destruct (match readline env (List.length (trace s0)) path with
              | Some text => String.eqb (Py.strip text) expected
              | None => false
              end).
    + apply keeps_when, keeps_queue_output.
    + apply keeps_bind; [apply keeps_when, keeps_queue_output | intros _].
      apply keeps_bind; [apply keeps_queue_emit | intros _]. apply IH.
Qed.

(** The wait of a gated spec reads and sleeps, and stores nothing. *)
Lemma wp_wait item (Q : outcome unit -> State -> Prop) s :
  (forall r s1,
      agents s1 = agents s -> pending_prompts s1 = pending_prompts s ->
      extends s s1 -> Q r s1) ->
  wp (match sp_wait item with
      | Some (path, expected) =>
          wait_for_status env fuel path expected (run_deadline run)
            (frontend_output (run_frontend run))
      | None => ret tt
      end) Q s.
Proof.
  intros HQ. destruct (sp_wait item) as [[path expected]|].
  - pose proof (keeps_queue_wait_loop path expected (run_deadline run)
                  (frontend_output (run_frontend run)) false s) as K.
    pose proof (WaitFacts.wait_loop_trace env fuel path expected
                  (run_deadline run) (frontend_output (run_frontend run))
                  false s) as (added & E & _).
    unfold wp, wait_for_status. injection K as Ka Kp.
    apply HQ; [exact Ka | exact Kp | now exists added].
  - apply wp_ret. apply HQ; [reflexivity | reflexivity | apply extends_refl].
Qed.

(** A request is written to the server whether an answer comes or not. *)
Lemma wp_request_sent method params (Q : outcome Response -> State -> Prop) s :
  (forall r s1,
      agents s1 = agents s -> pending_prompts s1 = pending_prompts s ->
      trace s1
      = (trace s ++ [Sent (JDict (("id", JNum (next_id s))
                                    :: ("method", JStr method)
                                    :: with_params params))])%list ->
      Q r s1) ->
  wp (request env method params) Q s.
Proof.
  intros HQ. unfold wp, request, bind, get, modify, emit.
  cbn [fst snd]. destruct (reply env (next_id s)); apply HQ; reflexivity.
Qed.

Lemma wp_response_thread_id resp (Q : outcome string -> State -> Prop) s :
  (forall r, Q r s) -> wp (response_thread_id resp) Q s.
Proof.
  intros HQ. unfold wp, response_thread_id.
  destruct (resp_result resp) as [result|]; [|apply HQ].
  destruct (res_thread result) as [thread|]; [|apply HQ].
  destruct (th_id thread); apply HQ.
Qed.

(** [start_agent]: the trace grows, no agent becomes done, the queue is
    left alone, and if it returns a [turn/start] was sent for the spec. *)
Lemma wp_start_agent item s :
  wp (start_agent env fuel run item)
     (fun r s1 =>
        extends s s1
        /\ no_new_done (agents s) (agents s1)
        /\ pending_prompts s1 = pending_prompts s
        /\ (r = Ok tt -> turn_started env run s s1 item)) s.
Proof.
  unfold start_agent. cbv zeta.
  apply wp_bind, wp_wait. intros r0 s0 Ha0 Hp0 He0.
  assert (Hstop : forall (r : outcome unit) s1,
             r <> Ok tt -> agents s1 = agents s ->
             pending_prompts s1 = pending_prompts s -> extends s s1 ->
             extends s s1
             /\ no_new_done (agents s) (agents s1)
             /\ pending_prompts s1 = pending_prompts s
             /\ (r = Ok tt -> turn_started env run s s1 item)).
  { intros r s1 Hr Ha Hp He. split; [exact He|]. split.
    - rewrite Ha. apply no_new_done_refl.
    - split; [exact Hp | intros E; now destruct Hr]. }
  destruct r0 as [[]| |]; [|apply Hstop; auto; discriminate..].
  apply wp_bind, wp_request_sent. intros r1 s1 Ha1 Hp1 Ht1.
  assert (He1 : extends s s1).
  { apply (extends_trans _ s0); [exact He0 | eexists; exact Ht1]. }
  destruct r1 as [resp| |];
    [|apply Hstop; [discriminate | congruence | congruence | exact He1]..].
  apply wp_bind, wp_response_thread_id. intros r2.
  destruct r2 as [thread_id| |];
    [|apply Hstop; [discriminate | congruence | congruence | exact He1]..].
  apply wp_bind, wp_request_sent. intros r3 s3 Ha3 Hp3 Ht3.
  assert (Hs3 : turn_started env run s s3 item).
  { apply (turn_started_earlier env run s s1 s3 item He1).
    exists [], (next_id s1), thread_id, []. exact Ht3. }
  assert (He3 : extends s s3).
  { apply (extends_trans _ s1); [exact He1 | eexists; exact Ht3]. }
  destruct r3 as [resp'| |];
    [|apply Hstop; [discriminate | congruence | congruence | exact He3]..].
  apply wp_bind, wp_modify.
  set (s4 := set_agents _ s3).
  assert (Hd4 : no_new_done (agents s) (agents s4)).
  { unfold s4. cbn [agents set_agents]. rewrite Ha3, Ha1, Ha0.
    now apply no_new_done_set. }
  assert (H4 : forall (r : outcome unit) s5,
             agents s5 = agents s4 -> pending_prompts s5 = pending_prompts s4 ->
             extends s4 s5 ->
             extends s s5
             /\ no_new_done (agents s) (agents s5)
             /\ pending_prompts s5 = pending_prompts s
             /\ (r = Ok tt -> turn_started env run s s5 item)).
  { intros r s5 Ha5 Hp5 He5.
    assert (He4 : extends s s4) by (destruct He3 as [l E]; now exists l).
    split; [now apply (extends_trans _ s4)|]. split; [now rewrite Ha5|].
    split; [rewrite Hp5; unfold s4; cbn [pending_prompts set_agents]; congruence|].
    intros _. apply (turn_started_later env run s s4 s5 item); [|exact He5].
    destruct Hs3 as (b & id & tid & a & E). now exists b, id, tid, a. }
  destruct (run_frontend run).
  - unfold wp, emit, modify. cbn [fst snd].
    apply H4; [reflexivity | reflexivity | now eexists].
  - unfold wp, log_recent, modify. cbn [fst snd].
    apply H4; [reflexivity | reflexivity |].
    exists []. cbn [trace set_recent_logs]. now rewrite app_nil_r.
Qed.

(** One iteration: the spec is started, or set aside with its
    dependencies not satisfied. *)
Lemma wp_iteration item rest remaining started_any s :
  wp (start_ready_iteration env fuel run item rest remaining started_any)
     (fun r s1 =>
        forall x, r = Ok x ->
          pending_prompts s1 = rest
          /\ extends s s1
          /\ no_new_done (agents s) (agents s1)
          /\ ((fst x = remaining /\ turn_started env run s s1 item)
              \/ (fst x = (remaining ++ [item])%list
                  /\ deps_satisfied (sp_deps item) (agents s1) = inr false))) s.
Proof.
  unfold start_ready_iteration.
  apply wp_bind, wp_get. apply wp_bind, wp_modify.
  set (s0 := set_pending_prompts rest s).
  apply wp_bind, wp_lift; [discriminate|].
  intros [|] Hdeps.
  - apply wp_bind.
    eapply wp_weaken; [apply (wp_start_agent item s0)|].
    intros r s1 (He & Hd & Hp & Hs).
    destruct r as [[]| |]; cbn beta iota; try discriminate.
    apply wp_ret. intros x [= <-]. cbn [fst].
    split; [exact Hp|]. split; [exact He|]. split; [exact Hd|].
    left. split; [reflexivity | now apply Hs].
  - apply wp_ret. intros x [= <-]. cbn [fst].
    split; [reflexivity|]. split; [exact (extends_refl s)|].
    split; [exact (no_new_done_refl (agents s))|].
    right. split; [reflexivity | exact Hdeps].
Qed.

(** The loop, from a queue it pops in place. *)
Lemma wp_loop queue :
  forall remaining started_any s,
    pending_prompts s = queue ->
    wp (start_ready_loop env fuel run queue remaining started_any)
       (fun r s' =>
          forall x, r = Ok x ->
            extends s s'
            /\ no_new_done (agents s) (agents s')
            /\ exists examined blocked,
                 queue = (examined ++ pending_prompts s')%list
                 /\ fst x = (remaining ++ blocked)%list
                 /\ sorted_out (turn_started env run s s')
                      (fun item =>
                         deps_satisfied (sp_deps item) (agents s') = inr false)
                      examined blocked
                 /\ (pending_prompts s' <> [] ->
                     (run_max_parallel run <= running_count (agents s'))%Z)) s.
Proof.
  induction queue as [|item rest IH]; intros remaining started_any s Hp.
  - apply wp_ret. intros x [= <-]. cbn [fst].
    split; [apply extends_refl|]. split; [apply no_new_done_refl|].
    exists [], []. rewrite app_nil_r. cbn [app].
    split; [symmetry; exact Hp|]. split; [reflexivity|].
    split; [apply sorted_nil | intros H; rewrite Hp in H; now destruct H].
  - cbn [start_ready_loop]. apply wp_bind, wp_get.
    destruct (running_count (agents s) <? run_max_parallel run)%Z eqn:Hlt.
    + apply wp_bind.
      eapply wp_weaken; [apply wp_iteration|].
      intros r s1 Hit.
      destruct r as [x| |]; cbn beta iota; try discriminate.
      destruct (Hit x eq_refl) as (Hp1 & He1 & Hd1 & Hcase).
      eapply wp_weaken; [apply (IH (fst x) (snd x) s1 Hp1)|].
      intros r' s2 H y Hy.
      destruct (H y Hy) as (He2 & Hd2 & examined & blocked & Eq & Ey & Hs & Hc).
      split; [now apply (extends_trans _ s1)|].
      split; [now apply (no_new_done_trans _ (agents s1))|].
      assert (Hs' : sorted_out (turn_started env run s s2)
                      (fun item0 =>
                         deps_satisfied (sp_deps item0) (agents s2) = inr false)
                      examined blocked).
      { apply (sorted_out_weaken _ _ _ _ _ _
                 (fun i => turn_started_earlier env run s s1 s2 i He1)
                 (fun _ H0 => H0) Hs). }
      destruct Hcase as [[Ex Hst] | [Ex Hbl]].
      * exists (item :: examined), blocked.
        split; [cbn [app]; now rewrite Eq|].
        split; [now rewrite Ey, Ex|].
        split; [|exact Hc].
        apply sorted_started; [|exact Hs'].
        now apply (turn_started_later env run s s1 s2 item).
      * exists (item :: examined), (item :: blocked).
        split; [cbn [app]; now rewrite Eq|].
        split; [rewrite Ey, Ex, <- app_assoc; reflexivity|].
        split; [|exact Hc].
        apply sorted_blocked; [|exact Hs'].
        now apply (deps_stay_unsatisfied _ (agents s1)).
    + apply wp_ret. intros x [= <-]. cbn [fst].
      split; [apply extends_refl|]. split; [apply no_new_done_refl|].
      exists [], []. rewrite app_nil_r. cbn [app].
      split; [symmetry; exact Hp|]. split; [reflexivity|].
      split; [apply sorted_nil | intros _; now apply Z.ltb_ge].
Qed.

(** A whole pass. *)
Lemma start_ready_agents_outcome s b s' :
  start_ready_agents env fuel run s = (Ok b, s') -> pass_outcome env run s s'.
Proof.
  intros H.
  assert (W : wp (start_ready_agents env fuel run)
                 (fun r s' => forall b, r = Ok b -> pass_outcome env run s s') s).
  { unfold start_ready_agents. apply wp_bind, wp_get. apply wp_bind.
    eapply wp_weaken; [apply (wp_loop _ [] false s eq_refl)|].
    intros r s1 Hr. destruct r as [x| |]; cbn beta iota; try discriminate.
    apply wp_bind, wp_modify, wp_ret. intros _ _.
    destruct (Hr x eq_refl) as (He & Hd & examined & blocked & Eq & Ex & Hs & Hc).
    cbn [app] in Ex.
    exists examined, (pending_prompts s1), blocked.
    split; [exact Eq|].
    split; [unfold finish_pass; cbn [pending_prompts set_pending_prompts];
            now rewrite Ex|].
    split; [|exact Hc].
    apply (sorted_out_weaken _ _ _ _ _ _ (fun _ H0 => H0) (fun _ H0 => H0)).
    apply (sorted_out_weaken _ _ _ _ _ _
             (fun i (H0 : turn_started env run s s1 i) =>
                turn_started_later env run s s1 (finish_pass (fst x) s1) i H0
                  (extends_refl _))
             (fun _ H0 => H0) Hs). }
  exact (wp_run _ _ _ _ _ W H b eq_refl).
Qed.

End Pass.

(** C3.  As long as the operator enters no line, whatever the scheduler
    passes, the server's requests and the events (the turn completions
    in any order), the number of agents that are not done never exceeds
    [max_parallel] (it stays zero if [max_parallel] is negative): not
    between two inputs, and not inside a pass before any test of its
    loop.  The loop tests the count before each spec it pops, and once
    the cap is reached it pops and starts nothing more.  A pass that
    returns loses no spec: each spec it examined was started (a
    [turn/start] was sent for its prompt) or is set aside, its
    dependencies still not satisfied; the specs it did not examine are
    left only when the cap is reached; and the new queue is the specs
    set aside, in their order, followed by the specs not examined. *)
Theorem C3_running_agents_within_max_parallel :
  forall (env : Env) (fuel : nat) (run : Run),
    (forall args first_id p,
        reach env fuel run unattended (Idle (initial_state args first_id)) p ->
        (running_count (agents (point_state p))
         <= Z.max 0 (run_max_parallel run))%Z)
    /\ (forall p q,
          within_cap run p -> reach env fuel run unattended p q ->
          within_cap run q)
    /\ (forall inputs s s',
          all_allowed unattended inputs ->
          run_inputs env fuel run inputs s = (Ok tt, s') ->
          reach env fuel run unattended (Idle s) (Idle s'))
    /\ (forall queue remaining started_any s,
          (run_max_parallel run <= running_count (agents s))%Z ->
          start_ready_loop env fuel run queue remaining started_any s
          = (Ok (remaining, started_any), s))
    /\ (forall s b s',
          start_ready_agents env fuel run s = (Ok b, s') ->
          pass_outcome env run s s').
Proof.
  intros env fuel run. repeat apply conj.
  - intros args first_id p Hreach.
    apply (reach_within_cap env fuel run _ _ Hreach).
    apply initial_within_cap.
  - intros p q Hp Hreach. now apply (reach_within_cap env fuel run p q).
  - intros inputs s s'. apply run_inputs_reach.
  - apply loop_stops_at_cap.
  - apply start_ready_agents_outcome.
Qed.

(** C3, on two sample runs.  Three agents and a cap of two: after the
    first pass, the completion of the first agent and a second pass, no
    more than two agents run.  Two specs, the second waiting for the
    first: the first pass starts the first and keeps the second. *)
Lemma C3_sample_run_within_cap :
  all_allowed unattended sample_inputs
  /\ (running_count (agents (point_state (sample_point sample_run sample_inputs)))
      <= Z.max 0 (run_max_parallel sample_run))%Z
  /\ pass_outcome sample_env chained_run (initial_state chained_args 2)
       (snd (start_ready_agents sample_env 1 chained_run
               (initial_state chained_args 2))).
Proof.
  destruct (C3_running_agents_within_max_parallel sample_env 1 sample_run)
    as (Hcap & _ & Hreach & _).
  destruct (C3_running_agents_within_max_parallel sample_env 1 chained_run)
    as (_ & _ & _ & _ & Hpass).
  assert (Hin : all_allowed unattended sample_inputs) by (repeat constructor).
  split; [exact Hin | split].
  - refine (Hcap sample_args 2%Z (sample_point sample_run sample_inputs) _).
    unfold sample_point.
    refine (Hreach sample_inputs (initial_state sample_args 2)
              (sample_state sample_run sample_inputs) Hin _).
    vm_compute. reflexivity.
  - refine (Hpass (initial_state chained_args 2) true
              (snd (start_ready_agents sample_env 1 chained_run
                      (initial_state chained_args 2))) _).
    vm_compute. reflexivity.
Defined.

(** C3, as the specification states it, fails with an operator: a prompt
    sent to an agent that is done starts a turn at once, with no test of
    the cap.  Two agents and a cap of one: the first agent finishes, the
    second is started, one agent runs; the operator then sends [1 again],
    and two agents run. *)
Lemma C3_operator_prompt_exceeds_cap :
  run_max_parallel capped_run = 1%Z
  /\ running_count
       (agents (snd (run_inputs sample_env 1 capped_run
                       [Tick; Incoming (turn_completed "t2"); Tick]
                       (initial_state capped_args 2)))) = 1%Z
  /\ fst (run_inputs sample_env 1 capped_run capped_inputs
            (initial_state capped_args 2)) = Ok tt
  /\ running_count
       (agents (snd (run_inputs sample_env 1 capped_run capped_inputs
                       (initial_state capped_args 2)))) = 2%Z.
Proof. vm_compute. repeat split; reflexivity. Qed.

End PassFacts.
